(* ===== verification/_CoqProject ===== *)
-Q . S2P
Prelude.v
Floats.v
Config.v
Requests.v
SparseIndex.v
MemTable.v
Bloom.v
BloomSets.v
BloomFloat.v
Filter.v
Stack.v
BufferQueue.v
CacheHelper.v
Guards.v
WaitQueue.v
WaitQueueRace.v
WaitQueueStream.v
RequestBatch.v
LevelInfo.v
Init.v
Distribute.v
DistributeProofs.v
Server.v
Descent.v
Worker.v
WorkerInit.v
Network.v
CppTypes.v
Concepts.v
Program.v
StartUp.v
PageSearch.v
TestClient.v
System.v
Threads.v
Routines.v
