(* ===== verification/Prelude.v ===== *)
(** * RingDB: a verification development

    RingDB is a key-value store: an LSM tree of one level of memtables and many
    levels of SSTables, served by one network thread, one main thread and a
    number of worker threads that talk through io_uring messages.  This library
    models the data structures and the logic of these threads as executable
    definitions over explicit state and proves what they do, including where
    that is not what the program means to do.

    ** The program and its parts

    - A client's message is received by the network thread
      ([LSMTree::network_thread_routine]) into a socket buffer and entered into
      the sorted request array ([ReadWritePool]) of a batch; full batches go to
      the main thread, completed ones are answered.
    - The main thread ([LSMTree::start_ringdb]) serves writes and reads from
      the memtables ([MemTable]) found through a [SparseIndex], collects the
      reads it cannot answer in a read batch and turns full memtables into
      segments ([RequestSegment]); both go to the first level through
      [LSMTree::insert_into_wqs].
    - A level ([LevelInfo]) has a Bloom filter per table ([Filter],
      [BloomFilter]), a sparse index, a ring of spare page cache buffers per
      table ([BufferQueue]) and the tables ([SSTableInfo]); [decompose] splits a
      batch among the tables.
    - A table has a queue of batches ([RequestBatchWaitQueue]), an index of its
      cached pages ([SSTableCacheHelper]) and a stack for the walk over a read
      batch ([Stack]).  The worker threads ([LSMTree::sstable_worker_thread])
      take batches from the queues, read and write the files and hand batches
      and buffers on.
    - Structures that two threads share are protected by guards, atomic bytes
      used with compare-and-exchange.

    ** Files

    - [Prelude] (this file): outcomes of a C++ computation, machine integers,
      arrays, byte memory, the binary search loop all searches share, monadic
      folds, tactics and the hint database [ringdb].
    - [Config]: [CMakeLists.txt], [constinit_constants.hpp] and the alignment
      functions; the build-time macros are the class [Config].
    - [Requests]: [request_type.hpp], [base_request.hpp],
      [connection_request.hpp], [readwrite_pool.hpp], [connection_pool.hpp].
    - [SparseIndex], [MemTable], [BufferQueue], [WaitQueue]: the headers of the
      same names ([request_batch_wait_queue.hpp] for the last).
    - [Bloom], [BloomSets], [BloomFloat], [Filter]: [bloom_filter.hpp] and
      [filter.hpp]; the concept [FilterLike] is a class, with the laws clients
      rely on in [FilterLaws], and [Filter] is an instance of both.  Of the
      older copy of [bloom_filter.hpp] under [filter/] only the constructor
      and the check are modelled, where they differ.  [Floats]
      has the float types and conversions [BloomFloat] needs, on top of the
      Standard Library's [SpecFloat].
    - [Stack]: [stack.hpp] and [request_segment.hpp].
    - [CacheHelper]: [cache_location.hpp], [sparse_buffer_index.hpp],
      [sstable_cache_helper.hpp].
    - [Guards]: the guard protocol as an interleaving step relation.
    - [RequestBatch]: [request_batch.hpp] and [sstable_info.hpp].
    - [LevelInfo]: [level_info.hpp] and [decomposition.hpp], generic in the
      filter.
    - [Init], [StartUp], [Distribute] with [DistributeProofs], [Server],
      [Descent] with [PageSearch], [Worker], [WorkerInit], [Network]:
      [lsm_tree.hpp], that is the flags set by [initialize], the whole of
      [initialize] and the set-up of rings, files and descriptors by each
      thread, [insert_into_wqs] and [try_add_buffers_nonblockingly], the main
      thread, the reading of a table, the event loop of a worker, its start-up,
      and the event loop of the network thread.
    - [WaitQueueRace], [WaitQueueStream]: the shared operations of the wait
      queue taken apart into single accesses of a producer and a consumer, one
      call and any number of calls on each side.
    - [System]: a client batch on its way through main and network thread.
    - [Threads]: main thread, network thread and workers, each worker first in
      its start-up and then in its loop, as one transition system over the
      state they share; the completions a thread finds are arbitrary.
    - [Routines]: the thread functions as a whole, set-up and loop, and the
      server from [initialize] on.
    - [CppTypes], [Concepts], [Program]: the fragment of the C++ type system
      the concepts use (class tables, expressions, [decltype]), the concept
      headers, one boolean function each, and the class templates with the
      [typedef]s of [main.cpp] as a sequence of checked declarations.
    - [TestClient]: [test_ringdb.hpp] and the bytes of a client's message.

    ** How code becomes definitions

    An operation returns a value of type [exec]: a result ([Ret]), undefined
    behaviour with its reason ([Undef]), or "still looping" ([Spin]) when the
    bound of a loop is used up.  Integers are [Z] with the wrap-around of their
    C++ type written out ([u32], [u64], [i32]); unsigned comparisons of negative
    values are therefore those of the program.  Arrays are lists whose accesses
    [getZ] and [setZ] are out of bounds outside the list; character memory is a
    list of bytes with [load] and [store]; the socket buffers are one region, so
    that overlapping buffers share bytes.  Heap objects that are shared
    (wait-queue nodes, batches) live in finite maps from addresses, 0 being
    null.  Uninitialised memory, spurious failures of weak compare-and-exchange
    operations and everything that comes from the kernel are arguments.

    Loops that are not structural take fuel.  Where the program bounds the loop
    the fuel is fixed and shown to be enough: a binary search runs at most
    [right - left] rounds ([bsearch_fuel]), [my_log2_ceil] doubles a 32-bit
    integer (33 rounds), the walk inside a buffer doubles a 32-bit index (34
    rounds), scans and drains are bounded by the
    array they index ([absorb_rest], [send_loop], [fill_fuel]).  Loops that may
    not end in the program ([queue_batches], [give_buffers], [read_loop],
    [add_buffers_loop], the blocking loops of the guards) take their bound from
    the caller, and the theorems say for which bounds they return.

    ** What is proved

    - Refinement: the wait queue of one thread is a FIFO queue (class
      [FifoQueue]), the buffer ring is a bounded FIFO queue, the insertion into
      a request array is sorted insertion, returned buffers move between rings
      without loss, queueing a decomposition delivers each batch to its table;
      a shared queue from which at most all but one of its batches are taken,
      and that counts enough of them, is a FIFO queue for any number of pushes
      and pops under every interleaving of their accesses.
    - Equivalence: on a buffer that holds a search tree the walk finds a key
      exactly when an entry holds it.
    - Types: the declarations of [main.cpp] are accepted by the concepts exactly
      for configurations whose sizes fit; the program as a whole is rejected
      for every configuration, by a declaration in [pop_front] and a call of
      [mmap] with an argument too few.
    - Composition: what becomes of a client batch between the main thread's
      work on it and the network thread's replies; under every interleaving of
      all threads, from [initialize] on and whatever completions they find, no
      memtable entry is stored and no worker that has entered its loop reads or
      writes a file; which clients the network thread hears, what becomes of a
      start-up descriptor message the worker finds again in its loop, and of
      an answer that is found again in the next round.
    - Invariants: request arrays stay sorted and consistent, filters stay well
      formed, guards are
      never closed, the page cache index is never filled,
      memtables are never written, the bounds of a table are never learned.
    - Functional behaviour on every branch of the lookups, the memtable, the
      Bloom filter, its set operations, estimates and Jaccard index, the
      splitting of batches, start-up, the main thread, the descent, a worker's
      turn, the network thread and the test client.
    - Bounds and undefined behaviour: which calls leave an array, follow a null
      or indeterminate pointer or loop forever, and under which conditions.

    Many of the latter are theorems about defects: they state exactly what the
    code does.  The positive results about a component hold for the component
    as written, with the conditions that the callers would have to ensure.

    ** What is not modelled

    System calls and sockets; liburing and the kernel, whose queues and answers
    are arguments; memory orders (accesses are sequentially consistent; in
    [Threads] a step is one message, one round or one table's turn as a whole,
    and only [Guards], [WaitQueueRace] and [WaitQueueStream] interleave single
    accesses); the functions of [cmath] and gcem, which are parameters with the
    exact values the theorems need ([LogSpec], [ExpPowSpec]); the arrays behind
    the [data] pointers of request pools and segments as heap objects (they are
    values of the batch, and the destructor only selects one); pointers that
    are computed but not followed, such as that to the level above the first;
    the behaviour of [bloom_filter_destroy], which is ill-formed; of the C++ type
    system what no concept asks for (bodies of member functions are modelled by
    the other files, not type checked, except for the two statements above;
    [WaitQueue] reads [node2] in [pop_front] as the pointer it is meant to be);
    the reuse of a deleted object's address (each allocation in the model has a
    new one); the build scripts.

    ** Where to go on

    The second and third branch of the shared push in [WaitQueueStream], against
    a consumer that takes everything; steps of [Threads] finer than a turn. *)

From stdpp Require Export base tactics list numbers sets gmap.
From Stdlib Require Export ZArith Lia.

#[global] Open Scope Z_scope.

(** ** Outcomes of a C++ computation

    A C++ expression yields a value, runs into behaviour the standard leaves
    undefined (the reason is kept), or is still looping when the iteration
    bound of the model is used up. *)

Inductive ub : Set :=
  | OutOfBounds      (** an access outside the array it is made through *)
  | NullDeref        (** a null pointer is followed *)
  | UninitPtr        (** a pointer that was never assigned is followed *)
  | UninitRead       (** an indeterminate value decides a branch *)
  | UseAfterFree     (** a deleted node is followed *)
  | DivideByZero     (** integer division or remainder by zero *)
  | SignedOverflow   (** signed arithmetic leaves its type *)
  | BadShift         (** a shift by at least the width of its operand *)
  | BadConversion    (** a floating-point value outside the integer type it is converted to *)
  | BadRange         (** a [std::fill] range whose end lies before its begin *)
  | WrongType.       (** an object is used through a pointer to another type *)

#[global] Instance ub_eq_dec : EqDecision ub.
Proof. solve_decision. Defined.

Inductive exec (A : Type) : Type :=
  | Ret (a : A)
  | Undef (u : ub)
  | Spin.

Arguments Ret {A} a.
Arguments Undef {A} u.
Arguments Spin {A}.

#[global] Instance exec_ret : MRet exec := @Ret.

#[global] Instance exec_bind : MBind exec := λ A B f m,
  match m with
  | Ret a => f a
  | Undef u => Undef u
  | Spin => Spin
  end.

#[global] Instance exec_eq_dec `{EqDecision A} : EqDecision (exec A).
Proof. solve_decision. Defined.

Definition is_ret {A} (m : exec A) : Prop := ∃ a, m = Ret a.

(** ** Machine integers *)

Definition u32 (x : Z) : Z := x mod 2 ^ 32.
Definition u64 (x : Z) : Z := x mod 2 ^ 64.
Definition i32 (x : Z) : Z := (x + 2 ^ 31) mod 2 ^ 32 - 2 ^ 31.
Definition i64 (x : Z) : Z := (x + 2 ^ 63) mod 2 ^ 64 - 2 ^ 63.

Definition b2z (b : bool) : Z := if b then 1 else 0.

(** The value [-1] has when it is converted to [unsigned int] or [size_t]. *)
Definition u32_max : Z := 2 ^ 32 - 1.
Definition u64_max : Z := 2 ^ 64 - 1.

(** ** Arrays, byte regions, [memcmp] and [memcpy] *)

Definition lenZ {A} (l : list A) : Z := Z.of_nat (length l).

Definition getZ {A} (l : list A) (i : Z) : exec A :=
  if bool_decide (0 ≤ i) then
    match l !! Z.to_nat i with
    | Some x => Ret x
    | None => Undef OutOfBounds
    end
  else Undef OutOfBounds.

Definition setZ {A} (l : list A) (i : Z) (x : A) : exec (list A) :=
  if bool_decide (0 ≤ i < lenZ l) then Ret (<[Z.to_nat i := x]> l)
  else Undef OutOfBounds.

Abbreviation bytes := (list Z) (only parsing).

(** [n] bytes of region [m] from offset [off]. *)
Definition slice (m : bytes) (off n : Z) : bytes :=
  take (Z.to_nat n) (drop (Z.to_nat off) m).

Definition load (m : bytes) (off n : Z) : exec bytes :=
  if bool_decide (0 ≤ off ∧ 0 ≤ n ∧ off + n ≤ lenZ m) then Ret (slice m off n)
  else Undef OutOfBounds.

Definition splice (m : bytes) (off : Z) (src : bytes) : bytes :=
  take (Z.to_nat off) m ++ src ++ drop (Z.to_nat off + length src) m.

Definition store (m : bytes) (off : Z) (src : bytes) : exec bytes :=
  if bool_decide (0 ≤ off ∧ off + lenZ src ≤ lenZ m) then Ret (splice m off src)
  else Undef OutOfBounds.

(** The sign of [std::memcmp]: the callers only test it against zero. *)
Fixpoint memcmp (a b : bytes) : Z :=
  match a, b with
  | x :: a', y :: b' =>
      if x <? y then -1 else if y <? x then 1 else memcmp a' b'
  | _, _ => 0
  end.

Definition zeros (n : Z) : bytes := replicate (Z.to_nat n) 0.

Definition valid_bytes (m : bytes) : Prop := Forall (λ b, 0 ≤ b < 256) m.

(** ** The binary search loop

    Six functions of the program run the same loop,
    [while (left < right) { mid = (left + right) >> 1; if (less(mid)) left =
    mid + stride; else right = mid; }], on [unsigned int] indices.  [cur]
    follows the last [mid], which [insert_read_write] keeps in a pointer. *)
Fixpoint bsearch (less : Z → exec bool) (stride : Z) (fuel : nat)
    (left right cur : Z) : exec (Z * Z) :=
  match fuel with
  | O => Spin
  | S fuel' =>
      if left <? right then
        let mid := Z.shiftr (u32 (left + right)) 1 in
        b ← less mid;
        if b : bool then bsearch less stride fuel' (u32 (mid + stride)) right mid
        else bsearch less stride fuel' left mid mid
      else Ret (left, cur)
  end.

(** Each iteration shrinks [right - left]. *)
Definition bsearch_fuel (left right : Z) : nat := S (Z.to_nat (right - left)).

(** Monadic traversals shared by the loops of several components. *)
Fixpoint foldM {A B} (f : A → B → exec A) (l : list B) (a : A) : exec A :=
  match l with
  | [] => Ret a
  | x :: l' => a' ← f a x; foldM f l' a'
  end.

(** ** Automation *)

Create HintDb ringdb.

(** Decide the tests of the [exec] primitives with [lia]. *)
Ltac decide_tests :=
  repeat match goal with
  | |- context [bool_decide ?P] =>
      first [ rewrite (bool_decide_eq_true_2 P) by lia
            | rewrite (bool_decide_eq_false_2 P) by lia ]
  | |- context [?a <? ?b] =>
      first [ rewrite (proj2 (Z.ltb_lt a b)) by lia
            | rewrite (proj2 (Z.ltb_ge a b)) by lia ]
  | |- context [?a <=? ?b] =>
      first [ rewrite (proj2 (Z.leb_le a b)) by lia
            | rewrite (proj2 (Z.leb_gt a b)) by lia ]
  | |- context [?a =? ?b] =>
      first [ rewrite (proj2 (Z.eqb_eq a b)) by lia
            | rewrite (proj2 (Z.eqb_neq a b)) by lia ]
  end.

(** Split the outcome tests of a hypothesis [_ = Ret _]. *)
Ltac inv_exec H :=
  repeat match type of H with
  | mbind _ ?m = Ret _ =>
      let E := fresh "E" in
      destruct m eqn:E; cbn [mbind exec_bind] in H; try discriminate H
  | (if ?b then _ else _) = Ret _ =>
      let E := fresh "E" in
      destruct b eqn:E; try discriminate H
  end.

(** ** Outcomes *)

Lemma bind_Ret_inv {A B} (m : exec A) (f : A → exec B) b :
  m ≫= f = Ret b ↔ ∃ a, m = Ret a ∧ f a = Ret b.
Proof.
  split.
  - destruct m; cbn; intros H; [by eauto | done | done].
  - by intros (a & -> & H).
Qed.

Lemma bind_Ret_l {A B} (a : A) (f : A → exec B) : Ret a ≫= f = f a.
Proof. done. Qed.

(** ** Machine integers *)

Lemma u32_small x : 0 ≤ x < 2 ^ 32 → u32 x = x.
Proof. apply Z.mod_small. Qed.

Lemma u64_small x : 0 ≤ x < 2 ^ 64 → u64 x = x.
Proof. apply Z.mod_small. Qed.

Lemma u32_range x : 0 ≤ u32 x < 2 ^ 32.
Proof. apply Z.mod_pos_bound. lia. Qed.

Lemma u64_range x : 0 ≤ u64 x < 2 ^ 64.
Proof. apply Z.mod_pos_bound. lia. Qed.

Lemma i32_small x : - 2 ^ 31 ≤ x < 2 ^ 31 → i32 x = x.
Proof. intros H. unfold i32. rewrite Z.mod_small; lia. Qed.

Lemma shiftr1_div2 x : Z.shiftr x 1 = x / 2.
Proof. by rewrite Z.shiftr_div_pow2. Qed.

#[export] Hint Resolve u32_range u64_range : ringdb.

(** ** Arrays *)

Lemma lenZ_nonneg {A} (l : list A) : 0 ≤ lenZ l.
Proof. unfold lenZ. lia. Qed.

Lemma lenZ_app {A} (l k : list A) : lenZ (l ++ k) = lenZ l + lenZ k.
Proof. unfold lenZ. rewrite length_app. lia. Qed.

Lemma lenZ_cons {A} (x : A) l : lenZ (x :: l) = lenZ l + 1.
Proof. unfold lenZ. cbn [length]. lia. Qed.

Lemma lenZ_insert {A} (l : list A) i x : lenZ (<[i := x]> l) = lenZ l.
Proof. unfold lenZ. by rewrite length_insert. Qed.

Lemma lenZ_zeros n : 0 ≤ n → lenZ (zeros n) = n.
Proof. intros H. unfold lenZ, zeros. rewrite length_replicate. lia. Qed.

Lemma getZ_Ret {A} (l : list A) i x :
  getZ l i = Ret x ↔ 0 ≤ i ∧ l !! Z.to_nat i = Some x.
Proof.
  unfold getZ. case_bool_decide as Hi; [|by split; [|lia]].
  destruct (l !! Z.to_nat i); naive_solver.
Qed.

Lemma getZ_lt {A} (l : list A) i :
  0 ≤ i < lenZ l → ∃ x, getZ l i = Ret x ∧ l !! Z.to_nat i = Some x.
Proof.
  intros Hi. destruct (lookup_lt_is_Some_2 l (Z.to_nat i)) as [x Hx].
  { unfold lenZ in Hi. lia. }
  exists x. split; [|done]. apply getZ_Ret. by split; [lia|].
Qed.

Lemma getZ_out {A} (l : list A) i :
  i < 0 ∨ lenZ l ≤ i → getZ l i = Undef OutOfBounds.
Proof.
  intros Hi. unfold getZ. case_bool_decide; [|done].
  rewrite lookup_ge_None_2; [done|]. unfold lenZ in Hi. lia.
Qed.

Lemma setZ_ok {A} (l : list A) i x :
  0 ≤ i < lenZ l → setZ l i x = Ret (<[Z.to_nat i := x]> l).
Proof. intros Hi. unfold setZ. by decide_tests. Qed.

Lemma setZ_out {A} (l : list A) i x :
  i < 0 ∨ lenZ l ≤ i → setZ l i x = Undef OutOfBounds.
Proof. intros Hi. unfold setZ. by decide_tests. Qed.

Lemma setZ_Ret {A} (l : list A) i x l' :
  setZ l i x = Ret l' → 0 ≤ i < lenZ l ∧ l' = <[Z.to_nat i := x]> l.
Proof. unfold setZ. case_bool_decide; [|done]. intros [= <-]. done. Qed.

Lemma getZ_middle {A} (l1 l3 : list A) x : getZ (l1 ++ x :: l3) (lenZ l1) = Ret x.
Proof.
  apply getZ_Ret. unfold lenZ. rewrite Nat2Z.id. split; [lia|].
  by apply list_lookup_middle.
Qed.

Lemma setZ_middle {A} (l1 l3 : list A) x y :
  setZ (l1 ++ x :: l3) (lenZ l1) y = Ret (l1 ++ y :: l3).
Proof.
  rewrite setZ_ok.
  - unfold lenZ. rewrite Nat2Z.id.
    by rewrite insert_app_r_alt, Nat.sub_diag by lia.
  - rewrite lenZ_app, lenZ_cons. unfold lenZ. lia.
Qed.

(** ** Byte regions *)

Lemma lookup_slice m off n i :
  0 ≤ off → slice m off n !! i =
    if bool_decide (Z.of_nat i < n) then m !! (Z.to_nat off + i)%nat else None.
Proof.
  intros Hoff. unfold slice. case_bool_decide.
  - by rewrite lookup_take_lt, lookup_drop by lia.
  - by rewrite lookup_take_ge by lia.
Qed.

Lemma lookup_splice m off src i :
  0 ≤ off → off + lenZ src ≤ lenZ m →
  splice m off src !! i =
    if bool_decide (off ≤ Z.of_nat i < off + lenZ src)
    then src !! (i - Z.to_nat off)%nat else m !! i.
Proof.
  intros Ho Hle. unfold splice, lenZ in *.
  assert (Ht : length (take (Z.to_nat off) m) = Z.to_nat off)
    by (rewrite length_take; lia).
  case_bool_decide.
  - rewrite lookup_app_r, Ht by lia. rewrite lookup_app_l by lia. done.
  - destruct (decide (Z.of_nat i < off)).
    + rewrite lookup_app_l, lookup_take_lt by lia. done.
    + rewrite lookup_app_r, Ht by lia. rewrite lookup_app_r by lia.
      rewrite lookup_drop. f_equal. lia.
Qed.

Lemma lenZ_slice m off n :
  0 ≤ off → 0 ≤ n → off + n ≤ lenZ m → lenZ (slice m off n) = n.
Proof.
  intros. unfold lenZ, slice in *. rewrite length_take, length_drop. lia.
Qed.

Lemma lenZ_splice m off src :
  0 ≤ off → off + lenZ src ≤ lenZ m → lenZ (splice m off src) = lenZ m.
Proof.
  intros. unfold lenZ, splice in *.
  rewrite !length_app, length_take, length_drop. lia.
Qed.

Lemma load_ok m off n :
  0 ≤ off → 0 ≤ n → off + n ≤ lenZ m → load m off n = Ret (slice m off n).
Proof. intros. unfold load. by decide_tests. Qed.

Lemma load_out m off n :
  off < 0 ∨ lenZ m < off + n → load m off n = Undef OutOfBounds.
Proof. intros. unfold load. by decide_tests. Qed.

Lemma load_Ret m off n b :
  load m off n = Ret b →
  0 ≤ off ∧ 0 ≤ n ∧ off + n ≤ lenZ m ∧ b = slice m off n ∧ lenZ b = n.
Proof.
  unfold load. case_bool_decide as H; [|done]. intros [= <-].
  destruct H as (? & ? & ?). rewrite lenZ_slice by done. done.
Qed.

Lemma store_ok m off src :
  0 ≤ off → off + lenZ src ≤ lenZ m → store m off src = Ret (splice m off src).
Proof. intros. unfold store. by decide_tests. Qed.

Lemma store_out m off src :
  off < 0 ∨ lenZ m < off + lenZ src → store m off src = Undef OutOfBounds.
Proof. intros. unfold store. by decide_tests. Qed.

Lemma store_Ret m off src m' :
  store m off src = Ret m' →
  0 ≤ off ∧ off + lenZ src ≤ lenZ m ∧ m' = splice m off src ∧ lenZ m' = lenZ m.
Proof.
  unfold store. case_bool_decide as H; [|done]. intros [= <-].
  destruct H as (? & ?). rewrite lenZ_splice by done. done.
Qed.

Lemma slice_splice_same m off src n :
  0 ≤ off → off + lenZ src ≤ lenZ m → n = lenZ src →
  slice (splice m off src) off n = src.
Proof.
  intros Ho Hle ->. apply list_eq. intros i.
  rewrite lookup_slice, lookup_splice by done. pose proof (lenZ_nonneg src).
  case_bool_decide; [|symmetry; apply lookup_ge_None_2; unfold lenZ in *; lia].
  rewrite bool_decide_eq_true_2 by lia. f_equal. lia.
Qed.

Lemma slice_splice_disjoint m off src o n :
  0 ≤ off → off + lenZ src ≤ lenZ m → 0 ≤ o →
  o + n ≤ off ∨ off + lenZ src ≤ o →
  slice (splice m off src) o n = slice m o n.
Proof.
  intros Ho Hle Ho' Hd. apply list_eq. intros i.
  rewrite !lookup_slice by done. case_bool_decide; [|done].
  rewrite lookup_splice by done. rewrite bool_decide_eq_false_2 by lia. done.
Qed.

Lemma slice_full m n : n = lenZ m → slice m 0 n = m.
Proof.
  intros ->. unfold slice. rewrite drop_0. apply take_ge. unfold lenZ. lia.
Qed.

Lemma slice_zeros N off n :
  0 ≤ off → 0 ≤ n → off + n ≤ N → slice (zeros N) off n = zeros n.
Proof.
  intros. unfold slice, zeros. rewrite drop_replicate, take_replicate.
  f_equal. lia.
Qed.

(** ** The order of [memcmp] *)

Lemma memcmp_refl a : memcmp a a = 0.
Proof. induction a as [|x a IH]; cbn; [done|]. by rewrite Z.ltb_irrefl. Qed.

Lemma memcmp_0 a b : length a = length b → memcmp a b = 0 → a = b.
Proof.
  revert b. induction a as [|x a IH]; intros [|y b]; cbn; try done.
  intros [= Hl]. destruct (Z.ltb_spec x y); [done|].
  destruct (Z.ltb_spec y x); [done|]. intros H1. f_equal; [lia|eauto].
Qed.

Lemma memcmp_flip a b : memcmp b a = - memcmp a b.
Proof.
  revert b. induction a as [|x a IH]; intros [|y b]; cbn; try done.
  destruct (Z.ltb_spec x y), (Z.ltb_spec y x); try lia. apply IH.
Qed.

Lemma memcmp_range a b : -1 ≤ memcmp a b ≤ 1.
Proof.
  revert b. induction a as [|x a IH]; intros [|y b]; cbn; try lia.
  destruct (x <? y); [lia|]. destruct (y <? x); [lia|]. apply IH.
Qed.

Lemma memcmp_lt_trans a b c :
  length a = length b → length b = length c →
  memcmp a b ≤ 0 → memcmp b c < 0 → memcmp a c < 0.
Proof.
  revert b c. induction a as [|x a IH]; intros [|y b] [|z c]; cbn; try done.
  intros [= ?] [= ?]. destruct (Z.ltb_spec x y), (Z.ltb_spec y x);
    destruct (Z.ltb_spec y z), (Z.ltb_spec z y);
    destruct (Z.ltb_spec x z), (Z.ltb_spec z x); try lia; eauto.
Qed.

Lemma memcmp_le_trans a b c :
  length a = length b → length b = length c →
  memcmp a b ≤ 0 → memcmp b c ≤ 0 → memcmp a c ≤ 0.
Proof.
  intros Hab Hbc H1 H2. destruct (decide (memcmp b c = 0)) as [E|E].
  - by rewrite <- (memcmp_0 _ _ Hbc E).
  - pose proof (memcmp_lt_trans a b c Hab Hbc H1 ltac:(lia)). lia.
Qed.

(** [memcmp] as a test of equality. *)
Lemma memcmp_eqb a b : lenZ a = lenZ b → (memcmp a b =? 0) = bool_decide (a = b).
Proof.
  intros Hl. destruct (Z.eqb_spec (memcmp a b) 0) as [E|E].
  - apply memcmp_0 in E; [|unfold lenZ in Hl; lia]. by rewrite bool_decide_eq_true_2.
  - rewrite bool_decide_eq_false_2; [done|]. intros ->. by rewrite memcmp_refl in E.
Qed.

(** Nothing is below the all-zero key. *)
Lemma memcmp_zeros_r a n : valid_bytes a → 0 ≤ memcmp a (zeros n).
Proof.
  unfold zeros. generalize (Z.to_nat n) as m. intros m Ha. revert m.
  induction Ha as [|x a Hx Ha IH]; intros [|m]; cbn; try lia.
  destruct (Z.ltb_spec x 0); [lia|]. destruct (0 <? x); [lia|]. apply IH.
Qed.

Lemma valid_bytes_slice m off n : valid_bytes m → valid_bytes (slice m off n).
Proof. intros H. by apply Forall_take, Forall_drop. Qed.

Lemma valid_bytes_splice m off src :
  valid_bytes m → valid_bytes src → valid_bytes (splice m off src).
Proof.
  intros Hm Hs. unfold splice, valid_bytes.
  rewrite !Forall_app. split_and!; [by apply Forall_take|done|by apply Forall_drop].
Qed.

Lemma valid_bytes_zeros n : valid_bytes (zeros n).
Proof. unfold valid_bytes, zeros. apply Forall_replicate. lia. Qed.

#[export] Hint Resolve memcmp_refl valid_bytes_slice valid_bytes_splice
  valid_bytes_zeros : ringdb.

(** ** The binary search loop *)

Lemma bsearch_mid l r :
  0 ≤ l → l < r → r ≤ 2 ^ 31 → l ≤ Z.shiftr (u32 (l + r)) 1 < r.
Proof.
  intros. rewrite u32_small, shiftr1_div2 by lia.
  pose proof (Z.div_mod (l + r) 2 ltac:(lia)).
  pose proof (Z.mod_pos_bound (l + r) 2 ltac:(lia)). lia.
Qed.

(** One unfolding of the loop while it still runs. *)
Lemma bsearch_step less stride fuel l r c :
  l < r →
  bsearch less stride (S fuel) l r c =
    let mid := Z.shiftr (u32 (l + r)) 1 in
    b ← less mid;
    if b : bool then bsearch less stride fuel (u32 (mid + stride)) r mid
    else bsearch less stride fuel l mid mid.
Proof. intros H. cbn [bsearch]. by decide_tests. Qed.

Lemma bsearch_stop less stride fuel l r c :
  r ≤ l → bsearch less stride (S fuel) l r c = Ret (l, c).
Proof. intros H. cbn [bsearch]. by decide_tests. Qed.

(** The loop terminates: [right - left] bounds its iterations, whatever the
    predicate answers, and the position it stops at stays in reach. *)
Lemma bsearch_total less stride fuel l r c :
  0 ≤ l → r ≤ 2 ^ 31 → 1 ≤ stride ≤ 2 ^ 31 →
  (∀ i, l ≤ i < r → is_ret (less i)) →
  (Z.to_nat (r - l) < fuel)%nat →
  ∃ l' c', bsearch less stride fuel l r c = Ret (l', c') ∧
    l ≤ l' ∧ (l' = l ∨ l' < r + stride).
Proof.
  intros Hl Hr Hs Hless. revert l r c Hl Hr Hless.
  induction fuel as [|fuel IH]; intros l r c Hl Hr Hless Hf; [lia|].
  destruct (decide (l < r)) as [Hlr|]; [|rewrite bsearch_stop by lia; naive_solver].
  rewrite bsearch_step by done. pose proof (bsearch_mid l r Hl Hlr Hr) as Hmid.
  set (mid := Z.shiftr _ _) in *. cbn zeta.
  destruct (Hless mid Hmid) as [b ->]. cbn [mbind exec_bind].
  rewrite u32_small by lia. destruct b.
  - destruct (IH (mid + stride) r mid) as (l' & c' & -> & ? & ?);
      [lia..|intros; apply Hless; lia|lia|]. exists l', c'. split_and!; [done|lia..].
  - destruct (IH l mid mid) as (l' & c' & -> & ? & ?);
      [lia..|intros; apply Hless; lia|lia|]. exists l', c'. split_and!; [done|lia..].
Qed.

(** Where the loop stops, for any stride and any predicate: unless it never went
    right, the element a stride before is below the key; and it stops less than
    a stride behind an element that is not, or behind the right end. *)
Lemma bsearch_bracket (p : Z → bool) less stride fuel l r c :
  0 ≤ l → r ≤ 2 ^ 31 → 1 ≤ stride ≤ 2 ^ 31 →
  (∀ i, l ≤ i < r → less i = Ret (p i)) → (Z.to_nat (r - l) < fuel)%nat →
  ∃ l' c' h, bsearch less stride fuel l r c = Ret (l', c') ∧ l ≤ l' ∧
    (l' = l ∨ l ≤ l' - stride < r ∧ p (l' - stride) = true) ∧
    (h = r ∨ l ≤ h < r ∧ p h = false) ∧ h ≤ l' ∧ (l' = l ∨ l' < h + stride).
Proof.
  intros Hl Hr Hs Hless. revert l r c Hl Hr Hless.
  induction fuel as [|fuel IH]; intros l r c Hl Hr Hless Hf; [lia|].
  destruct (decide (l < r)) as [Hlr|].
  2:{ rewrite bsearch_stop by lia. exists l, c, r. split_and!; first [done|lia|by left]. }
  rewrite bsearch_step by done. pose proof (bsearch_mid l r Hl Hlr Hr) as Hmid.
  set (mid := Z.shiftr _ _) in *. cbn zeta. rewrite Hless by done. cbn [mbind exec_bind].
  rewrite u32_small by lia. destruct (p mid) eqn:Hp.
  - destruct (IH (mid + stride) r mid) as (l' & c' & h & -> & Hle & Hbelow & Hh & Hhl & Hnear);
      [lia..|intros; apply Hless; lia|lia|]. exists l', c', h. split_and!; [done|lia| | |done|lia].
    + right. destruct Hbelow as [->|[? ?]]; [|split; [lia|done]].
      split; [lia|]. by rewrite Z.add_simpl_r.
    + destruct Hh as [->|[? ?]]; [by left|right; split; [lia|done]].
  - destruct (IH l mid mid) as (l' & c' & h & -> & Hle & Hbelow & Hh & Hhl & Hnear);
      [lia..|intros; apply Hless; lia|lia|]. exists l', c', h. split_and!; [done|lia| | |done|lia].
    + destruct Hbelow as [->|[? ?]]; [by left|right; split; [lia|done]].
    + right. destruct Hh as [->|[? ?]]; split; (done || lia).
Qed.

(** With unit stride and a predicate that never turns back to true, the loop
    computes the partition point; when that is the right end, the last probe
    was the last element. *)
Lemma bsearch_partition (p : Z → bool) less fuel l r c :
  0 ≤ l ≤ r → r ≤ 2 ^ 31 →
  (∀ i, l ≤ i < r → less i = Ret (p i)) →
  (∀ i j, l ≤ i ≤ j → j < r → p j = true → p i = true) →
  (Z.to_nat (r - l) < fuel)%nat →
  ∃ l' c', bsearch less 1 fuel l r c = Ret (l', c') ∧ l ≤ l' ≤ r ∧
    (∀ i, l ≤ i < l' → p i = true) ∧ (∀ i, l' ≤ i < r → p i = false) ∧
    (l' = r → l < r → c' = r - 1) ∧ (l = r → c' = c).
Proof.
  intros Hl Hr. revert l r c Hl Hr.
  induction fuel as [|fuel IH]; intros l r c Hl Hr Hless Hmono Hf; [lia|].
  destruct (decide (l < r)) as [Hlr|].
  2:{ rewrite bsearch_stop by lia. exists l, c.
      split_and!; [done|lia|lia|intros; lia|intros; lia|lia|done]. }
  rewrite bsearch_step by done. pose proof (bsearch_mid l r ltac:(lia) Hlr Hr).
  set (mid := Z.shiftr _ _) in *. cbn zeta.
  rewrite Hless by lia. cbn [mbind exec_bind]. rewrite u32_small by lia.
  destruct (p mid) eqn:Hp.
  - destruct (IH (mid + 1) r mid) as (l' & c' & -> & ? & Ht & Hff & Hc & Hc0);
      [lia..|intros; apply Hless; lia| |lia|].
    { intros i j ???. apply (Hmono i j); [lia..|done]. }
    exists l', c'. split_and!; [done|lia|lia| |done| |lia].
    + intros i Hi. destruct (decide (i ≤ mid)); [|apply Ht; lia].
      apply (Hmono i mid); [lia..|done].
    + intros ??. destruct (decide (mid + 1 < r)); [apply Hc; lia|].
      rewrite Hc0 by lia. lia.
  - destruct (IH l mid mid) as (l' & c' & -> & ? & Ht & Hff & Hc & Hc0);
      [lia..|intros; apply Hless; lia| |lia|].
    { intros i j ???. apply (Hmono i j); [lia..|done]. }
    exists l', c'. split_and!; [done|lia|lia|done| |lia|lia].
    intros i Hi. destruct (decide (i < mid)); [apply Hff; lia|].
    destruct (p i) eqn:E; [|done].
    rewrite <- Hp. symmetry. apply (Hmono mid i); [lia..|done].
Qed.

Lemma foldM_app {A B} (f : A → B → exec A) l1 l2 a :
  foldM f (l1 ++ l2) a = (foldM f l1 a ≫= foldM f l2).
Proof.
  revert a. induction l1 as [|x l1 IH]; intros a; cbn; [done|].
  destruct (f a x); cbn; [apply IH|done|done].
Qed.

Lemma foldM_ext_in {A B} (f g : A → B → exec A) l a :
  (∀ a b, b ∈ l → f a b = g a b) → foldM f l a = foldM g l a.
Proof.
  revert a. induction l as [|b l IH]; intros a Hfg; cbn [foldM]; [done|].
  rewrite Hfg by left. destruct (g a b); [|done..]. cbn. apply IH. intros a' b' Hb.
  apply Hfg. by right.
Qed.

(** What every round keeps holds at the end. *)
Lemma foldM_inv {A B} (P : A → Prop) (f : A → B → exec A) l a a' :
  (∀ a b a', P a → f a b = Ret a' → P a') → P a → foldM f l a = Ret a' → P a'.
Proof.
  intros Hf. revert a. induction l as [|x l IH]; intros a Ha E; cbn [foldM] in E.
  - by injection E as <-.
  - apply bind_Ret_inv in E as (a1 & E1 & E). by eapply IH, E; eapply Hf.
Qed.

(** ** Lists without their order *)

Lemma submseteq_NoDup {A} (l k : list A) : l ⊆+ k → NoDup k → NoDup l.
Proof.
  intros (k' & ->)%submseteq_Permutation Hk. by apply NoDup_app in Hk as (? & _).
Qed.

Lemma submseteq_Forall {A} (P : A → Prop) (l k : list A) : l ⊆+ k → Forall P k → Forall P l.
Proof. intros (k' & ->)%submseteq_Permutation Hk. by apply Forall_app in Hk as [? _]. Qed.

Lemma omap_insert_submseteq {A B} (f : A → option B) i x (l : list A) :
  omap f (<[i := x]> l) ⊆+ omap f [x] ++ omap f l.
Proof.
  destruct (decide (i < length l)%nat) as [Hi|Hi].
  - destruct (lookup_lt_is_Some_2 _ _ Hi) as [y Hy].
    rewrite insert_take_drop by done.
    assert (El : omap f l = omap f (take i l) ++ omap f [y] ++ omap f (drop (S i) l)).
    { rewrite <- !omap_app. f_equal. symmetry. by apply take_drop_middle. }
    rewrite El, omap_app. change (x :: drop (S i) l) with ([x] ++ drop (S i) l).
    rewrite omap_app, !(Permutation_app_swap_app (omap f [x])).
    apply submseteq_app; [done|]. by apply submseteq_inserts_l.
  - rewrite list_insert_ge by lia. by apply submseteq_inserts_l.
Qed.

(** ** Counted loops *)

Lemma seqZ_app m n k : 0 ≤ n → 0 ≤ k → seqZ m (n + k) = seqZ m n ++ seqZ (m + n) k.
Proof.
  intros Hn Hk. apply list_eq. intros i. destruct (decide (i < Z.to_nat n)%nat).
  - rewrite lookup_app_l by (rewrite length_seqZ; lia).
    rewrite !lookup_seqZ_lt by lia. done.
  - rewrite lookup_app_r by (rewrite length_seqZ; lia). rewrite length_seqZ.
    destruct (decide (i < Z.to_nat (n + k))%nat).
    + rewrite !lookup_seqZ_lt by lia. f_equal. lia.
    + rewrite !lookup_seqZ_ge by lia. done.
Qed.

Lemma lenZ_seqZ m n : 0 ≤ n → lenZ (seqZ m n) = n.
Proof. intros Hn. unfold lenZ. rewrite length_seqZ. lia. Qed.

(** A loop that overwrites element [i] in round [i]. *)
Lemma foldM_setZ {A} (body : list A → Z → exec (list A)) (f : Z → A) n (l : list A) :
  0 ≤ n ≤ lenZ l →
  (∀ i l', 0 ≤ i < n → lenZ l' = lenZ l → body l' i = setZ l' i (f i)) →
  foldM body (seqZ 0 n) l = Ret ((f <$> seqZ 0 n) ++ drop (Z.to_nat n) l).
Proof.
  intros [Hn Hl]. revert Hl. pattern n. apply natlike_ind; [done| |done]. clear n Hn.
  intros n Hn IH Hl Hbody. rewrite <- Z.add_1_r in *.
  rewrite seqZ_app, foldM_app, IH by first [lia | intros; apply Hbody; lia || done].
  rewrite Z.add_0_l, (seqZ_cons n 1), seqZ_nil by lia. cbn [mbind exec_bind foldM].
  assert (Hd : ∃ x, drop (Z.to_nat n) l = x :: drop (Z.to_nat (n + 1)) l).
  { destruct (lookup_lt_is_Some_2 l (Z.to_nat n)) as [x Hx]; [unfold lenZ in Hl; lia|].
    exists x. rewrite (drop_S _ _ _ Hx). do 2 f_equal. lia. }
  destruct Hd as [x ->].
  assert (Hlen : lenZ (f <$> seqZ 0 n) = n)
    by (unfold lenZ; rewrite length_fmap, length_seqZ; lia).
  rewrite Hbody; [|lia|].
  - pose proof (setZ_middle (f <$> seqZ 0 n) (drop (Z.to_nat (n + 1)) l) x (f n)) as Hs.
    rewrite Hlen in Hs. rewrite Hs. cbn [mbind exec_bind].
    by rewrite fmap_app, <- app_assoc.
  - rewrite lenZ_app, Hlen, lenZ_cons. unfold lenZ in *. rewrite length_drop. lia.
Qed.

(** A loop that updates element [i] in round [i]. *)
Lemma foldM_updateZ {A} (f : A → A) n (l : list A) :
  0 ≤ n ≤ lenZ l →
  foldM (λ l i, x ← getZ l i; setZ l i (f x)) (seqZ 0 n) l =
    Ret ((f <$> take (Z.to_nat n) l) ++ drop (Z.to_nat n) l).
Proof.
  intros [Hn Hl]. revert Hl. pattern n. apply natlike_ind; [done| |done]. clear n Hn.
  intros n Hn IH Hl. rewrite <- Z.add_1_r in *.
  rewrite seqZ_app, foldM_app, IH by lia. rewrite Z.add_0_l, (seqZ_cons n 1), seqZ_nil by lia.
  cbn [mbind exec_bind foldM].
  destruct (lookup_lt_is_Some_2 l (Z.to_nat n)) as [x Hx]; [unfold lenZ in *; lia|].
  rewrite (drop_S _ _ _ Hx). set (l1 := f <$> take (Z.to_nat n) l).
  assert (El : n = lenZ l1)
    by (unfold l1, lenZ in *; rewrite length_fmap, length_take; lia).
  pose proof (getZ_middle l1 (drop (S (Z.to_nat n)) l) x) as Hg.
  pose proof (setZ_middle l1 (drop (S (Z.to_nat n)) l) x (f x)) as Hs.
  rewrite <- El in Hg, Hs. rewrite Hg. cbn [mbind exec_bind]. rewrite Hs.
  cbn [mbind exec_bind]. f_equal.
  replace (Z.to_nat (n + 1)) with (S (Z.to_nat n)) by lia.
  unfold l1. by rewrite (take_S_r _ _ _ Hx), fmap_app, <- app_assoc.
Qed.

Lemma foldM_updateZ_full {A} (f : A → A) n (l : list A) :
  n = lenZ l → foldM (λ l i, x ← getZ l i; setZ l i (f x)) (seqZ 0 n) l = Ret (f <$> l).
Proof.
  intros ->. pose proof (lenZ_nonneg l). rewrite foldM_updateZ by lia.
  by rewrite take_ge, drop_ge, app_nil_r by (unfold lenZ; lia).
Qed.

Lemma bind_no_spin {A B} (m : exec A) (f : A → exec B) :
  m ≠ Spin → (∀ a, f a ≠ Spin) → m ≫= f ≠ Spin.
Proof. destruct m; cbn; auto. Qed.

Lemma foldM_no_spin {A B} (f : A → B → exec A) l a :
  (∀ a x, f a x ≠ Spin) → foldM f l a ≠ Spin.
Proof.
  intros Hf. revert a. induction l as [|x l IH]; intros a; cbn [foldM]; [done|].
  by apply bind_no_spin.
Qed.

Lemma getZ_no_spin {A} (l : list A) i : getZ l i ≠ Spin.
Proof. unfold getZ. case_bool_decide; [|done]. by destruct (l !! _). Qed.

Lemma setZ_no_spin {A} (l : list A) i x : setZ l i x ≠ Spin.
Proof. unfold setZ. by case_bool_decide. Qed.

#[export] Hint Resolve bind_no_spin foldM_no_spin getZ_no_spin setZ_no_spin : ringdb.

(** Update of one array element in place. *)
Definition update_at {A} (l : list A) (i : Z) (g : A → exec A) : exec (list A) :=
  x ← getZ l i; y ← g x; setZ l i y.

Lemma update_at_ok {A} (l : list A) i g x y :
  0 ≤ i → l !! Z.to_nat i = Some x → g x = Ret y →
  update_at l i g = Ret (<[Z.to_nat i := y]> l).
Proof.
  intros Hi Hx Hg. unfold update_at.
  assert (H0 : getZ l i = Ret x) by (by apply getZ_Ret).
  rewrite H0. cbn [mbind exec_bind]. rewrite Hg. cbn [mbind exec_bind]. apply setZ_ok.
  apply lookup_lt_Some in Hx. unfold lenZ. lia.
Qed.

Lemma update_at_Forall {A} (P : A → Prop) (l l' : list A) i g :
  update_at l i g = Ret l' → Forall P l → (∀ x y, P x → g x = Ret y → P y) → Forall P l'.
Proof.
  intros E Hl Hg. unfold update_at in E. apply bind_Ret_inv in E as (x & Hx & E).
  apply bind_Ret_inv in E as (y & Hy & E). apply setZ_Ret in E as [_ ->].
  apply getZ_Ret in Hx as [_ Hx]. apply Forall_insert; [done|].
  eapply Hg; [|done]. by eapply Forall_lookup_1.
Qed.

Lemma getZ_insert {A} (l : list A) i x j :
  0 ≤ i < lenZ l →
  getZ (<[Z.to_nat i := x]> l) j = if decide (j = i) then Ret x else getZ l j.
Proof.
  intros Hi. case_decide as Hj; subst.
  - apply getZ_Ret. split; [lia|]. apply list_lookup_insert_eq. unfold lenZ in Hi. lia.
  - unfold getZ. case_bool_decide; [|done].
    by rewrite list_lookup_insert_ne by lia.
Qed.

(** A loop that updates each element of an index range. *)
Lemma foldM_update_range {A} (g : Z → A → exec A) (h : Z → A → A) a n (l : list A) :
  0 ≤ a → 0 ≤ n → a + n ≤ lenZ l →
  (∀ i x, a ≤ i < a + n → l !! Z.to_nat i = Some x → g i x = Ret (h i x)) →
  ∃ l', foldM (λ l i, update_at l i (g i)) (seqZ a n) l = Ret l' ∧ lenZ l' = lenZ l ∧
    ∀ i, 0 ≤ i → l' !! Z.to_nat i =
      if decide (a ≤ i < a + n) then h i <$> l !! Z.to_nat i else l !! Z.to_nat i.
Proof.
  intros Ha Hn. pattern n. apply natlike_ind; [|clear n Hn|done].
  { intros _ _. exists l. split_and!; [done..|]. intros i Hi. by rewrite decide_False by lia. }
  intros n Hn IH Hl Hg. rewrite <- Z.add_1_r in *.
  destruct IH as (l1 & E1 & Hl1 & Hlk); [lia|intros; apply Hg; lia || done|].
  rewrite seqZ_app, foldM_app, E1, (seqZ_cons (a + n) 1), seqZ_nil by lia.
  cbn [mbind exec_bind foldM].
  destruct (lookup_lt_is_Some_2 l (Z.to_nat (a + n))) as [x Hx]; [unfold lenZ in *; lia|].
  assert (Hx1 : l1 !! Z.to_nat (a + n) = Some x)
    by (rewrite Hlk by lia; by rewrite decide_False by lia).
  rewrite (update_at_ok l1 (a + n) _ x (h (a + n) x)) by (done || lia || (apply Hg; [lia|done])).
  cbn [mbind exec_bind]. eexists. split; [done|]. split; [by rewrite lenZ_insert|].
  intros i Hi. destruct (decide (i = a + n)) as [->|Hne].
  - rewrite list_lookup_insert_eq by (by apply lookup_lt_Some in Hx1).
    rewrite decide_True by lia. by rewrite Hx.
  - rewrite list_lookup_insert_ne by lia. rewrite Hlk by lia.
    destruct (decide (a ≤ i < a + n)); [rewrite decide_True by lia|rewrite decide_False by lia];
      done.
Qed.

Lemma insert_middle {A} (l1 l2 : list A) x y n :
  n = length l1 → <[n := y]> (l1 ++ x :: l2) = l1 ++ y :: l2.
Proof. intros ->. by rewrite insert_app_r_alt, Nat.sub_diag by lia. Qed.
