(* ===== verification/Floats.v ===== *)
(** * Floating point

    The Bloom filter computes sizes, rates and estimates in [float], [double]
    and [long double].  Numbers are those of the Standard Library's
    specification of IEEE 754 arithmetic, which computes, with the precision
    and exponent range of the type: 24 bits and 128 for [float], 53 and 1024
    for [double], 64 and 16384 for [long double].  This file adds the
    conversions C++ makes between them and the integers, [ceil] and [round],
    and what the Bloom filter needs to know of them.  A conversion to an integer
    type that cannot hold the truncated value is undefined. *)

From Stdlib Require Import SpecFloat.
From S2P Require Import Prelude.

(** ** Arithmetic of the types *)

Definition f32_add := SFadd 24 128.
Definition f32_sub := SFsub 24 128.
Definition f32_mul := SFmul 24 128.
Definition f32_div := SFdiv 24 128.
Definition f64_mul := SFmul 53 1024.
Definition f64_div := SFdiv 53 1024.
Definition f80_mul := SFmul 64 16384.
Definition f80_div := SFdiv 64 16384.

(** Conversion of an integer, rounding to nearest. *)
Definition f32_of_Z (z : Z) : spec_float := binary_normalize 24 128 z 0 false.
Definition f64_of_Z (z : Z) : spec_float := binary_normalize 53 1024 z 0 false.
Definition f80_of_Z (z : Z) : spec_float := binary_normalize 64 16384 z 0 false.

(** Conversion between the types. *)
Definition f_convert (prec emax : Z) (x : spec_float) : spec_float :=
  match x with
  | S754_finite s m e => binary_normalize prec emax (cond_Zopp s (Zpos m)) e s
  | _ => x
  end.

Definition to_float : spec_float → spec_float := f_convert 24 128.
Definition to_double : spec_float → spec_float := f_convert 53 1024.
Definition to_long_double : spec_float → spec_float := f_convert 64 16384.

(** A decimal literal [num / den], rounded once. *)
Definition double_literal (num den : positive) : spec_float :=
  f64_div (S754_finite false num 0) (S754_finite false den 0).

(** ** To integers *)

(** Rounding a finite number to an integer: [q] is the floor of its absolute
    value and [r] the remainder, in units of [1 / den]. *)
Definition integer_part (m : positive) (e : Z) : Z * Z * Z :=
  if 0 <=? e then (Zpos m * 2 ^ e, 0, 1)
  else (Zpos m / 2 ^ (- e), Zpos m mod 2 ^ (- e), 2 ^ (- e)).

Definition truncate (x : spec_float) : option Z :=
  match x with
  | S754_zero _ => Some 0
  | S754_finite s m e => let '(q, _, _) := integer_part m e in Some (cond_Zopp s q)
  | _ => None
  end.

Definition to_uint (width : Z) (x : spec_float) : exec Z :=
  match truncate x with
  | Some z => if (0 <=? z) && (z <? 2 ^ width) then Ret z else Undef BadConversion
  | None => Undef BadConversion
  end.

Definition to_long (x : spec_float) : exec Z :=
  match truncate x with
  | Some z => if (- 2 ^ 63 <=? z) && (z <? 2 ^ 63) then Ret z else Undef BadConversion
  | None => Undef BadConversion
  end.

(** [ceil] and [round] (half away from zero) of a number of precision [prec]. *)
Definition f_round_with (prec emax : Z) (up : bool → Z → Z → bool) (x : spec_float)
    : spec_float :=
  match x with
  | S754_finite s m e =>
      let '(q, r, den) := integer_part m e in
      let q' := if up s r den then q + 1 else q in
      binary_normalize prec emax (cond_Zopp s q') 0 s
  | _ => x
  end.

Definition ceil_up (s : bool) (r den : Z) : bool := negb s && (0 <? r).
Definition round_up (s : bool) (r den : Z) : bool := den <=? 2 * r.

Definition f64_ceil := f_round_with 53 1024 ceil_up.
Definition f64_round := f_round_with 53 1024 round_up.
Definition f80_ceil := f_round_with 64 16384 ceil_up.

Definition f32_one : spec_float := f32_of_Z 1.

(** ** Division of a number by itself *)

Lemma f32_one_value : f32_one = S754_finite false 8388608 (-23).
Proof. reflexivity. Qed.

Lemma div_eucl_exact a b q : 0 < b → a = q * b → Z.div_eucl a b = (q, 0).
Proof.
  intros Hb ->. pose proof (Z.div_mul q b ltac:(lia)) as Hq.
  pose proof (Z.mod_mul q b ltac:(lia)) as Hr. unfold Z.div, Z.modulo in *.
  destruct (Z.div_eucl (q * b) b) as [q' r]. by subst.
Qed.

Lemma f32_div_self m e : f32_div (S754_finite false m e) (S754_finite false m e) = f32_one.
Proof.
  unfold f32_div, SFdiv, SFdiv_core_binary. rewrite !Z.sub_diag.
  change (Z.min (fexp 24 128 0) 0) with (-24). change (0 - -24) with 24.
  cbn [xorb]. rewrite (div_eucl_exact _ _ (2 ^ 24)).
  2: lia. 2: { rewrite Z.shiftl_mul_pow2 by lia. lia. }
  unfold new_location. destruct (Z.even (Z.pos m)); reflexivity.
Qed.

Lemma f32_sub_self m e :
  f32_sub (S754_finite false m e) (S754_finite false m e) = S754_zero false.
Proof. unfold f32_sub, SFsub. rewrite Z.sub_diag. reflexivity. Qed.

(** ** Finite results

    A rough bound on the exponent of a rounded number is enough to know that
    it is not infinite. *)

Definition not_special (x : spec_float) : Prop :=
  match x with S754_zero _ | S754_finite _ _ _ => True | _ => False end.

Lemma Zdigits2_log2 m : 0 < m → Zdigits2 m = Z.log2 m + 1.
Proof.
  destruct m as [|p|p]; try lia. intros _. cbn [Zdigits2].
  induction p as [p IH|p IH|]; cbn [digits2_pos]; [| |done]; rewrite Pos2Z.inj_succ, IH.
  - rewrite (Pos2Z.inj_xI p), Z.log2_succ_double by lia. lia.
  - rewrite (Pos2Z.inj_xO p), Z.log2_double by lia. lia.
Qed.

Lemma Zdigits2_le m n : 0 ≤ m ≤ n → Zdigits2 m ≤ Zdigits2 n.
Proof.
  intros Hm. destruct (decide (m = 0)) as [->|].
  - destruct (decide (n = 0)) as [->|]; [done|]. rewrite (Zdigits2_log2 n) by lia.
    pose proof (Z.log2_nonneg n). cbn. lia.
  - rewrite !Zdigits2_log2 by lia. apply Z.add_le_mono_r, Z.log2_le_mono. lia.
Qed.

Lemma Zdigits2_succ m : 0 ≤ m → Zdigits2 (m + 1) ≤ Zdigits2 m + 1.
Proof.
  intros Hm. destruct (decide (m = 0)) as [->|]; [done|].
  rewrite !Zdigits2_log2 by lia. pose proof (Z.log2_succ_le m) as Hs.
  rewrite <- !Z.add_1_r in Hs. lia.
Qed.

Lemma shr_1_le r : 0 ≤ shr_m r → 0 ≤ shr_m (shr_1 r) ≤ shr_m r.
Proof.
  destruct r as [m b s]. cbn [shr_m]. destruct m as [|[p|p|]|p]; cbn [shr_1 shr_m]; lia.
Qed.

Lemma iter_shr_le p r : 0 ≤ shr_m r → 0 ≤ shr_m (SpecFloat.iter_pos shr_1 p r) ≤ shr_m r.
Proof.
  revert r. induction p as [p IH|p IH|]; intros r Hr; cbn [SpecFloat.iter_pos].
  - pose proof (shr_1_le r Hr). pose proof (IH (shr_1 r) ltac:(lia)).
    pose proof (IH (SpecFloat.iter_pos shr_1 p (shr_1 r)) ltac:(lia)). lia.
  - pose proof (IH r Hr). pose proof (IH (SpecFloat.iter_pos shr_1 p r) ltac:(lia)). lia.
  - by apply shr_1_le.
Qed.

(** Normalising shrinks the mantissa and raises the exponent to what [fexp]
    asks for. *)
Lemma shr_fexp_bounds prec emax m e l r e' :
  0 ≤ m → shr_fexp prec emax m e l = (r, e') →
  0 ≤ shr_m r ≤ m ∧ e' = Z.max e (fexp prec emax (Zdigits2 m + e)).
Proof.
  intros Hm. unfold shr_fexp, shr.
  assert (Hs : shr_m (shr_record_of_loc m l) = m) by (by destruct l as [|[]]).
  set (n := fexp prec emax (Zdigits2 m + e) - e).
  destruct n as [|p|p] eqn:En; intros [= <- <-]; rewrite ?Hs; [lia| |lia].
  pose proof (iter_shr_le p (shr_record_of_loc m l) ltac:(lia)). lia.
Qed.

Lemma round_nearest_even_le m l : 0 ≤ m → m ≤ round_nearest_even m l ≤ m + 1.
Proof. intros Hm. destruct l as [|[]]; cbn; [lia| |lia|lia]. destruct (Z.even m); lia. Qed.

Lemma binary_round_aux_finite sx m e l :
  0 ≤ m → Zdigits2 m ≤ 50 → -100 ≤ e ≤ 24 → not_special (binary_round_aux 24 128 sx m e l).
Proof.
  intros Hm Hd He. unfold binary_round_aux.
  destruct (shr_fexp 24 128 m e l) as [r e'] eqn:E1.
  apply shr_fexp_bounds in E1 as [Hr He']; [|done].
  pose proof (round_nearest_even_le (shr_m r) (loc_of_shr_record r) ltac:(lia)) as Hrn.
  destruct (shr_fexp 24 128 (round_nearest_even _ _) e' loc_Exact) as [r2 e2] eqn:E2.
  apply shr_fexp_bounds in E2 as [Hr2 He2]; [|lia].
  pose proof (Zdigits2_le (round_nearest_even (shr_m r) (loc_of_shr_record r)) (m + 1)
                ltac:(lia)) as Hd2.
  pose proof (Zdigits2_succ m Hm). unfold fexp, emin in *.
  destruct (shr_m r2) as [|p|p]; [done| |lia].
  rewrite (proj2 (Z.leb_le e2 (128 - 24))) by lia. done.
Qed.

(** ** Small integers are represented exactly *)

Lemma digits2_shift p n :
  Zpos (digits2_pos (Pos.iter xO p n)) = Zpos (digits2_pos p) + Zpos n.
Proof.
  induction n as [|n IH] using Pos.peano_ind; [cbn; lia|].
  rewrite Pos.iter_succ. cbn [digits2_pos]. lia.
Qed.

(** Rounding a mantissa of 24 digits changes nothing. *)
Lemma binary_round_aux_exact m e :
  Zdigits2 (Zpos m) = 24 → -100 ≤ e ≤ 0 →
  binary_round_aux 24 128 false (Zpos m) e loc_Exact = S754_finite false m e.
Proof.
  intros Hd He. assert (Hs : shr_fexp 24 128 (Zpos m) e loc_Exact =
    (shr_record_of_loc (Zpos m) loc_Exact, e)).
  { unfold shr_fexp. rewrite Hd. unfold fexp, emin.
    replace (Z.max (24 + e - 24) (3 - 128 - 24) - e) with 0 by lia. done. }
  unfold binary_round_aux. rewrite Hs. cbn [shr_record_of_loc shr_m loc_of_shr_record
    round_nearest_even]. rewrite Hs. cbn [shr_record_of_loc shr_m].
  by rewrite (proj2 (Z.leb_le e (128 - 24))) by lia.
Qed.

(** A positive integer below [2 ^ 24] becomes a mantissa of 24 digits. *)
Lemma f32_of_Z_small z :
  0 < z < 2 ^ 24 →
  ∃ m e, f32_of_Z z = S754_finite false m e ∧ Zdigits2 (Zpos m) = 24 ∧ -23 ≤ e ≤ 0.
Proof.
  destruct z as [|p|p]; intros Hz; try lia. unfold f32_of_Z, binary_normalize, binary_round.
  assert (Hd : 1 ≤ Zpos (digits2_pos p) ≤ 24).
  { change (Zpos (digits2_pos p)) with (Zdigits2 (Zpos p)).
    rewrite Zdigits2_log2 by lia. pose proof (Z.log2_nonneg (Zpos p)).
    pose proof (proj1 (Z.log2_lt_pow2 (Zpos p) 24 ltac:(lia))). lia. }
  unfold shl_align, fexp, emin. set (d := Zpos (digits2_pos p)) in *.
  replace (Z.max (d + 0 - 24) (3 - 128 - 24) - 0) with (d - 24) by lia.
  destruct (d - 24) as [|n|n] eqn:En; [|lia|].
  - exists p, 0. rewrite binary_round_aux_exact by (cbn [Zdigits2]; fold d; lia).
    cbn [Zdigits2]. fold d. split_and!; [done|lia|lia|lia].
  - exists (Pos.iter xO p n), (d - 24).
    replace (Z.max (d + 0 - 24) (3 - 128 - 24)) with (d - 24) by lia.
    assert (Hdn : Zdigits2 (Zpos (Pos.iter xO p n)) = 24).
    { cbn [Zdigits2]. rewrite digits2_shift. fold d. lia. }
    rewrite binary_round_aux_exact by lia. split_and!; [done|done|lia|lia].
Qed.

(** The quotient of two such integers is neither infinite nor a NaN. *)
Lemma f32_div_small a b :
  0 < a < 2 ^ 24 → 0 < b < 2 ^ 24 → not_special (f32_div (f32_of_Z a) (f32_of_Z b)).
Proof.
  intros Ha Hb. destruct (f32_of_Z_small a Ha) as (m1 & e1 & -> & Hd1 & He1).
  destruct (f32_of_Z_small b Hb) as (m2 & e2 & -> & Hd2 & He2).
  unfold f32_div, SFdiv, SFdiv_core_binary. rewrite Hd1, Hd2.
  unfold fexp, emin. replace (24 + e1 - (24 + e2)) with (e1 - e2) by lia.
  replace (Z.min (Z.max (e1 - e2 - 24) (3 - 128 - 24)) (e1 - e2)) with (e1 - e2 - 24) by lia.
  replace (e1 - e2 - (e1 - e2 - 24)) with 24 by lia.
  rewrite Z.shiftl_mul_pow2 by lia.
  destruct (Z.div_eucl (Zpos m1 * 2 ^ 24) (Zpos m2)) as [q r] eqn:E.
  pose proof (Z_div_mod (Zpos m1 * 2 ^ 24) (Zpos m2) ltac:(lia)) as H. rewrite E in H.
  assert (0 ≤ q ≤ Zpos m1 * 2 ^ 24) by nia.
  apply binary_round_aux_finite; [lia| |lia].
  transitivity (Zdigits2 (Zpos m1 * 2 ^ 24)); [apply Zdigits2_le; lia|].
  rewrite Zdigits2_log2 in * by lia. rewrite Z.log2_mul_pow2 by lia. lia.
Qed.
