(* ===== verification/Config.v ===== *)
(** * Build-time configuration and derived constants

    The macros of [CMakeLists.txt] are the fields of the class [Config]; the
    constants of [constinit_constants.hpp], the [consteval] functions they are
    computed with, the size macros at the top of [lsm_tree.hpp] and the
    alignment functions of the shared structures are definitions over it.
    [cmake_config] is the configuration the repository ships (the test and the
    production branch of [CMakeLists.txt] set the same values). *)

From S2P Require Import Prelude.

Class Config : Type := {
  MEMTABLE_SIZE_MB_BITS : Z;
  TOTAL_SSTABLE_STORAGE_SPACE_MB : Z;
  LEVEL_FACTOR : Z;
  NUM_SSTABLE_WORKER_THREADS : Z;
  KEY_LENGTH : Z;
  VALUE_LENGTH : Z;
  PAGE_SIZE : Z;
  BLOCK_SIZE : Z;
  ALIGN_NO_FALSE_SHARING : Z;
  MAX_SIMULTANEOUS_CONNECTIONS : Z;
  NUM_PROCESSORS : Z;
  TOTAL_SSTABLE_PAGE_CACHE_SIZE : Z
}.

Definition cmake_config : Config := {|
  MEMTABLE_SIZE_MB_BITS := 1;
  TOTAL_SSTABLE_STORAGE_SPACE_MB := 1000;
  LEVEL_FACTOR := 10;
  NUM_SSTABLE_WORKER_THREADS := 200;
  KEY_LENGTH := 1;
  VALUE_LENGTH := 2;
  PAGE_SIZE := 4096;
  BLOCK_SIZE := 4096;
  ALIGN_NO_FALSE_SHARING := 64;
  MAX_SIMULTANEOUS_CONNECTIONS := 100;
  NUM_PROCESSORS := 8;
  TOTAL_SSTABLE_PAGE_CACHE_SIZE := 1000
|}.

(** ** The [consteval] logarithms

    Both are instantiated with integers cast to [double] only, so their
    template argument is an integer here. *)

Fixpoint my_log2_ceil_loop (fuel : nat) (doub power exponent : Z) : exec Z :=
  match fuel with
  | O => Spin
  | S fuel' =>
      if power <? doub then
        my_log2_ceil_loop fuel' doub (u32 (Z.shiftl power 1)) (u32 (exponent + 1))
      else Ret exponent
  end.

(** [power] is a 32-bit integer, so the loop ends within 32 rounds or never. *)
Definition my_log2_ceil (doub : Z) : exec Z := my_log2_ceil_loop 33 doub 1 0.

Definition my_log2_floor (doub : Z) : exec Z :=
  exponent ← my_log2_ceil doub;
  Ret (u32 (exponent - b2z (doub <? i32 (Z.shiftl 1 exponent)))).

(** ** Alignment functions of the shared structures *)

Fixpoint pow2_loop (width : Z) (fuel : nat) (res power : Z) : exec Z :=
  match fuel with
  | O => Spin
  | S fuel' =>
      if power <? res then
        pow2_loop width fuel' res (Z.shiftl power 1 mod 2 ^ width)
      else Ret power
  end.

Section derived.
Context {cfg : Config}.

(** [align] of [buffer_queue.hpp]. *)
Definition align (length : Z) : exec Z :=
  power ← pow2_loop 64 65 (Z.lcm length ALIGN_NO_FALSE_SHARING) 1;
  Ret (u32 power).

(** [sparse_index_align] of [sparse_index.hpp]. *)
Definition sparse_index_align (old_size : Z) : exec Z :=
  power ← pow2_loop 64 65 (Z.lcm old_size ALIGN_NO_FALSE_SHARING) 1;
  Ret (u32 power).

(** [sstable_align] of [sstable_info.hpp] computes in [unsigned int]. *)
Definition sstable_align (alignment : Z) : exec Z :=
  pow2_loop 32 33 (u32 (Z.lcm alignment ALIGN_NO_FALSE_SHARING)) 1.

(** ** Sizes *)

Definition MEMTABLE_ENTRY_LENGTH : Z := KEY_LENGTH + VALUE_LENGTH.

Definition MEMTABLE_SIZE : Z := Z.shiftl 1 (MEMTABLE_SIZE_MB_BITS + 20).

Definition NUM_SSTABLES : Z :=
  TOTAL_SSTABLE_STORAGE_SPACE_MB / Z.shiftl 1 MEMTABLE_SIZE_MB_BITS.

Definition SOCKET_BUFFER_LENGTH : Z := 5 + KEY_LENGTH + VALUE_LENGTH.

Definition BATCH_NUM_REQUESTS : Z := PAGE_SIZE / SOCKET_BUFFER_LENGTH.

Definition max_sstable_height : Z := MEMTABLE_SIZE_MB_BITS * 20.

Definition stack_depth : exec Z :=
  my_log2_ceil (Z.shiftl 1 MEMTABLE_SIZE_MB_BITS * Z.shiftl 1 20
                / (KEY_LENGTH + VALUE_LENGTH)).

Definition max_buffer_set_size : Z := max_sstable_height * LEVEL_FACTOR.

Definition fair_sstable_page_cache_size : Z :=
  TOTAL_SSTABLE_PAGE_CACHE_SIZE / NUM_SSTABLES.

Definition fair_aligned_sstable_page_cache_buffer_size : Z :=
  Z.lcm (Z.lcm (fair_sstable_page_cache_size / max_sstable_height)
               (KEY_LENGTH + VALUE_LENGTH)) BLOCK_SIZE.

Definition WORKER_SSTABLE_BATCH_SIZE : Z :=
  NUM_SSTABLES / NUM_SSTABLE_WORKER_THREADS.

Definition NUM_SSTABLE_LEVELS : Z := NUM_SSTABLES / LEVEL_FACTOR.

Definition NUM_FILE_FDS : Z := 1 + NUM_SSTABLES.

Definition NUM_BATCHES : Z := MAX_SIMULTANEOUS_CONNECTIONS / PAGE_SIZE.

(** The lengths of the parts of a file name, and of the array in [main.cpp]. *)
Definition level_str_len : Z := 10.
Definition sstable_number_str_len : Z := 10.
Definition file_path_length : Z := 8 + level_str_len + 1 + sstable_number_str_len.

(** ** Rounding a file offset for direct I/O *)

Definition round_to_block_size_multiple (i : Z) : exec Z :=
  e ← my_log2_floor BLOCK_SIZE;
  let sh := u32 (e - 1) in
  if bool_decide (64 ≤ sh) then Undef BadShift
  else Ret (u64 (i - Z.land i (u64 (Z.shiftl 1 63 - Z.shiftl 1 sh)))).

End derived.

(** ** The logarithms *)

Lemma my_log2_ceil_loop_ok fuel d e :
  0 ≤ e ≤ Z.log2_up d → Z.log2_up d ≤ 31 →
  (Z.to_nat (Z.log2_up d - e) < fuel)%nat →
  my_log2_ceil_loop fuel d (2 ^ e) e = Ret (Z.log2_up d).
Proof.
  revert e. induction fuel as [|fuel IH]; intros e He Hd Hf; [lia|].
  cbn [my_log2_ceil_loop]. destruct (Z.ltb_spec (2 ^ e) d) as [Hlt|Hge].
  - assert (e < Z.log2_up d) by (apply Z.log2_up_lt_pow2; [nia|lia]).
    rewrite Z.shiftl_mul_pow2, <- Z.pow_add_r by lia.
    destruct (decide (e = 31)) as [->|]; [lia|].
    rewrite !u32_small; [apply IH; lia|lia|].
    split; [lia|]. apply Z.pow_lt_mono_r; lia.
  - f_equal. destruct (decide (d ≤ 0)) as [|Hpos].
    { rewrite (Z.log2_up_nonpos d) in * by lia. lia. }
    assert (¬ e < Z.log2_up d); [|lia].
    rewrite <- Z.log2_up_lt_pow2 by lia. lia.
Qed.

(** Once [power] has been shifted out it stays zero and never reaches
    [doub]. *)
Lemma my_log2_ceil_loop_zero fuel d e :
  0 < d → my_log2_ceil_loop fuel d 0 e = Spin.
Proof.
  intros Hd. revert e. induction fuel as [|fuel IH]; intros e; [done|].
  cbn [my_log2_ceil_loop]. decide_tests. apply IH.
Qed.

Lemma my_log2_ceil_loop_spins fuel d e e' :
  2 ^ 31 < d → 0 ≤ e ≤ 31 → my_log2_ceil_loop fuel d (2 ^ e) e' = Spin.
Proof.
  intros Hd. revert e e'. induction fuel as [|fuel IH]; intros e e' He; [done|].
  assert (2 ^ e ≤ 2 ^ 31) by (apply Z.pow_le_mono_r; lia).
  cbn [my_log2_ceil_loop]. decide_tests.
  rewrite Z.shiftl_mul_pow2, <- Z.pow_add_r by lia.
  destruct (decide (e = 31)) as [->|].
  - apply my_log2_ceil_loop_zero. lia.
  - rewrite (u32_small (2 ^ (e + 1))); [apply IH; lia|].
    split; [lia|]. apply Z.pow_lt_mono_r; lia.
Qed.

Lemma my_log2_ceil_ok d :
  d ≤ 2 ^ 31 → my_log2_ceil d = Ret (Z.log2_up d).
Proof.
  intros Hd. pose proof (Z.log2_up_nonneg d).
  assert (Z.log2_up d ≤ Z.log2_up (2 ^ 31)) by (by apply Z.log2_up_le_mono).
  rewrite Z.log2_up_pow2 in * by lia.
  unfold my_log2_ceil. change 1 with (2 ^ 0). apply my_log2_ceil_loop_ok; lia.
Qed.

Lemma log2_up_floor d :
  1 ≤ d → Z.log2 d = Z.log2_up d - b2z (d <? 2 ^ Z.log2_up d).
Proof.
  intros Hd. destruct (decide (d = 1)) as [->|]; [done|].
  pose proof (Z.log2_up_spec d ltac:(lia)) as [H1 H2].
  pose proof (Z.log2_up_pos d ltac:(lia)). unfold b2z.
  destruct (Z.ltb_spec d (2 ^ Z.log2_up d)).
  - apply Z.log2_unique; [lia|]. rewrite Z.sub_1_r, Z.succ_pred. lia.
  - replace d with (2 ^ Z.log2_up d) at 1 by lia. rewrite Z.log2_pow2; lia.
Qed.

Lemma my_log2_floor_ok d :
  1 ≤ d ≤ 2 ^ 30 → my_log2_floor d = Ret (Z.log2 d).
Proof.
  intros Hd. unfold my_log2_floor. rewrite my_log2_ceil_ok by lia.
  cbn [mbind exec_bind]. pose proof (Z.log2_up_nonneg d).
  assert (Hle : Z.log2_up d ≤ Z.log2_up (2 ^ 30)) by (apply Z.log2_up_le_mono; lia).
  rewrite Z.log2_up_pow2 in Hle by lia.
  assert (2 ^ Z.log2_up d ≤ 2 ^ 30) by (apply Z.pow_le_mono_r; lia).
  pose proof (Z.pow_pos_nonneg 2 (Z.log2_up d)).
  rewrite Z.shiftl_mul_pow2, Z.mul_1_l, i32_small by lia.
  rewrite <- log2_up_floor by lia. rewrite u32_small; [done|].
  pose proof (Z.log2_nonneg d). pose proof (Z.log2_le_mono d (2 ^ 30) ltac:(lia)).
  rewrite Z.log2_pow2 in * by lia. lia.
Qed.

(** The compile-time ceiling logarithm is right up to [2^31], where it
    terminates; above it the 32-bit [power] is shifted out and the loop never
    ends. *)
Theorem my_log2_ceil_spec (d : Z) :
  (d ≤ 2 ^ 31 → my_log2_ceil d = Ret (Z.log2_up d)) ∧
  (2 ^ 31 < d → ∀ fuel, my_log2_ceil_loop fuel d 1 0 = Spin).
Proof.
  split; [apply my_log2_ceil_ok|]. intros Hd fuel.
  apply (my_log2_ceil_loop_spins fuel d 0 0 Hd). lia.
Qed.

(** The compile-time floor logarithm is right up to [2^30]; strictly
    between [2^30] and [2^31] the signed shift [1 << 31] is negative and the
    result is one too large. *)
Theorem my_log2_floor_spec (d : Z) :
  1 ≤ d ≤ 2 ^ 31 →
  my_log2_floor d =
    Ret (if bool_decide (2 ^ 30 < d < 2 ^ 31) then Z.log2 d + 1 else Z.log2 d).
Proof.
  intros Hd. case_bool_decide as Hmid.
  - assert (Hup : Z.log2_up d = 31).
    { apply Z.log2_up_unique; cbn; lia. }
    assert (Hlo : Z.log2 d = 30) by (apply Z.log2_unique; cbn; lia).
    unfold my_log2_floor. rewrite my_log2_ceil_ok, Hup, Hlo by lia.
    cbn [mbind exec_bind]. change (i32 (Z.shiftl 1 31)) with (- 2 ^ 31).
    by decide_tests.
  - destruct (decide (d ≤ 2 ^ 30)); [by apply my_log2_floor_ok; lia|].
    by replace d with (2 ^ 31) by lia.
Qed.

Lemma my_log2_floor_spec_witness :
  my_log2_floor (2 ^ 30 + 1) = Ret 31 ∧ Z.log2 (2 ^ 30 + 1) = 30.
Proof. split; [|done]. exact (my_log2_floor_spec (2 ^ 30 + 1) ltac:(lia)). Defined.

(** ** Alignments *)

Lemma pow2_loop_ok w fuel res e :
  1 ≤ w → 0 ≤ e ≤ Z.log2_up res → Z.log2_up res < w →
  (Z.to_nat (Z.log2_up res - e) < fuel)%nat →
  pow2_loop w fuel res (2 ^ e) = Ret (2 ^ Z.log2_up res).
Proof.
  intros Hw. revert e. induction fuel as [|fuel IH]; intros e He Hr Hf; [lia|].
  cbn [pow2_loop]. destruct (Z.ltb_spec (2 ^ e) res) as [Hlt|Hge].
  - assert (e < Z.log2_up res) by (apply Z.log2_up_lt_pow2; [nia|lia]).
    rewrite Z.shiftl_mul_pow2, <- Z.pow_add_r, Z.mod_small; [apply IH; lia| |lia..].
    split; [lia|]. apply Z.pow_lt_mono_r; lia.
  - f_equal. f_equal. destruct (decide (res ≤ 0)) as [|Hpos].
    { rewrite (Z.log2_up_nonpos res) in * by lia. lia. }
    assert (¬ e < Z.log2_up res); [|lia].
    rewrite <- Z.log2_up_lt_pow2 by lia. lia.
Qed.

(** The power of two the three alignment functions agree on. *)
Definition next_pow2 (x : Z) : Z := 2 ^ Z.log2_up x.

Lemma next_pow2_bounds x : 1 ≤ x → x ≤ next_pow2 x < 2 * x.
Proof.
  intros Hx. unfold next_pow2. destruct (decide (x = 1)) as [->|]; [done|].
  pose proof (Z.log2_up_spec x ltac:(lia)) as [H1 H2].
  pose proof (Z.log2_up_pos x ltac:(lia)). split; [done|].
  replace (Z.log2_up x) with (Z.pred (Z.log2_up x) + 1) by lia.
  rewrite Z.pow_add_r by lia. lia.
Qed.

Lemma log2_up_lt_bits x n : x ≤ 2 ^ n → 0 ≤ n → Z.log2_up x ≤ n.
Proof.
  intros Hx Hn. rewrite <- (Z.log2_up_pow2 n) by done.
  by apply Z.log2_up_le_mono.
Qed.

Lemma pow2_divide a b : 0 ≤ a → 2 ^ a ≤ 2 ^ b → (2 ^ a | 2 ^ b).
Proof.
  intros Ha Hab. destruct (decide (a ≤ b)).
  - exists (2 ^ (b - a)). rewrite <- Z.pow_add_r by lia. f_equal. lia.
  - destruct (decide (0 ≤ b)).
    + pose proof (Z.pow_lt_mono_r 2 b a). lia.
    + rewrite (Z.pow_neg_r 2 b) in * by lia. pose proof (Z.pow_pos_nonneg 2 a). lia.
Qed.

Section alignment.
Context {cfg : Config}.

Lemma alignment_agree len :
  1 ≤ Z.lcm len ALIGN_NO_FALSE_SHARING ≤ 2 ^ 31 →
  let r := next_pow2 (Z.lcm len ALIGN_NO_FALSE_SHARING) in
  align len = Ret r ∧ sparse_index_align len = Ret r ∧ sstable_align len = Ret r.
Proof.
  intros Hm r. unfold align, sparse_index_align, sstable_align.
  assert (Hl : Z.log2_up (Z.lcm len ALIGN_NO_FALSE_SHARING) ≤ 31)
    by (apply log2_up_lt_bits; lia).
  pose proof (Z.log2_up_nonneg (Z.lcm len ALIGN_NO_FALSE_SHARING)).
  assert (Hr : 0 ≤ r < 2 ^ 32).
  { unfold r, next_pow2. split; [lia|]. apply Z.pow_lt_mono_r; lia. }
  change 1 with (2 ^ 0). rewrite (u32_small (Z.lcm _ _)) by lia.
  rewrite !pow2_loop_ok by lia. cbn [mbind exec_bind].
  change (2 ^ Z.log2_up _) with r. by rewrite u32_small.
Qed.

(** The alignment functions of the buffer queue, the sparse index and the
    sstable info terminate and agree; the alignment is a power of two that
    covers the least common multiple of the size and the false-sharing
    distance, is less than twice that, and is itself a multiple of the
    false-sharing distance. *)
Theorem alignment_spec (len a : Z) :
  0 ≤ a → ALIGN_NO_FALSE_SHARING = 2 ^ a → 1 ≤ len →
  Z.lcm len ALIGN_NO_FALSE_SHARING ≤ 2 ^ 31 →
  ∃ r, align len = Ret r ∧ sparse_index_align len = Ret r ∧
    sstable_align len = Ret r ∧ (∃ k, 0 ≤ k ∧ r = 2 ^ k) ∧
    Z.lcm len ALIGN_NO_FALSE_SHARING ≤ r < 2 * Z.lcm len ALIGN_NO_FALSE_SHARING ∧
    (ALIGN_NO_FALSE_SHARING | r).
Proof.
  intros Ha Hal Hlen Hm. pose proof (Z.pow_pos_nonneg 2 a).
  set (m := Z.lcm len ALIGN_NO_FALSE_SHARING) in *.
  assert (m ≠ 0) by (unfold m; rewrite Z.lcm_eq_0; lia).
  assert (1 ≤ m) by (pose proof (Z.lcm_nonneg len ALIGN_NO_FALSE_SHARING); lia).
  destruct (alignment_agree len) as (E1 & E2 & E3); [fold m; lia|].
  exists (next_pow2 m). pose proof (next_pow2_bounds m ltac:(lia)).
  split_and!; [done..| |lia|lia|].
  - exists (Z.log2_up m). split; [apply Z.log2_up_nonneg|done].
  - rewrite Hal. apply pow2_divide; [done|].
    enough (2 ^ a ≤ m) by (unfold next_pow2 in *; lia).
    apply Z.divide_pos_le; [lia|]. rewrite <- Hal. apply Z.divide_lcm_r.
Qed.

End alignment.

Lemma alignment_spec_witness :
  ∃ r, @align cmake_config 200 = Ret r ∧ r = 2048.
Proof.
  destruct (@alignment_spec cmake_config 200 6) as (r & H & _);
    [done|done|done|done|].
  exists r. split; [done|]. by vm_compute in H; injection H.
Defined.

(** ** Page cache sizes and direct I/O offsets *)

Section sizes.
Context {cfg : Config}.

(** The page cache buffer size is a multiple of the entry size and of the
    block size, as its comment asks, but it is zero exactly when an sstable's
    fair share of the page cache is below one byte per tree level. *)
Theorem page_cache_buffer_size_spec :
  1 ≤ KEY_LENGTH → 1 ≤ VALUE_LENGTH → 1 ≤ BLOCK_SIZE →
  1 ≤ max_sstable_height → 0 ≤ fair_sstable_page_cache_size →
  (KEY_LENGTH + VALUE_LENGTH | fair_aligned_sstable_page_cache_buffer_size) ∧
  (BLOCK_SIZE | fair_aligned_sstable_page_cache_buffer_size) ∧
  (fair_aligned_sstable_page_cache_buffer_size = 0 ↔
     fair_sstable_page_cache_size < max_sstable_height).
Proof.
  intros Hk Hv Hb Hh Hf. unfold fair_aligned_sstable_page_cache_buffer_size.
  split_and!.
  - etransitivity; [apply Z.divide_lcm_r|apply Z.divide_lcm_l].
  - apply Z.divide_lcm_r.
  - rewrite !Z.lcm_eq_0. split.
    + intros [[H|H]|H]; [|lia..]. rewrite Z.div_small_iff in H; lia.
    + intros H. left. left. apply Z.div_small. lia.
Qed.

Lemma land_mask i q :
  0 ≤ q ≤ 63 → Z.land i (2 ^ 63 - 2 ^ q) = i mod 2 ^ 63 - i mod 2 ^ q.
Proof.
  intros Hq.
  assert (Hm : 2 ^ 63 - 2 ^ q = Z.shiftl (Z.ones (63 - q)) q).
  { rewrite Z.shiftl_mul_pow2, Z.ones_equiv by lia.
    replace 63 with (63 - q + q) at 1 by lia. rewrite Z.pow_add_r by lia. nia. }
  assert (Hs : Z.land i (Z.shiftl (Z.ones (63 - q)) q)
               = Z.shiftl (Z.land (Z.shiftr i q) (Z.ones (63 - q))) q).
  { apply Z.bits_inj'. intros n Hn.
    rewrite Z.land_spec, !Z.shiftl_spec, Z.land_spec by done.
    destruct (Z.ltb_spec n q).
    - rewrite (Z.testbit_neg_r (Z.ones _)), (Z.testbit_neg_r (Z.shiftr _ _)) by lia.
      by rewrite andb_false_r.
    - rewrite Z.shiftr_spec by lia. by replace (n - q + q) with n by lia. }
  rewrite Hm, Hs, Z.land_ones, Z.shiftl_mul_pow2, Z.shiftr_div_pow2 by lia.
  pose proof (Z.pow_pos_nonneg 2 q). pose proof (Z.pow_pos_nonneg 2 (63 - q)).
  replace (2 ^ 63) with (2 ^ q * 2 ^ (63 - q))
    by (rewrite <- Z.pow_add_r by lia; f_equal; lia).
  rewrite Z.rem_mul_r by lia. lia.
Qed.

(** With a block size of [2^p] the rounding function returns the low
    [p - 1] bits of a file offset; its value is a multiple of the block size
    only when those bits are all zero, and then it is zero. *)
Theorem round_to_block_size_spec (p i : Z) :
  1 ≤ p ≤ 30 → BLOCK_SIZE = 2 ^ p → 0 ≤ i < 2 ^ 63 →
  round_to_block_size_multiple i = Ret (i mod 2 ^ (p - 1)) ∧
  ((BLOCK_SIZE | i mod 2 ^ (p - 1)) ↔ i mod 2 ^ (p - 1) = 0).
Proof.
  intros Hp Hb Hi. unfold round_to_block_size_multiple. rewrite Hb.
  pose proof (Z.pow_pos_nonneg 2 (p - 1)).
  assert (2 ^ (p - 1) * 2 = 2 ^ p).
  { change 2 with (2 ^ 1) at 2. rewrite <- Z.pow_add_r by lia. f_equal. lia. }
  assert (2 ^ p ≤ 2 ^ 30) by (apply Z.pow_le_mono_r; lia).
  pose proof (Z.mod_pos_bound i (2 ^ (p - 1)) ltac:(lia)).
  rewrite my_log2_floor_ok, Z.log2_pow2 by lia. cbn [mbind exec_bind].
  rewrite (u32_small (p - 1)) by lia. decide_tests.
  rewrite !Z.shiftl_mul_pow2, !Z.mul_1_l, (u64_small (2 ^ 63 - _)) by lia.
  rewrite land_mask, (Z.mod_small i (2 ^ 63)) by lia. split.
  - f_equal. rewrite u64_small; lia.
  - split; [|intros ->; apply Z.divide_0_r].
    intros Hd. destruct (decide (i mod 2 ^ (p - 1) = 0)); [done|].
    apply Z.divide_pos_le in Hd; lia.
Qed.

End sizes.

Lemma page_cache_buffer_size_witness :
  @fair_aligned_sstable_page_cache_buffer_size cmake_config = 0.
Proof.
  destruct (@page_cache_buffer_size_spec cmake_config) as (_ & _ & H);
    [done..|]. by apply H.
Defined.

Lemma round_to_block_size_witness :
  @round_to_block_size_multiple cmake_config 10000 = Ret 1808.
Proof.
  exact (proj1 (@round_to_block_size_spec cmake_config 12 10000
    ltac:(lia) eq_refl ltac:(lia))).
Defined.
