(* ===== verification/Requests.v ===== *)
(** * Requests and the pools that hold them

    [request_type.hpp], [base_request.hpp], [connection_request.hpp],
    [readwrite_pool.hpp] and [connection_pool.hpp].

    A [char*] into the socket buffers is an offset into one flat byte region,
    so that buffers that overlap share their bytes.  A [RequestBatch*] kept in
    a request is an opaque address. *)

From S2P Require Import Prelude Config.

Inductive RequestType : Set :=
  | ACCEPT | RECV | SEND | READ | WRITE | COMPACTION.

#[global] Instance RequestType_eq_dec : EqDecision RequestType.
Proof. solve_decision. Defined.

Record BaseRequest : Set := MkBaseRequest { req_type : RequestType }.

Record ConnectionRequest : Set := MkConnectionRequest {
  conn_base : BaseRequest;
  req_batch_ref : Z;
  client_sock_fd : Z;
  buffer : Z
}.

(** ** [ReadWritePool]: requests sorted by key *)

Record ReadWritePool : Set := MkReadWritePool {
  rw_data : list ConnectionRequest;
  rw_length : Z;
  num_sent : Z;
  present_in_level : bool
}.

Section pool.
Context {cfg : Config}.

(** The loop of [insert_read_write] that shifts the tail one slot right,
    carrying the displaced element in [conn_req2].  Its last assignment copies
    [conn_req2.req_batch_ref] onto itself, so the carried reference never
    changes. *)
Fixpoint shift_right (n : nat) (data : list ConnectionRequest) (i : Z)
    (conn_req2 : ConnectionRequest) : exec (list ConnectionRequest) :=
  match n with
  | O => setZ data i conn_req2
  | S n' =>
      conn_req3 ← getZ data i;
      data' ← setZ data i conn_req2;
      shift_right n' data' (i + 1)
        (MkConnectionRequest (conn_base conn_req3) (req_batch_ref conn_req2)
           (client_sock_fd conn_req3) (buffer conn_req3))
  end.

(** [memcmp(conn_req->buffer + 5, buffer + 5, KEY_LENGTH) < 0] *)
Definition request_less (mem : bytes) (data : list ConnectionRequest)
    (needle_mem : bytes) (needle : Z) (mid : Z) : exec bool :=
  conn_req ← getZ data mid;
  k ← load mem (buffer conn_req + 5) KEY_LENGTH;
  k' ← load needle_mem (needle + 5) KEY_LENGTH;
  Ret (memcmp k k' <? 0).

(** [junk] is what a default-initialised [ConnectionRequest] happens to
    hold. *)
Definition insert_read_write (mem : bytes) (junk : ConnectionRequest)
    (p : ReadWritePool) (buf fd : Z) (ty : RequestType) (ref : Z)
    : exec ReadWritePool :=
  let data :=
    if rw_length p =? 0 then replicate (Z.to_nat PAGE_SIZE) junk
    else rw_data p in
  let new := MkConnectionRequest (MkBaseRequest ty) ref fd buf in
  '(lo, cur) ← bsearch (request_less mem data mem buf) 1
                   (bsearch_fuel 0 (rw_length p)) 0 (rw_length p) 0;
  data' ← (if lo =? rw_length p
           then setZ data (cur + b2z (0 <? lo)) new
           else shift_right (Z.to_nat (rw_length p - lo)) data lo new);
  Ret (MkReadWritePool data' (u32 (rw_length p + 1)) (num_sent p)
         (present_in_level p)).

Definition find_index_starting_from (mem : bytes) (p : ReadWritePool)
    (start : Z) (needle_mem : bytes) (needle : Z) : exec Z :=
  '(lo, _) ← bsearch (request_less mem (rw_data p) needle_mem needle) 1
                 (bsearch_fuel start (rw_length p)) start (rw_length p) 0;
  if lo =? rw_length p then Ret (-1)
  else if lo =? 0 then
    first ← getZ (rw_data p) 0;
    k ← load mem (buffer first + 5) KEY_LENGTH;
    k' ← load needle_mem (needle + 5) KEY_LENGTH;
    if memcmp k k' =? 0 then Ret (i32 lo) else Ret (-1)
  else Ret (i32 lo).

Definition remove_via_index (p : ReadWritePool) (index : Z)
    : exec ReadWritePool :=
  c ← getZ (rw_data p) index;
  data' ← setZ (rw_data p) index
            (MkConnectionRequest (conn_base c) (req_batch_ref c) (-1) (buffer c));
  Ret (MkReadWritePool data' (rw_length p) (num_sent p) (present_in_level p)).

(** *** Specification vocabulary *)

(** The live prefix of the array. *)
Definition entries (p : ReadWritePool) : list ConnectionRequest :=
  take (Z.to_nat (rw_length p)) (rw_data p).

Definition entry_key (mem : bytes) (c : ConnectionRequest) : bytes :=
  slice mem (buffer c + 5) KEY_LENGTH.

(** The whole key lies inside the buffer region. *)
Definition readable (mem : bytes) (c : ConnectionRequest) : Prop :=
  0 ≤ buffer c + 5 ∧ buffer c + 5 + KEY_LENGTH ≤ lenZ mem.

Definition key_sorted (mem : bytes) (l : list ConnectionRequest) : Prop :=
  ∀ i j a b, (i ≤ j)%nat → l !! i = Some a → l !! j = Some b →
    memcmp (entry_key mem a) (entry_key mem b) ≤ 0.

Definition pool_wf (p : ReadWritePool) : Prop :=
  0 ≤ rw_length p ≤ PAGE_SIZE ∧ (0 < rw_length p → lenZ (rw_data p) = PAGE_SIZE).

Definition set_ref (ref : Z) (c : ConnectionRequest) : ConnectionRequest :=
  MkConnectionRequest (conn_base c) ref (client_sock_fd c) (buffer c).

(** Reference insertion: walk to the first entry whose key is not smaller. *)
Fixpoint sorted_insert (mem : bytes) (e : ConnectionRequest)
    (l : list ConnectionRequest) : list ConnectionRequest :=
  match l with
  | [] => [e]
  | x :: l' =>
      if memcmp (entry_key mem x) (entry_key mem e) <? 0
      then x :: sorted_insert mem e l'
      else e :: (set_ref (req_batch_ref e) <$> x :: l')
  end.

(** What a batch maintains of its pool: [ref] is the batch itself. *)
Definition pool_inv (mem : bytes) (ref : Z) (p : ReadWritePool) : Prop :=
  pool_wf p ∧ key_sorted mem (entries p) ∧ Forall (readable mem) (entries p) ∧
  Forall (λ c, req_batch_ref c = ref) (entries p).

End pool.

(** ** [ConnectionPool]: one slot and one buffer per descriptor *)

Record ConnectionPool : Set := MkConnectionPool {
  connections : list ConnectionRequest;
  buffer_pool : Z
}.

(** The constructor; [mlock] has no effect on the contents. *)
Definition new_ConnectionPool (junk : ConnectionRequest)
    (num_connections pool_start : Z) : ConnectionPool :=
  MkConnectionPool (replicate (Z.to_nat num_connections) junk) pool_start.

(** [ConnectionPool::insert]; it returns the slot it filled. *)
Definition connection_pool_insert (cp : ConnectionPool) (client_sockfd : Z)
    (ty : RequestType) : exec (ConnectionPool * ConnectionRequest) :=
  c ← getZ (connections cp) (client_sockfd - 1);
  let c' := MkConnectionRequest (MkBaseRequest ty) (req_batch_ref c)
              client_sockfd (buffer_pool cp + (client_sockfd - 1)) in
  cs ← setZ (connections cp) (client_sockfd - 1) c';
  Ret (MkConnectionPool cs (buffer_pool cp), c').

(** ** Lemmas *)

Section pool_lemmas.
Context {cfg : Config}.

Implicit Types (p : ReadWritePool) (c e : ConnectionRequest).

(** The shifting loop in closed form: the tail moves one slot right, the slot
    after it is overwritten, and every moved element carries the reference of
    the inserted one. *)
Lemma shift_right_app l1 l2 x l3 c :
  shift_right (length l2) (l1 ++ l2 ++ x :: l3) (lenZ l1) c =
    Ret (l1 ++ c :: (set_ref (req_batch_ref c) <$> l2) ++ l3).
Proof.
  revert l1 c. induction l2 as [|y l2 IH]; intros l1 c; cbn [length shift_right].
  - apply setZ_middle.
  - cbn [app]. rewrite getZ_middle. cbn [mbind exec_bind].
    rewrite setZ_middle. cbn [mbind exec_bind].
    specialize (IH (l1 ++ [c]) (set_ref (req_batch_ref c) y)).
    rewrite <- !(assoc_L (++)) in IH. cbn [app] in IH.
    rewrite lenZ_app in IH. exact IH.
Qed.

(** At the end of the array the final store falls outside it. *)
Lemma shift_right_out l1 l2 c :
  shift_right (length l2) (l1 ++ l2) (lenZ l1) c = Undef OutOfBounds.
Proof.
  revert l1 c. induction l2 as [|y l2 IH]; intros l1 c; cbn [length shift_right].
  - apply setZ_out. rewrite app_nil_r. lia.
  - rewrite getZ_middle. cbn [mbind exec_bind].
    rewrite setZ_middle. cbn [mbind exec_bind].
    specialize (IH (l1 ++ [c]) (set_ref (req_batch_ref c) y)).
    rewrite <- !(assoc_L (++)) in IH. cbn [app] in IH.
    rewrite lenZ_app in IH. exact IH.
Qed.

Lemma load_key mem c :
  0 ≤ KEY_LENGTH → readable mem c →
  load mem (buffer c + 5) KEY_LENGTH = Ret (entry_key mem c).
Proof. intros HK [? ?]. by apply load_ok. Qed.

Lemma entry_key_length mem c :
  0 ≤ KEY_LENGTH → readable mem c → length (entry_key mem c) = Z.to_nat KEY_LENGTH.
Proof.
  intros HK [? ?]. pose proof (lenZ_slice mem (buffer c + 5) KEY_LENGTH).
  unfold entry_key, lenZ in *. lia.
Qed.

Lemma entries_lookup p i c :
  entries p !! i = Some c → rw_data p !! i = Some c ∧ Z.of_nat i < rw_length p.
Proof.
  unfold entries. intros H. apply lookup_take_Some in H as [? ?]. split; [done|lia].
Qed.

Lemma entries_length p :
  pool_wf p → lenZ (entries p) = rw_length p.
Proof.
  intros [? Hw]. unfold entries, lenZ in *. rewrite length_take.
  destruct (decide (rw_length p = 0)); [lia|]. specialize (Hw ltac:(lia)). lia.
Qed.

Lemma entry_at p i :
  pool_wf p → 0 ≤ i < rw_length p → ∃ c, entries p !! Z.to_nat i = Some c.
Proof.
  intros Hw Hi. apply lookup_lt_is_Some_2.
  pose proof (entries_length p Hw). unfold lenZ in *. lia.
Qed.

(** The comparison the binary search makes at a live index. *)
Lemma request_less_ok mem p nm needle i c :
  0 ≤ KEY_LENGTH → Forall (readable mem) (entries p) →
  0 ≤ needle + 5 → needle + 5 + KEY_LENGTH ≤ lenZ nm →
  0 ≤ i → entries p !! Z.to_nat i = Some c →
  request_less mem (rw_data p) nm needle i =
    Ret (memcmp (entry_key mem c) (slice nm (needle + 5) KEY_LENGTH) <? 0).
Proof.
  intros HK Hr Hn1 Hn2 Hi Hc. unfold request_less.
  pose proof (entries_lookup p _ _ Hc) as [Hd _].
  rewrite (proj2 (getZ_Ret _ _ _) (conj Hi Hd)). cbn [mbind exec_bind].
  rewrite load_key by (done || by eapply Forall_lookup_1). cbn [mbind exec_bind].
  by rewrite load_ok.
Qed.

(** The predicate of the search over the live entries of a sorted pool. *)
Definition below (mem : bytes) (p : ReadWritePool) (key : bytes) (i : Z) : bool :=
  match entries p !! Z.to_nat i with
  | Some c => memcmp (entry_key mem c) key <? 0
  | None => false
  end.

Lemma pool_search mem p nm needle start :
  1 ≤ KEY_LENGTH → PAGE_SIZE ≤ 2 ^ 31 → pool_wf p →
  key_sorted mem (entries p) → Forall (readable mem) (entries p) →
  0 ≤ needle + 5 → needle + 5 + KEY_LENGTH ≤ lenZ nm →
  0 ≤ start ≤ rw_length p →
  ∃ lo cur, bsearch (request_less mem (rw_data p) nm needle) 1
      (bsearch_fuel start (rw_length p)) start (rw_length p) 0 = Ret (lo, cur) ∧
    start ≤ lo ≤ rw_length p ∧
    (∀ i, start ≤ i < lo → below mem p (slice nm (needle + 5) KEY_LENGTH) i = true) ∧
    (∀ i, lo ≤ i < rw_length p →
       below mem p (slice nm (needle + 5) KEY_LENGTH) i = false) ∧
    (lo = rw_length p → start < rw_length p → cur = rw_length p - 1) ∧
    (start = rw_length p → cur = 0).
Proof.
  intros HK HP Hw Hs Hr Hn1 Hn2 Hst. destruct Hw as [Hlen Hw].
  set (key := slice nm _ _).
  assert (Hkl : length key = Z.to_nat KEY_LENGTH).
  { pose proof (lenZ_slice nm (needle + 5) KEY_LENGTH). unfold key, lenZ in *. lia. }
  apply (bsearch_partition (below mem p key)); [lia|lia| | |unfold bsearch_fuel; lia].
  - intros i Hi. destruct (entry_at p i) as [c Hc]; [by split|lia|].
    unfold below. rewrite Hc. apply request_less_ok; (done || lia).
  - intros i j Hij Hj. unfold below.
    destruct (entry_at p i) as [a Ha]; [by split|lia|].
    destruct (entry_at p j) as [b Hb]; [by split|lia|].
    rewrite Ha, Hb, !Z.ltb_lt. intros Hlt.
    apply (memcmp_lt_trans _ (entry_key mem b)); [| |by eapply Hs; [|done..]; lia|done].
    + rewrite !entry_key_length by (lia || by eapply Forall_lookup_1). done.
    + rewrite entry_key_length by (lia || by eapply Forall_lookup_1). done.
Qed.

(** The reference insertion, by position. *)
Lemma sorted_insert_at mem e l pos :
  (pos ≤ length l)%nat →
  (∀ i c, (i < pos)%nat → l !! i = Some c →
     (memcmp (entry_key mem c) (entry_key mem e) <? 0) = true) →
  (∀ c, l !! pos = Some c →
     (memcmp (entry_key mem c) (entry_key mem e) <? 0) = false) →
  sorted_insert mem e l =
    take pos l ++ e :: (set_ref (req_batch_ref e) <$> drop pos l).
Proof.
  revert pos. induction l as [|x l IH]; intros [|pos] Hpos Hlt Hge; cbn in *;
    [done|lia|by rewrite (Hge x eq_refl)|].
  rewrite (Hlt 0%nat x ltac:(lia) eq_refl). f_equal. apply IH; [lia| |done].
  intros i c Hi Hc. apply (Hlt (S i)); [lia|done].
Qed.

Lemma set_ref_key mem r c : entry_key mem (set_ref r c) = entry_key mem c.
Proof. done. Qed.

Lemma set_ref_same r l :
  Forall (λ c, req_batch_ref c = r) l → set_ref r <$> l = l.
Proof.
  induction 1 as [|c l Hc _ IH]; cbn; [done|]. rewrite IH.
  destruct c; cbn in *. by subst.
Qed.

Lemma elem_sorted_insert mem e l c :
  c ∈ sorted_insert mem e l →
  c = e ∨ c ∈ l ∨ ∃ d, d ∈ l ∧ c = set_ref (req_batch_ref e) d.
Proof.
  induction l as [|x l IH]; cbn; [set_solver|].
  destruct (_ <? 0); [set_solver|]. rewrite elem_of_cons, <- fmap_cons.
  rewrite list_elem_of_fmap. naive_solver.
Qed.

Lemma Forall_sorted_insert (P : ConnectionRequest → Prop) mem e l :
  (∀ c, P c → P (set_ref (req_batch_ref e) c)) →
  P e → Forall P l → Forall P (sorted_insert mem e l).
Proof.
  intros Hset He. rewrite !Forall_forall. intros Hl c Hc.
  apply elem_sorted_insert in Hc as [->|[Hc|(d & Hd & ->)]]; auto.
Qed.

Lemma sorted_insert_perm mem e l :
  Forall (λ c, req_batch_ref c = req_batch_ref e) l →
  sorted_insert mem e l ≡ₚ e :: l.
Proof.
  induction 1 as [|x l Hx Hl IH]; cbn; [done|]. destruct (_ <? 0).
  - rewrite IH. apply Permutation_swap.
  - rewrite <- fmap_cons, set_ref_same by (by constructor). done.
Qed.

End pool_lemmas.

Section pool_theorems.
Context {cfg : Config}.
Context (mem : bytes) (junk : ConnectionRequest).
Context (HK : 1 ≤ KEY_LENGTH) (HP : 1 ≤ PAGE_SIZE < 2 ^ 31).

Implicit Types (p : ReadWritePool) (c e : ConnectionRequest).

(** The pool after the allocation at the head of [insert_read_write]. *)
Definition allocated (p : ReadWritePool) : ReadWritePool :=
  MkReadWritePool
    (if rw_length p =? 0 then replicate (Z.to_nat PAGE_SIZE) junk else rw_data p)
    (rw_length p) (num_sent p) (present_in_level p).

Lemma allocated_data p : pool_wf p → lenZ (rw_data (allocated p)) = PAGE_SIZE.
Proof.
  intros [? Hw]. cbn. destruct (Z.eqb_spec (rw_length p) 0).
  - unfold lenZ. rewrite length_replicate. lia.
  - apply Hw. lia.
Qed.

Lemma allocated_entries p : entries (allocated p) = entries p.
Proof.
  unfold entries. cbn. destruct (Z.eqb_spec (rw_length p) 0) as [->|]; done.
Qed.

Lemma allocated_wf p : pool_wf p → pool_wf (allocated p).
Proof. intros Hw. split; [apply Hw|]. intros _. by apply allocated_data. Qed.

(** Where the insertion goes, and that both branches of the code are the
    shifting loop. *)
Lemma insert_read_write_shift p buf fd ty ref :
  let e := MkConnectionRequest (MkBaseRequest ty) ref fd buf in
  pool_wf p → key_sorted mem (entries p) →
  Forall (readable mem) (entries p) → readable mem e →
  ∃ l1 l2, entries p = l1 ++ l2 ∧ sorted_insert mem e (entries p) =
      l1 ++ e :: (set_ref ref <$> l2) ∧
    insert_read_write mem junk p buf fd ty ref =
      (data' ← shift_right (length l2) (rw_data (allocated p)) (lenZ l1) e;
       Ret (MkReadWritePool data' (u32 (rw_length p + 1)) (num_sent p)
              (present_in_level p))).
Proof.
  intros e Hw Hs Hr [He1 He2]. unfold insert_read_write. fold e.
  pose proof (pool_search mem (allocated p) mem buf 0) as Hsearch.
  rewrite allocated_entries in Hsearch.
  destruct Hsearch as (lo & cur & Hb & Hlo & Hlt & Hge & Hc & Hc0);
    [done|lia|by apply allocated_wf|done..|destruct Hw; cbn; lia|].
  cbn [allocated rw_data rw_length] in Hb, Hlo, Hlt, Hge, Hc, Hc0 |- *.
  unfold bsearch_fuel in *. rewrite Hb. cbn [mbind exec_bind].
  unfold below in Hlt, Hge. rewrite allocated_entries in Hlt, Hge.
  pose proof (entries_length p Hw) as Hlen.
  exists (take (Z.to_nat lo) (entries p)), (drop (Z.to_nat lo) (entries p)).
  split; [by rewrite take_drop|]. split.
  - apply sorted_insert_at; [unfold lenZ in *; lia| |].
    + intros i c Hi Hci. specialize (Hlt (Z.of_nat i) ltac:(lia)).
      rewrite Nat2Z.id, Hci in Hlt. exact Hlt.
    + intros c Hci. specialize (Hge lo). rewrite Hci in Hge. apply Hge.
      apply lookup_lt_Some in Hci. unfold lenZ in *. lia.
  - replace (length (drop (Z.to_nat lo) (entries p)))
      with (Z.to_nat (rw_length p - lo))
      by (rewrite length_drop; unfold lenZ in *; lia).
    replace (lenZ (take (Z.to_nat lo) (entries p))) with lo
      by (unfold lenZ in *; rewrite length_take; lia).
    destruct (Z.eqb_spec lo (rw_length p)) as [E|]; [|done].
    replace (rw_length p - lo) with 0 by lia. cbn [Z.to_nat shift_right].
    replace (cur + b2z (0 <? lo)) with lo; [done|].
    unfold b2z. destruct (Z.ltb_spec 0 lo); lia.
Qed.

(** The array splits into the live entries and at least one free slot. *)
Lemma allocated_split p :
  pool_wf p → rw_length p < PAGE_SIZE →
  ∃ x l3, rw_data (allocated p) = entries p ++ x :: l3 ∧
    lenZ l3 = PAGE_SIZE - rw_length p - 1.
Proof.
  intros Hw Hlt. pose proof (allocated_data p Hw) as HD.
  pose proof (allocated_entries p) as HE. unfold entries in HE at 1.
  pose proof (take_drop (Z.to_nat (rw_length p)) (rw_data (allocated p))) as HT.
  change (rw_length (allocated p)) with (rw_length p) in HE.
  rewrite HE in HT. pose proof (entries_length p Hw). destruct Hw as [? _].
  destruct (drop (Z.to_nat (rw_length p)) (rw_data (allocated p))) as [|x l3];
    rewrite <- HT in HD; rewrite lenZ_app in HD; [unfold lenZ in *; cbn in HD; lia|].
  rewrite lenZ_cons in HD. exists x, l3. split; [done|lia].
Qed.

Lemma insert_read_write_ok p buf fd ty ref :
  let e := MkConnectionRequest (MkBaseRequest ty) ref fd buf in
  pool_wf p → key_sorted mem (entries p) →
  Forall (readable mem) (entries p) → readable mem e →
  rw_length p < PAGE_SIZE →
  ∃ p', insert_read_write mem junk p buf fd ty ref = Ret p' ∧
    pool_wf p' ∧ rw_length p' = rw_length p + 1 ∧
    entries p' = sorted_insert mem e (entries p) ∧
    num_sent p' = num_sent p ∧ present_in_level p' = present_in_level p.
Proof.
  intros e Hw Hs Hr He Hlt. subst e.
  destruct (insert_read_write_shift p buf fd ty ref Hw Hs Hr He)
    as (l1 & l2 & HE & HI & ->).
  destruct (allocated_split p Hw Hlt) as (x & l3 & HD & Hl3).
  rewrite HD, HE, <- (assoc_L (++)), shift_right_app. cbn [mbind exec_bind].
  pose proof (entries_length p Hw) as Hlen. destruct Hw as [Hn Hw].
  rewrite HE, lenZ_app in Hlen.
  eexists. split; [done|]. unfold pool_wf, entries. cbn.
  rewrite u32_small by lia. split_and!; [lia|lia| |lia| |done|done].
  - intros _. rewrite lenZ_app, lenZ_cons, lenZ_app. unfold lenZ in *.
    rewrite length_fmap. lia.
  - rewrite <- HE, HI.
    rewrite (cons_middle _ l1), (assoc_L (++)), (assoc_L (++)).
    rewrite take_app_length'; [by rewrite <- (assoc_L (++))|].
    rewrite !length_app, length_fmap. cbn. unfold lenZ in *. lia.
Qed.

Lemma key_sorted_cons x l :
  key_sorted mem (x :: l) ↔
  Forall (λ y, memcmp (entry_key mem x) (entry_key mem y) ≤ 0) l ∧
  key_sorted mem l.
Proof.
  split.
  - intros H. split.
    + apply Forall_lookup. intros i y Hy. by apply (H 0%nat (S i)); [lia|..].
    + intros i j a b ???. by apply (H (S i) (S j)); [lia|..].
  - intros [Hx Hl] [|i] [|j] a b ? Ha Hb; cbn in *; simplify_eq; try lia.
    + by rewrite memcmp_refl.
    + by eapply Forall_lookup_1 in Hx.
    + by eapply (Hl i j); [lia|..].
Qed.

Lemma key_sorted_set_ref r l :
  key_sorted mem l → key_sorted mem (set_ref r <$> l).
Proof.
  intros H i j a b Hij Ha Hb. rewrite list_lookup_fmap in Ha, Hb.
  apply fmap_Some in Ha as (a' & Ha & ->). apply fmap_Some in Hb as (b' & Hb & ->).
  rewrite !set_ref_key. by apply (H i j).
Qed.

Lemma sorted_insert_sorted e l :
  readable mem e → Forall (readable mem) l →
  key_sorted mem l → key_sorted mem (sorted_insert mem e l).
Proof.
  intros He. induction l as [|x l IH]; intros Hr Hs; cbn [sorted_insert].
  { by apply key_sorted_cons. }
  apply Forall_cons in Hr as [Hrx Hr]. apply key_sorted_cons in Hs as [Hx Hs].
  destruct (Z.ltb_spec (memcmp (entry_key mem x) (entry_key mem e)) 0).
  - apply key_sorted_cons. split; [|auto].
    apply Forall_sorted_insert; [done|lia|done].
  - assert (memcmp (entry_key mem e) (entry_key mem x) ≤ 0)
      by (rewrite memcmp_flip; lia).
    apply key_sorted_cons. split.
    + apply Forall_fmap, Forall_cons. split; [done|].
      eapply Forall_impl; [apply Forall_and; split; [exact Hx|exact Hr]|].
      intros y [Hxy Hy]. cbn. rewrite set_ref_key.
      eapply memcmp_le_trans; [..|done|done];
        by rewrite !entry_key_length by (done || lia).
    + by apply key_sorted_set_ref, key_sorted_cons.
Qed.

(** C3: On a sorted pool with a free slot the binary-search insertion returns,
    and the array then holds what the reference insertion builds: the new
    request before the first one whose key is not smaller. *)
Theorem insert_read_write_refines p buf fd ty ref :
  let e := MkConnectionRequest (MkBaseRequest ty) ref fd buf in
  pool_wf p → key_sorted mem (entries p) →
  Forall (readable mem) (entries p) → readable mem e →
  rw_length p < PAGE_SIZE →
  ∃ p', insert_read_write mem junk p buf fd ty ref = Ret p' ∧
    pool_wf p' ∧ rw_length p' = rw_length p + 1 ∧
    entries p' = sorted_insert mem e (entries p) ∧
    num_sent p' = num_sent p ∧ present_in_level p' = present_in_level p.
Proof. exact (insert_read_write_ok p buf fd ty ref). Qed.

Lemma insert_read_write_pool_inv p buf fd ty ref :
  let e := MkConnectionRequest (MkBaseRequest ty) ref fd buf in
  pool_inv mem ref p → readable mem e → rw_length p < PAGE_SIZE →
  ∃ p', insert_read_write mem junk p buf fd ty ref = Ret p' ∧
    pool_inv mem ref p' ∧ entries p' ≡ₚ e :: entries p.
Proof.
  intros e (Hw & Hs & Hr & Href) He Hlt.
  destruct (insert_read_write_ok p buf fd ty ref Hw Hs Hr He Hlt)
    as (p' & -> & Hw' & _ & HE & _).
  exists p'. split; [done|]. unfold pool_inv. rewrite HE.
  split_and!; [done|by apply sorted_insert_sorted|by apply Forall_sorted_insert
              |by apply Forall_sorted_insert|by apply sorted_insert_perm].
Qed.

(** The pool of one batch keeps its invariant under insertion (sorted by
    key, every key readable, every request pointing back to the batch), and
    the insertion loses and duplicates nothing. *)
Theorem insert_read_write_inv p buf fd ty ref :
  let e := MkConnectionRequest (MkBaseRequest ty) ref fd buf in
  pool_inv mem ref p → readable mem e → rw_length p < PAGE_SIZE →
  ∃ p', insert_read_write mem junk p buf fd ty ref = Ret p' ∧
    pool_inv mem ref p' ∧ entries p' ≡ₚ e :: entries p.
Proof. exact (insert_read_write_pool_inv p buf fd ty ref). Qed.

(** The insertion is guaranteed to succeed only below the capacity: into a
    full pool it writes past the end of the array. *)
Theorem insert_read_write_full p buf fd ty ref :
  pool_inv mem ref p →
  readable mem (MkConnectionRequest (MkBaseRequest ty) ref fd buf) →
  rw_length p = PAGE_SIZE →
  insert_read_write mem junk p buf fd ty ref = Undef OutOfBounds.
Proof.
  intros (Hw & Hs & Hr & _) He Hfull.
  destruct (insert_read_write_shift p buf fd ty ref Hw Hs Hr He)
    as (l1 & l2 & HE & _ & ->).
  assert (HD : rw_data (allocated p) = l1 ++ l2).
  { rewrite <- HE, <- allocated_entries. unfold entries.
    rewrite take_ge; [done|]. pose proof (allocated_data p Hw).
    unfold lenZ in *. cbn [allocated rw_length]. lia. }
  by rewrite HD, shift_right_out.
Qed.

(** C16: [find_index_starting_from] returns the first position from [start]
    whose key is not below the needle, except that it answers -1 when there is
    none and when that position is 0 and holds a different key. *)
Theorem find_index_spec p ref start nm needle :
  pool_inv mem ref p → 0 ≤ start ≤ rw_length p →
  0 ≤ needle + 5 → needle + 5 + KEY_LENGTH ≤ lenZ nm →
  ∃ lb, start ≤ lb ≤ rw_length p ∧
    (∀ i, start ≤ i < lb → below mem p (slice nm (needle + 5) KEY_LENGTH) i = true) ∧
    (∀ i, lb ≤ i < rw_length p →
       below mem p (slice nm (needle + 5) KEY_LENGTH) i = false) ∧
    find_index_starting_from mem p start nm needle =
      Ret (if bool_decide (lb = rw_length p ∨
             lb = 0 ∧ entry_key mem <$> (entries p !! 0%nat) ≠
               Some (slice nm (needle + 5) KEY_LENGTH))
           then -1 else lb).
Proof.
  intros (Hw & Hs & Hr & _) Hst Hn1 Hn2.
  destruct (pool_search mem p nm needle start) as (lo & cur & Hb & Hlo & Hlt & Hge & _);
    [done|lia|done..|].
  exists lo. split_and!; [lia|lia|done|done|].
  unfold find_index_starting_from. rewrite Hb. cbn [mbind exec_bind].
  destruct (Z.eqb_spec lo (rw_length p)) as [->|Hne].
  { by rewrite bool_decide_eq_true_2 by auto. }
  pose proof (proj1 Hw). rewrite i32_small by lia.
  destruct (Z.eqb_spec lo 0) as [->|Hne0].
  2:{ rewrite bool_decide_eq_false_2; [done|naive_solver]. }
  destruct (entry_at p 0 Hw) as [c Hc]; [lia|].
  change (Z.to_nat 0) with 0%nat in Hc.
  pose proof (entries_lookup _ _ _ Hc) as [Hd _].
  rewrite (proj2 (getZ_Ret _ 0 c)) by done. cbn [mbind exec_bind].
  pose proof (Forall_lookup_1 _ _ _ _ Hr Hc) as Hrc.
  rewrite load_key by (done || lia). cbn [mbind exec_bind].
  rewrite load_ok by lia. cbn [mbind exec_bind].
  destruct (Z.eqb_spec (memcmp (entry_key mem c)
              (slice nm (needle + 5) KEY_LENGTH)) 0) as [E|E].
  - rewrite bool_decide_eq_false_2; [done|]. intros [|[_ Hall]]; [lia|].
    apply Hall. rewrite Hc. cbn. f_equal. apply memcmp_0; [|done].
    rewrite entry_key_length by (done || lia).
    pose proof (lenZ_slice nm (needle + 5) KEY_LENGTH). unfold lenZ in *. lia.
  - rewrite bool_decide_eq_true_2; [done|]. right. split; [done|].
    rewrite Hc. cbn. intros [= Heq]. by rewrite Heq, memcmp_refl in E.
Qed.

End pool_theorems.

(** *** Witnesses: two requests in a pool of the shipped configuration *)

(** Keys 7 and 3 in two socket buffers laid out one after the other. *)
Definition demo_mem : bytes :=
  [114;101;97;100;0;7;0;0; 114;101;97;100;0;3;0;0; 114;101;97;100;0;5;0;0].
Definition demo_junk : ConnectionRequest :=
  MkConnectionRequest (MkBaseRequest ACCEPT) 0 0 0.
Definition demo_empty_pool : ReadWritePool := MkReadWritePool [] 0 0 false.

Lemma demo_empty_inv : @pool_inv cmake_config demo_mem 9 demo_empty_pool.
Proof.
  split_and!; [split; cbn; [lia|lia]| |constructor..].
  intros [|i] j a b _ Ha; discriminate Ha.
Qed.

Lemma insert_read_write_refines_witness :
  ∃ p', @insert_read_write cmake_config demo_mem demo_junk demo_empty_pool 0 4 READ 9
        = Ret p' ∧ rw_length p' = 1.
Proof.
  destruct demo_empty_inv as (Hw & Hs & Hr & _).
  destruct (@insert_read_write_refines cmake_config demo_mem demo_junk
    ltac:(done) ltac:(done) demo_empty_pool 0 4 READ 9 Hw Hs Hr
    ltac:(done) ltac:(done)) as (p' & H & _ & Hl & _).
  by exists p'.
Defined.

Lemma insert_read_write_inv_witness :
  ∃ p', @insert_read_write cmake_config demo_mem demo_junk demo_empty_pool 8 5 READ 9
        = Ret p' ∧ @pool_inv cmake_config demo_mem 9 p'.
Proof.
  destruct (@insert_read_write_inv cmake_config demo_mem demo_junk
    ltac:(done) ltac:(done) demo_empty_pool 8 5 READ 9 demo_empty_inv
    ltac:(done) ltac:(done)) as (p' & H & Hi & _).
  by exists p'.
Defined.

(** A configuration with room for two requests per pool. *)
Definition small_config : Config := {|
  MEMTABLE_SIZE_MB_BITS := 1; TOTAL_SSTABLE_STORAGE_SPACE_MB := 1000;
  LEVEL_FACTOR := 10; NUM_SSTABLE_WORKER_THREADS := 200;
  KEY_LENGTH := 1; VALUE_LENGTH := 2; PAGE_SIZE := 2; BLOCK_SIZE := 4096;
  ALIGN_NO_FALSE_SHARING := 64; MAX_SIMULTANEOUS_CONNECTIONS := 100;
  NUM_PROCESSORS := 8; TOTAL_SSTABLE_PAGE_CACHE_SIZE := 1000
|}.

Definition demo_pool : ReadWritePool := MkReadWritePool
  [MkConnectionRequest (MkBaseRequest READ) 9 5 8;
   MkConnectionRequest (MkBaseRequest READ) 9 4 0] 2 0 false.

Lemma demo_pool_inv : @pool_inv small_config demo_mem 9 demo_pool.
Proof.
  split_and!; [split; [cbn; lia|done]| |by repeat constructor..].
  intros [|[|i]] [|[|j]] a b ? Ha Hb; vm_compute in Ha, Hb; simplify_eq;
    try lia; vm_compute; congruence.
Qed.

Lemma insert_read_write_full_witness :
  @insert_read_write small_config demo_mem demo_junk demo_pool 16 6 READ 9
  = Undef OutOfBounds.
Proof.
  exact (@insert_read_write_full small_config demo_mem demo_junk
    ltac:(done) ltac:(done) demo_pool 16 6 READ 9 demo_pool_inv
    ltac:(done) eq_refl).
Defined.

(** The needle 5 lies between the keys 3 and 7: position 1.  The needle 0 lies
    before the first key: the answer is -1 and not 0. *)
Lemma find_index_spec_witness :
  (∃ lb, 0 ≤ lb ≤ 2 ∧
     @below small_config demo_mem demo_pool [5] 0 = (0 <? lb) ∧
     @find_index_starting_from small_config demo_mem demo_pool 0 demo_mem 16 = Ret 1) ∧
  @find_index_starting_from small_config demo_mem demo_pool 0 demo_mem 1 = Ret (-1).
Proof.
  destruct (@find_index_spec small_config demo_mem ltac:(done) ltac:(done)
    demo_pool 9 0 demo_mem 16 demo_pool_inv ltac:(done) ltac:(done) ltac:(done))
    as (lb & Hlb & Ht & Hf & _).
  split; [|vm_compute; reflexivity]. exists lb. split; [done|].
  split; [|vm_compute; reflexivity].
  destruct (Z.ltb_spec 0 lb); [apply (Ht 0); lia|apply (Hf 0); cbn; lia].
Defined.

(** ** The connection pool *)

(** Inserting a descriptor of the documented range fills exactly its own
    slot, and a descriptor outside the range is an out-of-bounds access. *)
Theorem connection_pool_insert_spec cp fd ty :
  (1 ≤ fd ≤ lenZ (connections cp) →
   ∃ cp' c, connection_pool_insert cp fd ty = Ret (cp', c) ∧
     connections cp' !! Z.to_nat (fd - 1) = Some c ∧
     client_sock_fd c = fd ∧ conn_base c = MkBaseRequest ty ∧
     buffer c = buffer_pool cp + (fd - 1) ∧ buffer_pool cp' = buffer_pool cp ∧
     lenZ (connections cp') = lenZ (connections cp) ∧
     (∀ j, j ≠ Z.to_nat (fd - 1) → connections cp' !! j = connections cp !! j)) ∧
  (¬ 1 ≤ fd ≤ lenZ (connections cp) →
   connection_pool_insert cp fd ty = Undef OutOfBounds).
Proof.
  unfold connection_pool_insert. split; intros Hfd.
  - destruct (getZ_lt (connections cp) (fd - 1)) as (c & -> & Hc); [lia|].
    cbn [mbind exec_bind]. rewrite setZ_ok by lia. cbn [mbind exec_bind].
    do 2 eexists. split_and!; try done; cbn.
    + apply list_lookup_insert_eq. unfold lenZ in *. lia.
    + apply lenZ_insert.
    + intros j Hj. by apply list_lookup_insert_ne.
  - rewrite getZ_out by lia. done.
Qed.

Lemma connection_pool_insert_spec_witness :
  ∃ cp' c, connection_pool_insert (new_ConnectionPool demo_junk 3 0) 2 RECV
           = Ret (cp', c) ∧ buffer c = 1.
Proof.
  destruct (connection_pool_insert_spec (new_ConnectionPool demo_junk 3 0) 2 RECV)
    as [H _]. destruct H as (cp' & c & E & _ & _ & _ & Hb & _); [done|].
  by exists cp', c.
Defined.

Lemma connection_pool_insert_buffer cp fd ty cp' c :
  connection_pool_insert cp fd ty = Ret (cp', c) →
  buffer c = buffer_pool cp + (fd - 1) ∧ buffer_pool cp' = buffer_pool cp.
Proof.
  unfold connection_pool_insert. intros H. inv_exec H. by injection H as <- <-.
Qed.

(** The buffers of two descriptors less than one message length apart
    overlap: a full message received for the second connection overwrites the
    tail of the message the first one already holds. *)
Theorem connection_buffers_overlap {cfg : Config} cp fd1 fd2 cp1 c1 cp2 c2
    mem mem1 mem2 msg1 msg2 :
  connection_pool_insert cp fd1 RECV = Ret (cp1, c1) →
  connection_pool_insert cp1 fd2 RECV = Ret (cp2, c2) →
  fd1 < fd2 < fd1 + SOCKET_BUFFER_LENGTH →
  lenZ msg1 = SOCKET_BUFFER_LENGTH → lenZ msg2 = SOCKET_BUFFER_LENGTH →
  store mem (buffer c1) msg1 = Ret mem1 → store mem1 (buffer c2) msg2 = Ret mem2 →
  load mem2 (buffer c1) SOCKET_BUFFER_LENGTH =
    Ret (slice msg1 0 (fd2 - fd1) ++
         slice msg2 0 (SOCKET_BUFFER_LENGTH - (fd2 - fd1))).
Proof.
  intros H1 H2 Hfd Hm1 Hm2 Hs1 Hs2.
  apply connection_pool_insert_buffer in H1 as [Hb1 HP].
  apply connection_pool_insert_buffer in H2 as [Hb2 _]. rewrite HP in Hb2.
  apply store_Ret in Hs1 as (? & ? & -> & Hl1).
  apply store_Ret in Hs2 as (? & ? & -> & Hl2).
  rewrite load_ok by lia. f_equal. apply list_eq. intros i.
  set (d := fd2 - fd1) in *.
  assert (Hd1 : lenZ (slice msg1 0 d) = d) by (apply lenZ_slice; lia).
  rewrite lookup_slice by lia. rewrite lookup_splice by lia.
  destruct (decide (Z.of_nat i < d)).
  - rewrite lookup_app_l by (unfold lenZ in *; lia).
    rewrite lookup_slice by lia. decide_tests.
    rewrite lookup_splice by lia. decide_tests. f_equal. lia.
  - rewrite lookup_app_r by (unfold lenZ in *; lia).
    rewrite lookup_slice by lia.
    replace (Z.of_nat (i - length (slice msg1 0 d))) with (Z.of_nat i - d)
      by (unfold lenZ in *; lia).
    case_bool_decide.
    + decide_tests. f_equal. unfold lenZ in *. lia.
    + by rewrite bool_decide_eq_false_2 by lia.
Qed.

Lemma connection_buffers_overlap_witness :
  ∃ mem2, load mem2 0 8 = Ret [1; 2;2;2;2;2;2;2].
Proof.
  eexists. refine (@connection_buffers_overlap cmake_config
    (new_ConnectionPool demo_junk 3 0) 1 2 _ _ _ _ (zeros 20) _ _
    (replicate 8 1) (replicate 8 2) eq_refl eq_refl _ eq_refl eq_refl eq_refl eq_refl).
  split; vm_compute; reflexivity.
Defined.
