(* ===== verification/SparseIndex.v ===== *)
(** * The sparse index

    [sparse_index.hpp]: an array of key pairs, one per table of a level, that
    bounds the keys of each table.  A [char*] argument that is only read is
    the list of bytes from the pointed-to one to the end of its region; a
    [char*] result is an offset into [index]. *)

From S2P Require Import Prelude Config.

Record SparseIndex : Set := MkSparseIndex { index : bytes }.

Section sparse_index.
Context {cfg : Config}.

(** The private all-zero key. *)
Definition null_key : bytes := zeros KEY_LENGTH.

Definition new_SparseIndex : SparseIndex :=
  MkSparseIndex (zeros (Z.shiftl KEY_LENGTH 1 * LEVEL_FACTOR)).

(** [(KEY_LENGTH << 1) * table_num], in [unsigned int]. *)
Definition table_offset (table_num : Z) : Z :=
  u32 (Z.shiftl KEY_LENGTH 1 * table_num).

Definition insert_range (si : SparseIndex) (min_key max_key : bytes)
    (table_num : Z) : exec SparseIndex :=
  kmin ← load min_key 0 KEY_LENGTH;
  ix ← store (index si) (table_offset table_num) kmin;
  kmax ← load max_key 0 KEY_LENGTH;
  ix' ← store ix (table_offset table_num + KEY_LENGTH) kmax;
  Ret (MkSparseIndex ix').

Definition remove_table (si : SparseIndex) (table_num : Z) : exec SparseIndex :=
  ix ← store (index si) (table_offset table_num) (zeros KEY_LENGTH);
  ix' ← store ix (table_offset table_num + KEY_LENGTH) (zeros KEY_LENGTH);
  Ret (MkSparseIndex ix').

(** The scan of [get_table_num]: [i] is a byte offset, the loop bound is
    [LEVEL_FACTOR]. *)
Fixpoint get_table_num_loop (fuel : nat) (ix : bytes) (key : bytes) (i : Z)
    : exec (bytes * Z) :=
  match fuel with
  | O => Spin
  | S fuel' =>
      if i <? LEVEL_FACTOR then
        kmin ← load ix i KEY_LENGTH;
        k ← load key 0 KEY_LENGTH;
        if memcmp kmin null_key =? 0 then
          ix' ← store ix i k;
          Ret (ix', u32_max)
        else if memcmp kmin k <=? 0 then
          kmax ← load ix (i + KEY_LENGTH) KEY_LENGTH;
          if 0 <=? memcmp kmax k then
            ix' ← (if memcmp kmax null_key =? 0
                   then store ix (i + KEY_LENGTH) k else Ret ix);
            Ret (ix', i)
          else get_table_num_loop fuel' ix key (u32 (i + Z.shiftl KEY_LENGTH 1))
        else get_table_num_loop fuel' ix key (u32 (i + Z.shiftl KEY_LENGTH 1))
      else Ret (ix, u32_max)
  end.

Definition get_table_num (si : SparseIndex) (key : bytes)
    : exec (SparseIndex * Z) :=
  '(ix, r) ← get_table_num_loop (S (Z.to_nat LEVEL_FACTOR)) (index si) key 0;
  Ret (MkSparseIndex ix, r).

Definition get_table_min_key (table_num : Z) : Z := table_offset table_num.

Definition get_table_max_key (table_num : Z) : Z :=
  table_offset table_num + KEY_LENGTH.

Definition set_table_min_key (si : SparseIndex) (table_num : Z) (key : bytes)
    : exec SparseIndex :=
  k ← load key 0 KEY_LENGTH;
  ix ← store (index si) (table_offset table_num) k;
  Ret (MkSparseIndex ix).

Definition set_table_max_key (si : SparseIndex) (table_num : Z) (key : bytes)
    : exec SparseIndex :=
  k ← load key 0 KEY_LENGTH;
  ix ← store (index si) (table_offset table_num + KEY_LENGTH) k;
  Ret (MkSparseIndex ix).

(** *** Specification vocabulary: the index as a table of key pairs *)

Definition table_min (ix : bytes) (t : Z) : bytes :=
  slice ix (2 * KEY_LENGTH * t) KEY_LENGTH.

Definition table_max (ix : bytes) (t : Z) : bytes :=
  slice ix (2 * KEY_LENGTH * t + KEY_LENGTH) KEY_LENGTH.

Definition index_wf (ix : bytes) : Prop :=
  lenZ ix = 2 * KEY_LENGTH * LEVEL_FACTOR.

(** The scan advances [2 * KEY_LENGTH] bytes towards a bound of
    [LEVEL_FACTOR] bytes, so it reaches this many tables. *)
Definition tables_scanned : Z :=
  (LEVEL_FACTOR + 2 * KEY_LENGTH - 1) / (2 * KEY_LENGTH).

Definition covers (ix : bytes) (t : Z) (k : bytes) : Prop :=
  memcmp (table_min ix t) k ≤ 0 ∧ 0 ≤ memcmp (table_max ix t) k.

(** Neither free nor covering [k]: the scan goes past table [t]. *)
Definition passed (ix : bytes) (t : Z) (k : bytes) : Prop :=
  table_min ix t ≠ null_key ∧ ¬ covers ix t k.

End sparse_index.

(** The side conditions on the macros that the lemmas share. *)
Class IndexConfig (cfg : Config) : Prop := {
  ic_key : 1 ≤ KEY_LENGTH;
  ic_level : 1 ≤ LEVEL_FACTOR;
  ic_fits : 2 * KEY_LENGTH * (LEVEL_FACTOR + 1) < 2 ^ 32
}.

#[global] Instance cmake_index_config : IndexConfig cmake_config.
Proof. by split. Qed.

Section sparse_index_lemmas.
Context {cfg : Config} {ic : IndexConfig cfg}.

Lemma table_offset_ok t :
  0 ≤ t ≤ LEVEL_FACTOR → table_offset t = 2 * KEY_LENGTH * t.
Proof.
  intros Ht. pose proof ic_key. pose proof ic_fits. unfold table_offset.
  rewrite Z.shiftl_mul_pow2, u32_small by nia. nia.
Qed.

Lemma table_bounds t :
  0 ≤ t < LEVEL_FACTOR →
  0 ≤ 2 * KEY_LENGTH * t ∧
  2 * KEY_LENGTH * t + 2 * KEY_LENGTH ≤ 2 * KEY_LENGTH * LEVEL_FACTOR.
Proof. intros Ht. pose proof ic_key. nia. Qed.

(** Two tables occupy disjoint byte ranges. *)
Lemma table_disjoint t t' :
  t ≠ t' →
  2 * KEY_LENGTH * t + 2 * KEY_LENGTH ≤ 2 * KEY_LENGTH * t' ∨
  2 * KEY_LENGTH * t' + 2 * KEY_LENGTH ≤ 2 * KEY_LENGTH * t.
Proof. intros. pose proof ic_key. destruct (decide (t < t')); nia. Qed.

Lemma lenZ_null_key : lenZ null_key = KEY_LENGTH.
Proof. pose proof ic_key. apply lenZ_zeros. lia. Qed.

Lemma lenZ_length_eq {A} (a b : list A) : lenZ a = lenZ b → length a = length b.
Proof. unfold lenZ. lia. Qed.

Lemma new_index_wf : index_wf (index new_SparseIndex).
Proof.
  pose proof ic_key. pose proof ic_level. unfold index_wf, new_SparseIndex. cbn [index].
  rewrite lenZ_zeros; rewrite Z.shiftl_mul_pow2 by lia; nia.
Qed.

Lemma index_wf_splice ix off src :
  index_wf ix → 0 ≤ off → off + lenZ src ≤ lenZ ix → index_wf (splice ix off src).
Proof. unfold index_wf. intros <- ??. by apply lenZ_splice. Qed.

(** Writing key [k] at the lower or upper half of table [t] changes that half
    alone. *)
Lemma table_write_min ix t k :
  index_wf ix → 0 ≤ t < LEVEL_FACTOR → lenZ k = KEY_LENGTH →
  let ix' := splice ix (2 * KEY_LENGTH * t) k in
  store ix (2 * KEY_LENGTH * t) k = Ret ix' ∧ index_wf ix' ∧
  table_min ix' t = k ∧ (∀ t', 0 ≤ t' → table_max ix' t' = table_max ix t') ∧
  (∀ t', 0 ≤ t' → t' ≠ t → table_min ix' t' = table_min ix t').
Proof.
  intros Hw Ht Hk ix'. pose proof (table_bounds t Ht). pose proof ic_key.
  unfold index_wf in Hw. split_and!.
  - apply store_ok; lia.
  - by apply index_wf_splice; [|lia..].
  - apply slice_splice_same; lia.
  - intros t' Ht'. apply slice_splice_disjoint; [lia..|nia|].
    destruct (decide (t = t')) as [->|]; [lia|].
    destruct (table_disjoint t t'); [done|lia..].
  - intros t' Ht' Hne. apply slice_splice_disjoint; [lia..|nia|].
    destruct (table_disjoint t t'); [done|lia..].
Qed.

Lemma table_write_max ix t k :
  index_wf ix → 0 ≤ t < LEVEL_FACTOR → lenZ k = KEY_LENGTH →
  let ix' := splice ix (2 * KEY_LENGTH * t + KEY_LENGTH) k in
  store ix (2 * KEY_LENGTH * t + KEY_LENGTH) k = Ret ix' ∧ index_wf ix' ∧
  table_max ix' t = k ∧ (∀ t', 0 ≤ t' → table_min ix' t' = table_min ix t') ∧
  (∀ t', 0 ≤ t' → t' ≠ t → table_max ix' t' = table_max ix t').
Proof.
  intros Hw Ht Hk ix'. pose proof (table_bounds t Ht). pose proof ic_key.
  unfold index_wf in Hw. split_and!.
  - apply store_ok; lia.
  - by apply index_wf_splice; [|lia..].
  - apply slice_splice_same; lia.
  - intros t' Ht'. apply slice_splice_disjoint; [lia..|nia|].
    destruct (decide (t = t')) as [->|]; [lia|].
    destruct (table_disjoint t t'); [done|lia..].
  - intros t' Ht' Hne. apply slice_splice_disjoint; [lia..|nia|].
    destruct (table_disjoint t t'); [done|lia..].
Qed.

Lemma load_table_min ix t :
  index_wf ix → 0 ≤ t < LEVEL_FACTOR →
  load ix (2 * KEY_LENGTH * t) KEY_LENGTH = Ret (table_min ix t) ∧
  lenZ (table_min ix t) = KEY_LENGTH.
Proof.
  intros Hw Ht. pose proof (table_bounds t Ht). pose proof ic_key.
  unfold index_wf in Hw. split; [apply load_ok|apply lenZ_slice]; lia.
Qed.

Lemma load_table_max ix t :
  index_wf ix → 0 ≤ t < LEVEL_FACTOR →
  load ix (2 * KEY_LENGTH * t + KEY_LENGTH) KEY_LENGTH = Ret (table_max ix t) ∧
  lenZ (table_max ix t) = KEY_LENGTH.
Proof.
  intros Hw Ht. pose proof (table_bounds t Ht). pose proof ic_key.
  unfold index_wf in Hw. split; [apply load_ok|apply lenZ_slice]; lia.
Qed.

Lemma load_key_arg key :
  KEY_LENGTH ≤ lenZ key →
  load key 0 KEY_LENGTH = Ret (slice key 0 KEY_LENGTH) ∧
  lenZ (slice key 0 KEY_LENGTH) = KEY_LENGTH.
Proof.
  intros Hk. pose proof ic_key. split; [apply load_ok|apply lenZ_slice]; lia.
Qed.

Lemma tables_scanned_spec t :
  0 ≤ t → t < tables_scanned ↔ 2 * KEY_LENGTH * t < LEVEL_FACTOR.
Proof.
  intros Ht. pose proof ic_key. unfold tables_scanned.
  set (k := 2 * KEY_LENGTH) in *. assert (2 ≤ k) by lia.
  pose proof (Z.div_mod (LEVEL_FACTOR + k - 1) k ltac:(lia)).
  pose proof (Z.mod_pos_bound (LEVEL_FACTOR + k - 1) k ltac:(lia)). nia.
Qed.

Lemma scanned_in_level t : 0 ≤ t < tables_scanned → t < LEVEL_FACTOR.
Proof.
  intros [Ht Hs]. apply tables_scanned_spec in Hs; [|done].
  pose proof ic_key. nia.
Qed.

End sparse_index_lemmas.

(** ** The scan *)

Section scan.
Context {cfg : Config} {ic : IndexConfig cfg}.

(** What a scan that starts at table [t0] ends with. *)
Inductive scan_result (ix k : bytes) (t0 : Z) : bytes → Z → Prop :=
  | scan_claim t :
      t0 ≤ t < tables_scanned → (∀ t', t0 ≤ t' < t → passed ix t' k) →
      table_min ix t = null_key →
      scan_result ix k t0 (splice ix (2 * KEY_LENGTH * t) k) u32_max
  | scan_hit t :
      t0 ≤ t < tables_scanned → (∀ t', t0 ≤ t' < t → passed ix t' k) →
      table_min ix t ≠ null_key → covers ix t k →
      scan_result ix k t0 ix (2 * KEY_LENGTH * t)
  | scan_miss :
      (∀ t, t0 ≤ t < tables_scanned → passed ix t k) →
      scan_result ix k t0 ix u32_max.

Lemma scan_result_pass ix k t0 ix' r :
  passed ix t0 k → scan_result ix k (t0 + 1) ix' r → scan_result ix k t0 ix' r.
Proof.
  assert (Hp : ∀ Q : Z → Prop, Q t0 → ∀ b, (∀ t', t0 + 1 ≤ t' < b → Q t') →
    ∀ t', t0 ≤ t' < b → Q t').
  { intros Q H0 b Hq t' Ht'. destruct (decide (t' = t0)) as [->|]; [done|].
    apply Hq. lia. }
  intros H0 [t Ht Hall Hm|t Ht Hall Hm Hc|Hall].
  - eapply scan_claim; [lia|by apply (Hp (λ t, passed ix t k))|done].
  - eapply scan_hit; [lia|by apply (Hp (λ t, passed ix t k))|done..].
  - apply scan_miss. by apply (Hp (λ t, passed ix t k)).
Qed.

Lemma null_key_test a :
  lenZ a = KEY_LENGTH → memcmp a null_key = 0 ↔ a = null_key.
Proof.
  intros Ha. split; [|intros ->; apply memcmp_refl].
  apply memcmp_0, lenZ_length_eq. by rewrite lenZ_null_key.
Qed.

(** A key at or above a non-zero minimum is not zero, so a maximum above it is
    not zero either: the code that fills in a missing maximum never runs. *)
Lemma covers_max_not_null ix t k :
  index_wf ix → 0 ≤ t < LEVEL_FACTOR → valid_bytes ix → valid_bytes k →
  lenZ k = KEY_LENGTH → table_min ix t ≠ null_key → covers ix t k →
  memcmp (table_max ix t) null_key ≠ 0.
Proof.
  intros Hw Ht Hv Hvk Hk Hmin [H1 H2] E.
  destruct (load_table_max ix t Hw Ht) as [_ Hlmax].
  destruct (load_table_min ix t Hw Ht) as [_ Hlmin].
  apply null_key_test in E; [|done]. rewrite E, memcmp_flip in H2.
  pose proof (memcmp_zeros_r k KEY_LENGTH Hvk) as H3. fold null_key in H3.
  apply Hmin. assert (k = null_key) as -> by (apply null_key_test; [done|lia]).
  apply null_key_test; [done|].
  pose proof (memcmp_zeros_r (table_min ix t) KEY_LENGTH) as H4. fold null_key in H4.
  assert (valid_bytes (table_min ix t)) by (unfold table_min; auto with ringdb).
  specialize (H4 ltac:(done)). lia.
Qed.

Lemma get_table_num_loop_spec fuel ix key t :
  index_wf ix → KEY_LENGTH ≤ lenZ key → valid_bytes ix → valid_bytes key →
  0 ≤ t → (Z.to_nat (tables_scanned - t) < fuel)%nat →
  ∃ ix' r, get_table_num_loop fuel ix key (2 * KEY_LENGTH * t) = Ret (ix', r) ∧
    scan_result ix (slice key 0 KEY_LENGTH) t ix' r.
Proof.
  intros Hw Hkey Hv Hvk. revert t. pose proof ic_key. pose proof ic_fits.
  set (k := slice key 0 KEY_LENGTH).
  destruct (load_key_arg key Hkey) as [Hld Hlk]. fold k in Hld, Hlk.
  induction fuel as [|fuel IH]; intros t Ht Hf; [lia|]. cbn [get_table_num_loop].
  destruct (Z.ltb_spec (2 * KEY_LENGTH * t) LEVEL_FACTOR) as [Hlt|Hge].
  2:{ exists ix, u32_max. split; [done|]. apply scan_miss. intros t' Ht'.
      assert (2 * KEY_LENGTH * t' < LEVEL_FACTOR) by (apply tables_scanned_spec; lia).
      nia. }
  assert (Hts : t < tables_scanned) by (by apply tables_scanned_spec).
  assert (Htl : t < LEVEL_FACTOR) by (apply scanned_in_level; lia).
  destruct (load_table_min ix t Hw ltac:(lia)) as [-> Hlmin].
  cbn [mbind exec_bind]. rewrite Hld. cbn [mbind exec_bind].
  assert (Hnext : passed ix t k →
    ∃ ix' r, get_table_num_loop fuel ix key
        (u32 (2 * KEY_LENGTH * t + Z.shiftl KEY_LENGTH 1)) = Ret (ix', r) ∧
      scan_result ix k t ix' r).
  { intros Hp. destruct (IH (t + 1)) as (ix' & r & HE & HR); [lia..|].
    exists ix', r. split; [|by apply scan_result_pass].
    rewrite Z.shiftl_mul_pow2, u32_small by nia. rewrite <- HE. f_equal. nia. }
  destruct (Z.eqb_spec (memcmp (table_min ix t) null_key) 0) as [E0|E0].
  { apply null_key_test in E0; [|done].
    destruct (table_write_min ix t k Hw ltac:(lia) Hlk) as [-> _].
    do 2 eexists. split; [done|]. eapply scan_claim; [lia| |done]. intros; lia. }
  assert (Hmin : table_min ix t ≠ null_key) by (by rewrite <- null_key_test).
  destruct (Z.leb_spec (memcmp (table_min ix t) k) 0) as [Hle|Hgt].
  2:{ apply Hnext. split; [done|]. unfold covers. lia. }
  destruct (load_table_max ix t Hw ltac:(lia)) as [-> Hlmax].
  cbn [mbind exec_bind].
  destruct (Z.leb_spec 0 (memcmp (table_max ix t) k)) as [Hm|Hm].
  2:{ apply Hnext. split; [done|]. unfold covers. lia. }
  assert (Hc : covers ix t k) by done.
  rewrite (proj2 (Z.eqb_neq _ _)).
  2:{ apply (covers_max_not_null ix t k); try done; unfold k; auto with ringdb. }
  cbn [mbind exec_bind]. do 2 eexists. split; [done|].
  eapply scan_hit; [lia| |done|done]. intros; lia.
Qed.

Lemma get_table_num_ok si key :
  index_wf (index si) → valid_bytes (index si) →
  KEY_LENGTH ≤ lenZ key → valid_bytes key →
  ∃ si' r, get_table_num si key = Ret (si', r) ∧
    scan_result (index si) (slice key 0 KEY_LENGTH) 0 (index si') r.
Proof.
  intros Hw Hv Hk Hvk. pose proof ic_key. pose proof ic_level.
  destruct (get_table_num_loop_spec (S (Z.to_nat LEVEL_FACTOR)) (index si) key 0)
    as (ix' & r & HE & HR); [done..| |].
  { destruct (decide (tables_scanned ≤ LEVEL_FACTOR)); [lia|].
    pose proof (scanned_in_level (tables_scanned - 1)). lia. }
  unfold get_table_num. rewrite Z.mul_0_r in HE. rewrite HE. cbn [mbind exec_bind].
  by exists (MkSparseIndex ix'), r.
Qed.

End scan.

(** ** Properties *)

Section sparse_index_theorems.
Context {cfg : Config} {ic : IndexConfig cfg}.

(** C37: [insert_range] records exactly the given bounds for its table and
    leaves every other table alone, and [remove_table] makes a table's bounds
    zero again, without touching the others. *)
Theorem insert_remove_range_spec si kmin kmax t :
  index_wf (index si) → 0 ≤ t < LEVEL_FACTOR →
  lenZ kmin = KEY_LENGTH → lenZ kmax = KEY_LENGTH →
  ∃ si1 si2, insert_range si kmin kmax t = Ret si1 ∧ remove_table si1 t = Ret si2 ∧
    index_wf (index si1) ∧ index_wf (index si2) ∧
    table_min (index si1) t = kmin ∧ table_max (index si1) t = kmax ∧
    table_min (index si2) t = null_key ∧ table_max (index si2) t = null_key ∧
    (∀ t', 0 ≤ t' → t' ≠ t →
       table_min (index si1) t' = table_min (index si) t' ∧
       table_max (index si1) t' = table_max (index si) t' ∧
       table_min (index si2) t' = table_min (index si) t' ∧
       table_max (index si2) t' = table_max (index si) t').
Proof.
  intros Hw Ht Hmin Hmax. unfold insert_range, remove_table.
  rewrite !load_ok, !slice_full by (pose proof ic_key; lia). cbn [mbind exec_bind].
  rewrite table_offset_ok by lia. pose proof lenZ_null_key.
  destruct (table_write_min (index si) t kmin Hw Ht Hmin)
    as (-> & Hw1 & Hm1 & HM1 & Hm1'). set (ix1 := splice _ _ _) in *.
  cbn [mbind exec_bind].
  destruct (table_write_max ix1 t kmax Hw1 Ht Hmax)
    as (-> & Hw2 & HM2 & Hm2 & HM2'). set (ix2 := splice ix1 _ _) in *.
  eexists (MkSparseIndex ix2).
  destruct (table_write_min ix2 t null_key Hw2 Ht ltac:(done))
    as (E3 & Hw3 & Hm3 & HM3 & Hm3'). set (ix3 := splice ix2 _ _) in *.
  destruct (table_write_max ix3 t null_key Hw3 Ht ltac:(done))
    as (E4 & Hw4 & HM4 & Hm4 & HM4'). set (ix4 := splice ix3 _ _) in *.
  exists (MkSparseIndex ix4). cbn [index]. fold null_key.
  rewrite E3. cbn [mbind exec_bind]. rewrite E4.
  split_and!; try done.
  - rewrite Hm2 by lia. done.
  - rewrite Hm4 by lia. done.
  - intros t' Ht' Hne. split_and!.
    + by rewrite Hm2, Hm1'.
    + by rewrite HM2', HM1.
    + by rewrite Hm4, Hm3', Hm2, Hm1'.
    + by rewrite HM4', HM3, HM2', HM1.
Qed.

(** C35: [get_table_num] always returns, reads and writes inside the index, and
    ends in one of three ways: it claims the first free table on its way and
    answers -1, or it answers the byte offset of the first table whose bounds
    cover the key, or it answers -1 with the index unchanged.  Only the first
    [tables_scanned] tables are ever considered. *)
Theorem get_table_num_spec si key :
  index_wf (index si) → valid_bytes (index si) →
  KEY_LENGTH ≤ lenZ key → valid_bytes key →
  ∃ si' r, get_table_num si key = Ret (si', r) ∧
    scan_result (index si) (slice key 0 KEY_LENGTH) 0 (index si') r.
Proof. apply get_table_num_ok. Qed.

(** Looking up several keys in a row. *)
Fixpoint get_table_nums (si : SparseIndex) (keys : list bytes)
    : exec (SparseIndex * list Z) :=
  match keys with
  | [] => Ret (si, [])
  | key :: keys' =>
      '(si', r) ← get_table_num si key;
      '(si'', rs) ← get_table_nums si' keys';
      Ret (si'', r :: rs)
  end.

(** No table has an upper bound yet. *)
Definition no_upper_bounds (ix : bytes) : Prop :=
  index_wf ix ∧ valid_bytes ix ∧
  ∀ t, 0 ≤ t < LEVEL_FACTOR → table_max ix t = null_key.

Definition proper_key (key : bytes) : Prop :=
  KEY_LENGTH ≤ lenZ key ∧ valid_bytes key ∧ slice key 0 KEY_LENGTH ≠ null_key.

Lemma no_upper_bounds_new : no_upper_bounds (index new_SparseIndex).
Proof.
  split_and!; [apply new_index_wf|apply valid_bytes_zeros|].
  intros t Ht. pose proof (table_bounds t Ht). pose proof ic_key.
  unfold table_max, new_SparseIndex. cbn [index].
  apply slice_zeros; [lia..|]. rewrite Z.shiftl_mul_pow2 by lia. lia.
Qed.

Lemma get_table_num_misses si key :
  no_upper_bounds (index si) → KEY_LENGTH ≤ lenZ key → valid_bytes key →
  ∃ si', get_table_num si key = Ret (si', u32_max) ∧ no_upper_bounds (index si').
Proof.
  intros (Hw & Hv & Hmax) Hl Hvk.
  destruct (get_table_num_ok si key) as (si' & r & HE & HR); [done..|].
  destruct (load_key_arg key Hl) as [_ Hlk].
  exists si'. rewrite HE. inversion HR as [t Ht Hp Hm E1 E2|t Ht Hp Hm Hc E1 E2|Hp E1 E2].
  - split; [done|]. assert (t < LEVEL_FACTOR) by (apply scanned_in_level; lia).
    destruct (table_write_min (index si) t (slice key 0 KEY_LENGTH))
      as (_ & Hw' & _ & HM & _); [done|lia|done|].
    split_and!; [done|auto with ringdb|].
    intros t' Ht'. rewrite HM by lia. by apply Hmax.
  - exfalso. assert (t < LEVEL_FACTOR) by (apply scanned_in_level; lia).
    refine (covers_max_not_null _ t _ Hw _ Hv _ Hlk Hm Hc _);
      [lia|auto with ringdb|rewrite Hmax by lia; apply memcmp_refl].
  - by split_and!.
Qed.

Lemma get_table_nums_miss keys si :
  no_upper_bounds (index si) → Forall proper_key keys →
  ∃ si', get_table_nums si keys = Ret (si', replicate (length keys) u32_max) ∧
    no_upper_bounds (index si').
Proof.
  intros Hn Hk. revert si Hn. induction Hk as [|key keys (Hl & Hvk & _) _ IH];
    intros si Hn; cbn [get_table_nums]; [by exists si|].
  destruct (get_table_num_misses si key Hn Hl Hvk) as (si1 & -> & Hn1).
  cbn [mbind exec_bind].
  destruct (IH si1 Hn1) as (si2 & -> & Hn2). by exists si2.
Qed.

(** Starting from an empty index, no sequence of lookups ever finds a
    table: every lookup answers -1, because a lookup only ever records lower
    bounds and a table without an upper bound covers no key. *)
Theorem fresh_index_finds_no_table keys :
  Forall proper_key keys →
  ∃ si, get_table_nums new_SparseIndex keys =
    Ret (si, replicate (length keys) u32_max).
Proof.
  intros Hk. destruct (get_table_nums_miss keys new_SparseIndex) as (si & HE & _);
    [apply no_upper_bounds_new|done|]. by exists si.
Qed.

End sparse_index_theorems.

Lemma insert_remove_range_witness :
  ∃ si1 si2, @insert_range cmake_config (@new_SparseIndex cmake_config) [3] [9] 2 = Ret si1 ∧
    @remove_table cmake_config si1 2 = Ret si2 ∧ @table_max cmake_config (index si1) 2 = [9].
Proof.
  destruct (@insert_remove_range_spec cmake_config _ (@new_SparseIndex cmake_config) [3] [9] 2)
    as (si1 & si2 & E1 & E2 & _ & _ & _ & H & _); [done..|].
  by exists si1, si2.
Defined.

Lemma get_table_num_spec_witness :
  ∃ si' r, @get_table_num cmake_config (@new_SparseIndex cmake_config) [7] = Ret (si', r) ∧
    r = u32_max.
Proof.
  destruct (@get_table_num_spec cmake_config _ (@new_SparseIndex cmake_config) [7])
    as (si' & r & E & _); [done|apply valid_bytes_zeros|done|by repeat constructor|].
  exists si', r. split; [done|]. by vm_compute in E; injection E.
Defined.

Lemma fresh_index_finds_no_table_witness :
  ∃ si, @get_table_nums cmake_config (@new_SparseIndex cmake_config) [[7]; [7]; [9]] =
    Ret (si, [u32_max; u32_max; u32_max]).
Proof.
  apply (@fresh_index_finds_no_table cmake_config _ [[7]; [7]; [9]]).
  repeat constructor; vm_compute; congruence.
Defined.
