(* ===== verification/MemTable.v ===== *)
(** * Level zero: the memtable

    [memtable.hpp]: a byte array of key-value entries in key order, searched
    by bisection and shifted on insertion.  [size] counts bytes.  [char*]
    arguments follow the convention of [SparseIndex.v]. *)

From S2P Require Import Prelude Config SparseIndex.

Record MemTable : Set := MkMemTable { mt_data : bytes; mt_size : Z }.

Section memtable.
Context {cfg : Config}.

(** [(1 << MEMTABLE_SIZE_MB_BITS) * (1 << 20)] *)
Definition memtable_capacity : Z :=
  Z.shiftl 1 MEMTABLE_SIZE_MB_BITS * Z.shiftl 1 20.

Definition new_MemTable : MemTable := MkMemTable (zeros memtable_capacity) 0.

(** [memcmp(data + mid, key, KEY_LENGTH) < 0] *)
Definition memtable_less (data key : bytes) (mid : Z) : exec bool :=
  k ← load data mid KEY_LENGTH;
  k' ← load key 0 KEY_LENGTH;
  Ret (memcmp k k' <? 0).

(** The search loop [read] and [write] share: [mid] is any byte offset, a step
    to the right skips one entry. *)
Definition memtable_search (mt : MemTable) (key : bytes) : exec Z :=
  '(lo, _) ← bsearch (memtable_less (mt_data mt) key) MEMTABLE_ENTRY_LENGTH
               (bsearch_fuel 0 (mt_size mt)) 0 (mt_size mt) 0;
  Ret lo.

(** [None] for the result [false]; [Some v] when [v] was copied out. *)
Definition read (mt : MemTable) (key : bytes) : exec (option bytes) :=
  lo ← memtable_search mt key;
  if lo <? mt_size mt then
    k ← load (mt_data mt) lo KEY_LENGTH;
    k' ← load key 0 KEY_LENGTH;
    if memcmp k k' =? 0 then
      v ← load (mt_data mt) (lo + KEY_LENGTH) VALUE_LENGTH;
      Ret (Some v)
    else Ret None
  else Ret None.

(** The shifting loop of [write]: [n] times, swap one entry with the carried
    one; then store the carried entry. *)
Fixpoint shift_entries (n : nat) (data : bytes) (dest : Z) (buffer2 : bytes)
    : exec bytes :=
  match n with
  | O => store data dest buffer2
  | S n' =>
      buffer1 ← load data dest MEMTABLE_ENTRY_LENGTH;
      data' ← store data dest buffer2;
      shift_entries n' data' (dest + MEMTABLE_ENTRY_LENGTH) buffer1
  end.

Definition write (mt : MemTable) (key value : bytes) (table_num : Z)
    (si : SparseIndex) : exec (MemTable * SparseIndex) :=
  lo ← memtable_search mt key;
  if lo =? mt_size mt then
    v ← load value 0 VALUE_LENGTH;
    data' ← store (mt_data mt) (lo + KEY_LENGTH) v;
    si' ← set_table_max_key si table_num value;
    Ret (MkMemTable data' (u32 (mt_size mt + MEMTABLE_ENTRY_LENGTH)), si')
  else
    si' ← (if lo =? 0 then set_table_min_key si table_num value else Ret si);
    k ← load key 0 KEY_LENGTH;
    v ← load value 0 VALUE_LENGTH;
    data' ← shift_entries (Z.to_nat (mt_size mt - lo)) (mt_data mt) lo (k ++ v);
    Ret (MkMemTable data' (u32 (mt_size mt + MEMTABLE_ENTRY_LENGTH)), si').

Definition empty_out (mt : MemTable) : exec MemTable :=
  data' ← store (mt_data mt) 0 (zeros memtable_capacity);
  Ret (MkMemTable data' (mt_size mt)).

End memtable.

Section memtable_lemmas.
Context {cfg : Config}.
Context (HK : 1 ≤ KEY_LENGTH) (HV : 1 ≤ VALUE_LENGTH)
        (HE : MEMTABLE_ENTRY_LENGTH ≤ 2 ^ 31).

Local Abbreviation E := MEMTABLE_ENTRY_LENGTH.

(** Every probe stays inside the array when one more entry would fit. *)
Definition mt_wf (mt : MemTable) : Prop :=
  0 ≤ mt_size mt ≤ 2 ^ 31 ∧ mt_size mt + E ≤ lenZ (mt_data mt).

Lemma entry_pos : 2 ≤ E ∧ KEY_LENGTH < E.
Proof. unfold MEMTABLE_ENTRY_LENGTH. lia. Qed.

Lemma memtable_search_ok mt key :
  mt_wf mt → KEY_LENGTH ≤ lenZ key →
  ∃ lo, memtable_search mt key = Ret lo ∧ 0 ≤ lo ∧
    (lo = 0 ∨ lo < mt_size mt + E).
Proof.
  intros [Hs Hd] Hk. unfold memtable_search. pose proof entry_pos.
  destruct (bsearch_total (memtable_less (mt_data mt) key) E
    (bsearch_fuel 0 (mt_size mt)) 0 (mt_size mt) 0) as (lo & c & -> & ? & ?);
    [lia|lia|lia| |unfold bsearch_fuel; lia|].
  - intros i Hi. unfold memtable_less, is_ret.
    rewrite !load_ok by lia. cbn. eauto.
  - cbn [mbind exec_bind]. exists lo. split_and!; [done|lia|done].
Qed.

(** The probes of the search stay inside the array: they are below [size] and
    read [KEY_LENGTH] bytes. *)
Definition probes_inside (mt : MemTable) : Prop :=
  0 ≤ mt_size mt ≤ 2 ^ 31 ∧ mt_size mt + KEY_LENGTH ≤ lenZ (mt_data mt) + 1.

(** The key [k] is above the bytes at offset [i]. *)
Definition below (mt : MemTable) (k : bytes) (i : Z) : bool :=
  memcmp (slice (mt_data mt) i KEY_LENGTH) k <? 0.

(** Where the search ends. *)
Lemma memtable_search_bracket mt key :
  probes_inside mt → KEY_LENGTH ≤ lenZ key →
  let k := slice key 0 KEY_LENGTH in
  ∃ lo hi, memtable_search mt key = Ret lo ∧ 0 ≤ lo ∧
    (lo = 0 ∨ 0 ≤ lo - E < mt_size mt ∧ below mt k (lo - E) = true) ∧
    (hi = mt_size mt ∨ 0 ≤ hi < mt_size mt ∧ below mt k hi = false) ∧
    hi ≤ lo < hi + E.
Proof.
  intros [Hs Hd] Hk k. unfold memtable_search. pose proof entry_pos.
  destruct (bsearch_bracket (below mt k) (memtable_less (mt_data mt) key) E
    (bsearch_fuel 0 (mt_size mt)) 0 (mt_size mt) 0)
    as (lo & c & hi & -> & Hlo & Hbelow & Hhi & Hle & Hnear);
    [lia|lia|lia| |unfold bsearch_fuel; lia|].
  - intros i Hi. unfold memtable_less. by rewrite !load_ok by lia.
  - cbn [mbind exec_bind]. exists lo, hi. split_and!; [done|lia|done|done|done|].
    destruct Hhi as [->|[? _]]; lia.
Qed.

Lemma slice_app_slice m off n k :
  0 ≤ off → 0 ≤ n → 0 ≤ k → slice m off n ++ slice m (off + n) k = slice m off (n + k).
Proof.
  intros. unfold slice. rewrite Z2Nat.inj_add, Z2Nat.inj_add by lia.
  rewrite <- drop_drop. by rewrite take_take_drop.
Qed.

Lemma splice_splice_next m off a b :
  0 ≤ off → off + lenZ a + lenZ b ≤ lenZ m →
  splice (splice m off a) (off + lenZ a) b = splice m off (a ++ b).
Proof.
  intros Ho Hle. apply list_eq. intros i. pose proof (lenZ_nonneg a).
  pose proof (lenZ_nonneg b).
  rewrite !lookup_splice; rewrite ?lenZ_splice, ?lenZ_app by lia; try lia.
  case_bool_decide.
  - rewrite bool_decide_eq_true_2 by lia.
    rewrite lookup_app_r by (unfold lenZ in *; lia). f_equal. unfold lenZ in *. lia.
  - case_bool_decide.
    + rewrite bool_decide_eq_true_2 by lia.
      by rewrite lookup_app_l by (unfold lenZ in *; lia).
    + by rewrite bool_decide_eq_false_2 by lia.
Qed.

(** The shifting loop in closed form: it puts the carried entry at [dest] and
    the [n * E] bytes that were there behind it; it stays inside the array
    exactly when those [n + 1] entries do. *)
Lemma shift_entries_ok n data dest buf :
  lenZ buf = E → 0 ≤ dest → dest + (Z.of_nat n + 1) * E ≤ lenZ data →
  shift_entries n data dest buf =
    Ret (splice data dest (buf ++ slice data dest (Z.of_nat n * E))).
Proof.
  pose proof entry_pos. revert data dest buf.
  induction n as [|n IH]; intros data dest buf Hb Hd Hle; cbn [shift_entries].
  - rewrite store_ok by lia. by rewrite Z.mul_0_l, app_nil_r.
  - rewrite load_ok by nia. cbn [mbind exec_bind].
    rewrite store_ok by nia. cbn [mbind exec_bind].
    rewrite IH; [|apply lenZ_slice; nia|nia|rewrite lenZ_splice; nia].
    f_equal. rewrite slice_splice_disjoint by nia.
    rewrite slice_app_slice by nia. rewrite <- Hb at 1.
    rewrite splice_splice_next; [|done|rewrite lenZ_slice; nia].
    do 3 f_equal. lia.
Qed.

Lemma shift_entries_out n data dest buf :
  lenZ buf = E → 0 ≤ dest → lenZ data < dest + (Z.of_nat n + 1) * E →
  shift_entries n data dest buf = Undef OutOfBounds.
Proof.
  pose proof entry_pos. revert data dest buf.
  induction n as [|n IH]; intros data dest buf Hb Hd Hle; cbn [shift_entries].
  - apply store_out. lia.
  - destruct (decide (dest + MEMTABLE_ENTRY_LENGTH ≤ lenZ data)).
    + rewrite load_ok by lia. cbn [mbind exec_bind].
      rewrite store_ok by lia. cbn [mbind exec_bind].
      apply IH; [apply lenZ_slice; lia|nia|].
      rewrite lenZ_splice by lia. nia.
    + by rewrite load_out by lia.
Qed.

End memtable_lemmas.

Section memtable_theorems.
Context {cfg : Config} {ic : IndexConfig cfg}.
Context (HV : 1 ≤ VALUE_LENGTH) (HE : MEMTABLE_ENTRY_LENGTH ≤ 2 ^ 31).

Local Abbreviation E := MEMTABLE_ENTRY_LENGTH.

(** C38: A read of a table whose probes stay inside the array.  The search ends
    at 0 or one entry behind bytes below the key, and less than an entry behind
    the end of the table or behind bytes not below the key.  There, and nowhere
    else, the read looks for the key: it answers the value bytes that follow it
    (undefined if they are not all inside the array) exactly when the key is
    there and below [size].  So a key at the start of the table is found when
    nothing in the table is below it. *)
Theorem memtable_read_spec mt key :
  probes_inside mt → KEY_LENGTH ≤ lenZ key →
  let k := slice key 0 KEY_LENGTH in
  ∃ lo hi, memtable_search mt key = Ret lo ∧
    (lo = 0 ∨ 0 ≤ lo - E < mt_size mt ∧ below mt k (lo - E) = true) ∧
    (hi = mt_size mt ∨ 0 ≤ hi < mt_size mt ∧ below mt k hi = false) ∧ hi ≤ lo < hi + E ∧
    read mt key =
      (if bool_decide (lo < mt_size mt ∧ slice (mt_data mt) lo KEY_LENGTH = k)
       then if bool_decide (lo + E ≤ lenZ (mt_data mt))
            then Ret (Some (slice (mt_data mt) (lo + KEY_LENGTH) VALUE_LENGTH))
            else Undef OutOfBounds
       else Ret None) ∧
    ((∀ i, 0 ≤ i < mt_size mt → below mt k i = false) → 0 < mt_size mt →
     slice (mt_data mt) 0 KEY_LENGTH = k → E ≤ lenZ (mt_data mt) →
     read mt key = Ret (Some (slice (mt_data mt) KEY_LENGTH VALUE_LENGTH))).
Proof.
  intros Hw Hk k. pose proof ic_key as HK. pose proof Hw as [Hs Hd].
  destruct (memtable_search_bracket HK HV HE mt key Hw Hk)
    as (lo & hi & Hsearch & Hlo & Hbelow & Hhi & Hnear). fold k in Hbelow, Hhi.
  set (found := bool_decide (lo < mt_size mt ∧ slice (mt_data mt) lo KEY_LENGTH = k)).
  assert (Hread : read mt key =
    (if found then if bool_decide (lo + E ≤ lenZ (mt_data mt))
            then Ret (Some (slice (mt_data mt) (lo + KEY_LENGTH) VALUE_LENGTH))
            else Undef OutOfBounds
     else Ret None)).
  { unfold read, found. rewrite Hsearch. cbn [mbind exec_bind].
    destruct (Z.ltb_spec lo (mt_size mt)).
    2:{ rewrite bool_decide_eq_false_2; [done|lia]. }
    rewrite (load_ok (mt_data mt) lo), (load_ok key) by lia. cbn [mbind exec_bind]. fold k.
    rewrite (memcmp_eqb (slice (mt_data mt) lo KEY_LENGTH) k)
      by (unfold k; rewrite !lenZ_slice by lia; done).
    unfold MEMTABLE_ENTRY_LENGTH. case_bool_decide as Hkey.
    - rewrite bool_decide_eq_true_2 by done. case_bool_decide.
      + by rewrite load_ok by lia.
      + by rewrite load_out by lia.
    - rewrite bool_decide_eq_false_2 by tauto. done. }
  exists lo, hi. split_and!; try (done || lia). intros Hall H0 H1 Hfit. rewrite Hread.
  assert (lo = 0) as ->.
  { destruct Hbelow as [->|[Hr Hb]]; [done|]. by rewrite Hall in Hb. }
  unfold found. rewrite bool_decide_eq_true_2 by done. by rewrite bool_decide_eq_true_2 by lia.
Qed.

(** C39: A write to a table whose probes stay inside the array, on every branch.
    When the search ends at the end of the table it stores the value but not
    the key, and records the value as the table's upper bound; the array ends
    before the value does when there is no room for an entry, which the
    main thread does not rule out.  Elsewhere it stores key and value and moves
    the [(size - lo) * MEMTABLE_ENTRY_LENGTH] bytes from there on behind them,
    running over the end of the array when those do not fit. *)
Theorem memtable_write_spec mt key value t si :
  probes_inside mt → KEY_LENGTH ≤ lenZ key → VALUE_LENGTH ≤ lenZ value →
  KEY_LENGTH ≤ lenZ value → index_wf (index si) → 0 ≤ t < LEVEL_FACTOR →
  ∃ lo, memtable_search mt key = Ret lo ∧ 0 ≤ lo ∧
    let k := slice key 0 KEY_LENGTH in
    let v := slice value 0 VALUE_LENGTH in
    let size' := u32 (mt_size mt + E) in
    if bool_decide (lo = mt_size mt) then
      if bool_decide (mt_size mt + E ≤ lenZ (mt_data mt)) then
        ∃ si', write mt key value t si =
            Ret (MkMemTable (splice (mt_data mt) (lo + KEY_LENGTH) v) size', si') ∧
          table_max (index si') t = slice value 0 KEY_LENGTH
      else write mt key value t si = Undef OutOfBounds
    else if bool_decide (lo + (Z.max 0 (mt_size mt - lo) + 1) * E ≤ lenZ (mt_data mt)) then
      ∃ si', write mt key value t si =
          Ret (MkMemTable
                 (splice (mt_data mt) lo
                    (k ++ v ++ slice (mt_data mt) lo (Z.max 0 (mt_size mt - lo) * E)))
                 size', si') ∧
        (lo = 0 → table_min (index si') t = slice value 0 KEY_LENGTH) ∧
        (lo ≠ 0 → si' = si)
    else write mt key value t si = Undef OutOfBounds.
Proof.
  intros Hw Hk Hv Hvk Hix Ht. pose proof ic_key. pose proof Hw as [Hs Hd].
  destruct (memtable_search_bracket ic_key HV HE mt key Hw Hk) as (lo & _ & Hlo & Hlo0 & _).
  exists lo. split_and!; [done..|]. cbn zeta. unfold write. rewrite Hlo.
  cbn [mbind exec_bind].
  destruct (load_key_arg value Hvk) as [Hlv Hlvk].
  assert (Hkv : lenZ (slice key 0 KEY_LENGTH ++ slice value 0 VALUE_LENGTH) = E).
  { rewrite lenZ_app, !lenZ_slice by lia. done. }
  case_bool_decide as Hend; decide_tests.
  - rewrite load_ok by lia. cbn [mbind exec_bind].
    assert (Hsv : lenZ (slice value 0 VALUE_LENGTH) = VALUE_LENGTH) by (apply lenZ_slice; lia).
    unfold MEMTABLE_ENTRY_LENGTH in *. case_bool_decide as Hfit; [|by rewrite store_out by lia].
    rewrite store_ok by lia. cbn [mbind exec_bind].
    unfold set_table_max_key. rewrite Hlv. cbn [mbind exec_bind].
    rewrite table_offset_ok by lia.
    destruct (table_write_max (index si) t _ Hix Ht Hlvk) as (-> & _ & HM & _).
    eexists. split; [done|]. done.
  - destruct (table_write_min (index si) t _ Hix Ht Hlvk) as (Hst & _ & Hmin & _).
    assert (Hsi : ∃ si', (if lo =? 0 then set_table_min_key si t value else Ret si)
        = Ret si' ∧ (lo = 0 → table_min (index si') t = slice value 0 KEY_LENGTH) ∧
        (lo ≠ 0 → si' = si)).
    { destruct (Z.eqb_spec lo 0); [|by exists si].
      unfold set_table_min_key. rewrite Hlv. cbn [mbind exec_bind].
      rewrite table_offset_ok, Hst by lia. eexists. split; [done|]. by split. }
    destruct Hsi as (si' & -> & Hsi1 & Hsi2). cbn [mbind exec_bind].
    rewrite !load_ok by lia. cbn [mbind exec_bind].
    case_bool_decide as Hfit.
    + rewrite (shift_entries_ok ic_key HV); [|done|done|lia].
      cbn [mbind exec_bind]. exists si'. split; [|done].
      rewrite <- (assoc_L (++)).
      by replace (Z.of_nat (Z.to_nat (mt_size mt - lo)))
        with (Z.max 0 (mt_size mt - lo)) by lia.
    + rewrite (shift_entries_out ic_key HV); [done|done|done|lia].
Qed.

(** Emptying a table zeroes its bytes but keeps its size, so the table
    still counts as full, while every lookup of a non-zero key misses. *)
Theorem empty_out_keeps_size mt key :
  mt_wf mt → lenZ (mt_data mt) = memtable_capacity → proper_key key →
  ∃ mt', empty_out mt = Ret mt' ∧ mt_data mt' = zeros memtable_capacity ∧
    mt_size mt' = mt_size mt ∧ read mt' key = Ret None.
Proof.
  intros Hw Hcap (Hk & Hvk & Hnn). pose proof ic_key. pose proof Hw as [Hs Hd].
  pose proof (lenZ_nonneg (mt_data mt)).
  assert (Hz : lenZ (zeros memtable_capacity) = memtable_capacity)
    by (apply lenZ_zeros; lia).
  unfold empty_out. rewrite store_ok by lia. cbn [mbind exec_bind].
  assert (HD : splice (mt_data mt) 0 (zeros memtable_capacity) = zeros memtable_capacity).
  { unfold splice. change (Z.to_nat 0) with 0%nat. rewrite drop_ge, app_nil_r.
    - done.
    - unfold lenZ in *. lia. }
  rewrite HD. eexists. split; [done|]. split_and!; [done..|].
  set (mt' := MkMemTable _ _).
  assert (Hw' : mt_wf mt') by (split; cbn; rewrite ?Hz; lia).
  destruct (memtable_search_ok ic_key HV HE mt' key Hw' Hk) as (lo & Hlo & Hlo0 & _).
  unfold read. rewrite Hlo. cbn [mbind exec_bind mt_size mt_data mt'].
  destruct (Z.ltb_spec lo (mt_size mt)); [|done].
  unfold MEMTABLE_ENTRY_LENGTH in *.
  rewrite !load_ok by lia. cbn [mbind exec_bind].
  rewrite slice_zeros by lia. fold null_key.
  destruct (Z.eqb_spec (memcmp null_key (slice key 0 KEY_LENGTH)) 0) as [E0|]; [|done].
  exfalso. apply Hnn. symmetry. apply memcmp_0; [|done].
  apply lenZ_length_eq. rewrite lenZ_null_key, lenZ_slice by lia. done.
Qed.

End memtable_theorems.

(** The bytes of the only entry after the first write: a zero key byte, then
    the value. *)
Lemma first_entry_bytes N v0 v1 :
  3 ≤ N →
  load (splice (zeros N) 1 [v0; v1]) 0 1 = Ret [0] ∧
  load (splice (zeros N) 1 [v0; v1]) 1 1 = Ret [v0].
Proof.
  intros HN. assert (Hz : lenZ (zeros N) = N) by (apply lenZ_zeros; lia).
  assert (H2 : lenZ [v0; v1] = 2) by done.
  rewrite !load_ok by (rewrite ?lenZ_splice; lia). split; f_equal.
  - rewrite slice_splice_disjoint, slice_zeros by lia. done.
  - destruct N as [|N|N]; try lia. unfold zeros, splice, slice.
    destruct (Pos.to_nat N) as [|[|n]] eqn:En; try lia.
    change (Z.to_nat (Z.pos N)) with (Pos.to_nat N). by rewrite En.
Qed.

(** In the shipped configuration a value written to an empty table cannot
    be read back: the write stores no key, and the search that should find it
    ends past the only entry. *)
Theorem first_write_is_lost (N k v0 v1 t : Z) (si : SparseIndex) :
  3 ≤ N → 0 < k → @index_wf cmake_config (index si) → 0 ≤ t < 10 →
  ∃ mt' si', @write cmake_config (MkMemTable (zeros N) 0) [k] [v0; v1] t si
             = Ret (mt', si') ∧
    mt_size mt' = 3 ∧ @read cmake_config mt' [k] = Ret None.
Proof.
  intros HN Hk Hix Ht. assert (Hz : lenZ (zeros N) = N) by (apply lenZ_zeros; lia).
  unfold write. change (memtable_search (MkMemTable (zeros N) 0) [k]) with (Ret 0).
  cbn [mbind exec_bind mt_size mt_data]. change (0 =? 0) with true. cbn iota.
  change (load [v0; v1] 0 VALUE_LENGTH) with (Ret [v0; v1]). cbn [mbind exec_bind].
  change (0 + @KEY_LENGTH cmake_config) with 1.
  rewrite store_ok by (try change (lenZ [v0; v1]) with 2; lia). cbn [mbind exec_bind].
  destruct (table_write_max (index si) t [v0] Hix Ht eq_refl) as (Hst & _).
  unfold set_table_max_key.
  change (load [v0; v1] 0 KEY_LENGTH) with (Ret [v0]). cbn [mbind exec_bind].
  rewrite table_offset_ok, Hst by (cbn; lia). cbn [mbind exec_bind].
  do 2 eexists. split; [done|]. split; [done|].
  set (data := splice (zeros N) 1 [v0; v1]).
  destruct (first_entry_bytes N v0 v1 HN) as [H0 H1]. fold data in H0, H1.
  assert (L1 : @memtable_less cmake_config data [k] 1 = Ret (memcmp [v0] [k] <? 0)).
  { unfold memtable_less. change (@KEY_LENGTH cmake_config) with 1. by rewrite H1. }
  assert (L0 : @memtable_less cmake_config data [k] 0 = Ret true).
  { unfold memtable_less. change (@KEY_LENGTH cmake_config) with 1. rewrite H0.
    change (load [k] 0 1) with (Ret [k]). cbn [mbind exec_bind memcmp].
    by rewrite (proj2 (Z.ltb_lt 0 k)) by lia. }
  unfold read, memtable_search. cbn [mt_size mt_data].
  change (u32 (0 + MEMTABLE_ENTRY_LENGTH)) with 3.
  change (bsearch_fuel 0 3) with 4%nat.
  rewrite bsearch_step by lia. change (Z.shiftr (u32 (0 + 3)) 1) with 1.
  cbn zeta. rewrite L1. cbn [mbind exec_bind].
  destruct (memcmp [v0] [k] <? 0); [done|].
  rewrite bsearch_step by lia. change (Z.shiftr (u32 (0 + 1)) 1) with 0.
  cbn zeta. rewrite L0. done.
Qed.

Lemma first_write_is_lost_witness :
  ∃ mt' si', @write cmake_config (MkMemTable (zeros 6) 0) [97] [98; 98] 0
               (@new_SparseIndex cmake_config) = Ret (mt', si') ∧
    mt_size mt' = 3 ∧ @read cmake_config mt' [97] = Ret None.
Proof.
  exact (first_write_is_lost 6 97 98 98 0 (@new_SparseIndex cmake_config)
    ltac:(lia) ltac:(lia) eq_refl ltac:(lia)).
Defined.

(** A table of two entries, keys 3 and 5. *)
Definition demo_table : MemTable := MkMemTable [3;9;9;5;2;2;0;0;0;0;0;0;0;0;0] 6.

Lemma demo_table_wf : @mt_wf cmake_config demo_table.
Proof. split; [cbn; lia|by vm_compute]. Qed.

Lemma demo_table_inside : @probes_inside cmake_config demo_table.
Proof. split; [cbn; lia|by vm_compute]. Qed.

(** Both keys are found; the search for the second ends one entry behind the
    first, whose key is below it. *)
Lemma memtable_read_spec_witness :
  @read cmake_config demo_table [3] = Ret (Some [9; 9]) ∧
  @read cmake_config demo_table [5] = Ret (Some [2; 2]) ∧
  @read cmake_config demo_table [4] = Ret None.
Proof.
  assert (Hkey : ∀ k lo, @memtable_search cmake_config demo_table [k] = Ret lo →
    @read cmake_config demo_table [k] =
      (if bool_decide (lo < 6 ∧ slice (mt_data demo_table) lo 1 = [k])
       then if bool_decide (lo + 3 ≤ 15) then Ret (Some (slice (mt_data demo_table) (lo + 1) 2))
            else Undef OutOfBounds
       else Ret None)).
  { intros k lo Hlo.
    destruct (@memtable_read_spec cmake_config _ ltac:(done) ltac:(done) demo_table [k]
      demo_table_inside ltac:(done)) as (lo' & hi & E & _ & _ & _ & Hr & _).
    rewrite Hlo in E. injection E as <-. exact Hr. }
  split_and!; [rewrite (Hkey 3 0)|rewrite (Hkey 5 3)|rewrite (Hkey 4 3)]; by vm_compute.
Defined.

(** A table without room for another entry. *)
Definition full_table : MemTable := MkMemTable [3;9;9;5;2;2;0] 6.

(** The key 9 belongs at the end: its value is stored, the key is not; without
    room the value leaves the array. *)
Lemma memtable_write_spec_witness :
  (∃ si', @write cmake_config demo_table [9] [8; 7] 0 (@new_SparseIndex cmake_config) =
     Ret (MkMemTable [3;9;9;5;2;2;0;8;7;0;0;0;0;0;0] 9, si')) ∧
  @write cmake_config full_table [9] [8; 7] 0 (@new_SparseIndex cmake_config) = Undef OutOfBounds.
Proof.
  split.
  - destruct (@memtable_write_spec cmake_config _ ltac:(done) ltac:(done) demo_table [9] [8; 7] 0
      (@new_SparseIndex cmake_config) demo_table_inside ltac:(done) ltac:(done) ltac:(done)
      ltac:(done) ltac:(done)) as (lo & E & _ & Hw).
    vm_compute in E. injection E as <-. destruct Hw as (si' & Hw & _). exists si'.
    rewrite Hw. by vm_compute.
  - destruct (@memtable_write_spec cmake_config _ ltac:(done) ltac:(done) full_table [9] [8; 7] 0
      (@new_SparseIndex cmake_config) ltac:(split; [cbn; lia|by vm_compute]) ltac:(done)
      ltac:(done) ltac:(done) ltac:(done) ltac:(done)) as (lo & E & _ & Hw).
    vm_compute in E. injection E as <-. exact Hw.
Defined.

Lemma new_table_wf : @mt_wf cmake_config (@new_MemTable cmake_config).
Proof.
  split; cbn [new_MemTable mt_size mt_data]; [lia|].
  rewrite lenZ_zeros by done. done.
Qed.

Lemma empty_out_keeps_size_witness :
  ∃ mt', @empty_out cmake_config (@new_MemTable cmake_config) = Ret mt' ∧ mt_size mt' = 0.
Proof.
  destruct (@empty_out_keeps_size cmake_config _ ltac:(done) ltac:(done)
    (@new_MemTable cmake_config) [7] new_table_wf) as (mt' & E & _ & Hs & _).
  - cbn [new_MemTable mt_data]. by apply lenZ_zeros.
  - repeat split; try done. by repeat constructor.
  - exists mt'. split; [exact E|exact Hs].
Defined.
