(* ===== verification/Bloom.v ===== *)
(** * The Bloom filter

    [bloom_filter/bloom_filter.hpp], the copy the program includes, and its older
    sibling [filter/bloom_filter.hpp] where it differs.  The number of bits and
    of hashes of a filter come from the third-party [gcem] functions at compile
    time: they are fields of the filter, given when it is created.  OpenMP may
    run the loop bodies of an addition or a check in any order, so both take the
    order as an argument; [seqZ 0 k] is the sequential one. *)

From Stdlib Require Import SpecFloat.
From S2P Require Import Prelude Floats Config.

Definition BLOOM_SUCCESS : Z := 1.
Definition BLOOM_FAILURE : Z := 0.

(** ** Hashing *)

(** The bytes before the first zero byte: what [strlen] delimits.  Running off
    the region is undefined. *)
Fixpoint c_string (m : bytes) : exec bytes :=
  match m with
  | [] => Undef OutOfBounds
  | b :: m' => if b =? 0 then Ret [] else s ← c_string m'; Ret (b :: s)
  end.

Definition fnv_step (h c : Z) : Z := u64 (Z.lxor h c * 1099511628211).

(** [__fnv_1a] *)
Definition fnv_1a (key : bytes) (seed : Z) : exec Z :=
  s ← c_string key;
  Ret (foldl fnv_step (u64 (14695981039346656037 + 31 * seed)) s).

(** [__default_hash] *)
Definition default_hash (num_hashes : Z) (str : bytes) : exec (list Z) :=
  foldM (λ results i, h ← fnv_1a str i; Ret (results ++ [h]))
    (seqZ 0 num_hashes) [].

(** A [BloomHashFunction] pointer: the default one, or some other function of
    the caller. *)
Inductive BloomHashFunction : Set :=
  | default_hash_fn
  | custom_hash_fn (id : Z).

#[global] Instance BloomHashFunction_eq_dec : EqDecision BloomHashFunction.
Proof. solve_decision. Defined.

(** ** The filter *)

Record BloomFilter : Set := MkBloomFilter {
  estimated_elements : Z;
  number_hashes : Z;
  number_bits : Z;
  bloom : bytes;
  bloom_length : Z;
  elements_added : Z;
  hash_function : BloomHashFunction
}.

(** [B2], [B4], [B6] and [bits_set_table] *)
Definition B2 (n : Z) : list Z := [n; n + 1; n + 1; n + 2].
Definition B4 (n : Z) : list Z := B2 n ++ B2 (n + 1) ++ B2 (n + 1) ++ B2 (n + 2).
Definition B6 (n : Z) : list Z := B4 n ++ B4 (n + 1) ++ B4 (n + 1) ++ B4 (n + 2).
Definition bits_set_table : list Z := B6 0 ++ B6 1 ++ B6 1 ++ B6 2.

(** [__sum_bits_set_char] *)
Definition sum_bits_set_char (c : Z) : exec Z := getZ bits_set_table c.

Section filter.
Context {cfg : Config}.
Context (custom_hash : Z → Z → bytes → exec (list Z)).
Context (logf : spec_float → spec_float).

(** [compile_time_bloom_length]: [CHAR_LEN] is the macro [KEY_LENGTH]. *)
Definition compile_time_bloom_length (m : Z) : Z := (m + KEY_LENGTH - 1) / KEY_LENGTH.

Definition padded_bloom_length (m : Z) : Z :=
  Z.lcm (compile_time_bloom_length m) ALIGN_NO_FALSE_SHARING.

(** The constructor of the included copy zeroes the bit array. *)
Definition new_BloomFilter (n k m : Z) : BloomFilter :=
  MkBloomFilter n k m (zeros (padded_bloom_length m)) (padded_bloom_length m) 0
    default_hash_fn.

(** That of the older copy leaves the array as the memory was. *)
Definition legacy_new_BloomFilter (n k m : Z) (garbage : bytes) : BloomFilter :=
  MkBloomFilter n k m garbage (padded_bloom_length m) 0 default_hash_fn.

Definition bloom_filter_set_hash_function (bf : BloomFilter)
    (f : option BloomHashFunction) : BloomFilter :=
  MkBloomFilter (estimated_elements bf) (number_hashes bf) (number_bits bf)
    (bloom bf) (bloom_length bf) (elements_added bf)
    (default default_hash_fn f).

Definition with_bloom (bf : BloomFilter) (b : bytes) (added : Z) : BloomFilter :=
  MkBloomFilter (estimated_elements bf) (number_hashes bf) (number_bits bf) b
    (bloom_length bf) added (hash_function bf).

Definition bloom_filter_clear (bf : BloomFilter) : exec (BloomFilter * Z) :=
  b ← foldM (λ b i, setZ b i 0) (seqZ 0 (bloom_length bf)) (bloom bf);
  Ret (with_bloom bf b 0, BLOOM_SUCCESS).

Definition bloom_filter_calculate_hashes (bf : BloomFilter) (str : bytes)
    (num_hashes : Z) : exec (list Z) :=
  match hash_function bf with
  | default_hash_fn => default_hash num_hashes str
  | custom_hash_fn id => custom_hash id num_hashes str
  end.

(** [hashes[i] % bf->number_bits] *)
Definition probe (bits : Z) (hashes : list Z) (i : Z) : exec Z :=
  h ← getZ hashes i;
  if bits =? 0 then Undef DivideByZero else Ret (h mod bits).

(** The loop body of an addition. *)
Definition set_probe (bits : Z) (hashes : list Z) (b : bytes) (i : Z)
    : exec bytes :=
  p ← probe bits hashes i;
  c ← getZ b (p / 8);
  setZ b (p / 8) (Z.lor c (Z.shiftl 1 (p mod 8)) mod 256).

Definition bloom_filter_add_string_alt (order : list Z) (bf : BloomFilter)
    (hashes : list Z) (number_hashes_passed : Z) : exec (BloomFilter * Z) :=
  if number_hashes_passed <? number_hashes bf then Ret (bf, BLOOM_FAILURE)
  else
    b ← foldM (set_probe (number_bits bf) hashes) order (bloom bf);
    Ret (with_bloom bf b (u64 (elements_added bf + 1)), BLOOM_SUCCESS).

(** [CHECK_BIT(bf->bloom, hashes[i] % bf->number_bits)]: the masked byte. *)
Definition check_probe (bits : Z) (hashes : list Z) (b : bytes) (i : Z)
    : exec Z :=
  p ← probe bits hashes i;
  c ← getZ b (p / 8);
  Ret (Z.land c (Z.shiftl 1 (p mod 8))).

Definition bloom_filter_check_string_alt (order : list Z) (bf : BloomFilter)
    (hashes : list Z) (number_hashes_passed : Z) : exec Z :=
  if number_hashes_passed <? number_hashes bf then Ret BLOOM_FAILURE
  else
    r ← foldM (λ r i, c ← check_probe (number_bits bf) hashes (bloom bf) i;
                      Ret (i32 (r + c))) order 0;
    Ret (if u32 r =? number_hashes bf then BLOOM_SUCCESS else BLOOM_FAILURE).

(** The older copy overwrites [r] in every iteration and returns it.  Its
    [#pragma omp atomic update] stands before an assignment that is no update,
    which compilers refuse with OpenMP; without it the pragmas are ignored and
    the loop is sequential. *)
Definition legacy_check_string_alt (bf : BloomFilter)
    (hashes : list Z) (number_hashes_passed : Z) : exec Z :=
  if number_hashes_passed <? number_hashes bf then Ret BLOOM_FAILURE
  else foldM (λ _ i, check_probe (number_bits bf) hashes (bloom bf) i)
         (seqZ 0 (number_hashes bf)) BLOOM_SUCCESS.

Definition bloom_filter_add_string (bf : BloomFilter) (str : bytes)
    : exec (BloomFilter * Z) :=
  hashes ← bloom_filter_calculate_hashes bf str (number_hashes bf);
  bloom_filter_add_string_alt (seqZ 0 (number_hashes bf)) bf hashes (number_hashes bf).

Definition bloom_filter_check_string (bf : BloomFilter) (str : bytes) : exec Z :=
  hashes ← bloom_filter_calculate_hashes bf str (number_hashes bf);
  bloom_filter_check_string_alt (seqZ 0 (number_hashes bf)) bf hashes (number_hashes bf).

(** The same in the older copy. *)
Definition legacy_check_string (bf : BloomFilter) (str : bytes) : exec Z :=
  hashes ← bloom_filter_calculate_hashes bf str (number_hashes bf);
  legacy_check_string_alt bf hashes (number_hashes bf).

(** [elements += table[byte]] over the first [bloom_length] bytes. *)
Definition sum_bits (n : Z) (byte_at : Z → exec Z) : exec Z :=
  foldM (λ res i, c ← byte_at i; s ← sum_bits_set_char c; Ret (u64 (res + s)))
    (seqZ 0 n) 0.

Definition bloom_filter_count_set_bits (bf : BloomFilter) : exec Z :=
  sum_bits (bloom_length bf) (getZ (bloom bf)).

(** [__check_if_union_or_intersection_ok] *)
Definition check_if_union_or_intersection_ok (res bf1 bf2 : BloomFilter) : Z :=
  if bool_decide (number_hashes res ≠ number_hashes bf1 ∨
                  number_hashes bf1 ≠ number_hashes bf2) then BLOOM_FAILURE
  else if bool_decide (number_bits res ≠ number_bits bf1 ∨
                       number_bits bf1 ≠ number_bits bf2) then BLOOM_FAILURE
  else if bool_decide (hash_function res ≠ hash_function bf1 ∨
                       hash_function bf1 ≠ hash_function bf2) then BLOOM_FAILURE
  else BLOOM_SUCCESS.

(** [(uint64_t)-(((float) m / k) * log(1 - ((float) X / (float) m)))] *)
Definition bloom_filter_estimate_elements_by_values (m X k : Z) : exec Z :=
  let log_n := logf (f32_sub f32_one (f32_div (f32_of_Z X) (f32_of_Z m))) in
  to_uint 64 (SFopp (f32_mul (f32_div (f32_of_Z m) (f32_of_Z k)) log_n)).

(** The number of hashes is passed as an [int]. *)
Definition bloom_filter_estimate_elements (bf : BloomFilter) : exec Z :=
  x ← bloom_filter_count_set_bits bf;
  bloom_filter_estimate_elements_by_values (number_bits bf) x (i32 (number_hashes bf)).

Definition bloom_filter_set_elements_to_estimated (bf : BloomFilter)
    : exec BloomFilter :=
  n ← bloom_filter_estimate_elements bf;
  Ret (with_bloom bf (bloom bf) n).

(** The byte loop of [bloom_filter_union] and [bloom_filter_intersect]. *)
Definition combine_into (op : Z → Z → Z) (n : Z) (res b1 b2 : bytes) : exec bytes :=
  foldM (λ r i, x ← getZ b1 i; y ← getZ b2 i; setZ r i (op x y)) (seqZ 0 n) res.

Definition bloom_filter_union (res bf1 bf2 : BloomFilter)
    : exec (BloomFilter * Z) :=
  if check_if_union_or_intersection_ok res bf1 bf2 =? BLOOM_FAILURE
  then Ret (res, BLOOM_FAILURE)
  else
    b ← combine_into Z.lor (bloom_length bf1) (bloom res) (bloom bf1) (bloom bf2);
    res' ← bloom_filter_set_elements_to_estimated (with_bloom res b (elements_added res));
    Ret (res', BLOOM_SUCCESS).

Definition bloom_filter_intersect (res bf1 bf2 : BloomFilter)
    : exec (BloomFilter * Z) :=
  if check_if_union_or_intersection_ok res bf1 bf2 =? BLOOM_FAILURE
  then Ret (res, BLOOM_FAILURE)
  else
    b ← combine_into Z.land (bloom_length bf1) (bloom res) (bloom bf1) (bloom bf2);
    res' ← bloom_filter_set_elements_to_estimated (with_bloom res b (elements_added res));
    Ret (res', BLOOM_SUCCESS).

Definition bloom_filter_count_union_bits_set (bf1 bf2 : BloomFilter) : exec Z :=
  if check_if_union_or_intersection_ok bf1 bf1 bf2 =? BLOOM_FAILURE
  then Ret BLOOM_FAILURE
  else sum_bits (bloom_length bf1)
         (λ i, x ← getZ (bloom bf1) i; y ← getZ (bloom bf2) i; Ret (Z.lor x y)).

Definition bloom_filter_count_intersection_bits_set (bf1 bf2 : BloomFilter)
    : exec Z :=
  if check_if_union_or_intersection_ok bf1 bf1 bf2 =? BLOOM_FAILURE
  then Ret BLOOM_FAILURE
  else sum_bits (bloom_length bf1)
         (λ i, x ← getZ (bloom bf1) i; y ← getZ (bloom bf2) i; Ret (Z.land x y)).

End filter.

(** ** Bits *)

(** Bit [p] of a bit array kept in bytes. *)
Definition bit_set (b : bytes) (p : Z) : bool :=
  match b !! Z.to_nat (p / 8) with
  | Some c => Z.testbit c (p mod 8)
  | None => false
  end.

Definition probe_pos (bits : Z) (hashes : list Z) (i : Z) : Z :=
  (hashes !!! Z.to_nat i) mod bits.

Definition bloom_wf (bf : BloomFilter) : Prop :=
  1 ≤ number_bits bf ≤ 8 * lenZ (bloom bf) ∧ valid_bytes (bloom bf) ∧
  bloom_length bf = lenZ (bloom bf) ∧ 0 ≤ number_hashes bf < 2 ^ 23.

Lemma testbit_byte_high c n : 0 ≤ c < 256 → 8 ≤ n → Z.testbit c n = false.
Proof.
  intros Hc Hn. rewrite <- (Z.mod_small c (2 ^ 8)) by lia.
  by apply Z.mod_pow2_bits_high.
Qed.

Lemma valid_bytes_lookup b i c : valid_bytes b → b !! i = Some c → 0 ≤ c < 256.
Proof. intros Hv Hc. exact (Forall_lookup_1 _ _ _ _ Hv Hc). Qed.

(** A bit array is determined by its length and its bits. *)
Lemma bit_array_ext b1 b2 :
  valid_bytes b1 → valid_bytes b2 → lenZ b1 = lenZ b2 →
  (∀ p, 0 ≤ p → bit_set b1 p = bit_set b2 p) → b1 = b2.
Proof.
  intros H1 H2 Hl Hb.
  apply (list_eq_same_length _ _ (length b1)); [unfold lenZ in *; lia|done|].
  intros i x y Hi Hx Hy. apply Z.bits_inj'. intros n Hn.
  destruct (decide (n < 8)) as [Hn8|].
  - specialize (Hb (8 * Z.of_nat i + n) ltac:(lia)). unfold bit_set in Hb.
    rewrite (Z.mul_comm 8), Z.div_add_l, Z.div_small, Z.add_0_r, Nat2Z.id in Hb by lia.
    rewrite Hx, Hy, Z.add_comm, Z.mod_add, Z.mod_small in Hb by lia. done.
  - rewrite !testbit_byte_high; eauto using valid_bytes_lookup; lia.
Qed.

Lemma testbit_pow2 n m : 0 ≤ n → Z.testbit (Z.shiftl 1 n) m = (m =? n).
Proof.
  intros Hn. rewrite Z.shiftl_mul_pow2, Z.mul_1_l by done.
  destruct (Z.eqb_spec m n) as [->|].
  - by apply Z.pow2_bits_true.
  - by apply Z.pow2_bits_false.
Qed.

(** Setting one bit of a byte. *)
Lemma lor_byte c n :
  0 ≤ c < 256 → 0 ≤ n < 8 →
  let c' := Z.lor c (Z.shiftl 1 n) mod 256 in
  0 ≤ c' < 256 ∧ ∀ m, 0 ≤ m < 8 → Z.testbit c' m = Z.testbit c m || (m =? n).
Proof.
  intros Hc Hn c'. split; [apply Z.mod_pos_bound; lia|].
  intros m Hm. unfold c'. change 256 with (2 ^ 8).
  rewrite Z.mod_pow2_bits_low, Z.lor_spec, testbit_pow2 by lia. done.
Qed.

Section probes.
Context (bits : Z) (hashes : list Z).
Context (Hbits : 1 ≤ bits).
Implicit Types (b : list Z) (i : Z).

Lemma probe_ok i :
  0 ≤ i < lenZ hashes → probe bits hashes i = Ret (probe_pos bits hashes i).
Proof.
  intros Hi. unfold probe, probe_pos.
  destruct (getZ_lt hashes i Hi) as (h & -> & Hh). cbn [mbind exec_bind].
  decide_tests. by rewrite (list_lookup_total_correct _ _ _ Hh).
Qed.

Lemma probe_pos_range i : 0 ≤ probe_pos bits hashes i < bits.
Proof. apply Z.mod_pos_bound. lia. Qed.

(** The byte a probe falls into. *)
Lemma probe_byte b i :
  bits ≤ 8 * lenZ b →
  ∃ c, getZ b (probe_pos bits hashes i / 8) = Ret c ∧
    b !! Z.to_nat (probe_pos bits hashes i / 8) = Some c ∧
    0 ≤ probe_pos bits hashes i / 8 < lenZ b.
Proof.
  intros Hb. pose proof (probe_pos_range i). set (p := probe_pos _ _ _) in *.
  assert (Hr : 0 ≤ p / 8 < lenZ b).
  { split; [apply Z.div_pos; lia|apply Z.div_lt_upper_bound; lia]. }
  destruct (getZ_lt b _ Hr) as (c & ? & ?). by exists c.
Qed.

Lemma set_probe_ok b i :
  bits ≤ 8 * lenZ b → valid_bytes b → 0 ≤ i < lenZ hashes →
  ∃ b', set_probe bits hashes b i = Ret b' ∧ lenZ b' = lenZ b ∧ valid_bytes b' ∧
    ∀ q, 0 ≤ q → bit_set b' q = bit_set b q || (q =? probe_pos bits hashes i).
Proof.
  intros Hb Hv Hi. unfold set_probe. rewrite probe_ok by done. cbn [mbind exec_bind].
  destruct (probe_byte b i Hb) as (c & -> & Hc & Hr). cbn [mbind exec_bind].
  pose proof (probe_pos_range i). set (p := probe_pos _ _ _) in *.
  pose proof (Z.mod_pos_bound p 8 ltac:(lia)).
  destruct (lor_byte c (p mod 8)) as [Hc' Hbits'];
    [by eapply valid_bytes_lookup|done|].
  rewrite setZ_ok by done. eexists. split; [done|].
  split_and!; [apply lenZ_insert|by apply Forall_insert|].
  intros q Hq. unfold bit_set. pose proof (Z.mod_pos_bound q 8 ltac:(lia)).
  destruct (decide (q / 8 = p / 8)) as [E|E].
  - rewrite E, list_lookup_insert_eq, Hc by (unfold lenZ in *; lia).
    rewrite Hbits' by done. f_equal.
    pose proof (Z.div_mod q 8). pose proof (Z.div_mod p 8).
    destruct (Z.eqb_spec (q mod 8) (p mod 8)), (Z.eqb_spec q p); try done; lia.
  - assert (0 ≤ q / 8) by (apply Z.div_pos; lia).
    rewrite list_lookup_insert_ne by lia.
    rewrite (proj2 (Z.eqb_neq q p)) by (intros ->; done). by rewrite orb_false_r.
Qed.

(** A run of additions in any order sets exactly the probed bits. *)
Lemma set_probes_ok order b :
  bits ≤ 8 * lenZ b → valid_bytes b → Forall (λ i, 0 ≤ i < lenZ hashes) order →
  ∃ b', foldM (set_probe bits hashes) order b = Ret b' ∧ lenZ b' = lenZ b ∧
    valid_bytes b' ∧ ∀ q, 0 ≤ q →
      bit_set b' q = bit_set b q || bool_decide (q ∈ probe_pos bits hashes <$> order).
Proof.
  intros Hb Hv Ho. revert b Hb Hv.
  induction Ho as [|i order Hi _ IH]; intros b Hb Hv; cbn [foldM].
  { exists b. split_and!; [done..|]. intros q Hq. by rewrite orb_false_r. }
  destruct (set_probe_ok b i Hb Hv Hi) as (b1 & -> & Hl1 & Hv1 & Hb1).
  cbn [mbind exec_bind].
  destruct (IH b1) as (b2 & -> & Hl2 & Hv2 & Hb2); [lia|done|].
  exists b2. split_and!; [done|lia|done|]. intros q Hq.
  rewrite Hb2, Hb1, <- orb_assoc by done. f_equal.
  rewrite fmap_cons. destruct (Z.eqb_spec q (probe_pos bits hashes i)) as [->|Hne]; cbn.
  - symmetry. apply bool_decide_eq_true_2. by left.
  - apply bool_decide_ext. rewrite elem_of_cons. naive_solver.
Qed.

Lemma check_probe_ok b i :
  bits ≤ 8 * lenZ b → valid_bytes b → 0 ≤ i < lenZ hashes →
  check_probe bits hashes b i =
    Ret (if bit_set b (probe_pos bits hashes i)
         then 2 ^ (probe_pos bits hashes i mod 8) else 0).
Proof.
  intros Hb Hv Hi. unfold check_probe. rewrite probe_ok by done. cbn [mbind exec_bind].
  destruct (probe_byte b i Hb) as (c & -> & Hc & Hr). cbn [mbind exec_bind].
  unfold bit_set. rewrite Hc. f_equal.
  set (n := probe_pos bits hashes i mod 8).
  assert (0 ≤ n < 8) by (apply Z.mod_pos_bound; lia).
  apply Z.bits_inj'. intros m Hm.
  rewrite Z.land_spec, testbit_pow2 by lia.
  destruct (Z.eqb_spec m n) as [->|Hne].
  - rewrite andb_true_r. destruct (Z.testbit c n); [|by rewrite Z.bits_0].
    symmetry. apply Z.pow2_bits_true. lia.
  - rewrite andb_false_r. destruct (Z.testbit c n); [|by rewrite Z.bits_0].
    symmetry. apply Z.pow2_bits_false. lia.
Qed.

(** What the check adds up. *)
Definition probe_value (b : bytes) (i : Z) : Z :=
  if bit_set b (probe_pos bits hashes i)
  then 2 ^ (probe_pos bits hashes i mod 8) else 0.

Definition sum_values (b : bytes) (order : list Z) : Z :=
  foldr (λ i acc, probe_value b i + acc) 0 order.

Lemma probe_value_bounds b i : 0 ≤ probe_value b i ≤ 128.
Proof.
  unfold probe_value. destruct (bit_set _ _); [|lia].
  set (n := _ mod 8). assert (0 ≤ n < 8) by (apply Z.mod_pos_bound; lia).
  split; [apply Z.pow_nonneg; lia|].
  change 128 with (2 ^ 7). apply Z.pow_le_mono_r; lia.
Qed.

Lemma sum_values_bounds b order :
  0 ≤ sum_values b order ≤ 128 * lenZ order.
Proof.
  induction order as [|i order IH]; [done|].
  change (sum_values b (i :: order)) with (probe_value b i + sum_values b order).
  rewrite lenZ_cons. pose proof (probe_value_bounds b i). lia.
Qed.

(** The sum does not depend on the schedule. *)
#[global] Instance sum_values_proper b : Proper (Permutation ==> eq) (sum_values b).
Proof.
  intros l1 l2 Hp. unfold sum_values.
  induction Hp as [|i l1 l2 _ IH|i j l|l1 l2 l3 _ IH1 _ IH2]; cbn [foldr]; lia.
Qed.

Lemma check_probes_ok order b r :
  bits ≤ 8 * lenZ b → valid_bytes b → Forall (λ i, 0 ≤ i < lenZ hashes) order →
  0 ≤ r → r + 128 * lenZ order < 2 ^ 31 →
  foldM (λ r i, c ← check_probe bits hashes b i; Ret (i32 (r + c))) order r =
    Ret (r + sum_values b order).
Proof.
  intros Hb Hv Ho. revert r.
  induction Ho as [|i order Hi _ IH]; intros r Hr Hlen; cbn [foldM].
  { f_equal. cbn. lia. }
  change (sum_values b (i :: order)) with (probe_value b i + sum_values b order).
  rewrite check_probe_ok by done. cbn [mbind exec_bind].
  fold (probe_value b i). pose proof (probe_value_bounds b i).
  rewrite lenZ_cons in Hlen. pose proof (lenZ_nonneg order).
  rewrite i32_small by lia. rewrite IH by lia. f_equal. lia.
Qed.

(** When every probed bit is set the sum is at least the number of probes,
    with equality exactly when every probe hits bit zero of its byte. *)
Lemma sum_values_all_set b order :
  Forall (λ i, bit_set b (probe_pos bits hashes i) = true) order →
  lenZ order ≤ sum_values b order ∧
  (sum_values b order = lenZ order ↔
     Forall (λ i, probe_pos bits hashes i mod 8 = 0) order).
Proof.
  induction 1 as [|i order Hi Hall [IH1 IH2]]; [by split|].
  change (sum_values b (i :: order)) with (probe_value b i + sum_values b order).
  rewrite lenZ_cons, Forall_cons.
  assert (Hv : probe_value b i = 2 ^ (probe_pos bits hashes i mod 8))
    by (unfold probe_value; by rewrite Hi).
  pose proof (Z.mod_pos_bound (probe_pos bits hashes i) 8 ltac:(lia)).
  set (n := probe_pos bits hashes i mod 8) in *. rewrite Hv.
  destruct (decide (n = 0)) as [->|].
  - change (2 ^ 0) with 1. split; [lia|]. rewrite <- IH2. split; [split|]; lia.
  - assert (2 ^ 1 ≤ 2 ^ n) by (apply Z.pow_le_mono_r; lia). split; [lia|].
    split; [lia|]. intros [? _]. done.
Qed.

End probes.

(** ** Additions and checks *)

Section bloom_operations.
Context {cfg : Config}.
Implicit Types (bf : BloomFilter) (order hashes : list Z).

(** An order OpenMP may run the [number_hashes] iterations in. *)
Definition schedule (bf : BloomFilter) (order : list Z) : Prop :=
  order ≡ₚ seqZ 0 (number_hashes bf).

Definition probed (bf : BloomFilter) (hashes : list Z) (q : Z) : bool :=
  bool_decide (q ∈ probe_pos (number_bits bf) hashes <$> seqZ 0 (number_hashes bf)).

Lemma schedule_Forall bf order hashes :
  schedule bf order → number_hashes bf ≤ lenZ hashes →
  Forall (λ i, 0 ≤ i < lenZ hashes) order.
Proof.
  intros Hp Hl. unfold schedule in Hp. rewrite Hp. apply Forall_forall. intros i Hi.
  apply elem_of_seqZ in Hi. lia.
Qed.

Lemma schedule_lenZ bf order :
  schedule bf order → 0 ≤ number_hashes bf → lenZ order = number_hashes bf.
Proof.
  intros Hp Hk. unfold lenZ. rewrite (Permutation_length Hp), length_seqZ. lia.
Qed.

Lemma schedule_seqZ bf : schedule bf (seqZ 0 (number_hashes bf)).
Proof. by red. Qed.

(** One addition, in whatever order it runs. *)
Lemma add_alt_ok order bf hashes passed :
  bloom_wf bf → schedule bf order → number_hashes bf ≤ lenZ hashes →
  number_hashes bf ≤ passed →
  ∃ b', bloom_filter_add_string_alt order bf hashes passed =
      Ret (with_bloom bf b' (u64 (elements_added bf + 1)), BLOOM_SUCCESS) ∧
    lenZ b' = lenZ (bloom bf) ∧ valid_bytes b' ∧
    ∀ q, 0 ≤ q → bit_set b' q = bit_set (bloom bf) q || probed bf hashes q.
Proof.
  intros (Hm & Hv & Hlen & Hk) Hp Hl Hpass. unfold bloom_filter_add_string_alt.
  decide_tests.
  destruct (set_probes_ok (number_bits bf) hashes ltac:(lia) order (bloom bf))
    as (b' & -> & Hl' & Hv' & Hb'); [lia|done|by eapply schedule_Forall|].
  exists b'. split_and!; [done..|]. intros q Hq. rewrite Hb' by done. f_equal.
  unfold probed. apply bool_decide_ext. unfold schedule in Hp. by rewrite Hp.
Qed.

Lemma with_bloom_wf bf b n :
  bloom_wf bf → lenZ b = lenZ (bloom bf) → valid_bytes b → bloom_wf (with_bloom bf b n).
Proof. intros (? & ? & ? & ?) Hl Hv. unfold bloom_wf. cbn. split_and!; try done; lia. Qed.

(** C9: An addition with enough hashes runs without undefined behaviour, reports
    success, counts the element, sets exactly the probed bits on top of the
    bits already set and keeps the filter well formed; and the result does not
    depend on the order in which the OpenMP threads execute the loop bodies.
    With too few hashes it reports failure and changes nothing. *)
Theorem add_string_alt_spec order bf hashes passed :
  bloom_wf bf → schedule bf order → number_hashes bf ≤ lenZ hashes →
  (passed < number_hashes bf →
     bloom_filter_add_string_alt order bf hashes passed = Ret (bf, BLOOM_FAILURE)) ∧
  (number_hashes bf ≤ passed →
     ∃ bf', bloom_filter_add_string_alt order bf hashes passed = Ret (bf', BLOOM_SUCCESS) ∧
       bloom_wf bf' ∧ elements_added bf' = u64 (elements_added bf + 1) ∧
       (∀ q, 0 ≤ q → bit_set (bloom bf') q = bit_set (bloom bf) q || probed bf hashes q) ∧
       bloom_filter_add_string_alt order bf hashes passed =
         bloom_filter_add_string_alt (seqZ 0 (number_hashes bf)) bf hashes passed).
Proof.
  intros Hwf Hp Hl. split; intros Hpass.
  { unfold bloom_filter_add_string_alt. by decide_tests. }
  destruct (add_alt_ok order bf hashes passed) as (b1 & E1 & Hl1 & Hv1 & Hb1); try done.
  destruct (add_alt_ok (seqZ 0 (number_hashes bf)) bf hashes passed)
    as (b2 & E2 & Hl2 & Hv2 & Hb2); [done|apply schedule_seqZ|done..|].
  eexists. split_and!; [exact E1|by apply with_bloom_wf|done|exact Hb1|].
  rewrite E1, E2. do 3 f_equal. apply bit_array_ext; [done..|lia|].
  intros q Hq. by rewrite Hb1, Hb2.
Qed.

(** A run of additions, each with its own hashes and schedule. *)
Fixpoint add_all (runs : list (list Z * list Z)) (bf : BloomFilter) : exec BloomFilter :=
  match runs with
  | [] => Ret bf
  | (order, hashes) :: runs' =>
      '(bf', _) ← bloom_filter_add_string_alt order bf hashes (number_hashes bf);
      add_all runs' bf'
  end.

Definition run_ok (k : Z) (run : list Z * list Z) : Prop :=
  run.1 ≡ₚ seqZ 0 k ∧ k ≤ lenZ run.2.

Lemma add_all_ok runs bf :
  bloom_wf bf → Forall (run_ok (number_hashes bf)) runs →
  ∃ bf', add_all runs bf = Ret bf' ∧ bloom_wf bf' ∧
    number_hashes bf' = number_hashes bf ∧ number_bits bf' = number_bits bf ∧
    ∀ q, 0 ≤ q → bit_set (bloom bf) q = true → bit_set (bloom bf') q = true.
Proof.
  intros Hwf Hr. remember (number_hashes bf) as k eqn:Hk. revert bf Hwf Hk.
  induction Hr as [|[order hashes] runs [Hp Hl] _ IH]; intros bf Hwf Hk; cbn [add_all].
  { exists bf. by split_and!. }
  destruct (add_alt_ok order bf hashes (number_hashes bf)) as (b1 & -> & Hl1 & Hv1 & Hb1);
    [done|unfold schedule; by rewrite <- Hk|by rewrite <- Hk|done|].
  cbn [mbind exec_bind].
  destruct (IH (with_bloom bf b1 (u64 (elements_added bf + 1))))
    as (bf' & -> & Hwf' & Hk' & Hm' & Hb'); [by apply with_bloom_wf|done|].
  exists bf'. split_and!; [done..|]. intros q Hq Hs. apply Hb'; [done|].
  cbn. rewrite Hb1 by done. by rewrite Hs.
Qed.

(** The check of a filter all of whose probed bits are set. *)
Lemma check_alt_sum order bf hashes passed :
  bloom_wf bf → schedule bf order → number_hashes bf ≤ lenZ hashes →
  number_hashes bf ≤ passed →
  bloom_filter_check_string_alt order bf hashes passed =
    Ret (if sum_values (number_bits bf) hashes (bloom bf) order =? number_hashes bf
         then BLOOM_SUCCESS else BLOOM_FAILURE).
Proof.
  intros (Hm & Hv & Hlen & Hk) Hp Hl Hpass. unfold bloom_filter_check_string_alt.
  decide_tests. pose proof (schedule_lenZ bf order Hp ltac:(lia)) as Ho.
  pose proof (sum_values_bounds (number_bits bf) hashes (bloom bf) order).
  rewrite check_probes_ok by
    first [lia | done | by eapply schedule_Forall].
  cbn [mbind exec_bind]. rewrite Z.add_0_l, u32_small by lia. done.
Qed.

Lemma probed_Forall bf hashes order b :
  schedule bf order → (∀ q, 0 ≤ q → probed bf hashes q = true → bit_set b q = true) →
  1 ≤ number_bits bf →
  Forall (λ i, bit_set b (probe_pos (number_bits bf) hashes i) = true) order.
Proof.
  intros Hp Hb Hm. unfold schedule in Hp. rewrite Hp. apply Forall_forall. intros i Hi.
  apply Hb; [apply probe_pos_range; lia|].
  apply bool_decide_eq_true_2, list_elem_of_fmap. eauto.
Qed.

Lemma add_all_app l1 l2 bf : add_all (l1 ++ l2) bf = (add_all l1 bf ≫= add_all l2).
Proof.
  revert bf. induction l1 as [|[order hashes] l1 IH]; intros bf; [done|].
  cbn [app add_all]. destruct (bloom_filter_add_string_alt _ _ _ _) as [[bf' r]| |];
    cbn [mbind exec_bind]; [apply IH|done..].
Qed.

(** After a key is added its probed bits stay set. *)
Lemma add_all_probed order before after hashes bf :
  bloom_wf bf → schedule bf order → number_hashes bf ≤ lenZ hashes →
  Forall (run_ok (number_hashes bf)) (before ++ after) →
  ∃ bf', add_all (before ++ (order, hashes) :: after) bf = Ret bf' ∧ bloom_wf bf' ∧
    number_hashes bf' = number_hashes bf ∧ number_bits bf' = number_bits bf ∧
    ∀ q, 0 ≤ q → probed bf' hashes q = true → bit_set (bloom bf') q = true.
Proof.
  intros Hwf Hp Hl Hr. apply Forall_app in Hr as [Hr1 Hr2].
  destruct (add_all_ok before bf Hwf Hr1) as (bf1 & E1 & Hwf1 & Hk1 & Hm1 & _).
  rewrite add_all_app, E1. cbn [mbind exec_bind add_all].
  destruct (add_alt_ok order bf1 hashes (number_hashes bf1)) as (b2 & -> & Hl2 & Hv2 & Hb2);
    [done|unfold schedule; by rewrite Hk1|lia|done|]. cbn [mbind exec_bind].
  set (bf2 := with_bloom _ _ _).
  destruct (add_all_ok after bf2) as (bf3 & -> & Hwf3 & Hk3 & Hm3 & Hb3);
    [by apply with_bloom_wf|cbn; by rewrite Hk1|].
  exists bf3. cbn in Hk3, Hm3. split_and!; [done|done|lia|lia|]. intros q Hq Hpr.
  apply Hb3; [done|]. cbn. rewrite Hb2 by done. apply orb_true_iff. right.
  unfold probed in *. by rewrite <- Hm3, <- Hk3.
Qed.

(** What the check answers for a key that was added. *)
Lemma check_of_added_value order order' before after hashes bf :
  bloom_wf bf → schedule bf order → schedule bf order' →
  number_hashes bf ≤ lenZ hashes →
  Forall (run_ok (number_hashes bf)) (before ++ after) →
  ∃ bf', add_all (before ++ (order, hashes) :: after) bf = Ret bf' ∧
    bloom_filter_check_string_alt order' bf' hashes (number_hashes bf') =
      Ret (if bool_decide (Forall (λ i, probe_pos (number_bits bf) hashes i mod 8 = 0)
                             (seqZ 0 (number_hashes bf)))
           then BLOOM_SUCCESS else BLOOM_FAILURE).
Proof.
  intros Hwf Hp Hp' Hl Hr.
  destruct (add_all_probed order before after hashes bf)
    as (bf' & E & Hwf' & Hk & Hm & Hb); [done..|].
  exists bf'. split; [exact E|].
  assert (Hs : schedule bf' order') by (unfold schedule; by rewrite Hk).
  rewrite check_alt_sum by (first [done | lia]). f_equal.
  destruct (sum_values_all_set (number_bits bf') hashes (bloom bf') order') as [_ Hiff].
  { apply probed_Forall; [done..|]. destruct Hwf'. lia. }
  rewrite (schedule_lenZ _ _ Hs) in Hiff by (destruct Hwf'; lia).
  rewrite Hm in *. unfold schedule in Hp'. rewrite Hp' in *.
  destruct (Z.eqb_spec (sum_values (number_bits bf) hashes (bloom bf')
              (seqZ 0 (number_hashes bf))) (number_hashes bf')), (bool_decide_reflect (Forall (λ i,
    probe_pos (number_bits bf) hashes i mod 8 = 0) (seqZ 0 (number_hashes bf)))); tauto.
Qed.

(** C23: A key that was added, whatever was added to the filter before and
    afterwards, is reported as present exactly when every one of its probes
    falls on bit zero of a byte: the check adds up the masked bytes, so a
    probe on bit [n] counts [2^n].  (The README promises that a Bloom filter
    has no false negatives.) *)
Theorem check_of_added_key order order' before after hashes bf :
  bloom_wf bf → schedule bf order → schedule bf order' →
  number_hashes bf ≤ lenZ hashes →
  Forall (run_ok (number_hashes bf)) (before ++ after) →
  ∃ bf', add_all (before ++ (order, hashes) :: after) bf = Ret bf' ∧
    bloom_filter_check_string_alt order' bf' hashes (number_hashes bf') =
      Ret (if bool_decide (Forall (λ i, probe_pos (number_bits bf) hashes i mod 8 = 0)
                             (seqZ 0 (number_hashes bf)))
           then BLOOM_SUCCESS else BLOOM_FAILURE).
Proof. apply check_of_added_value. Qed.

(** The filter of the examples: two hashes into sixteen bits. *)
Definition small_filter : BloomFilter := MkBloomFilter 1 2 16 (zeros 2) 2 0 default_hash_fn.

Lemma small_filter_wf : bloom_wf small_filter.
Proof.
  unfold bloom_wf. split; [by vm_compute|]. split; [apply (valid_bytes_zeros 2)|].
  by split; [|vm_compute].
Qed.

Lemma add_string_alt_spec_witness :
  ∃ bf', bloom_filter_add_string_alt [1; 0] small_filter [19; 8] 2 = Ret (bf', BLOOM_SUCCESS) ∧
    bit_set (bloom bf') 3 = true ∧ bit_set (bloom bf') 8 = true ∧
    bit_set (bloom bf') 9 = false.
Proof.
  assert (Hp : schedule small_filter [1; 0]) by apply Permutation_swap.
  destruct (proj2 (add_string_alt_spec [1; 0] small_filter [19; 8] 2 small_filter_wf Hp
              ltac:(by vm_compute)) ltac:(by vm_compute)) as (bf' & E & _ & _ & Hb & _).
  exists bf'. split_and!; [exact E|rewrite Hb by lia; reflexivity..].
Defined.

Lemma check_of_added_key_witness :
  ∃ bf', add_all [([0; 1], [19; 8])] small_filter = Ret bf' ∧
    bloom_filter_check_string_alt [0; 1] bf' [19; 8] (number_hashes bf') = Ret BLOOM_FAILURE.
Proof.
  exact (check_of_added_key [0; 1] [0; 1] [] [] [19; 8] small_filter small_filter_wf
           (schedule_seqZ small_filter) (schedule_seqZ small_filter) ltac:(by vm_compute)
           (Forall_nil_2 _)).
Defined.

(** The check of the older copy, run sequentially, overwrites its result in
    every iteration: it answers with the last probe alone.  So it has no false
    negatives, but reports every key whose last probe is set. *)
Theorem legacy_check_spec hashes bf :
  bloom_wf bf → 1 ≤ number_hashes bf ≤ lenZ hashes →
  ∃ r, legacy_check_string_alt bf hashes (number_hashes bf) = Ret r ∧
    (r ≠ BLOOM_FAILURE ↔
     bit_set (bloom bf) (probe_pos (number_bits bf) hashes (number_hashes bf - 1)) = true).
Proof.
  intros (Hm & Hv & Hlen & Hk) [H1 Hl]. unfold legacy_check_string_alt. decide_tests.
  set (i := number_hashes bf - 1).
  assert (Hseq : seqZ 0 (number_hashes bf) = seqZ 0 i ++ [i]).
  { replace (number_hashes bf) with (i + 1) by lia. rewrite seqZ_app by lia.
    change (seqZ (0 + i) 1) with [0 + (0 + i)]. by rewrite !Z.add_0_l. }
  rewrite Hseq, foldM_app.
  assert (Hfold : ∀ l r, Forall (λ j, 0 ≤ j < lenZ hashes) l → is_ret (foldM
            (λ _ j, check_probe (number_bits bf) hashes (bloom bf) j) l r)).
  { intros l r Hall. revert r. induction Hall as [|j l Hj _ IH]; intros r; cbn [foldM].
    - by exists r.
    - rewrite check_probe_ok by (first [lia | done]). apply IH. }
  destruct (Hfold (seqZ 0 i) BLOOM_SUCCESS) as [r0 ->].
  { apply Forall_forall. intros j Hj%elem_of_seqZ. lia. }
  cbn [mbind exec_bind foldM]. rewrite check_probe_ok by (first [lia | done]).
  cbn [mbind exec_bind]. eexists. split; [done|].
  destruct (bit_set _ _); [|by split]. split; [done|]. intros _.
  set (n := _ mod 8). assert (0 ≤ n < 8) by (apply Z.mod_pos_bound; lia).
  unfold BLOOM_FAILURE. apply Z.pow_nonzero; lia.
Qed.

Lemma legacy_check_spec_witness :
  ∃ r, legacy_check_string_alt small_filter [19; 8] 2 = Ret r ∧
    (r ≠ BLOOM_FAILURE ↔ false = true).
Proof.
  exact (legacy_check_spec [19; 8] small_filter small_filter_wf ltac:(by vm_compute)).
Defined.

End bloom_operations.

(** ** The size of the bit array *)

Section bloom_size.
Context {cfg : Config}.

Lemma lcm_ge a b : 0 < a → 0 < b → a ≤ Z.lcm a b.
Proof.
  intros Ha Hb. apply Z.divide_pos_le; [|apply Z.divide_lcm_l].
  pose proof (Z.lcm_nonneg a b). pose proof (Z.lcm_eq_0 a b). lia.
Qed.

Lemma new_filter_ok n k m :
  1 ≤ KEY_LENGTH ≤ 8 → 1 ≤ ALIGN_NO_FALSE_SHARING → 1 ≤ m → 0 ≤ k < 2 ^ 23 →
  bloom_wf (new_BloomFilter n k m).
Proof.
  intros HK HA Hm Hk.
  assert (Hc : 1 ≤ compile_time_bloom_length m ∧ m ≤ 8 * compile_time_bloom_length m).
  { unfold compile_time_bloom_length. revert HK. generalize (@KEY_LENGTH cfg) as K.
    intros K HK. pose proof (Z.div_mod (m + K - 1) K ltac:(lia)).
    pose proof (Z.mod_pos_bound (m + K - 1) K ltac:(lia)). nia. }
  assert (Hlcm : compile_time_bloom_length m ≤ padded_bloom_length m)
    by (apply lcm_ge; lia).
  assert (0 ≤ padded_bloom_length m) by lia.
  unfold bloom_wf. cbn [number_bits new_BloomFilter bloom bloom_length number_hashes].
  rewrite lenZ_zeros by done.
  split_and!; [lia|lia|apply valid_bytes_zeros|done|lia|lia].
Qed.

Lemma bit_set_zeros n q : bit_set (zeros n) q = false.
Proof.
  unfold bit_set, zeros. destruct (_ !! _) as [c|] eqn:E; [|done].
  apply lookup_replicate in E as [-> _]. apply Z.bits_0.
Qed.

(** With keys of at most eight bytes a new filter is well formed: its
    zeroed array has a byte for every probe, whatever the number of bits the
    false positive rate asks for, so that no addition or check leaves the
    array; and no bit of it is set. *)
Theorem new_filter_wf n k m :
  1 ≤ KEY_LENGTH ≤ 8 → 1 ≤ ALIGN_NO_FALSE_SHARING → 1 ≤ m → 0 ≤ k < 2 ^ 23 →
  bloom_wf (new_BloomFilter n k m) ∧
  ∀ q, 0 ≤ q → bit_set (bloom (new_BloomFilter n k m)) q = false.
Proof. intros. split; [by apply new_filter_ok|]. intros. apply bit_set_zeros. Qed.

End bloom_size.

Lemma new_filter_wf_witness :
  bloom_wf (@new_BloomFilter cmake_config 1 7 10) ∧
  ∀ q, 0 ≤ q → bit_set (bloom (@new_BloomFilter cmake_config 1 7 10)) q = false.
Proof. apply (@new_filter_wf cmake_config 1 7 10); cbn; lia. Defined.

(** Keys of sixty-four bytes, everything else as shipped. *)
Definition long_key_config : Config := {|
  MEMTABLE_SIZE_MB_BITS := 1;
  TOTAL_SSTABLE_STORAGE_SPACE_MB := 1000;
  LEVEL_FACTOR := 10;
  NUM_SSTABLE_WORKER_THREADS := 200;
  KEY_LENGTH := 64;
  VALUE_LENGTH := 2;
  PAGE_SIZE := 4096;
  BLOCK_SIZE := 4096;
  ALIGN_NO_FALSE_SHARING := 64;
  MAX_SIMULTANEOUS_CONNECTIONS := 100;
  NUM_PROCESSORS := 8;
  TOTAL_SSTABLE_PAGE_CACHE_SIZE := 1000
|}.

(** The array is sized by [KEY_LENGTH] instead of the eight bits of a byte:
    with keys of sixty-four bytes a filter of 4096 bits has only 64 bytes, and
    an addition whose probe is at bit 512 or beyond writes outside it. *)
Theorem long_keys_overrun h :
  512 ≤ h < 4096 →
  lenZ (bloom (@new_BloomFilter long_key_config 1 1 4096)) = 64 ∧
  bloom_filter_add_string_alt [0] (@new_BloomFilter long_key_config 1 1 4096) [h] 1 =
    Undef OutOfBounds.
Proof.
  intros Hh. split; [reflexivity|]. unfold bloom_filter_add_string_alt.
  change (1 <? number_hashes _) with false. cbn [foldM mbind exec_bind].
  unfold set_probe. change (number_bits _) with 4096.
  change (probe 4096 [h] 0) with (Ret (h mod 4096)). cbn [mbind exec_bind].
  rewrite Z.mod_small by lia. rewrite getZ_out; [done|]. right.
  change (lenZ _) with 64. apply Z.div_le_lower_bound; lia.
Qed.

Lemma long_keys_overrun_witness :
  lenZ (bloom (@new_BloomFilter long_key_config 1 1 4096)) = 64 ∧
  bloom_filter_add_string_alt [0] (@new_BloomFilter long_key_config 1 1 4096) [600] 1 =
    Undef OutOfBounds.
Proof. apply (long_keys_overrun 600). lia. Defined.
