(* ===== verification/BloomSets.v ===== *)
(** * Counting, union and intersection of Bloom filters

    The set operations of [bloom_filter.hpp]: [bloom_filter_clear], the bit
    counts through [bits_set_table], [bloom_filter_union] and
    [bloom_filter_intersect].  A filter is compared with the set of its bits,
    [bit_set]. *)

From Stdlib Require Import SpecFloat.
From S2P Require Import Prelude Config Floats Bloom.

(** ** Counting *)

(** The number of positions below [n] that satisfy [P]. *)
Definition count_in (P : Z → bool) (l : list Z) : Z :=
  lenZ (filter (λ p, P p = true) l).

Definition count_bits (P : Z → bool) (n : Z) : Z := count_in P (seqZ 0 n).

Definition byte_bits (c : Z) : Z := count_bits (Z.testbit c) 8.

(** The lookup table of [bits_set_table] is the population count of a byte. *)
Lemma bits_set_table_ok c : 0 ≤ c < 256 → sum_bits_set_char c = Ret (byte_bits c).
Proof.
  assert (H : Forall (λ x, sum_bits_set_char x = Ret (byte_bits x)) (seqZ 0 256)).
  { apply (bool_decide_eq_true_1 (Forall _ _)). by vm_compute. }
  intros Hc. rewrite Forall_forall in H. apply H, elem_of_seqZ. lia.
Qed.

Lemma count_in_cons P p l : count_in P (p :: l) = b2z (P p) + count_in P l.
Proof.
  unfold count_in. rewrite filter_cons. destruct (P p); cbn [decide b2z].
  - rewrite decide_True, lenZ_cons by done. lia.
  - rewrite decide_False by done. done.
Qed.

Lemma count_in_app P l k : count_in P (l ++ k) = count_in P l + count_in P k.
Proof. unfold count_in. by rewrite filter_app, lenZ_app. Qed.

Lemma count_in_ext P Q l :
  Forall (λ p, P p = Q p) l → count_in P l = count_in Q l.
Proof.
  induction 1 as [|p l Hp _ IH]; [done|]. by rewrite !count_in_cons, Hp, IH.
Qed.

Lemma count_in_fmap P f l : count_in P (f <$> l) = count_in (λ p, P (f p)) l.
Proof.
  induction l as [|p l IH]; [done|]. by rewrite fmap_cons, !count_in_cons, IH.
Qed.

Lemma count_in_bounds P l : 0 ≤ count_in P l ≤ lenZ l.
Proof.
  induction l as [|p l IH]; [done|]. rewrite count_in_cons, lenZ_cons.
  destruct (P p); cbn [b2z]; lia.
Qed.

(** Inclusion and exclusion. *)
Lemma count_in_or_and P Q l :
  count_in (λ p, P p || Q p) l + count_in (λ p, P p && Q p) l =
    count_in P l + count_in Q l.
Proof.
  induction l as [|p l IH]; [done|]. rewrite !count_in_cons.
  destruct (P p), (Q p); cbn [b2z orb andb]; lia.
Qed.

(** The bit of a byte function. *)
Definition bit_of (byte : Z → Z) (p : Z) : bool := Z.testbit (byte (p / 8)) (p mod 8).

Lemma count_bits_byte byte n :
  0 ≤ n →
  count_bits (bit_of byte) (8 * (n + 1)) =
    count_bits (bit_of byte) (8 * n) + byte_bits (byte n).
Proof.
  intros Hn. replace (8 * (n + 1)) with (8 * n + 8) by lia. unfold count_bits.
  rewrite seqZ_app, count_in_app by lia. f_equal.
  rewrite <- (Z.add_0_r (0 + 8 * n)), <- fmap_add_seqZ, count_in_fmap.
  apply count_in_ext, Forall_forall. intros p Hp. apply elem_of_seqZ in Hp.
  unfold bit_of. rewrite Z.add_0_l, (Z.mul_comm 8), Z.div_add_l, Z.div_small by lia.
  by rewrite Z.add_0_r, Z.add_comm, Z.mod_add, Z.mod_small by lia.
Qed.

(** The counting loop adds up exactly the set bits. *)
Lemma sum_bits_ok n byte_at byte :
  0 ≤ n → 8 * n < 2 ^ 64 →
  (∀ i, 0 ≤ i < n → byte_at i = Ret (byte i) ∧ 0 ≤ byte i < 256) →
  sum_bits n byte_at = Ret (count_bits (bit_of byte) (8 * n)).
Proof.
  intros Hn. pattern n. apply natlike_ind; [done| |done]. clear n Hn.
  intros n Hn IH Hov Hb. unfold sum_bits in *.
  rewrite <- Z.add_1_r, seqZ_app, foldM_app in * by lia.
  rewrite IH; [|lia|intros; apply Hb; lia]. destruct (Hb n) as [Hn' Hc]; [lia|].
  rewrite Z.add_0_l, seqZ_cons, seqZ_nil by lia.
  cbn [mbind exec_bind foldM]. rewrite Hn'. cbn [mbind exec_bind].
  rewrite bits_set_table_ok by done. cbn [mbind exec_bind].
  rewrite <- count_bits_byte by done. f_equal. apply u64_small.
  pose proof (count_in_bounds (bit_of byte) (seqZ 0 (8 * (n + 1)))) as Hb'.
  unfold lenZ in Hb'. rewrite length_seqZ in Hb'. unfold count_bits. lia.
Qed.

(** ** The filter operations *)

Definition countable (bf : BloomFilter) : Prop :=
  valid_bytes (bloom bf) ∧ bloom_length bf = lenZ (bloom bf) ∧
  8 * lenZ (bloom bf) < 2 ^ 64.

(** Two filters of one template instance with the same hash function. *)
Definition same_shape (bf1 bf2 : BloomFilter) : Prop :=
  number_hashes bf1 = number_hashes bf2 ∧ number_bits bf1 = number_bits bf2 ∧
  hash_function bf1 = hash_function bf2 ∧ bloom_length bf1 = bloom_length bf2.

#[global] Instance same_shape_equiv : Equivalence same_shape.
Proof.
  split.
  - intros bf. by repeat split.
  - intros bf1 bf2 (? & ? & ? & ?). by repeat split.
  - intros bf1 bf2 bf3 (? & ? & ? & ?) (? & ? & ? & ?). repeat split; congruence.
Qed.

Lemma check_ok_same_shape res bf1 bf2 :
  same_shape res bf1 → same_shape bf1 bf2 →
  check_if_union_or_intersection_ok res bf1 bf2 = BLOOM_SUCCESS.
Proof.
  intros (H1 & H2 & H3 & _) (H4 & H5 & H6 & _). unfold check_if_union_or_intersection_ok.
  rewrite !bool_decide_eq_false_2; [done|tauto..].
Qed.

Lemma bit_of_bit_set (b : list Z) p :
  0 ≤ p < 8 * lenZ b → bit_of (λ i, b !!! Z.to_nat i) p = bit_set b p.
Proof.
  intros Hp. unfold bit_of, bit_set.
  destruct (getZ_lt b (p / 8)) as (c & _ & Hc).
  { split; [apply Z.div_pos; lia|apply Z.div_lt_upper_bound; lia]. }
  by rewrite Hc, (list_lookup_total_correct _ _ _ Hc).
Qed.

Lemma getZ_total (b : list Z) i :
  0 ≤ i < lenZ b → valid_bytes b →
  getZ b i = Ret (b !!! Z.to_nat i) ∧ 0 ≤ b !!! Z.to_nat i < 256.
Proof.
  intros Hi Hv. destruct (getZ_lt b i Hi) as (c & -> & Hc).
  rewrite (list_lookup_total_correct _ _ _ Hc).
  split; [done|]. by eapply valid_bytes_lookup.
Qed.

(** Counting the bits of a bytewise combination of two arrays. *)
Lemma count_combined op bop bf1 bf2 :
  countable bf1 → countable bf2 → same_shape bf1 bf2 →
  (∀ x y n, 0 ≤ n → Z.testbit (op x y) n = bop (Z.testbit x n) (Z.testbit y n)) →
  (∀ x y, 0 ≤ x < 256 → 0 ≤ y < 256 → 0 ≤ op x y < 256) →
  sum_bits (bloom_length bf1)
    (λ i, x ← getZ (bloom bf1) i; y ← getZ (bloom bf2) i; Ret (op x y)) =
  Ret (count_bits (λ p, bop (bit_set (bloom bf1) p) (bit_set (bloom bf2) p))
         (8 * bloom_length bf1)).
Proof.
  intros (Hv1 & Hl1 & Ho1) (Hv2 & Hl2 & Ho2) (_ & _ & _ & Hl) Hop Hrange.
  pose proof (lenZ_nonneg (bloom bf1)).
  rewrite (sum_bits_ok _ _ (λ i, op (bloom bf1 !!! Z.to_nat i) (bloom bf2 !!! Z.to_nat i)));
    [|lia|lia|].
  - f_equal. apply count_in_ext, Forall_forall. intros p Hp. apply elem_of_seqZ in Hp.
    rewrite <- !bit_of_bit_set by lia. unfold bit_of. apply Hop.
    apply Z.mod_pos_bound. lia.
  - intros i Hi. destruct (getZ_total (bloom bf1) i) as [-> ?]; [lia|done|].
    destruct (getZ_total (bloom bf2) i) as [-> ?]; [lia|done|]. by split; [|apply Hrange].
Qed.

Lemma byte_bound x : 0 ≤ x → (∀ n, 8 ≤ n → Z.testbit x n = false) → 0 ≤ x < 256.
Proof.
  intros Hx H. assert (E : x = x mod 2 ^ 8).
  { apply Z.bits_inj'. intros n Hn. destruct (decide (n < 8)).
    - by rewrite Z.mod_pow2_bits_low.
    - rewrite Z.mod_pow2_bits_high by lia. apply H. lia. }
  rewrite E. by apply (Z.mod_pos_bound x (2 ^ 8)).
Qed.

Lemma lor_byte_range x y : 0 ≤ x < 256 → 0 ≤ y < 256 → 0 ≤ Z.lor x y < 256.
Proof.
  intros Hx Hy. apply byte_bound; [apply Z.lor_nonneg; lia|].
  intros n Hn. by rewrite Z.lor_spec, !testbit_byte_high.
Qed.

Lemma land_byte_range x y : 0 ≤ x < 256 → 0 ≤ y < 256 → 0 ≤ Z.land x y < 256.
Proof.
  intros Hx Hy. apply byte_bound; [apply Z.land_nonneg; lia|].
  intros n Hn. by rewrite Z.land_spec, testbit_byte_high.
Qed.

Lemma count_set_ok bf :
  countable bf →
  bloom_filter_count_set_bits bf =
    Ret (count_bits (bit_set (bloom bf)) (8 * bloom_length bf)).
Proof.
  intros (Hv & Hl & Ho). pose proof (lenZ_nonneg (bloom bf)).
  unfold bloom_filter_count_set_bits.
  rewrite (sum_bits_ok _ _ (λ i, bloom bf !!! Z.to_nat i)); [|lia|lia|].
  - f_equal. apply count_in_ext, Forall_forall. intros p Hp. apply elem_of_seqZ in Hp.
    apply bit_of_bit_set. lia.
  - intros i Hi. apply getZ_total; [lia|done].
Qed.

(** [bloom_filter_count_set_bits] counts the set bits of the array, and the
    union and intersection counts of two filters of one shape obey inclusion
    and exclusion. *)
Theorem counts_inclusion_exclusion bf1 bf2 :
  countable bf1 → countable bf2 → same_shape bf1 bf2 →
  ∃ c1 c2 u i,
    bloom_filter_count_set_bits bf1 = Ret c1 ∧
    bloom_filter_count_set_bits bf2 = Ret c2 ∧
    bloom_filter_count_union_bits_set bf1 bf2 = Ret u ∧
    bloom_filter_count_intersection_bits_set bf1 bf2 = Ret i ∧
    c1 = count_bits (bit_set (bloom bf1)) (8 * bloom_length bf1) ∧
    c2 = count_bits (bit_set (bloom bf2)) (8 * bloom_length bf2) ∧
    u + i = c1 + c2 ∧ 0 ≤ i ≤ u.
Proof.
  intros H1 H2 Hs. do 4 eexists.
  split; [by apply count_set_ok|]. split; [by apply count_set_ok|].
  unfold bloom_filter_count_union_bits_set, bloom_filter_count_intersection_bits_set.
  rewrite check_ok_same_shape by first [exact Hs | reflexivity].
  split; [exact (count_combined Z.lor orb _ _ H1 H2 Hs
                   (λ x y n _, Z.lor_spec x y n) lor_byte_range)|].
  split; [exact (count_combined Z.land andb _ _ H1 H2 Hs
                   (λ x y n _, Z.land_spec x y n) land_byte_range)|].
  split_and!; [done..| |apply count_in_bounds|].
  - replace (bloom_length bf2) with (bloom_length bf1) by apply Hs. apply count_in_or_and.
  - unfold count_bits. induction (seqZ _ _) as [|p l IH]; [done|]. rewrite !count_in_cons.
    destruct (bit_set (bloom bf1) p), (bit_set (bloom bf2) p); cbn [andb orb b2z]; lia.
Qed.

(** Two arrays of one byte for the examples. *)
Definition byte_filter (c : Z) : BloomFilter := MkBloomFilter 1 1 8 [c] 1 0 default_hash_fn.

Lemma byte_filter_countable c : 0 ≤ c < 256 → countable (byte_filter c).
Proof. intros Hc. split; [by apply Forall_singleton|done]. Qed.

Lemma counts_inclusion_exclusion_witness :
  ∃ c1 c2 u i,
    bloom_filter_count_set_bits (byte_filter 6) = Ret c1 ∧
    bloom_filter_count_set_bits (byte_filter 12) = Ret c2 ∧
    bloom_filter_count_union_bits_set (byte_filter 6) (byte_filter 12) = Ret u ∧
    bloom_filter_count_intersection_bits_set (byte_filter 6) (byte_filter 12) = Ret i ∧
    u + i = c1 + c2.
Proof.
  destruct (counts_inclusion_exclusion (byte_filter 6) (byte_filter 12))
    as (c1 & c2 & u & i & ? & ? & ? & ? & ? & ? & ? & ?);
    [apply byte_filter_countable; lia..|by repeat split|].
  exists c1, c2, u, i. by split_and!.
Defined.

Lemma combine_into_ok op (res b1 b2 : list Z) n :
  n = lenZ res → lenZ b1 = n → lenZ b2 = n → valid_bytes b1 → valid_bytes b2 →
  combine_into op n res b1 b2 =
    Ret ((λ i, op (b1 !!! Z.to_nat i) (b2 !!! Z.to_nat i)) <$> seqZ 0 n).
Proof.
  intros -> H1 H2 Hv1 Hv2. pose proof (lenZ_nonneg res). unfold combine_into.
  rewrite (foldM_setZ _ (λ i, op (b1 !!! Z.to_nat i) (b2 !!! Z.to_nat i))).
  - rewrite drop_ge, app_nil_r by (unfold lenZ; lia). done.
  - lia.
  - intros i l' Hi Hl'. rewrite (proj1 (getZ_total b1 i ltac:(lia) Hv1)).
    rewrite (proj1 (getZ_total b2 i ltac:(lia) Hv2)). done.
Qed.

Lemma bit_set_fmap_seqZ byte n p :
  0 ≤ p < 8 * n → bit_set (byte <$> seqZ 0 n) p = bit_of byte p.
Proof.
  intros Hp. assert (Hr : 0 ≤ p / 8 < n)
    by (split; [apply Z.div_pos; lia|apply Z.div_lt_upper_bound; lia]).
  unfold bit_set, bit_of. rewrite list_lookup_fmap, lookup_seqZ_lt by lia. cbn.
  rewrite Z2Nat.id by lia. done.
Qed.

Section set_operations.
Context (logf : spec_float → spec_float).

Lemma combined_ok op bop res bf1 bf2 :
  countable res → countable bf1 → countable bf2 →
  same_shape res bf1 → same_shape bf1 bf2 →
  (∀ x y n, 0 ≤ n → Z.testbit (op x y) n = bop (Z.testbit x n) (Z.testbit y n)) →
  (∀ x y, 0 ≤ x < 256 → 0 ≤ y < 256 → 0 ≤ op x y < 256) →
  ∃ b, combine_into op (bloom_length bf1) (bloom res) (bloom bf1) (bloom bf2) = Ret b ∧
    valid_bytes b ∧ lenZ b = bloom_length bf1 ∧
    ∀ p, 0 ≤ p < 8 * bloom_length bf1 →
      bit_set b p = bop (bit_set (bloom bf1) p) (bit_set (bloom bf2) p).
Proof.
  intros (_ & Hl & _) (Hv1 & Hl1 & _) (Hv2 & Hl2 & _) (_ & _ & _ & Hs1) (_ & _ & _ & Hs2)
    Hop Hrange.
  rewrite combine_into_ok by first [lia | done]. eexists. split; [done|].
  pose proof (lenZ_nonneg (bloom bf1)). split_and!.
  - apply Forall_fmap, Forall_forall. intros i Hi. apply elem_of_seqZ in Hi. cbn.
    apply Hrange; apply getZ_total; (lia || done).
  - unfold lenZ. rewrite length_fmap, length_seqZ. lia.
  - intros p Hp. rewrite bit_set_fmap_seqZ by done.
    rewrite <- !bit_of_bit_set by lia. apply Hop, Z.mod_pos_bound. lia.
Qed.

(** The common tail of the two set operations. *)
Lemma set_elements_to_estimated_ok bf :
  countable bf →
  bloom_filter_set_elements_to_estimated logf bf =
    (n ← bloom_filter_estimate_elements_by_values logf (number_bits bf)
           (count_bits (bit_set (bloom bf)) (8 * bloom_length bf)) (i32 (number_hashes bf));
     Ret (with_bloom bf (bloom bf) n)).
Proof.
  intros Hc. unfold bloom_filter_set_elements_to_estimated, bloom_filter_estimate_elements.
  by rewrite count_set_ok.
Qed.

Lemma countable_with_bloom bf b n :
  countable bf → valid_bytes b → lenZ b = bloom_length bf → countable (with_bloom bf b n).
Proof. intros (Hv & Hl & Ho) Hb Hlb. unfold countable. cbn. split_and!; [done|lia|lia]. Qed.

(** The result of a set operation with the bits [b]: the number of elements is
    estimated from them, which is undefined when the estimate is not a 64-bit
    number. *)
Definition with_estimate (res : BloomFilter) (b : bytes) : exec (BloomFilter * Z) :=
  n ← bloom_filter_estimate_elements_by_values logf (number_bits res)
        (count_bits (bit_set b) (8 * bloom_length res)) (i32 (number_hashes res));
  Ret (with_bloom res b n, BLOOM_SUCCESS).

Lemma finish_set_operation res b :
  countable res → valid_bytes b → lenZ b = bloom_length res →
  (res' ← bloom_filter_set_elements_to_estimated logf (with_bloom res b (elements_added res));
   Ret (res', BLOOM_SUCCESS)) = with_estimate res b.
Proof.
  intros Hc Hv Hl.
  rewrite set_elements_to_estimated_ok by (by apply countable_with_bloom).
  unfold with_estimate. cbn [with_bloom number_bits bloom bloom_length number_hashes].
  by destruct (bloom_filter_estimate_elements_by_values _ _ _ _).
Qed.

(** For filters of one shape, union and intersection make the result the
    union respectively the intersection of the two bit sets, with the element
    count re-estimated from the result; filters of different shapes are refused
    and the result is left alone. *)
Theorem union_intersect_spec res bf1 bf2 :
  countable res → countable bf1 → countable bf2 →
  (check_if_union_or_intersection_ok res bf1 bf2 = BLOOM_FAILURE →
     bloom_filter_union logf res bf1 bf2 = Ret (res, BLOOM_FAILURE) ∧
     bloom_filter_intersect logf res bf1 bf2 = Ret (res, BLOOM_FAILURE)) ∧
  (same_shape res bf1 → same_shape bf1 bf2 →
     ∃ u i,
       bloom_filter_union logf res bf1 bf2 = with_estimate res u ∧
       bloom_filter_intersect logf res bf1 bf2 = with_estimate res i ∧
       valid_bytes u ∧ valid_bytes i ∧
       lenZ u = bloom_length res ∧ lenZ i = bloom_length res ∧
       ∀ p, 0 ≤ p < 8 * bloom_length res →
         bit_set u p = bit_set (bloom bf1) p || bit_set (bloom bf2) p ∧
         bit_set i p = bit_set (bloom bf1) p && bit_set (bloom bf2) p).
Proof.
  intros Hc Hc1 Hc2. unfold bloom_filter_union, bloom_filter_intersect. split.
  { by intros ->. }
  intros Hs1 Hs2. rewrite check_ok_same_shape by done.
  assert (Hl : bloom_length res = bloom_length bf1) by apply Hs1.
  destruct (combined_ok Z.lor orb res bf1 bf2) as (bu & -> & Hvu & Hlu & Hbu);
    [done..|intros; apply Z.lor_spec|apply lor_byte_range|].
  destruct (combined_ok Z.land andb res bf1 bf2) as (bi & -> & Hvi & Hli & Hbi);
    [done..|intros; apply Z.land_spec|apply land_byte_range|].
  change (BLOOM_SUCCESS =? BLOOM_FAILURE) with false. cbn [mbind exec_bind].
  exists bu, bi. rewrite Hl in *.
  split; [apply finish_set_operation; (done || lia)|].
  split; [apply finish_set_operation; (done || lia)|].
  split_and!; [done..|]. intros p Hp. split; [by apply Hbu|by apply Hbi].
Qed.

End set_operations.

(** A logarithm that answers [-1] everywhere. *)
Definition minus_one (_ : spec_float) : spec_float := f32_of_Z (-1).

Lemma union_intersect_spec_witness :
  ∃ u i,
    bloom_filter_union minus_one (byte_filter 0) (byte_filter 6) (byte_filter 12) =
      with_estimate minus_one (byte_filter 0) u ∧
    bloom_filter_intersect minus_one (byte_filter 0) (byte_filter 6) (byte_filter 12) =
      with_estimate minus_one (byte_filter 0) i ∧
    bit_set u 3 = true ∧ bit_set i 3 = false ∧ bit_set i 2 = true.
Proof.
  destruct (union_intersect_spec minus_one (byte_filter 0) (byte_filter 6) (byte_filter 12))
    as [_ H]; [apply byte_filter_countable; lia..|].
  destruct H as (u & i & ? & ? & ? & ? & ? & ? & Hb); [by repeat split..|].
  exists u, i. split_and!; [done|done|..].
  - rewrite (proj1 (Hb 3 ltac:(cbn; lia))). reflexivity.
  - rewrite (proj2 (Hb 3 ltac:(cbn; lia))). reflexivity.
  - rewrite (proj2 (Hb 2 ltac:(cbn; lia))). reflexivity.
Defined.

(** [bloom_filter_clear] zeroes the whole array and the element count and
    keeps everything else. *)
Theorem clear_spec bf :
  bloom_length bf = lenZ (bloom bf) →
  bloom_filter_clear bf =
    Ret (with_bloom bf (zeros (bloom_length bf)) 0, BLOOM_SUCCESS).
Proof.
  intros Hl. pose proof (lenZ_nonneg (bloom bf)). unfold bloom_filter_clear.
  rewrite (foldM_setZ _ (λ _, 0)) by first [lia | done].
  rewrite drop_ge, app_nil_r by (unfold lenZ in *; lia). cbn [mbind exec_bind].
  do 3 f_equal. apply list_eq. intros i. unfold zeros. rewrite list_lookup_fmap.
  destruct (decide (i < Z.to_nat (bloom_length bf))%nat).
  - rewrite lookup_seqZ_lt, lookup_replicate_2 by lia. done.
  - rewrite lookup_seqZ_ge by lia. symmetry. apply lookup_ge_None_2.
    rewrite length_replicate. lia.
Qed.

Lemma clear_spec_witness :
  bloom_filter_clear (byte_filter 6) = Ret (byte_filter 0, BLOOM_SUCCESS).
Proof. apply (clear_spec (byte_filter 6)). reflexivity. Defined.

(** A filter of the older copy, whose array is uninitialised, is usable once
    cleared: it is then the new filter of the other copy. *)
Corollary legacy_cleared {cfg : Config} n k m garbage :
  padded_bloom_length m = lenZ garbage →
  bloom_filter_clear (legacy_new_BloomFilter n k m garbage) =
    Ret (new_BloomFilter n k m, BLOOM_SUCCESS).
Proof. intros Hl. by rewrite clear_spec. Qed.

Lemma legacy_cleared_witness :
  bloom_filter_clear (@legacy_new_BloomFilter cmake_config 1 7 10 (replicate 320 9)) =
    Ret (@new_BloomFilter cmake_config 1 7 10, BLOOM_SUCCESS).
Proof. apply (@legacy_cleared cmake_config). by vm_compute. Defined.
