(* ===== verification/BloomFloat.v ===== *)
(** * The floating-point functions of the Bloom filter

    The sizes a filter is constructed with, its current false positive rate,
    the estimate of the number of elements and the Jaccard index
    ([bloom_filter.hpp]).  The logarithm, the exponential and the power come
    from libm and gcem and are arguments; what the theorems need of them are the
    exact cases their documentation fixes: [log 1 = +0], [log 0 = -infinity],
    [exp 0 = 1], [pow 0 y = 0] for positive [y]. *)

From Stdlib Require Import SpecFloat.
From S2P Require Import Prelude Floats Config Bloom BloomSets.

(** [LOG_TWO_SQUARED] and [LOG_TWO] *)
Definition LOG_TWO_SQUARED : spec_float :=
  double_literal 480453013918201388143813800 1000000000000000000000000000.
Definition LOG_TWO : spec_float :=
  double_literal 693147180559945286226764000 1000000000000000000000000000.

(** [FILTER_FALSE_POS_PROB], cast to [float] in [filter.hpp]. *)
Definition FILTER_FALSE_POS_PROB : spec_float := to_float (double_literal 1 100).

Section sizes.
Context {cfg : Config}.
Context (log32 : spec_float → spec_float).      (** [gcem::log] of a [float] *)
Context (log80 : spec_float → spec_float).      (** [logl] *)

(** [static_cast<int64_t>(-num_elems) * gcem::log(false_pos_prob)] is a [float];
    the division is done in [double]. *)
Definition compile_time_num_bits (num_elems : Z) (false_pos_prob : spec_float) : exec Z :=
  let n := f32_of_Z (i64 (u64 (- num_elems))) in
  to_uint 64 (f64_ceil (f64_div (to_double (f32_mul n (log32 false_pos_prob))) LOG_TWO_SQUARED)).

Definition compile_time_num_hashes (num_elems : Z) (false_pos_prob : spec_float) : exec Z :=
  m ← compile_time_num_bits num_elems false_pos_prob;
  to_uint 32 (f64_round (f64_div (f64_mul LOG_TWO (f64_of_Z m)) (f64_of_Z num_elems))).

(** The sizes of the filter a level has for each table. *)
Definition filter_sizes (num_elements : Z) : exec (Z * Z) :=
  k ← compile_time_num_hashes num_elements FILTER_FALSE_POS_PROB;
  m ← compile_time_num_bits num_elements FILTER_FALSE_POS_PROB;
  Ret (k, m).

(** [__calculate_optimal_hashes]: [p] is the filter's false positive
    probability.  The bit array itself is not resized. *)
Definition calculate_optimal_hashes (p : spec_float) (bf : BloomFilter) : exec BloomFilter :=
  let n := i64 (estimated_elements bf) in
  if n =? - 2 ^ 63 then Undef SignedOverflow
  else
    m ← to_uint 64 (f80_ceil (f80_div (f80_mul (f80_of_Z (- n)) (log80 (to_long_double p)))
                                (to_long_double LOG_TWO_SQUARED)));
    k ← to_uint 32 (f64_round (f64_div (f64_mul LOG_TWO (f64_of_Z m)) (f64_of_Z n)));
    num_pos ← to_long (f64_ceil (f64_div (f64_of_Z m) (f64_of_Z KEY_LENGTH)));
    Ret (MkBloomFilter (estimated_elements bf) k m (bloom bf) (u64 num_pos)
           (elements_added bf) (hash_function bf)).

End sizes.

Section rates.
Context (expf : spec_float → spec_float).                   (** [exp] of a [float] *)
Context (pow : spec_float → spec_float → spec_float).       (** [pow] of [double]s *)

(** [int num = number_hashes * elements_added] is converted from 64 bits. *)
Definition bloom_filter_current_false_positive_rate (bf : BloomFilter) : exec spec_float :=
  let num := i32 (u64 (number_hashes bf * elements_added bf)) in
  if num =? - 2 ^ 31 then Undef SignedOverflow
  else
    let d := f32_div (f32_of_Z (- num)) (f32_of_Z (number_bits bf)) in
    let e := expf d in
    Ret (to_float (pow (to_double (f32_sub f32_one e)) (f64_of_Z (number_hashes bf)))).

End rates.

Definition bloom_filter_jaccard_index (bf1 bf2 : BloomFilter) : exec spec_float :=
  if check_if_union_or_intersection_ok bf1 bf1 bf2 =? BLOOM_FAILURE
  then Ret (f32_of_Z BLOOM_FAILURE)
  else
    u ← bloom_filter_count_union_bits_set bf1 bf2;
    let set_union_bits := f32_of_Z u in
    if SFeqb set_union_bits (f32_of_Z 0) then Ret (to_float (f64_of_Z 1))
    else
      i ← bloom_filter_count_intersection_bits_set bf1 bf2;
      Ret (f32_div (f32_of_Z i) set_union_bits).

(** ** Estimates and rates *)

(** The values the documentation of [log], [exp] and [pow] fixes. *)
Class LogSpec (logf : spec_float → spec_float) : Prop := {
  log_one : logf f32_one = S754_zero false;
  log_zero : logf (S754_zero false) = S754_infinity true
}.

Class ExpPowSpec (expf : spec_float → spec_float)
    (pow : spec_float → spec_float → spec_float) : Prop := {
  exp_zero : ∀ s, expf (S754_zero s) = f32_one;
  pow_zero : ∀ m e, pow (S754_zero false) (S754_finite false m e) = S754_zero false
}.

Section estimates.
Context (logf : spec_float → spec_float) {ls : LogSpec logf}.

(** The estimate of the number of elements at the two ends: a filter
    without a set bit is estimated to hold no element, and for a filter all of
    whose [m] bits are set the estimate is infinite, so that its conversion to
    an integer is undefined. *)
Theorem estimate_ends (m k : Z) (Hm : 0 < m < 2 ^ 24) (Hk : 0 < k < 2 ^ 24) :
  bloom_filter_estimate_elements_by_values logf m 0 k = Ret 0 ∧
  bloom_filter_estimate_elements_by_values logf m m k = Undef BadConversion.
Proof.
  unfold bloom_filter_estimate_elements_by_values.
  pose proof (f32_div_small m k Hm Hk) as Hq.
  destruct (f32_of_Z_small m Hm) as (mm & em & Em & _). rewrite Em in *. split.
  - change (f32_div (f32_of_Z 0) (S754_finite false mm em)) with (S754_zero false).
    change (f32_sub f32_one (S754_zero false)) with f32_one. rewrite log_one.
    by destruct (f32_div (S754_finite false mm em) (f32_of_Z k)) as [s|s| |s q e].
  - rewrite f32_div_self. rewrite f32_one_value, f32_sub_self, log_zero.
    by destruct (f32_div (S754_finite false mm em) (f32_of_Z k)) as [[]|s| |[] q e].
Qed.

End estimates.

Section jaccard.

Lemma f32_of_Z_zero u : 0 ≤ u < 2 ^ 24 → SFeqb (f32_of_Z u) (f32_of_Z 0) = (u =? 0).
Proof.
  intros Hu. destruct (Z.eqb_spec u 0) as [->|]; [done|].
  destruct (f32_of_Z_small u ltac:(lia)) as (m & e & -> & _). done.
Qed.

Lemma same_shape_refl bf : same_shape bf bf.
Proof. done. Qed.

Lemma same_shape_sym bf1 bf2 : same_shape bf1 bf2 → same_shape bf2 bf1.
Proof. unfold same_shape. naive_solver. Qed.

(** The bits of the union and of the intersection. *)
Definition union_bits (bf1 bf2 : BloomFilter) : Z :=
  count_bits (λ p, bit_set (bloom bf1) p || bit_set (bloom bf2) p) (8 * bloom_length bf1).
Definition common_bits (bf1 bf2 : BloomFilter) : Z :=
  count_bits (λ p, bit_set (bloom bf1) p && bit_set (bloom bf2) p) (8 * bloom_length bf1).

Lemma count_union_ok bf1 bf2 :
  countable bf1 → countable bf2 → same_shape bf1 bf2 →
  bloom_filter_count_union_bits_set bf1 bf2 = Ret (union_bits bf1 bf2) ∧
  bloom_filter_count_intersection_bits_set bf1 bf2 = Ret (common_bits bf1 bf2).
Proof.
  intros H1 H2 Hs.
  unfold bloom_filter_count_union_bits_set, bloom_filter_count_intersection_bits_set.
  rewrite check_ok_same_shape by first [exact Hs | reflexivity]. split.
  - exact (count_combined Z.lor orb _ _ H1 H2 Hs (λ x y n _, Z.lor_spec x y n) lor_byte_range).
  - exact (count_combined Z.land andb _ _ H1 H2 Hs (λ x y n _, Z.land_spec x y n)
             land_byte_range).
Qed.

Lemma union_bits_nonneg bf1 bf2 : 0 ≤ union_bits bf1 bf2.
Proof. apply count_in_bounds. Qed.

Lemma bits_comm bf1 bf2 :
  bloom_length bf1 = bloom_length bf2 →
  union_bits bf1 bf2 = union_bits bf2 bf1 ∧ common_bits bf1 bf2 = common_bits bf2 bf1.
Proof.
  intros Hl. unfold union_bits, common_bits, count_bits. rewrite Hl.
  split; apply count_in_ext, Forall_forall; intros p _; [apply orb_comm|apply andb_comm].
Qed.

Lemma bits_self bf : union_bits bf bf = common_bits bf bf.
Proof.
  apply count_in_ext, Forall_forall. intros p _. by destruct (bit_set (bloom bf) p).
Qed.

Lemma jaccard_index_ok bf1 bf2 :
  countable bf1 → countable bf2 → same_shape bf1 bf2 → union_bits bf1 bf2 < 2 ^ 24 →
  bloom_filter_jaccard_index bf1 bf2 =
    Ret (if union_bits bf1 bf2 =? 0 then f32_one
         else f32_div (f32_of_Z (common_bits bf1 bf2)) (f32_of_Z (union_bits bf1 bf2))).
Proof.
  intros H1 H2 Hs Hu. unfold bloom_filter_jaccard_index.
  rewrite check_ok_same_shape by first [exact Hs | reflexivity].
  change (BLOOM_SUCCESS =? BLOOM_FAILURE) with false. cbn [mbind exec_bind].
  destruct (count_union_ok _ _ H1 H2 Hs) as [-> ->]. cbn [mbind exec_bind].
  pose proof (union_bits_nonneg bf1 bf2). rewrite f32_of_Z_zero by lia.
  by destruct (union_bits bf1 bf2 =? 0).
Qed.

(** C19: The Jaccard index of two filters: filters with different parameters
    are refused with 0; otherwise it is the quotient of the numbers of common
    and of all set bits, rounded to [float], and exactly 1 when neither has a
    bit set.  It is symmetric, and the index of a filter with itself is exactly
    1, for up to 2^24 set bits. *)
Theorem jaccard_index_spec (bf1 bf2 : BloomFilter) (H1 : countable bf1) (H2 : countable bf2)
    (Hu : union_bits bf1 bf2 < 2 ^ 24) (Hself : union_bits bf1 bf1 < 2 ^ 24) :
  (check_if_union_or_intersection_ok bf1 bf1 bf2 = BLOOM_FAILURE →
     bloom_filter_jaccard_index bf1 bf2 = Ret (S754_zero false)) ∧
  (same_shape bf1 bf2 →
     bloom_filter_jaccard_index bf1 bf2 =
       Ret (if union_bits bf1 bf2 =? 0 then f32_one
            else f32_div (f32_of_Z (common_bits bf1 bf2)) (f32_of_Z (union_bits bf1 bf2))) ∧
     bloom_filter_jaccard_index bf2 bf1 = bloom_filter_jaccard_index bf1 bf2) ∧
  bloom_filter_jaccard_index bf1 bf1 = Ret f32_one.
Proof.
  split_and!.
  - intros E. unfold bloom_filter_jaccard_index. by rewrite E.
  - intros Hs. destruct (bits_comm bf1 bf2) as [Eu Ec]; [apply Hs|].
    split; [by apply jaccard_index_ok|].
    rewrite !jaccard_index_ok by (done || by apply same_shape_sym || congruence).
    by rewrite Eu, Ec.
  - rewrite jaccard_index_ok by (done || by apply same_shape_refl).
    rewrite <- bits_self. destruct (Z.eqb_spec (union_bits bf1 bf1) 0); [done|].
    pose proof (union_bits_nonneg bf1 bf1).
    destruct (f32_of_Z_small (union_bits bf1 bf1)) as (m & e & -> & _); [lia|].
    by rewrite f32_div_self.
Qed.

End jaccard.

Section false_positives.
Context (expf : spec_float → spec_float) (pow : spec_float → spec_float → spec_float).
Context {es : ExpPowSpec expf pow}.

(** A filter that holds nothing has the false positive rate 0. *)
Lemma empty_rate (bf : BloomFilter) :
  elements_added bf = 0 → 0 < number_bits bf < 2 ^ 24 →
  (∃ m e, f64_of_Z (number_hashes bf) = S754_finite false m e) →
  bloom_filter_current_false_positive_rate expf pow bf = Ret (S754_zero false).
Proof.
  intros He Hb (m & e & Hk). unfold bloom_filter_current_false_positive_rate.
  rewrite He, Z.mul_0_r. change (i32 (u64 0)) with 0.
  change (0 =? - 2 ^ 31) with false. change (- 0) with 0. cbv beta iota zeta.
  destruct (f32_of_Z_small (number_bits bf) Hb) as (mb & eb & -> & _).
  change (f32_div (f32_of_Z 0) (S754_finite false mb eb)) with (S754_zero false).
  rewrite (exp_zero (pow := pow)), f32_one_value, f32_sub_self, Hk.
  change (to_double (S754_zero false)) with (S754_zero false). by rewrite (pow_zero (expf := expf)).
Qed.

End false_positives.

(** ** Concrete values *)

(** Libm as far as the specifications go. *)
Definition demo_log (x : spec_float) : spec_float :=
  match x with
  | S754_zero _ => S754_infinity true
  | _ => if SFeqb x f32_one then S754_zero false else f32_of_Z (-1)
  end.

#[global] Instance demo_log_spec : LogSpec demo_log.
Proof. split; by vm_compute. Qed.

Lemma estimate_ends_witness :
  bloom_filter_estimate_elements_by_values demo_log 960 0 7 = Ret 0 ∧
  bloom_filter_estimate_elements_by_values demo_log 960 960 7 = Undef BadConversion.
Proof. apply (estimate_ends demo_log 960 7); lia. Defined.

Lemma jaccard_index_spec_witness :
  (check_if_union_or_intersection_ok (byte_filter 6) (byte_filter 6) (byte_filter 12)
     = BLOOM_FAILURE →
   bloom_filter_jaccard_index (byte_filter 6) (byte_filter 12) = Ret (S754_zero false)) ∧
  (same_shape (byte_filter 6) (byte_filter 12) →
     bloom_filter_jaccard_index (byte_filter 6) (byte_filter 12) =
       Ret (if union_bits (byte_filter 6) (byte_filter 12) =? 0 then f32_one
            else f32_div (f32_of_Z (common_bits (byte_filter 6) (byte_filter 12)))
                   (f32_of_Z (union_bits (byte_filter 6) (byte_filter 12)))) ∧
     bloom_filter_jaccard_index (byte_filter 12) (byte_filter 6) =
       bloom_filter_jaccard_index (byte_filter 6) (byte_filter 12)) ∧
  bloom_filter_jaccard_index (byte_filter 6) (byte_filter 6) = Ret f32_one.
Proof.
  apply (jaccard_index_spec (byte_filter 6) (byte_filter 12));
    [by apply byte_filter_countable..|by vm_compute|by vm_compute].
Defined.

(** One common bit out of three. *)
Example jaccard_third :
  bloom_filter_jaccard_index (byte_filter 6) (byte_filter 12) =
    Ret (f32_div (f32_of_Z 1) (f32_of_Z 3)).
Proof. by vm_compute. Qed.

(** With the logarithm of 0.01 the shipped configuration's filters, for 699050
    keys, have 7 hashes and 6700436 bits. *)
Example shipped_sizes :
  filter_sizes (λ _, SFopp (to_float (double_literal 46051702 10000000))) 699050 =
    Ret (7, 6700436).
Proof. vm_compute. reflexivity. Qed.
