(* ===== verification/Filter.v ===== *)
(** * The filter of an SSTable

    [filter.hpp] wraps the Bloom filter of [bloom_filter.hpp]; its concept
    [FilterLike] is the class a level's code is written against.  The laws a
    level relies on are the class [FilterLaws], which the wrapper discharges;
    what it cannot promise (no false negatives) is shown in [Bloom]. *)

From S2P Require Import Prelude Config Bloom.

(** ** The interface *)

(** The concept [FilterLike]. *)
Class FilterLike (F : Type) : Type := {
  insert_key : F → bytes → exec F;
  prob_contains_key : F → bytes → exec bool;
  filter_empty : F → bool
}.

(** A key pointer the filters may hash: [strlen] finds its end. *)
Definition terminated (key : bytes) : Prop := 0 ∈ (key : list Z).

#[global] Instance terminated_dec key : Decision (terminated key).
Proof. unfold terminated. apply _. Defined.

Class FilterLaws (F : Type) `{FilterLike F} : Type := {
  filter_inv : F → Prop;
  insert_key_total f key :
    filter_inv f → terminated key →
    ∃ f', insert_key f key = Ret f' ∧ filter_inv f';
  prob_contains_key_total f key :
    filter_inv f → terminated key → is_ret (prob_contains_key f key);
  insert_key_no_spin f key : filter_inv f → insert_key f key ≠ Spin;
  insert_key_inv f key f' : filter_inv f → insert_key f key = Ret f' → filter_inv f'
}.

(** ** The wrapper *)

Record Filter : Set := MkFilter { filter : BloomFilter }.

(** No [Filter] method sets a hash function, so none but the default exists. *)
Definition no_custom_hash (id n : Z) (str : bytes) : exec (list Z) := Undef UninitPtr.

Definition new_Filter {cfg : Config} (num_elements hashes bits : Z) : Filter :=
  MkFilter (new_BloomFilter num_elements hashes bits).

Definition Filter_insert_key (f : Filter) (key : bytes) : exec Filter :=
  '(bf, _) ← bloom_filter_add_string no_custom_hash (filter f) key;
  Ret (MkFilter bf).

Definition Filter_prob_contains_key (f : Filter) (key : bytes) : exec bool :=
  r ← bloom_filter_check_string no_custom_hash (filter f) key;
  Ret (negb (r =? BLOOM_FAILURE)).

Definition Filter_empty (f : Filter) : bool := elements_added (filter f) =? 0.

#[export] Instance Filter_like : FilterLike Filter := {|
  insert_key := Filter_insert_key;
  prob_contains_key := Filter_prob_contains_key;
  filter_empty := Filter_empty
|}.

(** ** Hashing *)

Lemma c_string_terminated key :
  terminated key → ∃ s, ∀ rest', c_string (key ++ rest') = Ret s.
Proof.
  intros Ht.  unfold terminated in Ht. induction key as [|b key IH].
  { by apply not_elem_of_nil in Ht. }
  destruct (decide (b = 0)) as [->|Hb]; [by exists []|].
  apply elem_of_cons in Ht as [?|Ht]; [done|]. destruct (IH Ht) as [s Hs].
  exists (b :: s). intros rest'. cbn. by rewrite (proj2 (Z.eqb_neq b 0) Hb), Hs.
Qed.

Lemma c_string_open key rest :
  ¬ terminated key → c_string (key ++ rest) = (s ← c_string rest; Ret (key ++ s)).
Proof.
  unfold terminated. induction key as [|b key IH]; intros Ht; cbn.
  { by destruct (c_string rest). }
  rewrite not_elem_of_cons in Ht. destruct Ht as [Hb Ht].
  rewrite (proj2 (Z.eqb_neq b 0)) by done. rewrite IH by done.
  by destruct (c_string rest).
Qed.

(** The default hash runs the FNV loop once per seed. *)
Lemma default_hash_ok n str s :
  0 ≤ n → c_string str = Ret s →
  default_hash n str =
    Ret ((λ i, foldl fnv_step (u64 (14695981039346656037 + 31 * i)) s) <$> seqZ 0 n).
Proof.
  intros Hn Hs. unfold default_hash.
  assert (Hfnv : ∀ i, fnv_1a str i =
    Ret (foldl fnv_step (u64 (14695981039346656037 + 31 * i)) s))
    by (intros i; unfold fnv_1a; by rewrite Hs).
  assert (Hf : ∀ l acc, foldM (λ results i, h ← fnv_1a str i; Ret (results ++ [h])) l acc =
    Ret (acc ++ ((λ i, foldl fnv_step (u64 (14695981039346656037 + 31 * i)) s) <$> l))).
  { induction l as [|i l IH]; intros acc; cbn [foldM].
    - by rewrite fmap_nil, app_nil_r.
    - rewrite Hfnv. cbn [mbind exec_bind]. rewrite IH.
      by rewrite fmap_cons, <- app_assoc. }
  by rewrite Hf.
Qed.

(** The hashes of a key read from a buffer depend on the key alone exactly
    when the key contains a zero byte.  Otherwise the hash loop runs on into
    the bytes that follow the key: they are hashed too, and memory without a
    zero byte is read beyond its end. *)
Theorem hash_extent n key rest :
  1 ≤ n →
  (terminated key → ∃ hs, ∀ rest', default_hash n (key ++ rest') = Ret hs) ∧
  (¬ terminated key → terminated rest →
     ∃ s, c_string rest = Ret s ∧
       default_hash n (key ++ rest) = Ret ((λ i, foldl fnv_step
         (u64 (14695981039346656037 + 31 * i)) (key ++ s)) <$> seqZ 0 n)) ∧
  (¬ terminated key → ¬ terminated rest →
     default_hash n (key ++ rest) = Undef OutOfBounds).
Proof.
  intros Hn. split_and!; intros Ht.
  - destruct (c_string_terminated key Ht) as [s Hs].
    eexists. intros rest'. apply default_hash_ok; [lia|apply Hs].
  - intros Hr. destruct (c_string_terminated rest Hr) as [s Hs].
    specialize (Hs []). rewrite app_nil_r in Hs. exists s. split; [done|].
    apply default_hash_ok; [lia|]. by rewrite c_string_open, Hs.
  - intros Hr. pose proof (c_string_open rest [] Hr) as Hs. rewrite app_nil_r in Hs.
    unfold default_hash. rewrite seqZ_cons by lia. cbn [foldM]. unfold fnv_1a.
    by rewrite c_string_open, Hs.
Qed.

Lemma hash_extent_witness :
  default_hash 1 [7; 65; 66] = Undef OutOfBounds ∧
  default_hash 1 [7; 65; 0] = default_hash 1 ([7] ++ [65; 0]) ∧
  default_hash 1 [7; 65; 0] ≠ default_hash 1 [7; 66; 0].
Proof.
  split; [|by split; [|vm_compute]].
  apply (proj2 (proj2 (hash_extent 1 [7] [65; 66] ltac:(lia)))).
  - exact (bool_decide_eq_true_1 (¬ terminated [7]) eq_refl).
  - exact (bool_decide_eq_true_1 (¬ terminated [65; 66]) eq_refl).
Defined.

(** ** The wrapper meets the interface *)

Definition Filter_inv (f : Filter) : Prop :=
  bloom_wf (filter f) ∧ hash_function (filter f) = default_hash_fn.

Lemma calculate_hashes_ok f key :
  Filter_inv f → terminated key →
  ∃ hs, bloom_filter_calculate_hashes no_custom_hash (filter f) key
          (number_hashes (filter f)) = Ret hs ∧
    lenZ hs = number_hashes (filter f).
Proof.
  intros [(_ & _ & _ & Hk) Hd] Ht. unfold bloom_filter_calculate_hashes. rewrite Hd.
  destruct (c_string_terminated key Ht) as [s Hs].
  specialize (Hs []). rewrite app_nil_r in Hs.
  eexists. split; [apply default_hash_ok; [lia|exact Hs]|].
  unfold lenZ. rewrite length_fmap, length_seqZ. lia.
Qed.

Lemma c_string_no_spin m : c_string m ≠ Spin.
Proof.
  induction m as [|b m IH]; cbn [c_string]; [done|]. destruct (b =? 0); [done|].
  by apply bind_no_spin.
Qed.

Lemma default_hash_no_spin n str : default_hash n str ≠ Spin.
Proof.
  apply foldM_no_spin. intros a i. apply bind_no_spin; [|done].
  unfold fnv_1a. apply bind_no_spin; [apply c_string_no_spin|done].
Qed.

(** An insertion that returns had a key whose end was found. *)
Lemma c_string_Ret m s : c_string m = Ret s → terminated m.
Proof.
  destruct (decide (terminated m)) as [|Hn]; [done|].
  pose proof (c_string_open m [] Hn) as Ho. rewrite app_nil_r in Ho.
  by rewrite Ho.
Qed.

#[export] Program Instance Filter_laws : FilterLaws Filter := {|
  filter_inv := Filter_inv
|}.
Next Obligation.
  intros f key Hinv Ht. cbn. unfold Filter_insert_key, bloom_filter_add_string.
  destruct (calculate_hashes_ok f key Hinv Ht) as (hs & -> & Hl). destruct Hinv as [Hwf Hd].
  cbn [mbind exec_bind].
  destruct (add_alt_ok (seqZ 0 (number_hashes (filter f))) (filter f) hs
              (number_hashes (filter f))) as (b' & -> & Hl' & Hv' & _);
    [done|apply schedule_seqZ|lia|lia|].
  eexists. split; [done|]. split; [by apply with_bloom_wf|done].
Qed.
Next Obligation.
  intros f key Hinv Ht. cbn. unfold Filter_prob_contains_key, bloom_filter_check_string.
  destruct (calculate_hashes_ok f key Hinv Ht) as (hs & -> & Hl). destruct Hinv as [Hwf Hd].
  cbn [mbind exec_bind]. rewrite check_alt_sum by (first [apply schedule_seqZ | done | lia]).
  by eexists.
Qed.
Next Obligation.
  intros f key [Hwf Hd]. cbn. unfold Filter_insert_key, bloom_filter_add_string.
  unfold bloom_filter_calculate_hashes. rewrite Hd.
  apply bind_no_spin; [|by intros []]. apply bind_no_spin; [apply default_hash_no_spin|].
  intros hs. unfold bloom_filter_add_string_alt. decide_tests.
  apply bind_no_spin; [|done]. apply foldM_no_spin. intros b i. unfold set_probe, probe.
  apply bind_no_spin; [|intros p; auto with ringdb].
  apply bind_no_spin; [apply getZ_no_spin|]. intros h. by case_match.
Qed.
Next Obligation.
  intros f key f' [Hwf Hd] E. cbn in E. unfold Filter_insert_key, bloom_filter_add_string in E.
  apply bind_Ret_inv in E as ([bf r] & E & [= <-]).
  apply bind_Ret_inv in E as (hs & Eh & E).
  unfold bloom_filter_calculate_hashes in Eh. rewrite Hd in Eh.
  destruct (decide (number_hashes (filter f) = 0)) as [Hk|Hk].
  - rewrite Hk in *. injection Eh as <-. unfold bloom_filter_add_string_alt in E.
    rewrite Hk in E. injection E as <- <-. split; [|done].
    apply with_bloom_wf; [done|done|apply Hwf].
  - assert (Ht : terminated key).
    { unfold default_hash in Eh. rewrite seqZ_cons in Eh by (destruct Hwf as (_&_&_&?); lia).
      cbn [foldM] in Eh. apply bind_Ret_inv in Eh as (x & Ex & _).
      apply bind_Ret_inv in Ex as (y & Ey & _). unfold fnv_1a in Ey.
      apply bind_Ret_inv in Ey as (s & Es & _). by apply c_string_Ret in Es. }
    destruct (calculate_hashes_ok f key) as (hs' & Eh' & Hl); [by split|done|].
    unfold bloom_filter_calculate_hashes in Eh'. rewrite Hd, Eh in Eh'. injection Eh' as <-.
    destruct (add_alt_ok (seqZ 0 (number_hashes (filter f))) (filter f) hs
                (number_hashes (filter f))) as (b' & E' & Hl' & Hv' & _);
      [done|apply schedule_seqZ|lia|lia|].
    rewrite E' in E. injection E as <- <-. split; [by apply with_bloom_wf|done].
Qed.

Lemma new_Filter_inv {cfg : Config} n k m :
  1 ≤ KEY_LENGTH ≤ 8 → 1 ≤ ALIGN_NO_FALSE_SHARING → 1 ≤ m → 0 ≤ k < 2 ^ 23 →
  Filter_inv (new_Filter n k m).
Proof. intros. split; [by apply new_filter_ok|done]. Qed.
