(* ===== verification/Stack.v ===== *)
(** * The descent stack and the segment a memtable is turned into

    [stack.hpp] and [request_segment.hpp].  A stack row is an [unsigned int]
    array of four entries.  The union around a request segment has an empty
    constructor, so the memory of its stack and of the heap block [new]
    returns hold arbitrary values: both are arguments here. *)

From S2P Require Import Prelude Config.

Abbreviation row := (list Z) (only parsing).

Record Stack : Set := MkStack { back : Z; data : list row }.

Definition push_top (st : Stack) (desired_sstable_offset cur_request lo hi : Z)
    : exec Stack :=
  rows ← setZ (data st) (back st) [desired_sstable_offset; cur_request; lo; hi];
  Ret (MkStack (u32 (back st + 1)) rows).

Definition top (st : Stack) : exec row := getZ (data st) (back st).

Definition pop_top (st : Stack) : Stack := MkStack (u32 (back st - 1)) (data st).

Definition stack_empty (st : Stack) : bool := back st =? 0.

Definition stack_wf (st : Stack) : Prop :=
  0 ≤ back st ≤ lenZ (data st) ∧ lenZ (data st) < 2 ^ 32 ∧
  Forall (λ r : row, length r = 4%nat) (data st).

(** ** Building the segment of a memtable *)

Record RequestSegment : Set := MkRequestSegment { rs_stack : Stack; rs_data : bytes }.

Section insert_memtable.
Context {cfg : Config}.

(** The loop state: the stack, the copied data, [top_tree_index] and [back]. *)
Record SegmentLoop : Set := MkSegmentLoop {
  sl_stack : Stack;
  sl_data : bytes;
  sl_top_tree_index : list Z;
  sl_back : Z
}.

(** One child: push its row, record its tree index, copy the entry the range
    boundary [from] points at. *)
Definition push_child (memtable_data : bytes) (child lo hi index from : Z)
    (s : SegmentLoop) : exec SegmentLoop :=
  st ← push_top (sl_stack s) child lo hi 0;
  idx ← setZ (sl_top_tree_index s) (sl_back s) index;
  entry ← load memtable_data from MEMTABLE_ENTRY_LENGTH;
  d ← store (sl_data s) index entry;
  Ret (MkSegmentLoop st d idx (sl_back s + 1)).

Fixpoint insert_memtable_loop (fuel : nat) (memtable_data : bytes) (s : SegmentLoop)
    : exec SegmentLoop :=
  match fuel with
  | O => Spin
  | S fuel' =>
      if stack_empty (sl_stack s) then Ret s
      else
        r ← top (sl_stack s);
        current ← getZ r 0;
        lo ← getZ r 1;
        hi ← getZ r 2;
        let left_child := Z.shiftr (u32 (lo + current)) 1 in
        let right_child := Z.shiftr (u32 (current + hi)) 1 in
        let st := pop_top (sl_stack s) in
        base ← getZ (sl_top_tree_index s) (sl_back s);
        let tree_base := u32 (Z.shiftl base 1) in
        let s1 := MkSegmentLoop st (sl_data s) (sl_top_tree_index s) (sl_back s - 1) in
        s2 ← (if left_child <? current
              then push_child memtable_data left_child lo current
                     (u32 (tree_base + 1)) lo s1
              else Ret s1);
        s3 ← (if current <? right_child
              then push_child memtable_data right_child current hi
                     (u32 (tree_base + 2)) hi s2
              else Ret s2);
        insert_memtable_loop fuel' memtable_data s3
  end.

(** [fresh] is the block [new char[MEMTABLE_SIZE]] returns and [indices] the
    uninitialised local array [top_tree_index]. *)
Definition insert_memtable (fuel : nat) (fresh : bytes) (indices : list Z)
    (rs : RequestSegment) (memtable_data : bytes) : exec RequestSegment :=
  st ← push_top (rs_stack rs) (Z.shiftr MEMTABLE_SIZE 1) 0 MEMTABLE_SIZE 0;
  root ← load memtable_data (Z.shiftr MEMTABLE_SIZE 1) MEMTABLE_ENTRY_LENGTH;
  d ← store fresh 0 root;
  idx ← setZ indices 0 0;
  s ← insert_memtable_loop fuel memtable_data (MkSegmentLoop st d idx 0);
  Ret (MkRequestSegment (sl_stack s) (sl_data s)).

End insert_memtable.

(** ** The stack *)

Lemma push_top_ok st a b c d :
  stack_wf st → back st < lenZ (data st) →
  push_top st a b c d =
    Ret (MkStack (back st + 1) (<[Z.to_nat (back st) := [a; b; c; d]]> (data st))).
Proof.
  intros (Hb & Hl & _) Hlt. unfold push_top. rewrite setZ_ok by lia.
  cbn [mbind exec_bind]. by rewrite u32_small by lia.
Qed.

Lemma push_top_wf st a b c d st' :
  stack_wf st → push_top st a b c d = Ret st' →
  stack_wf st' ∧ back st' = back st + 1.
Proof.
  intros Hwf H. destruct (decide (back st < lenZ (data st))).
  - rewrite push_top_ok in H by done. injection H as <-.
    destruct Hwf as (Hb & Hl & Hr). split; [|done]. split_and!; cbn.
    + lia.
    + rewrite lenZ_insert. lia.
    + by rewrite lenZ_insert.
    + by apply Forall_insert.
  - unfold push_top in H. rewrite setZ_out in H by lia. done.
Qed.

(** A push below capacity keeps the stack well formed, and [pop_top] undoes
    it; but [top] answers the row one above the last pushed one: right after a
    push it still reads the old contents of the row above (or out of bounds
    when the stack is full), and only after a further [pop_top] does it read
    the row that was pushed. *)
Theorem stack_push_top_spec st a b c d :
  stack_wf st → back st < lenZ (data st) →
  ∃ st', push_top st a b c d = Ret st' ∧ stack_wf st' ∧ stack_empty st' = false ∧
    back (pop_top st') = back st ∧
    top (pop_top st') = Ret [a; b; c; d] ∧
    top st' = getZ (data st) (back st + 1) ∧
    (back st + 1 = lenZ (data st) → top st' = Undef OutOfBounds).
Proof.
  intros Hwf Hlt. eexists. split; [by apply push_top_ok|].
  destruct (push_top_wf st a b c d _ Hwf (push_top_ok st a b c d Hwf Hlt)) as [Hwf' _].
  destruct Hwf as (Hb & Hl & _). split; [done|].
  unfold stack_empty, pop_top, top. cbn [back data].
  replace (back st + 1 - 1) with (back st) by lia. rewrite u32_small by lia.
  split; [apply Z.eqb_neq; lia|]. split; [done|]. split_and!.
  - apply getZ_Ret. split; [lia|]. apply list_lookup_insert_eq. unfold lenZ in *. lia.
  - unfold getZ. decide_tests. rewrite list_lookup_insert_ne by lia. done.
  - intros Hfull. apply getZ_out. rewrite lenZ_insert. lia.
Qed.

Definition two_rows : Stack := MkStack 0 [[9; 9; 9; 9]; [5; 6; 7; 8]].

Lemma stack_push_top_spec_witness :
  ∃ st', push_top two_rows 1 2 3 4 = Ret st' ∧ top st' = Ret [5; 6; 7; 8] ∧
    top (pop_top st') = Ret [1; 2; 3; 4].
Proof.
  destruct (stack_push_top_spec two_rows 1 2 3 4) as (st' & ? & _ & _ & _ & ? & E & _).
  - split_and!; first [by repeat constructor | by vm_compute].
  - by vm_compute.
  - exists st'. split_and!; [done|by rewrite E|done].
Defined.

(** ** Memtable segments *)

Section insert_memtable_proofs.
Context {cfg : Config}.

(** What the code computes from the stale row above the first one. *)
Definition stale_children (current lo hi : Z) : bool :=
  (Z.shiftr (u32 (lo + current)) 1 <? current) ||
  (current <? Z.shiftr (u32 (current + hi)) 1).

Lemma push_child_negative memtable_data child lo hi index from s :
  sl_back s < 0 → 0 ≤ back (sl_stack s) < lenZ (data (sl_stack s)) →
  push_child memtable_data child lo hi index from s = Undef OutOfBounds.
Proof.
  intros Hb Hr. unfold push_child, push_top.
  rewrite (setZ_ok (data (sl_stack s)) (back (sl_stack s))) by done.
  cbn [mbind exec_bind]. rewrite setZ_out by lia. done.
Qed.

Lemma insert_memtable_iteration fuel memtable_data d idx st x current lo hi z :
  back st = 1 → 1 < lenZ (data st) → data st !! 1%nat = Some [current; lo; hi; z] →
  insert_memtable_loop (S (S fuel)) memtable_data (MkSegmentLoop st d (x :: idx) 0) =
    if stale_children current lo hi then Undef OutOfBounds
    else Ret (MkSegmentLoop (pop_top st) d (x :: idx) (-1)).
Proof.
  intros Hb Hl Hrow. cbn [insert_memtable_loop sl_stack]. unfold stack_empty, top.
  rewrite Hb. change (1 =? 0) with false. cbn iota.
  assert (Hg : getZ (data st) 1 = Ret [current; lo; hi; z]) by (by apply getZ_Ret).
  rewrite Hg. cbn [mbind exec_bind].
  change (getZ [current; lo; hi; z] 0) with (Ret current).
  change (getZ [current; lo; hi; z] 1) with (Ret lo).
  change (getZ [current; lo; hi; z] 2) with (Ret hi).
  cbn [mbind exec_bind sl_top_tree_index sl_back sl_data].
  change (getZ (x :: idx) 0) with (Ret x). cbn [mbind exec_bind].
  unfold stale_children.
  assert (Hp : back (pop_top st) = 0) by (unfold pop_top; rewrite Hb; done).
  destruct (Z.shiftr (u32 (lo + current)) 1 <? current); cbn [orb].
  { rewrite push_child_negative; cbn [sl_back sl_stack]; [done|lia|].
    rewrite Hp. cbn [pop_top data]. lia. }
  cbn [mbind exec_bind].
  destruct (current <? Z.shiftr (u32 (current + hi)) 1).
  { rewrite push_child_negative; cbn [sl_back sl_stack]; [done|lia|].
    rewrite Hp. cbn [pop_top data]. lia. }
  cbn [mbind exec_bind sl_stack]. unfold pop_top at 1. cbn [back]. by rewrite Hb.
Qed.

(** Turning a memtable into a segment never copies more than its middle
    entry.  The first iteration reads the stale row above the one just pushed;
    if that row looks like a range with a child, the child's tree index is
    stored at index -1 (undefined); otherwise the loop ends with the root
    entry as the only one copied and the stack empty again. *)
Theorem insert_memtable_spec fuel fresh x indices rs memtable_data current lo hi z :
  stack_wf (rs_stack rs) → back (rs_stack rs) = 0 →
  data (rs_stack rs) !! 1%nat = Some [current; lo; hi; z] →
  2 ≤ MEMTABLE_SIZE < 2 ^ 32 → 0 ≤ MEMTABLE_ENTRY_LENGTH →
  lenZ fresh = MEMTABLE_SIZE → lenZ memtable_data = MEMTABLE_SIZE →
  Z.shiftr MEMTABLE_SIZE 1 + MEMTABLE_ENTRY_LENGTH ≤ MEMTABLE_SIZE →
  insert_memtable (S (S fuel)) fresh (x :: indices) rs memtable_data =
    if stale_children current lo hi then Undef OutOfBounds
    else Ret (MkRequestSegment
      (MkStack 0 (<[0%nat := [Z.shiftr MEMTABLE_SIZE 1; 0; MEMTABLE_SIZE; 0]]>
         (data (rs_stack rs))))
      (splice fresh 0 (slice memtable_data (Z.shiftr MEMTABLE_SIZE 1)
         MEMTABLE_ENTRY_LENGTH))).
Proof.
  intros Hwf Hb Hrow HM HE Hf Hmt Hfit. unfold insert_memtable.
  assert (Hl : 1 < lenZ (data (rs_stack rs)))
    by (apply lookup_lt_Some in Hrow; unfold lenZ; lia).
  rewrite push_top_ok by (done || lia). rewrite Hb. cbn [mbind exec_bind].
  assert (Hhalf : 0 ≤ Z.shiftr MEMTABLE_SIZE 1)
    by (rewrite shiftr1_div2; apply Z.div_pos; lia).
  rewrite load_ok by lia. cbn [mbind exec_bind].
  rewrite store_ok by (rewrite ?lenZ_slice by lia; lia). cbn [mbind exec_bind].
  rewrite setZ_ok by (rewrite lenZ_cons; unfold lenZ; lia). cbn [mbind exec_bind].
  change (<[Z.to_nat 0 := 0]> (x :: indices)) with (0 :: indices).
  rewrite (insert_memtable_iteration _ _ _ _ _ _ current lo hi z).
  - by destruct (stale_children current lo hi).
  - done.
  - cbn [data]. by rewrite lenZ_insert.
  - cbn [data]. by rewrite list_lookup_insert_ne.
Qed.

End insert_memtable_proofs.

(** A configuration whose memtable has sixteen bytes and whose entries have
    two. *)
Definition tiny_config : Config := {|
  MEMTABLE_SIZE_MB_BITS := -16;
  TOTAL_SSTABLE_STORAGE_SPACE_MB := 1000;
  LEVEL_FACTOR := 10;
  NUM_SSTABLE_WORKER_THREADS := 200;
  KEY_LENGTH := 1;
  VALUE_LENGTH := 1;
  PAGE_SIZE := 4096;
  BLOCK_SIZE := 4096;
  ALIGN_NO_FALSE_SHARING := 64;
  MAX_SIMULTANEOUS_CONNECTIONS := 100;
  NUM_PROCESSORS := 8;
  TOTAL_SSTABLE_PAGE_CACHE_SIZE := 1000
|}.

Lemma insert_memtable_spec_witness :
  @insert_memtable tiny_config 2 (zeros 16) [7]
    (MkRequestSegment (MkStack 0 [[0; 0; 0; 0]; [0; 0; 0; 0]]) []) (seqZ 1 16) =
  Ret (MkRequestSegment (MkStack 0 [[8; 0; 16; 0]; [0; 0; 0; 0]])
         ([9; 10] ++ zeros 14)).
Proof.
  refine (@insert_memtable_spec tiny_config 0 (zeros 16) 7 []
    (MkRequestSegment (MkStack 0 [[0; 0; 0; 0]; [0; 0; 0; 0]]) []) (seqZ 1 16)
    0 0 0 0 _ eq_refl eq_refl _ _ eq_refl eq_refl _).
  - split_and!; first [by repeat constructor | by vm_compute].
  - by vm_compute.
  - by vm_compute.
  - by vm_compute.
Defined.
