(* ===== verification/BufferQueue.v ===== *)
(** * The ring of page cache buffers on offer

    [buffer_queue.hpp].  A buffer is named by its address.  The ring is not
    initialised by its constructor, so the first contents of its cells are an
    argument of [new_BufferQueue].  The abstract view of a ring is the list of
    cells from [queue_front] to [back], both included. *)

From S2P Require Import Prelude Config.

Record Guard : Set := MkGuard { atomic_guard : Z; is_single_thread : bool }.

Record BufferQueue : Set := MkBufferQueue {
  queue_front : Z;
  queue_back : Z;
  cur_num_buffers : Z;
  num_new_buffers : Z;
  queue : list Z;
  bq_guard : Guard
}.

Definition new_BufferQueue (start_num_buffers : Z) (cells : list Z) (single : bool)
    : BufferQueue :=
  MkBufferQueue 0 0 start_num_buffers 0 cells (MkGuard 1 single).

Definition front (q : BufferQueue) : exec Z := getZ (queue q) (queue_front q).

Definition next_slot (q : BufferQueue) (i : Z) : exec Z :=
  if lenZ (queue q) =? 0 then Undef DivideByZero
  else Ret (u32 (i + 1) mod lenZ (queue q)).

Definition push_back (q : BufferQueue) (buffer : Z) : exec BufferQueue :=
  b ← next_slot q (queue_back q);
  cells ← setZ (queue q) b buffer;
  Ret (MkBufferQueue (queue_front q) b (u32 (cur_num_buffers q + 1))
         (u32 (num_new_buffers q + 1)) cells (bq_guard q)).

Definition pop_front (q : BufferQueue) : exec (BufferQueue * Z) :=
  front_buffer ← getZ (queue q) (queue_front q);
  f ← next_slot q (queue_front q);
  Ret (MkBufferQueue f (queue_back q) (u32 (cur_num_buffers q - 1))
         (u32 (num_new_buffers q - 1)) (queue q) (bq_guard q), front_buffer).

(** ** The abstract queue *)

(** [l] is what the cells from the front to the back hold. *)
Definition represents (q : BufferQueue) (l : list Z) : Prop :=
  let n := lenZ (queue q) in
  1 ≤ n < 2 ^ 31 ∧ 0 ≤ queue_front q < n ∧ lenZ l ≤ n ∧
  queue_back q = (queue_front q + lenZ l - 1) mod n ∧
  ∀ i x, l !! i = Some x →
    queue q !! Z.to_nat ((queue_front q + Z.of_nat i) mod n) = Some x.

Lemma new_BufferQueue_represents start junk cells single :
  lenZ (junk :: cells) < 2 ^ 31 →
  represents (new_BufferQueue start (junk :: cells) single) [junk].
Proof.
  intros Hl. unfold represents. cbn [queue queue_front queue_back new_BufferQueue].
  pose proof (lenZ_nonneg cells). rewrite lenZ_cons in *.
  change (lenZ [junk]) with 1. split_and!; try lia.
  - rewrite Z.mod_small; lia.
  - intros [|i] x; [|done]. intros [= <-]. by rewrite Z.mod_small by lia.
Qed.

Lemma next_slot_ok q i :
  1 ≤ lenZ (queue q) < 2 ^ 31 → 0 ≤ i < lenZ (queue q) →
  next_slot q i = Ret ((i + 1) mod lenZ (queue q)).
Proof. intros. unfold next_slot. decide_tests. by rewrite u32_small by lia. Qed.

Lemma mod_range a n : 0 < n → 0 ≤ a mod n < n.
Proof. apply Z.mod_pos_bound. Qed.

(** Two offsets less than one round apart fall on different slots. *)
Lemma mod_offset_inj f a b n :
  0 < n → 0 ≤ a < n → 0 ≤ b < n → (f + a) mod n = (f + b) mod n → a = b.
Proof.
  intros Hn Ha Hb E. apply (f_equal (λ x, (x - f) mod n)) in E.
  rewrite !Zminus_mod_idemp_l in E.
  replace (f + a - f) with a in E by lia. replace (f + b - f) with b in E by lia.
  by rewrite !Z.mod_small in E by lia.
Qed.

Lemma push_back_represents q l buffer :
  represents q l → lenZ l < lenZ (queue q) →
  ∃ q', push_back q buffer = Ret q' ∧ represents q' (l ++ [buffer]) ∧
    lenZ (queue q') = lenZ (queue q) ∧
    cur_num_buffers q' = u32 (cur_num_buffers q + 1) ∧
    num_new_buffers q' = u32 (num_new_buffers q + 1).
Proof.
  intros (Hn & Hf & _ & Hb & Hl) Hlt. set (n := lenZ (queue q)) in *.
  pose proof (lenZ_nonneg l).
  assert (Hback : (queue_back q + 1) mod n = (queue_front q + lenZ l) mod n).
  { rewrite Hb, Zplus_mod_idemp_l. f_equal. lia. }
  unfold push_back. rewrite next_slot_ok; fold n; [|lia|rewrite Hb; apply mod_range; lia].
  cbn [mbind exec_bind]. rewrite Hback.
  rewrite setZ_ok by (apply mod_range; lia). cbn [mbind exec_bind].
  eexists. split; [done|]. unfold represents.
  cbn [queue queue_front queue_back cur_num_buffers num_new_buffers].
  rewrite lenZ_insert, lenZ_app. fold n. change (lenZ [buffer]) with 1.
  split_and!; try (lia || done); [f_equal; lia|].
  intros i x Hi. pose proof (mod_range (queue_front q + lenZ l) n ltac:(lia)).
  destruct (decide (Z.of_nat i = lenZ l)) as [E|Hne].
  - rewrite E, list_lookup_insert_eq by (unfold n, lenZ in *; lia).
    rewrite lookup_app_r in Hi by (unfold lenZ in *; lia).
    replace (i - length l)%nat with 0%nat in Hi by (unfold lenZ in E; lia). by injection Hi as ->.
  - assert (i < length l)%nat.
    { apply lookup_lt_Some in Hi. rewrite length_app in Hi. cbn in Hi.
      unfold lenZ in Hne. lia. }
    rewrite lookup_app_l in Hi by lia. rewrite list_lookup_insert_ne; [by apply Hl|].
    intros E. apply Hne.
    apply (mod_offset_inj (queue_front q) _ _ n); unfold lenZ in *; try lia.
    pose proof (mod_range (queue_front q + Z.of_nat i) n ltac:(lia)). lia.
Qed.

Lemma pop_front_represents q x l :
  represents q (x :: l) →
  ∃ q', pop_front q = Ret (q', x) ∧ represents q' l ∧
    lenZ (queue q') = lenZ (queue q) ∧
    cur_num_buffers q' = u32 (cur_num_buffers q - 1) ∧
    num_new_buffers q' = u32 (num_new_buffers q - 1).
Proof.
  intros (Hn & Hf & Hlen & Hb & Hl). set (n := lenZ (queue q)) in *.
  unfold pop_front. pose proof (Hl 0%nat x eq_refl) as H0. rewrite lenZ_cons in *.
  rewrite Z.add_0_r, Z.mod_small in H0 by lia.
  assert (Hg : getZ (queue q) (queue_front q) = Ret x)
    by (apply getZ_Ret; split; [lia|done]).
  rewrite Hg, next_slot_ok by done. fold n. cbn [mbind exec_bind].
  eexists. split; [done|]. unfold represents.
  cbn [queue queue_front queue_back cur_num_buffers num_new_buffers]. fold n.
  split_and!; try (lia || done || (apply mod_range; lia)).
  - rewrite Hb. symmetry.
    rewrite <- Z.add_sub_assoc, Zplus_mod_idemp_l. f_equal. lia.
  - intros i y Hi. rewrite Zplus_mod_idemp_l.
    replace (queue_front q + 1 + Z.of_nat i) with (queue_front q + Z.of_nat (S i)) by lia.
    by apply Hl.
Qed.

(** C8: The ring refines a FIFO queue of at most [length] entries whose initial
    contents is the one uninitialised cell 0: a push appends unless the queue
    is full, a pop takes the head, and both move the two buffer counters by
    one (modulo [2^32]). *)
Theorem buffer_queue_refines_fifo start junk cells single q l buffer :
  lenZ (junk :: cells) < 2 ^ 31 → represents q l →
  represents (new_BufferQueue start (junk :: cells) single) [junk] ∧
  (lenZ l < lenZ (queue q) →
     ∃ q', push_back q buffer = Ret q' ∧ represents q' (l ++ [buffer]) ∧
       cur_num_buffers q' = u32 (cur_num_buffers q + 1) ∧
       num_new_buffers q' = u32 (num_new_buffers q + 1)) ∧
  (∀ x l', l = x :: l' →
     front q = Ret x ∧
     ∃ q', pop_front q = Ret (q', x) ∧ represents q' l' ∧
       cur_num_buffers q' = u32 (cur_num_buffers q - 1) ∧
       num_new_buffers q' = u32 (num_new_buffers q - 1)).
Proof.
  intros Hc Hq. split_and!; [by apply new_BufferQueue_represents|..].
  - intros Hlt. destruct (push_back_represents q l buffer Hq Hlt)
      as (q' & ? & ? & ? & ? & ?). by exists q'.
  - intros x l' ->. destruct (pop_front_represents q x l' Hq)
      as (q' & E & ? & ? & ? & ?). split; [|by exists q'].
    unfold pop_front, front in *. destruct (getZ _ _); [|done..].
    cbn [mbind exec_bind] in E. destruct (next_slot _ _); [|done..].
    cbn [mbind exec_bind] in E. injection E as _ ->. done.
Qed.

(** The clients' use of the ring: a run of pushes, then as many pops. *)
Fixpoint push_all (q : BufferQueue) (l : list Z) : exec BufferQueue :=
  match l with
  | [] => Ret q
  | x :: l' => q' ← push_back q x; push_all q' l'
  end.

Fixpoint pop_n (n : nat) (q : BufferQueue) : exec (BufferQueue * list Z) :=
  match n with
  | O => Ret (q, [])
  | S n' => '(q', x) ← pop_front q; '(q'', l) ← pop_n n' q'; Ret (q'', x :: l)
  end.

Lemma push_all_represents q l bs :
  represents q l → lenZ l + lenZ bs ≤ lenZ (queue q) →
  ∃ q', push_all q bs = Ret q' ∧ represents q' (l ++ bs) ∧
    u32 (num_new_buffers q') = u32 (num_new_buffers q + lenZ bs).
Proof.
  revert q l. induction bs as [|b bs IH]; intros q l Hq Hlen; cbn [push_all].
  { exists q. rewrite app_nil_r, Z.add_0_r. done. }
  rewrite lenZ_cons in *. pose proof (lenZ_nonneg bs).
  destruct (push_back_represents q l b Hq) as (q1 & -> & Hq1 & Hl1 & _ & Hnew1); [lia|].
  cbn [mbind exec_bind].
  destruct (IH q1 (l ++ [b]) Hq1) as (q' & -> & Hq' & Hnew).
  { rewrite lenZ_app, Hl1. change (lenZ [b]) with 1. lia. }
  exists q'. rewrite <- app_assoc in Hq'. split_and!; [done..|].
  rewrite Hnew, Hnew1. unfold u32. rewrite Zplus_mod_idemp_l. f_equal. lia.
Qed.

Lemma pop_n_represents q l k :
  represents q (l ++ k) →
  ∃ q', pop_n (length l) q = Ret (q', l) ∧ represents q' k ∧
    u32 (num_new_buffers q') = u32 (num_new_buffers q - lenZ l).
Proof.
  revert q. induction l as [|x l IH]; intros q Hq; cbn [pop_n length].
  { exists q. rewrite Z.sub_0_r. done. }
  destruct (pop_front_represents q x (l ++ k) Hq) as (q1 & -> & Hq1 & _ & _ & Hnew1).
  cbn [mbind exec_bind]. destruct (IH q1 Hq1) as (q' & -> & Hq' & Hnew).
  cbn [mbind exec_bind]. exists q'. split_and!; [done..|].
  rewrite Hnew, Hnew1, lenZ_cons. unfold u32. rewrite Zminus_mod_idemp_l. f_equal. lia.
Qed.

(** A consumer that takes as many buffers as were pushed onto a fresh ring
    gets the junk of cell 0 first and every buffer one pop late: the buffer
    pushed last stays behind in the ring while [num_new_buffers] is back at
    zero. *)
Theorem buffer_queue_lags_by_one start junk cells single bs b :
  lenZ (junk :: cells) < 2 ^ 31 → lenZ bs + 2 ≤ lenZ (junk :: cells) →
  ∃ q q', push_all (new_BufferQueue start (junk :: cells) single) (bs ++ [b]) = Ret q ∧
    pop_n (length (bs ++ [b])) q = Ret (q', junk :: bs) ∧
    represents q' [b] ∧ u32 (num_new_buffers q') = 0.
Proof.
  intros Hc Hlen. set (q0 := new_BufferQueue _ _ _).
  destruct (push_all_represents q0 [junk] (bs ++ [b])) as (q & Eq & Hq & Hnew).
  { by apply new_BufferQueue_represents. }
  { rewrite lenZ_app. change (lenZ [junk]) with 1. change (lenZ [b]) with 1.
    change (queue q0) with (junk :: cells). lia. }
  destruct (pop_n_represents q (junk :: bs) [b]) as (q' & Eq' & Hq' & Hnew'); [done|].
  exists q, q'. split_and!; [done| |done|].
  - rewrite <- Eq'. f_equal. rewrite length_app. cbn. lia.
  - rewrite Hnew'. unfold u32 in *. rewrite <- Zminus_mod_idemp_l, Hnew.
    rewrite Zminus_mod_idemp_l, lenZ_app, (lenZ_cons junk). change (lenZ [b]) with 1.
    change (num_new_buffers q0) with 0. by rewrite Z.add_0_l, Z.sub_diag.
Qed.

Lemma buffer_queue_refines_fifo_witness :
  let q := new_BufferQueue 0 [99; 0; 0] true in
  ∃ q', push_back q 7 = Ret q' ∧ represents q' [99; 7].
Proof.
  assert (Hq : represents (new_BufferQueue 0 [99; 0; 0] true) [99])
    by (by apply new_BufferQueue_represents).
  destruct (proj1 (proj2 (buffer_queue_refines_fifo 0 99 [0; 0] true _ [99] 7 eq_refl Hq))
              eq_refl) as (q' & ? & ? & _).
  by exists q'.
Defined.

Lemma buffer_queue_lags_by_one_witness :
  ∃ q q', push_all (new_BufferQueue 0 [99; 0; 0] true) [7; 8] = Ret q ∧
    pop_n 2 q = Ret (q', [99; 7]).
Proof.
  destruct (buffer_queue_lags_by_one 0 99 [0; 0] true [7] 8) as (q & q' & ? & ? & _);
    [done|by vm_compute|].
  by exists q, q'.
Defined.
