(* ===== verification/CacheHelper.v ===== *)
(** * The page cache index of an SSTable

    [sstable_cache_helper.hpp], [sparse_buffer_index.hpp] and
    [cache_location.hpp].  The arrays of a new index are uninitialised: their
    contents are arguments of [new_SSTableCacheHelper]. *)

From S2P Require Import Prelude.

Record CacheLocation : Set := MkCacheLocation {
  boundary_lo : Z;
  boundary_hi : Z;
  buffer_id : Z
}.

#[global] Instance CacheLocation_eq_dec : EqDecision CacheLocation.
Proof. solve_decision. Defined.

Record SparseBufferIndex : Set := MkSparseBufferIndex {
  cache_locations : list CacheLocation;
  sparse_buffer_index_locations : list Z;
  cur_min_invalid_offset : Z;
  id_of_most_recently_selected_buffer : Z
}.

Record SSTableCacheHelper : Set := MkSSTableCacheHelper {
  sparse_buffer_index : SparseBufferIndex;
  free_buffers_left : Z;
  id_of_least_recently_selected_buffer : Z
}.

Definition new_SSTableCacheHelper (locations : list CacheLocation) (ids : list Z)
    : SSTableCacheHelper :=
  MkSSTableCacheHelper (MkSparseBufferIndex locations ids u64_max u32_max) 0 u32_max.

(** What a lookup answers when the offset is not cached:
    [CacheLocation(-1, -1, 0)]. *)
Definition no_location : CacheLocation := MkCacheLocation u64_max u64_max 0.

Definition with_index (h : SSTableCacheHelper) (i : SparseBufferIndex)
    : SSTableCacheHelper :=
  MkSSTableCacheHelper i (free_buffers_left h) (id_of_least_recently_selected_buffer h).

Definition most_recent (h : SSTableCacheHelper) : Z :=
  id_of_most_recently_selected_buffer (sparse_buffer_index h).

Definition set_cur_min_invalid_offset (h : SSTableCacheHelper) (o : Z)
    : SSTableCacheHelper :=
  let i := sparse_buffer_index h in
  with_index h (MkSparseBufferIndex (cache_locations i) (sparse_buffer_index_locations i) o
                  (id_of_most_recently_selected_buffer i)).

Definition get_cur_min_invalid_offset (h : SSTableCacheHelper) : Z :=
  cur_min_invalid_offset (sparse_buffer_index h).

(** [cache_locations[slot].buffer_id = -1] *)
Definition invalidate (i : SparseBufferIndex) (slot : Z) : exec SparseBufferIndex :=
  l ← getZ (cache_locations i) slot;
  ls ← setZ (cache_locations i) slot
         (MkCacheLocation (boundary_lo l) (boundary_hi l) u32_max);
  Ret (MkSparseBufferIndex ls (sparse_buffer_index_locations i) (cur_min_invalid_offset i)
         (id_of_most_recently_selected_buffer i)).

Definition replenish_least_recently_selected_buffer (h : SSTableCacheHelper)
    : exec SSTableCacheHelper :=
  slot ← getZ (sparse_buffer_index_locations (sparse_buffer_index h))
           (id_of_least_recently_selected_buffer h);
  i ← invalidate (sparse_buffer_index h) slot;
  Ret (MkSSTableCacheHelper i (u32 (free_buffers_left h + 1))
         (u32 (id_of_least_recently_selected_buffer h + 1))).

Definition boundary_below (h : SSTableCacheHelper) (offset mid : Z) : exec bool :=
  l ← getZ (cache_locations (sparse_buffer_index h)) mid;
  Ret (boundary_hi l <? offset).

(** The search both operations start with; [bound] is [id + 1] in 32 bits. *)
Definition lower_bound (h : SSTableCacheHelper) (offset : Z) : exec Z :=
  let bound := u32 (most_recent h + 1) in
  '(lo, _) ← bsearch (boundary_below h offset) 1 (bsearch_fuel 0 bound) 0 bound 0;
  Ret lo.

Definition get_buffer_info (h : SSTableCacheHelper) (desired_sstable_offset : Z)
    : exec CacheLocation :=
  lo ← lower_bound h desired_sstable_offset;
  if lo =? u32 (most_recent h + 1) then Ret no_location
  else
    location ← getZ (cache_locations (sparse_buffer_index h)) lo;
    Ret (if (boundary_lo location <=? desired_sstable_offset) &&
            (desired_sstable_offset <=? boundary_hi location) &&
            negb (buffer_id location =? u32_max)
         then location else no_location).

Definition add_buffer (h : SSTableCacheHelper) : SSTableCacheHelper :=
  MkSSTableCacheHelper (sparse_buffer_index h) (u32 (free_buffers_left h + 1))
    (id_of_least_recently_selected_buffer h).

(** In the shifting branch [location2] is written through before it is ever
    assigned. *)
Definition map_buffer_to_offset_boundary (h : SSTableCacheHelper)
    (id sstable_offset1 sstable_offset2 : Z) : exec SSTableCacheHelper :=
  lo ← lower_bound h sstable_offset1;
  if lo =? most_recent h then
    let i := sparse_buffer_index h in
    ls ← setZ (cache_locations i) lo (MkCacheLocation sstable_offset1 sstable_offset2 id);
    ids ← setZ (sparse_buffer_index_locations i) id lo;
    Ret (MkSSTableCacheHelper
           (MkSparseBufferIndex ls ids (cur_min_invalid_offset i)
              (u32 (id_of_most_recently_selected_buffer i + 1)))
           (u32 (free_buffers_left h - 1)) (id_of_least_recently_selected_buffer h))
  else Undef UninitPtr.

(** The loop of [remove_buffer_range]; every round reads one more element of
    [sparse_buffer_index_locations], so its length bounds the rounds. *)
Fixpoint invalidate_range (fuel : nat) (i : SparseBufferIndex) (id old : Z)
    : exec SparseBufferIndex :=
  match fuel with
  | O => Spin
  | S fuel' =>
      if id <=? old then
        slot ← getZ (sparse_buffer_index_locations i) id;
        i' ← invalidate i slot;
        invalidate_range fuel' i' (u32 (id + 1)) old
      else Ret i
  end.

Definition remove_buffer_range (h : SSTableCacheHelper) (buffer_id1 buffer_id2 : Z)
    : exec SSTableCacheHelper :=
  let free := u32 (free_buffers_left h - u32 (buffer_id2 - buffer_id1 + 1)) in
  if buffer_id1 <=? most_recent h then
    let i := sparse_buffer_index h in
    let old := most_recent h in
    let i1 := MkSparseBufferIndex (cache_locations i) (sparse_buffer_index_locations i)
                (cur_min_invalid_offset i) (u32 (buffer_id1 - 1)) in
    i2 ← invalidate_range (S (length (sparse_buffer_index_locations i))) i1
           (Z.max buffer_id1 (id_of_least_recently_selected_buffer h)) old;
    if buffer_id1 <? id_of_least_recently_selected_buffer h then
      Ret (MkSSTableCacheHelper
             (MkSparseBufferIndex (cache_locations i2) (sparse_buffer_index_locations i2)
                (cur_min_invalid_offset i2) u32_max) free u32_max)
    else Ret (MkSSTableCacheHelper i2 free (id_of_least_recently_selected_buffer h))
  else Ret (MkSSTableCacheHelper (sparse_buffer_index h) free
              (id_of_least_recently_selected_buffer h)).

(** ** A populated index *)

Definition location_at (h : SSTableCacheHelper) (i : Z) : option CacheLocation :=
  cache_locations (sparse_buffer_index h) !! Z.to_nat i.

(** [n] entries, sorted, with disjoint offset ranges. *)
Definition index_wf (h : SSTableCacheHelper) (n : Z) : Prop :=
  1 ≤ n < 2 ^ 31 ∧ most_recent h = n - 1 ∧
  n ≤ lenZ (cache_locations (sparse_buffer_index h)) ∧
  (∀ i l, 0 ≤ i < n → location_at h i = Some l → boundary_lo l ≤ boundary_hi l) ∧
  (∀ i j l k, 0 ≤ i < j → j < n → location_at h i = Some l → location_at h j = Some k →
     boundary_hi l < boundary_lo k).

Definition covers (l : CacheLocation) (o : Z) : Prop := boundary_lo l ≤ o ≤ boundary_hi l.

#[global] Instance covers_dec l o : Decision (covers l o).
Proof. unfold covers. apply _. Defined.

Definition hi_below (h : SSTableCacheHelper) (o i : Z) : bool :=
  match location_at h i with Some l => boundary_hi l <? o | None => false end.

Lemma location_at_lt h n i :
  n ≤ lenZ (cache_locations (sparse_buffer_index h)) → 0 ≤ i < n →
  ∃ l, location_at h i = Some l ∧
       getZ (cache_locations (sparse_buffer_index h)) i = Ret l.
Proof.
  intros Hn Hi. destruct (getZ_lt (cache_locations (sparse_buffer_index h)) i)
    as (l & ? & ?); [lia|]. by exists l.
Qed.

(** The search finds the first entry that does not end below the offset. *)
Lemma lower_bound_ok h n o :
  index_wf h n →
  ∃ lo, lower_bound h o = Ret lo ∧ 0 ≤ lo ≤ n ∧
    (∀ i, 0 ≤ i < lo → hi_below h o i = true) ∧
    (∀ i, lo ≤ i < n → hi_below h o i = false).
Proof.
  intros (Hn & Hid & Hlen & Hord & Hdis). unfold lower_bound. rewrite Hid.
  replace (n - 1 + 1) with n by lia. rewrite u32_small by lia.
  destruct (bsearch_partition (hi_below h o) (boundary_below h o) (bsearch_fuel 0 n) 0 n 0)
    as (lo & c & -> & Hr & Ht & Hf & _).
  - lia.
  - lia.
  - intros i Hi. unfold boundary_below, hi_below.
    destruct (location_at_lt h n i Hlen Hi) as (l & -> & ->). done.
  - intros i j Hij Hj Hjt. unfold hi_below in *.
    destruct (location_at_lt h n i Hlen ltac:(lia)) as (l & Hl & _).
    destruct (location_at_lt h n j Hlen ltac:(lia)) as (k & Hk & _).
    rewrite Hl. rewrite Hk in Hjt. apply Z.ltb_lt in Hjt. apply Z.ltb_lt.
    destruct (decide (i = j)) as [->|]; [congruence|].
    pose proof (Hdis i j l k ltac:(lia) Hj Hl Hk).
    pose proof (Hord j k ltac:(lia) Hk). lia.
  - unfold bsearch_fuel. lia.
  - cbn [mbind exec_bind]. exists lo. split; [done|]. split; [lia|done].
Qed.

(** C22: On a populated, sorted index the lookup returns the entry whose range
    contains the offset when that entry is still valid, and the "not cached"
    location otherwise. *)
Theorem get_buffer_info_spec h n o :
  index_wf h n →
  (∀ i l, 0 ≤ i < n → location_at h i = Some l → covers l o →
     get_buffer_info h o =
       Ret (if decide (buffer_id l = u32_max) then no_location else l)) ∧
  ((∀ i l, 0 ≤ i < n → location_at h i = Some l → ¬ covers l o) →
     get_buffer_info h o = Ret no_location).
Proof.
  intros Hwf. destruct (lower_bound_ok h n o Hwf) as (lo & Hlo & Hr & Ht & Hf).
  destruct Hwf as (Hn & Hid & Hlen & Hord & Hdis).
  unfold get_buffer_info. rewrite Hlo, Hid. cbn [mbind exec_bind].
  replace (n - 1 + 1) with n by lia. rewrite u32_small by lia. split.
  - intros i l Hi Hl [Hc1 Hc2].
    assert (E : lo = i).
    { unfold hi_below in *. destruct (Z.lt_trichotomy lo i) as [Hlt|[?|Hgt]]; [|done|].
      - destruct (location_at_lt h n lo Hlen ltac:(lia)) as (k & Hk & _).
        specialize (Hf lo ltac:(lia)). rewrite Hk in Hf. apply Z.ltb_ge in Hf.
        pose proof (Hdis lo i k l ltac:(lia) ltac:(lia) Hk Hl). lia.
      - specialize (Ht i ltac:(lia)). rewrite Hl in Ht. apply Z.ltb_lt in Ht. lia. }
    subst lo. decide_tests.
    destruct (location_at_lt h n i Hlen Hi) as (l' & Hl' & ->). cbn [mbind exec_bind].
    rewrite Hl in Hl'. injection Hl' as <-. decide_tests. cbn [andb].
    destruct (Z.eqb_spec (buffer_id l) u32_max); case_decide; done.
  - intros Hnone. destruct (Z.eqb_spec lo n) as [|Hne]; [done|].
    destruct (location_at_lt h n lo Hlen ltac:(lia)) as (l & Hl & ->). cbn [mbind exec_bind].
    pose proof (Hnone lo l ltac:(lia) Hl) as Hnc. unfold covers in Hnc.
    destruct (Z.leb_spec (boundary_lo l) o), (Z.leb_spec o (boundary_hi l)); try done; lia.
Qed.

Definition two_entries : SSTableCacheHelper :=
  MkSSTableCacheHelper
    (MkSparseBufferIndex [MkCacheLocation 0 9 4; MkCacheLocation 20 29 5] [0; 1] u64_max 1)
    0 0.

Lemma two_entries_wf : index_wf two_entries 2.
Proof.
  split_and!; try by vm_compute.
  - intros i l Hi. assert (i = 0 ∨ i = 1) as [-> | ->] by lia; intros [= <-]; by vm_compute.
  - intros i j l k ??. assert (i = 0) as -> by lia. assert (j = 1) as -> by lia.
    intros [= <-] [= <-]. by vm_compute.
Qed.

Lemma get_buffer_info_spec_witness :
  get_buffer_info two_entries 25 = Ret (MkCacheLocation 20 29 5).
Proof.
  apply (proj1 (get_buffer_info_spec two_entries 2 25 two_entries_wf) 1
           (MkCacheLocation 20 29 5)); [lia|done|unfold covers; cbn; lia].
Defined.

(** Mapping a buffer on a populated index never inserts an entry: when all
    entries but the last end below the new range it overwrites that last entry
    and still advances the count; in every other case it writes through a
    pointer that was never assigned. *)
Theorem map_buffer_spec h n id o1 o2 :
  index_wf h n → 0 ≤ id < lenZ (sparse_buffer_index_locations (sparse_buffer_index h)) →
  ((∀ i, 0 ≤ i < n → hi_below h o1 i = bool_decide (i < n - 1)) →
     ∃ h', map_buffer_to_offset_boundary h id o1 o2 = Ret h' ∧
       cache_locations (sparse_buffer_index h') =
         <[Z.to_nat (n - 1) := MkCacheLocation o1 o2 id]>
           (cache_locations (sparse_buffer_index h)) ∧
       most_recent h' = n ∧ free_buffers_left h' = u32 (free_buffers_left h - 1)) ∧
  ((∃ i, 0 ≤ i < n ∧ hi_below h o1 i ≠ bool_decide (i < n - 1)) →
     map_buffer_to_offset_boundary h id o1 o2 = Undef UninitPtr).
Proof.
  intros Hwf Hin. destruct (lower_bound_ok h n o1 Hwf) as (lo & Hlo & Hr & Ht & Hf).
  destruct Hwf as (Hn & Hid & Hlen & _). unfold map_buffer_to_offset_boundary.
  rewrite Hlo, Hid. cbn [mbind exec_bind]. split.
  - intros Hall. assert (lo = n - 1) as ->.
    { destruct (Z.lt_trichotomy lo (n - 1)) as [Hlt|[?|Hgt]]; [|done|].
      - specialize (Hf lo ltac:(lia)). rewrite Hall, bool_decide_eq_true_2 in Hf by lia. done.
      - specialize (Ht (n - 1) ltac:(lia)).
        rewrite Hall, bool_decide_eq_false_2 in Ht by lia. done. }
    rewrite Z.eqb_refl. rewrite !setZ_ok by lia. cbn [mbind exec_bind].
    eexists. split; [done|]. split; [done|]. split; [|done].
    unfold most_recent in *. cbn. rewrite Hid, u32_small by lia. lia.
  - intros (i & Hi & Hne). destruct (Z.eqb_spec lo (n - 1)) as [->|]; [|done].
    destruct Hne. case_bool_decide; [apply Ht; lia|apply Hf; lia].
Qed.

Lemma map_buffer_spec_witness :
  ∃ h', map_buffer_to_offset_boundary two_entries 1 15 18 = Ret h' ∧
    cache_locations (sparse_buffer_index h') =
      [MkCacheLocation 0 9 4; MkCacheLocation 15 18 1] ∧ most_recent h' = 2.
Proof.
  destruct (proj1 (map_buffer_spec two_entries 2 1 15 18 two_entries_wf ltac:(by vm_compute)))
    as (h' & ? & ? & ? & _).
  - intros i Hi. assert (i = 0 ∨ i = 1) as [-> | ->] by lia; reflexivity.
  - by exists h'.
Defined.

(** ** The index as the program uses it *)

(** The operations the worker threads call. *)
Inductive cache_step : SSTableCacheHelper → SSTableCacheHelper → Prop :=
  | step_set_min h o : cache_step h (set_cur_min_invalid_offset h o)
  | step_add h : cache_step h (add_buffer h)
  | step_replenish h h' :
      replenish_least_recently_selected_buffer h = Ret h' → cache_step h h'
  | step_map h id o1 o2 h' :
      map_buffer_to_offset_boundary h id o1 o2 = Ret h' → cache_step h h'
  | step_remove h id1 id2 h' :
      0 ≤ id1 ≤ u32_max → remove_buffer_range h id1 id2 = Ret h' → cache_step h h'.

Definition never_filled (h : SSTableCacheHelper) : Prop :=
  most_recent h = u32_max ∧ id_of_least_recently_selected_buffer h = u32_max ∧
  lenZ (sparse_buffer_index_locations (sparse_buffer_index h)) ≤ u32_max.

Lemma never_filled_undefined h :
  never_filled h →
  (∀ id o1 o2, map_buffer_to_offset_boundary h id o1 o2 = Undef UninitPtr) ∧
  replenish_least_recently_selected_buffer h = Undef OutOfBounds ∧
  ∀ id1 id2, 0 ≤ id1 ≤ u32_max → remove_buffer_range h id1 id2 = Undef OutOfBounds.
Proof.
  intros (Hm & Hl & Hlen). split_and!.
  - intros. unfold map_buffer_to_offset_boundary, lower_bound. rewrite Hm. done.
  - unfold replenish_least_recently_selected_buffer. rewrite Hl, getZ_out by lia. done.
  - intros id1 id2 Hid. unfold remove_buffer_range. rewrite Hm, Hl.
    rewrite Z.max_r by lia. decide_tests.
    cbn [invalidate_range sparse_buffer_index_locations].
    rewrite Z.leb_refl, getZ_out by lia. done.
Qed.

Lemma cache_step_never_filled h h' : never_filled h → cache_step h h' → never_filled h'.
Proof.
  intros Hn. pose proof (never_filled_undefined h Hn) as (Hmap & Hrep & Hrem).
  inversion 1 as [? o|?|? ? E|? id o1 o2 ? E|? id1 id2 ? Hid E]; subst.
  - exact Hn.
  - exact Hn.
  - by rewrite Hrep in E.
  - by rewrite Hmap in E.
  - by rewrite Hrem in E.
Qed.

(** C25: The page cache index is never filled.  In every state reachable from a
    new index by completed operations each lookup answers "not cached", and
    mapping, replenishing or removing buffers has no defined behaviour. *)
Theorem cache_always_misses locations ids h :
  lenZ ids ≤ u32_max → rtc cache_step (new_SSTableCacheHelper locations ids) h →
  (∀ o, get_buffer_info h o = Ret no_location) ∧
  (∀ id o1 o2, map_buffer_to_offset_boundary h id o1 o2 = Undef UninitPtr) ∧
  replenish_least_recently_selected_buffer h = Undef OutOfBounds ∧
  ∀ id1 id2, 0 ≤ id1 ≤ u32_max → remove_buffer_range h id1 id2 = Undef OutOfBounds.
Proof.
  intros Hids Hr. assert (Hn : never_filled h).
  { assert (H0 : never_filled (new_SSTableCacheHelper locations ids)) by done.
    revert H0. clear Hids. induction Hr; eauto using cache_step_never_filled. }
  split; [|by apply never_filled_undefined]. intros o.
  unfold get_buffer_info, lower_bound. destruct Hn as (-> & _). done.
Qed.

Lemma cache_always_misses_witness :
  get_buffer_info (add_buffer (new_SSTableCacheHelper [no_location] [0])) 12 =
    Ret no_location.
Proof.
  apply (cache_always_misses [no_location] [0]); [by vm_compute|].
  apply rtc_once, step_add.
Defined.
