(* ===== verification/Guards.v ===== *)
(** * The atomic guards

    The level, buffer queue and wait queue guards are [std::atomic_uchar]
    variables constructed with 1.  [lsm_tree.hpp] takes them in two ways, a
    blocking loop [while (!guard.compare_exchange_weak(my_zero, 1));] whose
    expected value lives outside the loop, and a single attempt with a fresh
    expected value, and releases them with [store(1)].  A weak
    compare-and-exchange may fail spuriously; either kind of failure writes
    the value it read back into the expected variable.  The consumer guard of
    a table's wait queue is the first byte of its [SSTableInfo], over which
    start-up copies the name of the directory (lines 608 and 610). *)

From S2P Require Import Prelude.

(** The initial value [std::atomic_uchar atomic_guard{1}]. *)
Definition guard_init : Z := 1.

(** The outcome of one [compare_exchange_weak]: whether it succeeded, the value
    of the atomic and of the expected variable. *)
Definition compare_exchange_weak (spurious : bool) (guard expected desired : Z)
    : bool * Z * Z :=
  if negb spurious && (guard =? expected) then (true, desired, expected)
  else (false, guard, guard).

Definition release (guard : Z) : Z := 1.

(** The single attempt: [unsigned char my_zero = 0; if (compare_exchange...)]. *)
Definition try_acquire (spurious : bool) (guard : Z) : bool * Z :=
  let '(ok, g, _) := compare_exchange_weak spurious guard 0 1 in (ok, g).

(** The blocking loop, with the environment's choice of spurious failures. *)
Fixpoint acquire (attempts : list bool) (guard my_zero : Z) : exec (Z * Z) :=
  match attempts with
  | [] => Spin
  | spurious :: rest =>
      let '(ok, g, e) := compare_exchange_weak spurious guard my_zero 1 in
      if ok : bool then Ret (g, e) else acquire rest g e
  end.

(** ** Threads that share a guard *)

Inductive thread : Set :=
  | Outside
  | Waiting (my_zero : Z)
  | Critical.

#[global] Instance thread_eq_dec : EqDecision thread.
Proof. solve_decision. Defined.

Record guard_state : Set := MkGuardState { gs_guard : Z; gs_threads : list thread }.

(** [memcpy(sstable_info, "/sstable", 8)] stores a ['/'] into the guard. *)
Definition slash : Z := 47.

(** One atomic step of one thread on a guard; [consumer] tells whether it is
    the consumer guard of a table's wait queue.  A blocking loop starts with
    whatever the last attempt of the thread left in [my_zero]. *)
Inductive guard_step (consumer : bool) : guard_state → guard_state → Prop :=
  | step_arrive g ts i my_zero :
      ts !! i = Some Outside →
      guard_step consumer (MkGuardState g ts) (MkGuardState g (<[i := Waiting my_zero]> ts))
  | step_cas_ok g ts i e g' e' spurious :
      ts !! i = Some (Waiting e) →
      compare_exchange_weak spurious g e 1 = (true, g', e') →
      guard_step consumer (MkGuardState g ts) (MkGuardState g' (<[i := Critical]> ts))
  | step_cas_fail g ts i e g' e' spurious :
      ts !! i = Some (Waiting e) →
      compare_exchange_weak spurious g e 1 = (false, g', e') →
      guard_step consumer (MkGuardState g ts) (MkGuardState g' (<[i := Waiting e']> ts))
  | step_try g ts i g' spurious :
      ts !! i = Some Outside → try_acquire spurious g = (true, g') →
      guard_step consumer (MkGuardState g ts) (MkGuardState g' (<[i := Critical]> ts))
  | step_release g ts i :
      ts !! i = Some Critical →
      guard_step consumer (MkGuardState g ts) (MkGuardState (release g) (<[i := Outside]> ts))
  | step_path g ts :
      consumer = true → guard_step consumer (MkGuardState g ts) (MkGuardState slash ts).

Definition start (n : nat) : guard_state :=
  MkGuardState guard_init (replicate n Outside).

(** The values a guard can have. *)
Definition guard_values (consumer : bool) : list Z := if consumer then [1; slash] else [1].

Lemma guard_values_one consumer : 1 ∈ guard_values consumer.
Proof. destruct consumer; left. Qed.

Lemma guard_values_cases consumer g :
  g ∈ guard_values consumer → g = 1 ∨ consumer = true ∧ g = slash.
Proof.
  destruct consumer; cbn; rewrite !elem_of_cons, elem_of_nil; naive_solver.
Qed.

Lemma cas_values consumer spurious g e ok g' e' :
  g ∈ guard_values consumer → compare_exchange_weak spurious g e 1 = (ok, g', e') →
  g' ∈ guard_values consumer.
Proof.
  unfold compare_exchange_weak. intros Hg E. destruct (_ && _); [|congruence].
  injection E as _ <- _. apply guard_values_one.
Qed.

Lemma guard_step_values consumer s s' :
  guard_step consumer s s' → gs_guard s ∈ guard_values consumer →
  gs_guard s' ∈ guard_values consumer.
Proof.
  destruct 1 as [|g ts i e g' e' sp Hi E|g ts i e g' e' sp Hi E|g ts i g' sp Hi E| |g ts ->];
    cbn [gs_guard]; intros Hg; eauto using cas_values, guard_values_one.
  - unfold try_acquire in E. destruct (compare_exchange_weak sp g 0 1) as [[ok g1] e1] eqn:E1.
    injection E as _ <-. eauto using cas_values.
  - right. left.
Qed.

Lemma guard_value consumer n s :
  rtc (guard_step consumer) (start n) s → gs_guard s ∈ guard_values consumer.
Proof.
  intros Hrun. remember (start n) as s0 eqn:E.
  assert (H0 : gs_guard s0 ∈ guard_values consumer) by (subst; apply guard_values_one). clear E.
  induction Hrun; eauto using guard_step_values.
Qed.

(** C24: No guard is ever taken: in every reachable state its value is 1 or, on
    a consumer guard over which start-up has copied the directory name, 47;
    never 0.  So a single attempt, which expects 0, always fails and leaves the
    guard as it is, and the blocking loop, whatever it expects first and
    whether or not other threads are inside, enters with the first attempt
    after its first one that does not fail spuriously, and leaves 1. *)
Theorem guard_always_open consumer n s :
  rtc (guard_step consumer) (start n) s →
  (gs_guard s = 1 ∨ consumer = true ∧ gs_guard s = slash) ∧
  (∀ spurious, try_acquire spurious (gs_guard s) = (false, gs_guard s)) ∧
  (∀ my_zero k first attempts,
     acquire (first :: replicate k true ++ false :: attempts) (gs_guard s) my_zero =
     Ret (1, gs_guard s)).
Proof.
  intros Hv%guard_value%guard_values_cases. split; [done|]. split.
  - by destruct Hv as [->|[_ ->]]; intros [].
  - intros my_zero k first attempts. set (g := gs_guard s).
    assert (Hn : acquire (replicate k true ++ false :: attempts) g g = Ret (1, g)).
    { induction k as [|k IH]; [|done]. cbn. unfold compare_exchange_weak. by rewrite Z.eqb_refl. }
    cbn. unfold compare_exchange_weak. destruct first; [done|]. cbn.
    destruct (Z.eqb_spec g my_zero) as [<-|_]; done.
Qed.

(** A thread waits while start-up overwrites the guard; it enters all the
    same. *)
Lemma guard_always_open_witness :
  acquire [false; true; false] 47 0 = Ret (1, 47) ∧ try_acquire false 47 = (false, 47) ∧
  acquire [false; true; false] 1 0 = Ret (1, 1).
Proof.
  assert (Hrun : rtc (guard_step true) (start 2) (MkGuardState 47 [Waiting 0; Outside])).
  { eapply rtc_l; [by apply (step_arrive true 1 [Outside; Outside] 0 0)|].
    by apply rtc_once, step_path. }
  destruct (guard_always_open true 2 _ Hrun) as (_ & Ht & Ha).
  destruct (guard_always_open false 2 (start 2)) as (_ & _ & H1); [apply rtc_refl|].
  split_and!; [exact (Ha 0 1%nat false [])|exact (Ht false)|exact (H1 0 1%nat false [])].
Defined.

(** Thread [i] enters while the others keep their place. *)
Lemma thread_enters consumer g ts i :
  g = 1 → ts !! i = Some Outside →
  rtc (guard_step consumer) (MkGuardState g ts) (MkGuardState 1 (<[i := Critical]> ts)).
Proof.
  intros -> Hi. pose proof (lookup_lt_Some _ _ _ Hi) as Hlt.
  eapply rtc_l; [by apply (step_arrive _ 1 ts i 0)|].
  eapply rtc_l; [eapply (step_cas_fail _ 1 _ i 0 1 1 false); [|done]|].
  { by apply list_lookup_insert_eq. }
  rewrite list_insert_insert_eq.
  eapply rtc_l; [eapply (step_cas_ok _ 1 _ i 1 1 1 false); [|done]|].
  { by apply list_lookup_insert_eq. }
  rewrite list_insert_insert_eq. apply rtc_refl.
Qed.

(** The guards exclude nobody: from the initial state any number of threads
    can all be inside the critical section at once. *)
Theorem no_mutual_exclusion consumer n :
  rtc (guard_step consumer) (start n) (MkGuardState 1 (replicate n Critical)).
Proof.
  assert (H : ∀ k, (k ≤ n)%nat → rtc (guard_step consumer) (start n)
    (MkGuardState 1 (replicate k Critical ++ replicate (n - k) Outside))).
  { induction k as [|k IH]; intros Hk; [rewrite Nat.sub_0_r; apply rtc_refl|].
    etrans; [apply IH; lia|].
    assert (E : replicate (S k) Critical ++ replicate (n - S k) Outside =
      <[k := Critical]> (replicate k Critical ++ Outside :: replicate (n - S k) Outside)).
    { rewrite insert_app_r_alt by (by rewrite length_replicate).
      rewrite length_replicate, Nat.sub_diag. cbn [insert list_insert].
      rewrite replicate_S_end, <- app_assoc. done. }
    rewrite E. replace (n - k)%nat with (S (n - S k)) by lia.
    apply thread_enters; [done|].
    rewrite lookup_app_r by (by rewrite length_replicate).
    by rewrite length_replicate, Nat.sub_diag. }
  specialize (H n ltac:(done)). rewrite Nat.sub_diag, app_nil_r in H. exact H.
Qed.
