(* ===== verification/WaitQueue.v ===== *)
(** * The request batch wait queue of an SSTable

    [request_batch_wait_queue.hpp].  The queue is a linked list on the heap,
    so the model has the heap: a finite map from addresses to nodes, with
    address 0 as the null pointer and a counter as the allocator.  A request
    batch is named by its address.  The guard [is_single_thread] selects
    between the plain list operations and the atomic ones; the latter are
    modelled as they run when no other thread interferes. *)

From S2P Require Import Prelude Guards.

Record Node : Set := MkNode { req_batch : Z; next : Z }.

Record WaitQueueGuard : Set := MkWaitQueueGuard {
  atomic_consumer_guard : Z;
  size : Z;
  atomic_producer_guard : Z;
  wq_is_single_thread : bool
}.

Record RequestBatchWaitQueue : Set := MkWaitQueue {
  heap : gmap Z Node;
  next_address : Z;
  wq_guard : WaitQueueGuard;
  front : Z;
  back : Z
}.

(** [back] has no initialiser. *)
Definition new_WaitQueue (single : bool) (garbage : Z) : RequestBatchWaitQueue :=
  MkWaitQueue ∅ 1 (MkWaitQueueGuard guard_init 0 guard_init single) 0 garbage.

Definition deref (h : gmap Z Node) (p : Z) : exec Node :=
  if p =? 0 then Undef NullDeref
  else match h !! p with Some n => Ret n | None => Undef UseAfterFree end.

(** [new Node(req_batch)] *)
Definition new_Node (q : RequestBatchWaitQueue) (batch : Z)
    : RequestBatchWaitQueue * Z :=
  (MkWaitQueue (<[next_address q := MkNode batch 0]> (heap q)) (next_address q + 1)
     (wq_guard q) (front q) (back q), next_address q).

(** [front = back = new Node(req_batch)] *)
Definition push_first (q : RequestBatchWaitQueue) (batch : Z) : RequestBatchWaitQueue :=
  let '(q1, p) := new_Node q batch in
  MkWaitQueue (heap q1) (next_address q1) (wq_guard q1) p p.

(** [back->next = new Node(req_batch)] *)
Definition link_after_back (q : RequestBatchWaitQueue) (batch : Z)
    : exec (RequestBatchWaitQueue * Z) :=
  let '(q1, p) := new_Node q batch in
  n ← deref (heap q1) (back q1);
  Ret (MkWaitQueue (<[back q1 := MkNode (req_batch n) p]> (heap q1)) (next_address q1)
         (wq_guard q1) (front q1) (back q1), p).

(** [back = back->next = new Node(req_batch)] *)
Definition push_last (q : RequestBatchWaitQueue) (batch : Z)
    : exec RequestBatchWaitQueue :=
  '(q1, p) ← link_after_back q batch;
  Ret (MkWaitQueue (heap q1) (next_address q1) (wq_guard q1) (front q1) p).

Definition add_size (q : RequestBatchWaitQueue) (d : Z) : RequestBatchWaitQueue :=
  let g := wq_guard q in
  MkWaitQueue (heap q) (next_address q)
    (MkWaitQueueGuard (atomic_consumer_guard g) (u32 (size g + d))
       (atomic_producer_guard g) (wq_is_single_thread g)) (front q) (back q).

Definition release_consumer (q : RequestBatchWaitQueue) : RequestBatchWaitQueue :=
  let g := wq_guard q in
  MkWaitQueue (heap q) (next_address q)
    (MkWaitQueueGuard (release (atomic_consumer_guard g)) (size g)
       (atomic_producer_guard g) (wq_is_single_thread g)) (front q) (back q).

Definition standard_push_back (q : RequestBatchWaitQueue) (batch : Z)
    : exec RequestBatchWaitQueue :=
  q1 ← (if front q =? 0 then Ret (push_first q batch) else push_last q batch);
  Ret (if wq_is_single_thread (wq_guard q1) then q1 else add_size q1 1).

Definition try_push_back (q : RequestBatchWaitQueue) (batch : Z)
    (could_contend_with_consumer : bool) : exec (RequestBatchWaitQueue * bool) :=
  let g := wq_guard q in
  if wq_is_single_thread g then
    q1 ← standard_push_back q batch; Ret (q1, true)
  else if could_contend_with_consumer then
    if atomic_consumer_guard g =? 0 then Ret (q, false)
    else q1 ← standard_push_back q batch; Ret (q1, true)
  else
    let size_var := i32 (size g) in
    if 1 <? size_var then
      q1 ← push_last q batch; Ret (add_size q1 1, true)
    else if size_var =? 0 then
      if atomic_consumer_guard g =? 0 then Ret (q, false)
      else Ret (add_size (push_first q batch) 1, true)
    else if size_var =? 1 then
      if atomic_consumer_guard g =? 0 then Ret (q, false)
      else '(q1, _) ← link_after_back q batch; Ret (add_size q1 1, true)
    else Ret (add_size (push_first q batch) 1, true).

(** [delete] of a node, with the new front. *)
Definition unlink_front (q : RequestBatchWaitQueue) : exec (RequestBatchWaitQueue * Z) :=
  n ← deref (heap q) (front q);
  Ret (MkWaitQueue (delete (front q) (heap q)) (next_address q) (wq_guard q)
         (next n) (back q), req_batch n).

(** [size] is unsigned, so the test [size.fetch_sub(1) - 1 >= 0] compares an
    unsigned value; [node2], declared as a [Node] in the source, is the pointer
    the code means. *)
Definition pop_front (q : RequestBatchWaitQueue) : exec (RequestBatchWaitQueue * Z) :=
  if wq_is_single_thread (wq_guard q) then
    if front q =? 0 then Ret (q, 0) else unlink_front q
  else
    let q1 := add_size q (-1) in
    if 0 <=? u32 (size (wq_guard q) - 1) then
      '(q2, batch) ← unlink_front q1;
      Ret (release_consumer q2, batch)
    else Ret (release_consumer (add_size q1 1), 0).

(** ** The list the heap holds *)

(** From [p] the links lead through the nodes of [l], given with their
    addresses, to the null pointer. *)
Fixpoint chain (h : gmap Z Node) (p : Z) (l : list (Z * Z)) : Prop :=
  match l with
  | [] => p = 0
  | (a, b) :: l' => p = a ∧ ∃ nx, h !! a = Some (MkNode b nx) ∧ chain h nx l'
  end.

(** The queue holds the batches [map snd l]; [leaked] are the addresses of
    nodes that are allocated but no longer linked. *)
Record holds (q : RequestBatchWaitQueue) (l : list (Z * Z)) (leaked : gset Z) : Prop := {
  holds_chain : chain (heap q) (front q) l;
  holds_nodup : NoDup l.*1;
  holds_addr : Forall (λ a, 0 < a < next_address q) l.*1;
  holds_dom : dom (heap q) = list_to_set l.*1 ∪ leaked;
  holds_leaked : ∀ a, a ∈ leaked → 0 < a < next_address q ∧ a ∉ l.*1;
  holds_pos : 0 < next_address q
}.

Definition back_is_last (q : RequestBatchWaitQueue) (l : list (Z * Z)) : Prop :=
  ∀ l' a b, l = l' ++ [(a, b)] → back q = a.

Lemma chain_insert_ne h p l a n :
  a ∉ l.*1 → chain h p l → chain (<[a := n]> h) p l.
Proof.
  revert p. induction l as [|[a' b] l IH]; intros p; [done|].
  rewrite fmap_cons, not_elem_of_cons. cbn [chain fst]. intros [Hne Hin] (-> & nx & Hn & Hc).
  split; [done|]. exists nx. rewrite lookup_insert_ne by done. eauto.
Qed.

Lemma chain_delete_ne h p l a :
  a ∉ l.*1 → chain h p l → chain (delete a h) p l.
Proof.
  revert p. induction l as [|[a' b] l IH]; intros p; [done|].
  rewrite fmap_cons, not_elem_of_cons. cbn [chain fst]. intros [Hne Hin] (-> & nx & Hn & Hc).
  split; [done|]. exists nx. rewrite lookup_delete_ne by done. eauto.
Qed.

(** Linking a new node behind the last one. *)
Lemma chain_snoc h p l a b a' b' :
  NoDup (l.*1 ++ [a]) → a' ∉ l.*1 ++ [a] → chain h p (l ++ [(a, b)]) →
  chain (<[a := MkNode b a']> (<[a' := MkNode b' 0]> h)) p (l ++ [(a, b); (a', b')]).
Proof.
  revert p. induction l as [|[a0 b0] l IH]; intros p Hnd Hin; cbn [app chain].
  - intros (-> & nx & Hn & ->). apply not_elem_of_cons in Hin as [Hne _].
    split; [done|]. exists a'. rewrite lookup_insert_eq. split; [done|].
    split; [done|]. exists 0. by rewrite lookup_insert_ne, lookup_insert_eq by done.
  - rewrite fmap_cons in Hnd, Hin. cbn [fst app] in Hnd, Hin.
    apply NoDup_cons in Hnd as [Ha0 Hnd]. apply not_elem_of_cons in Hin as [Hne Hin].
    intros (-> & nx & Hn & Hc). split; [done|]. exists nx.
    rewrite not_elem_of_app, list_elem_of_singleton in Ha0. destruct Ha0 as [? ?].
    rewrite !lookup_insert_ne by done. eauto.
Qed.

Lemma chain_last h p l a b : chain h p (l ++ [(a, b)]) → h !! a = Some (MkNode b 0).
Proof.
  revert p. induction l as [|[a0 b0] l IH]; intros p; cbn [app chain].
  - by intros (-> & nx & Hn & ->).
  - intros (_ & nx & _ & Hc). eauto.
Qed.

Lemma holds_fresh q l leaked : holds q l leaked → next_address q ∉ l.*1.
Proof.
  intros [_ _ Ha _ _ _] Hin. rewrite Forall_forall in Ha. apply Ha in Hin. lia.
Qed.

(** ** The list operations *)

Definition same_guard (q q' : RequestBatchWaitQueue) : Prop := wq_guard q' = wq_guard q.

Lemma holds_empty q leaked : holds q [] leaked ↔
  front q = 0 ∧ dom (heap q) = leaked ∧ 0 < next_address q ∧
  ∀ a, a ∈ leaked → 0 < a < next_address q.
Proof.
  split.
  - intros [Hc _ _ Hd Hl Hp]. cbn in Hd. rewrite union_empty_l_L in Hd.
    split_and!; [done..|]. intros a Ha. by apply Hl.
  - intros (Hf & Hd & Hp & Hl). split; [done|apply NoDup_nil_2|apply Forall_nil_2|..|done].
    + cbn. by rewrite union_empty_l_L.
    + intros a Ha. split; [by apply Hl|apply not_elem_of_nil].
Qed.

Lemma push_first_holds q leaked b :
  holds q [] leaked →
  holds (push_first q b) [(next_address q, b)] leaked ∧
  back (push_first q b) = next_address q ∧ same_guard q (push_first q b).
Proof.
  intros (Hf & Hd & Hp & Hl)%holds_empty. split; [|done]. split; cbn.
  - split; [done|]. exists 0. by rewrite lookup_insert_eq.
  - apply NoDup_singleton.
  - apply Forall_singleton. lia.
  - rewrite dom_insert_L, Hd. set_solver.
  - intros a Ha. specialize (Hl a Ha). split; [lia|]. rewrite list_elem_of_singleton. lia.
  - lia.
Qed.

Lemma link_after_back_holds q l a b leaked b' :
  holds q (l ++ [(a, b)]) leaked → back q = a →
  ∃ q', link_after_back q b' = Ret (q', next_address q) ∧
    holds q' (l ++ [(a, b); (next_address q, b')]) leaked ∧
    back q' = a ∧ same_guard q q'.
Proof.
  intros Hh Hb. pose proof (holds_fresh _ _ _ Hh) as Hfresh.
  destruct Hh as [Hc Hn Ha Hd Hl Hp]. rewrite fmap_app in *. cbn [fmap list_fmap fst] in *.
  assert (Hap : 0 < a < next_address q).
  { rewrite Forall_app, Forall_singleton in Ha. tauto. }
  unfold link_after_back, new_Node, deref. cbn [heap back front next_address wq_guard].
  rewrite Hb. rewrite (proj2 (Z.eqb_neq a 0)) by lia.
  rewrite lookup_insert_ne, (chain_last _ _ _ _ _ Hc) by lia. cbn [mbind exec_bind].
  eexists. split; [done|]. split; [|by split].
  assert (E : (l ++ [(a, b); (next_address q, b')]).*1 = (l.*1 ++ [a]) ++ [next_address q])
    by (rewrite fmap_app; cbn; by rewrite <- app_assoc).
  split; cbn [heap front next_address]; rewrite ?E.
  - by apply chain_snoc.
  - apply NoDup_app. split_and!; [done| |apply NoDup_singleton].
    intros x Hx Hx'. apply list_elem_of_singleton in Hx' as ->. done.
  - rewrite Forall_app, Forall_singleton. split; [|lia].
    eapply Forall_impl; [exact Ha|]. cbn. lia.
  - rewrite !dom_insert_L, Hd, !list_to_set_app_L. cbn. set_solver.
  - intros x Hx. destruct (Hl x Hx) as [Hx1 Hx2]. split; [lia|].
    rewrite not_elem_of_app, list_elem_of_singleton. split; [done|lia].
  - lia.
Qed.

Lemma push_last_holds q l a b leaked b' :
  holds q (l ++ [(a, b)]) leaked → back q = a →
  ∃ q', push_last q b' = Ret q' ∧
    holds q' (l ++ [(a, b); (next_address q, b')]) leaked ∧
    back q' = next_address q ∧ same_guard q q'.
Proof.
  intros Hh Hb. unfold push_last.
  destruct (link_after_back_holds q l a b leaked b' Hh Hb) as (q' & -> & Hh' & _ & Hg).
  cbn [mbind exec_bind]. eexists. split; [done|]. split; [|by split].
  by destruct Hh'; split.
Qed.

Lemma unlink_front_holds q a b l leaked :
  holds q ((a, b) :: l) leaked →
  ∃ q', unlink_front q = Ret (q', b) ∧ holds q' l leaked ∧
    back q' = back q ∧ same_guard q q'.
Proof.
  intros [Hc Hn Ha Hd Hl Hp]. rewrite fmap_cons in *. cbn [fst] in *.
  destruct Hc as (Hf & nx & Hnode & Hc). apply NoDup_cons in Hn as [Hna Hn].
  apply Forall_cons_1 in Ha as [Ha0 Ha].
  unfold unlink_front, deref. rewrite Hf, (proj2 (Z.eqb_neq a 0)), Hnode by lia.
  cbn [mbind exec_bind]. eexists. split; [done|]. split; [|by split].
  split; cbn [heap front next_address next]; try done.
  - by apply chain_delete_ne.
  - rewrite dom_delete_L, Hd. cbn. assert (a ∉ leaked).
    { intros Hin. apply Hl in Hin as [_ Hin]. apply Hin. by left. }
    assert (a ∉ (list_to_set l.*1 : gset Z)) by (by rewrite elem_of_list_to_set).
    set_solver.
  - intros x Hx. destruct (Hl x Hx) as [? Hx2]. split; [done|].
    by apply not_elem_of_cons in Hx2 as [_ ?].
Qed.

Lemma holds_front q l leaked : holds q l leaked → l ≠ [] → front q ≠ 0.
Proof.
  intros [Hc _ Ha _ _ _] Hne. destruct l as [|[a b] l]; [done|].
  destruct Hc as (-> & _). rewrite fmap_cons in Ha. apply Forall_cons_1 in Ha as [Ha _].
  cbn in Ha. lia.
Qed.

(** Only the list fields matter to [holds]. *)
Lemma holds_ext q q' l leaked :
  heap q' = heap q → next_address q' = next_address q → front q' = front q →
  holds q l leaked → holds q' l leaked.
Proof. intros E1 E2 E3 [? ? ? ? ? ?]. by split; rewrite ?E1, ?E2, ?E3. Qed.

(** ** The interface of the wait queue *)

(** What the worker threads and the batch distribution expect of a wait queue:
    a FIFO of batch pointers whose [pop] answers null when it is empty. *)
Class FifoQueue (Q : Type) : Type := {
  fifo_view : Q → list Z → Prop;
  fifo_push : Q → Z → exec Q;
  fifo_pop : Q → exec (Q * Z);
  fifo_push_ok q l b :
    fifo_view q l → ∃ q', fifo_push q b = Ret q' ∧ fifo_view q' (l ++ [b]);
  fifo_pop_ok q l b :
    fifo_view q (b :: l) → ∃ q', fifo_pop q = Ret (q', b) ∧ fifo_view q' l;
  fifo_pop_empty q : fifo_view q [] → fifo_pop q = Ret (q, 0)
}.

Section fifo_client.
Context {Q : Type} `{FifoQueue Q}.

Definition fifo_push_all (q : Q) (l : list Z) : exec Q := foldM fifo_push l q.

(** A worker that pops until it gets a null pointer. *)
Fixpoint fifo_drain (fuel : nat) (q : Q) : exec (Q * list Z) :=
  match fuel with
  | O => Spin
  | S fuel' =>
      '(q', b) ← fifo_pop q;
      if b =? 0 then Ret (q', [])
      else '(q'', l) ← fifo_drain fuel' q'; Ret (q'', b :: l)
  end.

Lemma fifo_push_all_ok q l k :
  fifo_view q l → ∃ q', fifo_push_all q k = Ret q' ∧ fifo_view q' (l ++ k).
Proof.
  revert q l. induction k as [|b k IH]; intros q l Hv.
  { exists q. by rewrite app_nil_r. }
  unfold fifo_push_all in *. cbn [foldM].
  destruct (fifo_push_ok q l b Hv) as (q1 & -> & Hv1). cbn [mbind exec_bind].
  destruct (IH q1 _ Hv1) as (q2 & -> & Hv2). exists q2. by rewrite <- app_assoc in Hv2.
Qed.

Lemma fifo_drain_ok fuel q l :
  fifo_view q l → Forall (λ b, b ≠ 0) l → (length l < fuel)%nat →
  ∃ q', fifo_drain fuel q = Ret (q', l) ∧ fifo_view q' [].
Proof.
  intros Hv Hl. revert fuel q Hv.
  induction Hl as [|b l Hb _ IH]; intros [|fuel] q Hv Hf; cbn [length] in Hf; try lia;
    cbn [fifo_drain].
  - rewrite fifo_pop_empty by done. by exists q.
  - destruct (fifo_pop_ok q l b Hv) as (q1 & -> & Hv1). cbn [mbind exec_bind].
    rewrite (proj2 (Z.eqb_neq b 0)) by done.
    destruct (IH fuel q1 Hv1 ltac:(lia)) as (q2 & -> & Hv2). by exists q2.
Qed.

End fifo_client.

(** ** Single-threaded queues *)

Definition single_view (q : RequestBatchWaitQueue) (bs : list Z) : Prop :=
  wq_is_single_thread (wq_guard q) = true ∧
  ∃ l, bs = l.*2 ∧ holds q l ∅ ∧ back_is_last q l.

Lemma back_is_last_snoc q l a b : back q = a → back_is_last q (l ++ [(a, b)]).
Proof. intros Hb l' a' b' E. apply app_inj_tail in E as [_ [= <- <-]]. done. Qed.

Lemma standard_push_back_holds q l leaked b :
  holds q l leaked → back_is_last q l →
  ∃ q1, (if front q =? 0 then Ret (push_first q b) else push_last q b) = Ret q1 ∧
    holds q1 (l ++ [(next_address q, b)]) leaked ∧ back q1 = next_address q ∧
    same_guard q q1.
Proof.
  intros Hh Hb. destruct l as [|[a b0] l _] using rev_ind.
  - pose proof Hh as (Hf & _)%holds_empty. rewrite Hf. eexists. split; [done|].
    by apply push_first_holds.
  - assert (Hf : front q ≠ 0).
    { eapply holds_front; [exact Hh|]. by destruct l. }
    rewrite (proj2 (Z.eqb_neq _ _) Hf). rewrite <- app_assoc.
    destruct (push_last_holds q l a b0 leaked b Hh (Hb _ _ _ eq_refl)) as (q1 & ? & ? & ? & ?).
    by exists q1.
Qed.

Lemma single_push_ok q bs b :
  single_view q bs →
  ∃ q', try_push_back q b false = Ret (q', true) ∧ single_view q' (bs ++ [b]).
Proof.
  intros (Hs & l & -> & Hh & Hb). unfold try_push_back, standard_push_back. rewrite Hs.
  destruct (standard_push_back_holds q l ∅ b Hh Hb) as (q1 & -> & Hh1 & Hb1 & Hg).
  cbn [mbind exec_bind]. rewrite Hg, Hs. exists q1. split; [done|].
  split; [by rewrite Hg|]. eexists. split_and!; [|exact Hh1|by apply back_is_last_snoc].
  by rewrite fmap_app.
Qed.

Lemma single_pop_ok q bs b :
  single_view q (b :: bs) → ∃ q', pop_front q = Ret (q', b) ∧ single_view q' bs.
Proof.
  intros (Hs & l & E & Hh & Hb). destruct l as [|[a b'] l]; [done|]. injection E as <- ->.
  unfold pop_front. rewrite Hs.
  assert (Hf : front q ≠ 0).
  { by eapply holds_front; [exact Hh|]. }
  rewrite (proj2 (Z.eqb_neq _ _) Hf).
  destruct (unlink_front_holds q a b l ∅ Hh) as (q' & -> & Hh' & Hb' & Hg).
  exists q'. split; [done|]. split; [by rewrite Hg|]. exists l. split_and!; [done..|].
  intros l' a0 b0 ->. rewrite Hb'. by apply (Hb ((a, b) :: l') a0 b0).
Qed.

Lemma single_pop_empty q : single_view q [] → pop_front q = Ret (q, 0).
Proof.
  intros (Hs & l & E & Hh & _). destruct l; [|done].
  apply holds_empty in Hh as (Hf & _). unfold pop_front. by rewrite Hs, Hf.
Qed.

#[export] Program Instance wait_queue_fifo : FifoQueue RequestBatchWaitQueue := {|
  fifo_view := single_view;
  fifo_push q b := '(q', _) ← try_push_back q b false; Ret q';
  fifo_pop := pop_front
|}.
Next Obligation.
  intros q l b Hv. destruct (single_push_ok q l b Hv) as (q' & -> & Hv'). by exists q'.
Qed.
Next Obligation. intros q l b. apply single_pop_ok. Qed.
Next Obligation. apply single_pop_empty. Qed.

Lemma new_single_view garbage : single_view (new_WaitQueue true garbage) [].
Proof.
  split; [done|]. exists []. split; [done|]. split.
  - apply holds_empty. split_and!; [done..|]. intros a Ha. by apply not_elem_of_empty in Ha.
  - by intros [].
Qed.

(** C1: On a level one thread owns, the linked-list wait queue refines a FIFO
    queue: pushing batches onto a new queue and popping until null yields
    exactly those batches in order, without touching freed or null nodes, and
    leaves the queue empty with no node left allocated. *)
Theorem single_thread_queue_is_fifo garbage bs fuel :
  Forall (λ b, b ≠ 0) bs → (length bs < fuel)%nat →
  ∃ q q', fifo_push_all (new_WaitQueue true garbage) bs = Ret q ∧ single_view q bs ∧
    fifo_drain fuel q = Ret (q', bs) ∧ front q' = 0 ∧ heap q' = ∅.
Proof.
  intros Hbs Hf.
  destruct (@fifo_push_all_ok _ wait_queue_fifo (new_WaitQueue true garbage) [] bs
              (new_single_view garbage)) as (q & Hq & Hv).
  destruct (fifo_drain_ok fuel q bs Hv Hbs Hf) as (q' & Hd & (_ & l & E & Hh & _)).
  exists q, q'. destruct l; [|done]. apply holds_empty in Hh as (? & Hdom & _).
  apply dom_empty_inv_L in Hdom. by split_and!.
Qed.

Lemma single_thread_queue_is_fifo_witness :
  ∃ q q', fifo_push_all (new_WaitQueue true 77) [5; 6; 7] = Ret q ∧
    fifo_drain 4 q = Ret (q', [5; 6; 7]) ∧ heap q' = ∅.
Proof.
  destruct (single_thread_queue_is_fifo 77 [5; 6; 7] 4) as (q & q' & ? & _ & ? & _ & ?);
    [repeat constructor; lia|cbn; lia|].
  by exists q, q'.
Defined.

(** ** Queues shared by two worker threads *)

(** Popping an empty shared queue follows a null pointer: the size is
    unsigned, so the test that should recognise the empty queue always
    holds. *)
Theorem shared_pop_empty_undefined garbage :
  pop_front (new_WaitQueue false garbage) = Undef NullDeref.
Proof. reflexivity. Qed.

Definition shared_push_all (q : RequestBatchWaitQueue) (l : list Z)
    : exec RequestBatchWaitQueue :=
  foldM (λ q b, '(q', _) ← try_push_back q b false; Ret q') l q.

(** A shared queue with [n ≥ 2] entries by its own count. *)
Definition shared_view (q : RequestBatchWaitQueue) (n : Z) (bs : list Z)
    (leaked : gset Z) : Prop :=
  wq_is_single_thread (wq_guard q) = false ∧ size (wq_guard q) = n ∧
  ∃ l, bs = l.*2 ∧ holds q l leaked ∧ back_is_last q l.

Lemma shared_push_ok q n bs leaked b :
  2 ≤ n < 2 ^ 31 - 1 → bs ≠ [] → shared_view q n bs leaked →
  ∃ q', try_push_back q b false = Ret (q', true) ∧
    shared_view q' (n + 1) (bs ++ [b]) leaked.
Proof.
  intros Hn Hne (Hs & Hsz & l & -> & Hh & Hb). unfold try_push_back. rewrite Hs, Hsz.
  rewrite i32_small by lia. decide_tests.
  destruct l as [|[a b0] l _] using rev_ind; [done|].
  destruct (push_last_holds q l a b0 leaked b Hh (Hb _ _ _ eq_refl))
    as (q1 & -> & Hh1 & Hb1 & Hg). cbn [mbind exec_bind].
  exists (add_size q1 1). split; [done|]. split_and!; cbn.
  - by rewrite Hg.
  - rewrite Hg, Hsz. apply u32_small. lia.
  - exists (l ++ [(a, b0); (next_address q, b)]). split_and!.
    + rewrite !fmap_app. cbn. by rewrite <- app_assoc.
    + by apply (holds_ext q1).
    + intros l' a' b' E. change [(a, b0); (next_address q, b)] with
        ([(a, b0)] ++ [(next_address q, b)]) in E. rewrite app_assoc in E.
      apply app_inj_tail in E as [_ [= <- <-]]. cbn. done.
Qed.

Lemma shared_push_all_ok q n bs leaked k :
  2 ≤ n → n + lenZ k < 2 ^ 31 - 1 → bs ≠ [] → shared_view q n bs leaked →
  ∃ q', shared_push_all q k = Ret q' ∧ shared_view q' (n + lenZ k) (bs ++ k) leaked.
Proof.
  revert q n bs. induction k as [|b k IH]; intros q n bs Hn Hlen Hne Hv.
  { exists q. rewrite app_nil_r, Z.add_0_r. done. }
  rewrite lenZ_cons in Hlen. pose proof (lenZ_nonneg k).
  unfold shared_push_all in *. cbn [foldM].
  destruct (shared_push_ok q n bs leaked b) as (q1 & -> & Hv1); [lia|done..|].
  cbn [mbind exec_bind].
  destruct (IH q1 (n + 1) (bs ++ [b])) as (q2 & -> & Hv2);
    [lia|lia|by destruct bs|done|].
  exists q2. rewrite <- app_assoc in Hv2. rewrite lenZ_cons.
  by replace (n + (lenZ k + 1)) with (n + 1 + lenZ k) by lia.
Qed.

(** A new shared queue after its first two pushes: the second node is linked
    behind the first, but [back] still points at the first. *)
Lemma shared_two_pushes garbage b1 b2 :
  ∃ q, shared_push_all (new_WaitQueue false garbage) [b1; b2] = Ret q ∧
    wq_guard q = MkWaitQueueGuard 1 2 1 false ∧ front q = 1 ∧ back q = 1 ∧
    next_address q = 3 ∧
    heap q = <[1 := MkNode b1 2]> (<[2 := MkNode b2 0]> {[1 := MkNode b1 0]}).
Proof. eexists. split; [reflexivity|]. by split_and!. Qed.

(** The third push links over the second batch. *)
Lemma shared_third_push garbage b1 b2 b3 :
  ∃ q, shared_push_all (new_WaitQueue false garbage) [b1; b2; b3] = Ret q ∧
    shared_view q 3 [b1; b3] {[2]}.
Proof.
  destruct (shared_two_pushes garbage b1 b2) as (q & Hq & Hg & Hf & Hb & Hn & Hh).
  unfold shared_push_all in *. change [b1; b2; b3] with ([b1; b2] ++ [b3]).
  rewrite foldM_app, Hq. cbn [mbind exec_bind foldM]. unfold try_push_back.
  rewrite Hg. cbn [wq_is_single_thread size]. change (1 <? i32 2) with true. cbn iota.
  unfold push_last, link_after_back, new_Node, deref.
  cbn [heap back front next_address wq_guard]. rewrite Hh, Hf, Hb, Hn.
  change (1 =? 0) with false. cbn iota.
  rewrite lookup_insert_ne, lookup_insert_eq by done. cbn [mbind exec_bind].
  eexists. split; [reflexivity|]. unfold shared_view. cbn.
  rewrite Hg. split_and!; [done..|]. exists [(1, b1); (3, b3)]. split_and!; [done| |].
  - split; cbn.
    + split; [done|]. exists 3. rewrite lookup_insert_eq. split; [done|]. split; [done|].
      exists 0. by rewrite lookup_insert_ne, lookup_insert_eq.
    + apply NoDup_cons. split; [|apply NoDup_singleton]. by rewrite list_elem_of_singleton.
    + repeat constructor; lia.
    + rewrite !dom_insert_L, dom_singleton_L. set_solver.
    + intros a Ha. apply elem_of_singleton in Ha as ->. split; [lia|].
      by rewrite not_elem_of_cons, list_elem_of_singleton.
    + lia.
  - intros l' a b E. destruct l' as [|? [|? [|??]]]; simplify_eq/=. done.
Qed.

(** C30: The shared queue loses every second batch pushed onto an empty queue as
    soon as a third one follows: the push that finds one entry does not
    advance [back].  Whatever is pushed afterwards, the list holds all batches
    but the second, its node is leaked, and the size counts it. *)
Theorem shared_queue_loses_second_batch garbage b1 b2 b3 bs :
  lenZ bs < 2 ^ 30 →
  ∃ q, shared_push_all (new_WaitQueue false garbage) (b1 :: b2 :: b3 :: bs) = Ret q ∧
    shared_view q (3 + lenZ bs) (b1 :: b3 :: bs) {[2]}.
Proof.
  intros Hlen. destruct (shared_third_push garbage b1 b2 b3) as (q & Hq & Hv).
  destruct (shared_push_all_ok q 3 [b1; b3] {[2]} bs) as (q' & Hq' & Hv');
    [lia|lia|done..|].
  exists q'. split; [|done]. unfold shared_push_all in *.
  change (b1 :: b2 :: b3 :: bs) with ([b1; b2; b3] ++ bs). by rewrite foldM_app, Hq.
Qed.

Lemma shared_queue_loses_second_batch_witness :
  ∃ q, shared_push_all (new_WaitQueue false 0) [11; 12; 13; 14] = Ret q ∧
    shared_view q 4 [11; 13; 14] {[2]}.
Proof. exact (shared_queue_loses_second_batch 0 11 12 13 [14] eq_refl). Defined.
