(* ===== verification/WaitQueueRace.v ===== *)
(** * A producer and a consumer on one wait queue

    [RequestBatchWaitQueue] is meant to let a producer append to a shared queue
    while the consumer takes from its front, without a common lock, as long as
    more than one batch is queued.  This file takes the shared branches of
    [try_push_back] (without known contention) and of [pop_front] apart into
    their single accesses to the shared queue and runs the two threads along an
    arbitrary schedule.  Memory orders are not modelled: the accesses of a
    schedule happen in its order. *)

From S2P Require Import Prelude Guards WaitQueue.

(** ** The threads *)

(** Which branch of [try_push_back] the loaded size selects. *)
Inductive push_kind : Set := Fast | First | Second.

(** The producer's next access. *)
Inductive producer : Set :=
  | P_load (batch : Z)                          (** [guard.size.load()] *)
  | P_check (kind : push_kind) (batch : Z)      (** [atomic_consumer_guard.load()] *)
  | P_alloc (kind : push_kind) (batch : Z)      (** [new Node(req_batch)] *)
  | P_link (kind : push_kind) (node : Z)        (** [back->next = node] *)
  | P_set_back (kind : push_kind) (node : Z)    (** [back = node] *)
  | P_set_front (node : Z)                      (** [front = node] *)
  | P_add                                       (** [guard.size.fetch_add(1)] *)
  | P_done (pushed : bool).

(** The consumer's next access; [pops] calls of [pop_front] are still to be
    made. *)
Inductive consumer : Set :=
  | C_sub (pops : nat)                                (** [size.fetch_sub(1)] *)
  | C_batch (pops : nat)                              (** [front->req_batch] *)
  | C_next (pops : nat) (batch : Z)                   (** [front->next] *)
  | C_front (pops : nat) (batch node old : Z)         (** [front = node] *)
  | C_release (pops : nat) (batch old : Z)            (** [consumer_guard.store(1)] *)
  | C_delete (pops : nat) (batch old : Z)             (** [delete node2] *)
  | C_done.

Record race : Set := MkRace {
  rc_queue : RequestBatchWaitQueue;
  rc_producer : producer;
  rc_consumer : consumer;
  rc_popped : list Z
}.

Definition with_producer (s : race) (q : RequestBatchWaitQueue) (p : producer) : race :=
  MkRace q p (rc_consumer s) (rc_popped s).

Definition with_consumer (s : race) (q : RequestBatchWaitQueue) (c : consumer) : race :=
  MkRace q (rc_producer s) c (rc_popped s).

Definition set_front (q : RequestBatchWaitQueue) (p : Z) : RequestBatchWaitQueue :=
  MkWaitQueue (heap q) (next_address q) (wq_guard q) p (back q).

Definition set_back (q : RequestBatchWaitQueue) (p : Z) : RequestBatchWaitQueue :=
  MkWaitQueue (heap q) (next_address q) (wq_guard q) (front q) p.

Definition set_wq_heap (q : RequestBatchWaitQueue) (h : gmap Z Node) : RequestBatchWaitQueue :=
  MkWaitQueue h (next_address q) (wq_guard q) (front q) (back q).

(** The branches on the loaded size. *)
Definition push_branch (size_var batch : Z) : producer :=
  if 1 <? size_var then P_alloc Fast batch
  else if size_var =? 0 then P_check First batch
  else if size_var =? 1 then P_check Second batch
  else P_alloc First batch.

Definition producer_step (s : race) : exec race :=
  let q := rc_queue s in
  match rc_producer s with
  | P_load batch => Ret (with_producer s q (push_branch (i32 (size (wq_guard q))) batch))
  | P_check kind batch =>
      Ret (with_producer s q
             (if atomic_consumer_guard (wq_guard q) =? 0 then P_done false
              else P_alloc kind batch))
  | P_alloc kind batch =>
      let '(q1, node) := new_Node q batch in
      Ret (with_producer s q1
             (match kind with First => P_set_back First node | _ => P_link kind node end))
  | P_link kind node =>
      n ← deref (heap q) (back q);
      let q1 := set_wq_heap q (<[back q := MkNode (req_batch n) node]> (heap q)) in
      Ret (with_producer s q1 (match kind with Fast => P_set_back Fast node | _ => P_add end))
  | P_set_back kind node =>
      Ret (with_producer s (set_back q node)
             (match kind with First => P_set_front node | _ => P_add end))
  | P_set_front node => Ret (with_producer s (set_front q node) P_add)
  | P_add => Ret (with_producer s (add_size q 1) (P_done true))
  | P_done _ => Ret s
  end.

Definition next_pop (pops : nat) : consumer :=
  match pops with O => C_done | S _ => C_sub pops end.

Definition consumer_step (s : race) : exec race :=
  let q := rc_queue s in
  match rc_consumer s with
  | C_sub pops =>
      (* the subtracted size is unsigned, so the test [>= 0] always holds *)
      Ret (with_consumer s (add_size q (-1)) (C_batch (pred pops)))
  | C_batch pops =>
      n ← deref (heap q) (front q); Ret (with_consumer s q (C_next pops (req_batch n)))
  | C_next pops batch =>
      n ← deref (heap q) (front q);
      Ret (with_consumer s q (C_front pops batch (next n) (front q)))
  | C_front pops batch node old => Ret (with_consumer s (set_front q node) (C_release pops batch old))
  | C_release pops batch old => Ret (with_consumer s (release_consumer q) (C_delete pops batch old))
  | C_delete pops batch old =>
      Ret (MkRace (set_wq_heap q (delete old (heap q))) (rc_producer s) (next_pop pops)
             (rc_popped s ++ [batch]))
  | C_done => Ret s
  end.

Inductive turn : Set := ProducerTurn | ConsumerTurn.

#[export] Instance turn_eq_dec : EqDecision turn.
Proof. solve_decision. Defined.

Definition take_turn (s : race) (t : turn) : exec race :=
  match t with ProducerTurn => producer_step s | ConsumerTurn => consumer_step s end.

Definition run_schedule (schedule : list turn) (s : race) : exec race :=
  foldM take_turn schedule s.

Definition start_race (q : RequestBatchWaitQueue) (batch : Z) (pops : nat) : race :=
  MkRace q (P_load batch) (next_pop pops) [].

(** The steps a schedule gives to one thread. *)
Definition turns (t : turn) (schedule : list turn) : nat :=
  length (base.filter (λ t', t' = t) schedule).

Definition finished (s : race) : Prop :=
  rc_producer s = P_done true ∧ rc_consumer s = C_done.

(** ** One push against one pop

    The two threads commute: after [p] steps of a fast push and [c] steps of a
    pop the shared state is the same whatever the order of those steps. *)

Section commuting.

(** The queue: its first two nodes, its last node, and what is fixed. *)
Context (h : gmap Z Node) (fresh consumer_guard n producer_guard : Z).
Context (a1 b1 a2 z bz b : Z).
Hypothesis Ha1 : a1 ≠ 0.
Hypothesis Hz : z ≠ 0.
Hypothesis Hz1 : z ≠ a1.
Hypothesis Hfresh1 : fresh ≠ a1.
Hypothesis Hfreshz : fresh ≠ z.
Hypothesis Hfront : h !! a1 = Some (MkNode b1 a2).
Hypothesis Hback : h !! z = Some (MkNode bz 0).
Hypothesis Hn : 3 ≤ n < 2 ^ 31 - 1.

Definition push_at (p : nat) : producer :=
  match p with
  | 0 => P_load b | 1 => P_alloc Fast b | 2 => P_link Fast fresh
  | 3 => P_set_back Fast fresh | 4 => P_add | _ => P_done true
  end%nat.

Definition pop_at (c : nat) : consumer :=
  match c with
  | 0 => C_sub 1 | 1 => C_batch 0 | 2 => C_next 0 b1 | 3 => C_front 0 b1 a2 a1
  | 4 => C_release 0 b1 a1 | 5 => C_delete 0 b1 a1 | _ => C_done
  end%nat.

Definition pushed_heap (p : nat) : gmap Z Node :=
  match p with
  | 0 | 1 => h
  | 2 => <[fresh := MkNode b 0]> h
  | _ => <[z := MkNode bz fresh]> (<[fresh := MkNode b 0]> h)
  end%nat.

Definition popped_heap (c : nat) (h' : gmap Z Node) : gmap Z Node :=
  if (c <=? 5)%nat then h' else delete a1 h'.

Definition size_at (p c : nat) : Z :=
  n + (if (p <=? 4)%nat then 0 else 1) - (if (c <=? 0)%nat then 0 else 1).

Definition race_at (p c : nat) : race :=
  MkRace
    (MkWaitQueue (popped_heap c (pushed_heap p))
       (if (p <=? 1)%nat then fresh else fresh + 1)
       (MkWaitQueueGuard (if (c <=? 4)%nat then consumer_guard else 1) (size_at p c)
          producer_guard false)
       (if (c <=? 3)%nat then a1 else a2) (if (p <=? 3)%nat then z else fresh))
    (push_at p) (pop_at c) (if (c <=? 5)%nat then [] else [b1]).

Lemma popped_lookup c h' a : a ≠ a1 → popped_heap c h' !! a = h' !! a.
Proof. intros. unfold popped_heap. case_match; [done|]. by apply lookup_delete_ne. Qed.

Lemma popped_insert c h' a m :
  a ≠ a1 → <[a := m]> (popped_heap c h') = popped_heap c (<[a := m]> h').
Proof. intros. unfold popped_heap. case_match; [done|]. by rewrite delete_insert_ne. Qed.

Lemma pushed_front p : pushed_heap p !! a1 = Some (MkNode b1 a2).
Proof. destruct p as [|[|[|p]]]; cbn; by rewrite ?lookup_insert_ne by done. Qed.

Lemma size_at_range p c : 2 ≤ size_at p c < 2 ^ 31.
Proof. unfold size_at. repeat case_match; lia. Qed.

Lemma deref_some h' a m : a ≠ 0 → h' !! a = Some m → deref h' a = Ret m.
Proof. intros Ha E. unfold deref. by rewrite (proj2 (Z.eqb_neq _ _) Ha), E. Qed.

Lemma producer_step_at p c :
  (p ≤ 5)%nat → producer_step (race_at p c) = Ret (race_at (5 `min` S p) c).
Proof.
  intros Hp. pose proof (size_at_range p c) as Hs.
  destruct p as [|[|[|[|[|[|p]]]]]]; [..|lia];
    unfold producer_step, with_producer, new_Node, set_wq_heap, add_size, set_back;
    cbn [race_at rc_queue rc_producer rc_consumer rc_popped push_at pushed_heap heap back front
         next_address wq_guard Nat.leb Nat.min size atomic_consumer_guard
         atomic_producer_guard wq_is_single_thread].
  - unfold push_branch. rewrite i32_small by lia. decide_tests. done.
  - by rewrite popped_insert.
  - rewrite (deref_some _ z (MkNode bz 0)); [|done|].
    + cbn [mbind exec_bind req_batch]. by rewrite popped_insert.
    + by rewrite popped_lookup, lookup_insert_ne.
  - done.
  - assert (E : u32 (size_at 4 c + 1) = size_at 5 c).
    { rewrite u32_small by lia. unfold size_at. cbn [Nat.leb]. lia. }
    by rewrite E.
  - done.
Qed.

Lemma consumer_step_at p c :
  (c ≤ 6)%nat → consumer_step (race_at p c) = Ret (race_at p (6 `min` S c)).
Proof.
  intros Hc. pose proof (size_at_range p c) as Hs. pose proof (pushed_front p) as Hf.
  destruct c as [|[|[|[|[|[|[|c]]]]]]]; [..|lia];
    unfold consumer_step, with_consumer, set_wq_heap, add_size, set_front, release_consumer;
    cbn [race_at rc_queue rc_producer rc_consumer rc_popped pop_at popped_heap heap back front
         next_address wq_guard Nat.leb Nat.min size atomic_consumer_guard
         atomic_producer_guard wq_is_single_thread pred next_pop];
    try done.
  - assert (E : u32 (size_at p 0 + -1) = size_at p 1).
    { rewrite u32_small by lia. unfold size_at. cbn [Nat.leb]. lia. }
    by rewrite E.
  - by rewrite (deref_some _ a1 (MkNode b1 a2)) by done.
  - by rewrite (deref_some _ a1 (MkNode b1 a2)) by done.
Qed.

Lemma run_schedule_at schedule p c :
  (p ≤ 5)%nat → (c ≤ 6)%nat →
  run_schedule schedule (race_at p c) =
  Ret (race_at (5 `min` (p + turns ProducerTurn schedule))
         (6 `min` (c + turns ConsumerTurn schedule))).
Proof.
  revert p c. induction schedule as [|t ts IH]; intros p c Hp Hc.
  { change (turns _ []) with 0%nat. by rewrite !Nat.add_0_r, !Nat.min_r by done. }
  unfold run_schedule in *. cbn [foldM]. unfold turns.
  destruct t; cbn [take_turn]; rewrite ?producer_step_at, ?consumer_step_at by done;
    cbn [mbind exec_bind]; rewrite IH by lia; unfold turns;
    rewrite !filter_cons; repeat (case_decide; try done); cbn [length]; do 2 f_equal; lia.
Qed.

End commuting.

(** The start of the race is the corner of that square, and its end is what the
    two calls give one after the other. *)
Lemma race_square q n b1 b2 bs leaked b :
  3 ≤ n < 2 ^ 31 - 1 → shared_view q n (b1 :: b2 :: bs) leaked →
  ∃ R : nat → nat → race,
    start_race q b 1 = R 0%nat 0%nat ∧
    (∀ schedule, run_schedule schedule (R 0 0)%nat =
       Ret (R (5 `min` turns ProducerTurn schedule) (6 `min` turns ConsumerTurn schedule))%nat) ∧
    finished (R 5 6)%nat ∧ rc_popped (R 5 6)%nat = [b1] ∧
    ∃ q1, try_push_back q b false = Ret (q1, true) ∧
      pop_front q1 = Ret (rc_queue (R 5 6)%nat, b1).
Proof.
  intros Hn (Hs & Hsz & l & El & Hh & Hb).
  destruct l as [|[a1 b1'] [|[a2 b2'] l]]; [done..|]. injection El as <- <- Ebs.
  pose proof (holds_fresh _ _ _ Hh) as Hfr. destruct Hh as [Hc Hnd Ha Hd Hl Hp].
  destruct (exists_last (l := (a2, b2) :: l)) as (l0 & [z bz] & E); [done|].
  rewrite E in *. specialize (Hb ((a1, b1) :: l0) z bz eq_refl).
  pose proof (chain_last _ _ ((a1, b1) :: l0) _ _ Hc) as Hz.
  destruct Hc as (Hf & nx & Hnode & _).
  cbn [fmap list_fmap fst] in Hnd, Ha, Hfr. rewrite fmap_app in Hnd, Ha, Hfr. cbn in Hnd, Ha, Hfr.
  apply Forall_cons_1 in Ha as [Ha1 Ha]. apply Forall_app in Ha as [_ Haz].
  rewrite Forall_singleton in Haz. apply NoDup_cons in Hnd as [Hna _].
  rewrite not_elem_of_app, list_elem_of_singleton in Hna. destruct Hna as [_ Hna].
  destruct q as [h fresh [cg sz pg st] f bk]. cbn in *. subst f bk sz st.
  exists (race_at h fresh cg n pg a1 b1 nx z bz b). split_and!; [| |done..|].
  - unfold start_race, race_at, size_at. cbn. by rewrite Z.add_0_r, Z.sub_0_r.
  - intros schedule. apply run_schedule_at; (done || lia).
  - unfold try_push_back, push_last, link_after_back, new_Node.
    cbn [wq_guard wq_is_single_thread size heap back front next_address].
    rewrite i32_small by lia. decide_tests.
    rewrite (deref_some _ z (MkNode bz 0)) by (lia || by rewrite lookup_insert_ne by lia).
    cbn [mbind exec_bind]. eexists. split; [done|].
    unfold pop_front, unlink_front, size_at. cbn -[u32].
    rewrite (u32_small (n + 1)), !u32_small by lia. decide_tests.
    rewrite (deref_some _ a1 (MkNode b1 nx)) by (lia || by rewrite !lookup_insert_ne by lia).
    cbn. by replace (n + 1 + -1) with (n + 1 - 1) by lia.
Qed.

(** A pop of a shared queue whose count covers its batches. *)
Lemma shared_pop_ok q n b bs leaked :
  1 ≤ n < 2 ^ 31 → shared_view q n (b :: bs) leaked →
  ∃ q', pop_front q = Ret (q', b) ∧ shared_view q' (n - 1) bs leaked.
Proof.
  intros Hn (Hs & Hsz & l & El & Hh & Hb). destruct l as [|[a b'] l]; [done|].
  injection El as <- ->. unfold pop_front. rewrite Hs, Hsz, u32_small by lia. decide_tests.
  destruct (unlink_front_holds (add_size q (-1)) a b l leaked) as (q' & -> & Hh' & Hb' & Hg).
  { by apply (holds_ext q). }
  cbn [mbind exec_bind]. eexists. split; [done|]. split_and!.
  - cbn. by rewrite Hg.
  - cbn. rewrite Hg. cbn. rewrite Hsz, u32_small; lia.
  - exists l. split_and!; [done|by apply (holds_ext q')|].
    intros l' a0 b0 ->. cbn. rewrite Hb'. by apply (Hb ((a, b) :: l') a0 b0).
Qed.

(** While a shared queue counts three batches or more, a producer's push and
    a consumer's pop need no lock: under every interleaving of their accesses
    no node is used after it is freed, and once both calls have run to their
    end (five and six accesses) the queue is the one that the push followed by
    the pop leaves, with the oldest batch popped and the new one last. *)
Theorem push_and_pop_linearize q n b1 b2 bs leaked b schedule :
  3 ≤ n < 2 ^ 31 - 1 → shared_view q n (b1 :: b2 :: bs) leaked →
  ∃ s q1 q2, run_schedule schedule (start_race q b 1) = Ret s ∧
    try_push_back q b false = Ret (q1, true) ∧ pop_front q1 = Ret (q2, b1) ∧
    shared_view q2 n (b2 :: bs ++ [b]) leaked ∧
    ((5 ≤ turns ProducerTurn schedule)%nat → (6 ≤ turns ConsumerTurn schedule)%nat →
     finished s ∧ rc_queue s = q2 ∧ rc_popped s = [b1]).
Proof.
  intros Hn Hv.
  destruct (race_square q n b1 b2 bs leaked b Hn Hv) as (R & E0 & Hrun & Hfin & Hpop & q1 & Hq1 & Hq2).
  destruct (shared_push_ok q n (b1 :: b2 :: bs) leaked b) as (q1' & Hq1' & Hv1); [lia|done..|].
  rewrite Hq1 in Hq1'. injection Hq1' as <-.
  destruct (shared_pop_ok q1 (n + 1) b1 (b2 :: bs ++ [b]) leaked) as (q2' & Hq2' & Hv2); [lia|done|].
  rewrite Hq2 in Hq2'. injection Hq2' as <-. rewrite Z.add_simpl_r in Hv2.
  do 3 eexists. rewrite E0, Hrun. split_and!; [done..|]. intros Hp Hc.
  by rewrite !Nat.min_l by done.
Qed.

(** A shared queue with four batches, made by the queue's own operations. *)
Definition four_batches : RequestBatchWaitQueue :=
  match shared_push_all (new_WaitQueue false 0) [11; 12; 13; 14; 15] with
  | Ret q => q
  | _ => new_WaitQueue false 0
  end.

Lemma four_batches_view : shared_view four_batches 5 [11; 13; 14; 15] {[2]}.
Proof.
  destruct (shared_third_push 0 11 12 13) as (q & Hq & Hv).
  destruct (shared_push_all_ok q 3 [11; 13] {[2]} [14; 15]) as (q' & Hq' & Hv');
    [lia|done..|].
  assert (E : shared_push_all (new_WaitQueue false 0) [11; 12; 13; 14; 15] = Ret q').
  { unfold shared_push_all in *. change [11; 12; 13; 14; 15] with ([11; 12; 13] ++ [14; 15]).
    by rewrite foldM_app, Hq. }
  unfold four_batches. by rewrite E.
Qed.

Lemma push_and_pop_linearize_witness :
  ∃ s q2, run_schedule (mjoin (replicate 6 [ConsumerTurn; ProducerTurn]))
            (start_race four_batches 16 1) = Ret s ∧
    rc_queue s = q2 ∧ rc_popped s = [11] ∧ shared_view q2 5 [13; 14; 15; 16] {[2]}.
Proof.
  destruct (push_and_pop_linearize four_batches 5 11 13 [14; 15] {[2]} 16
              (mjoin (replicate 6 [ConsumerTurn; ProducerTurn])))
    as (s & q1 & q2 & Hr & _ & _ & Hv & Hf); [lia|exact four_batches_view|].
  exists s, q2. destruct Hf as (_ & ? & ?); [apply Nat.leb_le; reflexivity..|]. by split_and!.
Defined.

(** ** The push that outlives its guarantee

    The comment in the fast branch reasons about "the next consumption".  A
    consumer that pops twice between the producer's load of the size and its
    link frees the node [back] points at. *)

Definition late_link : list turn :=
  [ProducerTurn; ProducerTurn] ++ replicate 12 ConsumerTurn ++ [ProducerTurn].

(** C31: The fast push is not safe against two consumptions: on every shared queue
    whose list holds two batches, a consumer that pops both between the
    producer's load of the size and its link makes the producer write to a
    freed node. *)
Theorem late_link_use_after_free q n b1 b2 leaked b :
  2 ≤ n < 2 ^ 31 → shared_view q n [b1; b2] leaked →
  run_schedule late_link (start_race q b 2) = Undef UseAfterFree.
Proof.
  intros Hn (Hs & Hsz & l & El & Hh & Hb).
  destruct l as [|[a1 b1'] [|[a2 b2'] [|??]]]; [done..| |done]. injection El as <- <-.
  pose proof (holds_fresh _ _ _ Hh) as Hfr. destruct Hh as [Hc Hnd Ha Hd Hl Hp].
  specialize (Hb [(a1, b1)] a2 b2 eq_refl).
  destruct Hc as (Hf & nx & Hn1 & -> & ? & Hn2 & ->).
  cbn in Hnd, Ha, Hfr. rewrite !Forall_cons in Ha. destruct Ha as (Ha1 & Ha2 & _).
  rewrite !not_elem_of_cons in Hfr. destruct Hfr as (? & ? & _).
  apply NoDup_cons in Hnd as [Hna _]. rewrite list_elem_of_singleton in Hna.
  destruct q as [h fresh [cg sz pg st] f bk]. cbn in * |-. subst f bk sz st.
  unfold late_link, run_schedule.
  cbn -[replicate i32 deref]. unfold push_branch. rewrite i32_small by lia. decide_tests.
  cbn -[i32 deref u32].
  do 2 (rewrite (deref_some _ a1 (MkNode b1 a2)) by (lia || by rewrite !lookup_insert_ne by lia);
    cbn -[i32 deref u32]).
  do 2 (rewrite (deref_some _ a2 (MkNode b2 0))
      by (lia || by rewrite lookup_delete_ne, !lookup_insert_ne by lia);
    cbn -[i32 deref u32]).
  unfold deref. rewrite lookup_delete_eq. by rewrite (proj2 (Z.eqb_neq a2 0)) by lia.
Qed.

Lemma late_link_use_after_free_witness :
  ∃ q, shared_push_all (new_WaitQueue false 0) [11; 12; 13] = Ret q ∧
    run_schedule late_link (start_race q 14 2) = Undef UseAfterFree.
Proof.
  destruct (shared_third_push 0 11 12 13) as (q & Hq & Hv). exists q. split; [exact Hq|].
  apply (late_link_use_after_free q 3 11 13 {[2]} 14); [lia|exact Hv].
Defined.
