(* ===== verification/WaitQueueStream.v ===== *)
(** * A stream of pushes against a stream of pops

    [WaitQueueRace] with any number of calls on either side: a producer that
    makes one push after the other and a consumer that makes one pop after the
    other on a shared wait queue, their accesses interleaved by an arbitrary
    schedule.  As long as the consumer leaves at least one of the batches that
    were queued at the start, the list is never touched after it is freed and
    behaves as a FIFO queue. *)

From S2P Require Import Prelude Guards WaitQueue WaitQueueRace.

#[export] Instance push_kind_eq_dec : EqDecision push_kind.
Proof. solve_decision. Defined.
#[export] Instance producer_eq_dec : EqDecision producer.
Proof. solve_decision. Defined.
#[export] Instance consumer_eq_dec : EqDecision consumer.
Proof. solve_decision. Defined.

(** ** The threads *)

(** The race of the calls under way and the batches still to be pushed. *)
Definition stream : Set := race * list Z.

Definition stream_step (x : stream) (t : turn) : exec stream :=
  let '(s, pending) := x in
  match t, rc_producer s, pending with
  | ProducerTurn, P_done true, b :: rest =>
      s' ← producer_step (with_producer s (rc_queue s) (P_load b)); Ret (s', rest)
  | _, _, _ => s' ← take_turn s t; Ret (s', pending)
  end.

Definition run_stream (schedule : list turn) (x : stream) : exec stream :=
  foldM stream_step schedule x.

Definition start_stream (q : RequestBatchWaitQueue) (pushes : list Z) (pops : nat) : stream :=
  (MkRace q (P_done true) (next_pop pops) [], pushes).

(** The accesses left to each thread. *)
Definition producer_left (p : producer) (pending : list Z) : nat :=
  match p with
  | P_load _ => 5 | P_alloc _ _ => 4 | P_link _ _ => 3 | P_set_back _ _ => 2 | P_add => 1
  | _ => 0
  end + 5 * length pending.

Definition consumer_left (c : consumer) : nat :=
  match c with
  | C_sub pops => 6 * pops
  | C_batch pops => 5 + 6 * pops | C_next pops _ => 4 + 6 * pops
  | C_front pops _ _ _ => 3 + 6 * pops | C_release pops _ _ => 2 + 6 * pops
  | C_delete pops _ _ => 1 + 6 * pops
  | C_done => 0
  end.

(** ** The list in the heap *)

Definition first (l : list (Z * Z)) : Z := match l with [] => 0 | (a, _) :: _ => a end.

(** The nodes from the first that is not yet freed on, wherever [front] is. *)
Definition linked (q : RequestBatchWaitQueue) (l : list (Z * Z)) (leaked : gset Z) : Prop :=
  holds (set_front q (first l)) l leaked.

Lemma linked_ext q q' l leaked :
  heap q' = heap q → next_address q' = next_address q → linked q l leaked → linked q' l leaked.
Proof. intros E1 E2. by apply holds_ext. Qed.

Lemma linked_node q a b l leaked :
  linked q ((a, b) :: l) leaked → deref (heap q) a = Ret (MkNode b (first l)).
Proof.
  intros [(_ & nx & Hn & Hc) _ Ha _ _ _]. apply Forall_cons_1 in Ha as [Ha _]. cbn in Ha, Hn, Hc.
  apply deref_some; [lia|]. rewrite Hn. do 2 f_equal. destruct l as [|[a' b'] l]; [done|].
  by destruct Hc as [-> _].
Qed.

Lemma linked_last q l a b leaked :
  linked q (l ++ [(a, b)]) leaked → deref (heap q) a = Ret (MkNode b 0).
Proof.
  intros [Hc _ Ha _ _ _]. rewrite fmap_app in Ha. apply Forall_app in Ha as [_ Ha].
  cbn in Ha. rewrite Forall_singleton in Ha. apply deref_some; [lia|]. by apply chain_last in Hc.
Qed.

(** A new node is not linked yet. *)
Lemma linked_new_Node q l leaked b q' p :
  linked q l leaked → new_Node q b = (q', p) →
  linked q' l (leaked ∪ {[p]}) ∧ heap q' !! p = Some (MkNode b 0) ∧ p ∉ leaked ∧
  back q' = back q ∧ front q' = front q ∧ wq_guard q' = wq_guard q.
Proof.
  intros Hh [= <- <-]. pose proof (holds_fresh _ _ _ Hh) as Hfr. cbn in Hfr.
  destruct Hh as [Hc Hn Ha Hd Hl Hp]. cbn in *.
  assert (Hlk : next_address q ∉ leaked) by (intros Hin%Hl; lia).
  split; [|by rewrite lookup_insert_eq]. split; cbn; [|done| | | |lia].
  - by apply chain_insert_ne.
  - eapply Forall_impl; [exact Ha|]. cbn. lia.
  - rewrite dom_insert_L, Hd. set_solver.
  - intros a [Hin| ->%elem_of_singleton]%elem_of_union; [|split; [lia|done]].
    apply Hl in Hin. split; [lia|apply Hin].
Qed.

(** It becomes the last one when the old last one points to it. *)
Lemma linked_link q l a b leaked p b' :
  linked q (l ++ [(a, b)]) (leaked ∪ {[p]}) → heap q !! p = Some (MkNode b' 0) → p ∉ leaked →
  linked (set_wq_heap q (<[a := MkNode b p]> (heap q))) (l ++ [(a, b); (p, b')]) leaked.
Proof.
  intros [Hc Hn Ha Hd Hl Hp] Hpn Hlk. cbn in Hc, Ha, Hd, Hl, Hp.
  destruct (Hl p) as [Hp1 Hp2]; [set_solver|]. rewrite fmap_app in *. cbn in Hn, Ha, Hd, Hl, Hp2.
  assert (E : (l ++ [(a, b); (p, b')]).*1 = (l.*1 ++ [a]) ++ [p])
    by (rewrite fmap_app; cbn; by rewrite <- app_assoc).
  assert (Ef : first (l ++ [(a, b); (p, b')]) = first (l ++ [(a, b)])) by (by destruct l as [|[]]).
  assert (Hadom : a ∈ dom (heap q)) by (rewrite Hd, list_to_set_app_L; set_solver).
  unfold linked. rewrite Ef. split; cbn; rewrite ?E; [| | | | |done].
  - rewrite <- (insert_id (heap q) p (MkNode b' 0)) by done. by apply chain_snoc.
  - apply NoDup_app. split_and!; [done| |apply NoDup_singleton].
    intros x Hx Hx'. by apply list_elem_of_singleton in Hx' as ->.
  - by apply Forall_app_2; [|apply Forall_singleton].
  - rewrite dom_insert_L, list_to_set_app_L, Hd. cbn.
    rewrite list_to_set_app_L. cbn. set_solver.
  - intros x Hx. destruct (Hl x) as [Hx1 Hx2]; [set_solver|]. split; [done|].
    rewrite not_elem_of_app, list_elem_of_singleton. split; [done|]. by intros ->.
Qed.

(** Freeing the first node. *)
Lemma linked_delete q a b l leaked :
  linked q ((a, b) :: l) leaked → linked (set_wq_heap q (delete a (heap q))) l leaked.
Proof.
  intros Hh. destruct (unlink_front_holds _ _ _ _ _ Hh) as (q' & E & Hq' & _).
  unfold unlink_front in E. cbn [set_front heap front first] in E.
  rewrite (linked_node _ _ _ _ _ Hh) in E. cbn in E. injection E as <-.
  by apply (holds_ext _ _ _ _ eq_refl eq_refl eq_refl Hq').
Qed.

(** ** What every access keeps *)

(** The pops whose [fetch_sub] is still to come, and those whose [delete] is. *)
Definition unsubtracted (c : consumer) : Z :=
  match c with
  | C_sub pops | C_batch pops | C_next pops _ | C_front pops _ _ _ | C_release pops _ _
  | C_delete pops _ _ => Z.of_nat pops
  | C_done => 0
  end.

Definition undeleted (c : consumer) : nat :=
  match c with
  | C_sub pops => pops
  | C_batch pops | C_next pops _ | C_front pops _ _ _ | C_release pops _ _ | C_delete pops _ _ =>
      S pops
  | C_done => 0
  end.

(** A push whose [fetch_add] is still to come. *)
Definition unadded (p : producer) : Z := match p with P_done _ => 0 | _ => 1 end.

(** Where the consumer is in the list [l]. *)
Definition consumer_ok (c : consumer) (q : RequestBatchWaitQueue) (l : list (Z * Z)) : Prop :=
  match c with
  | C_sub pops => pops ≠ 0%nat ∧ front q = first l
  | C_batch _ | C_done => front q = first l
  | C_next _ b => front q = first l ∧ ∃ l', l = (front q, b) :: l'
  | C_front _ b node old => front q = old ∧ ∃ b' l', l = (old, b) :: (node, b') :: l'
  | C_release _ b old | C_delete _ b old => ∃ b' l', l = (old, b) :: (front q, b') :: l'
  end.

(** Where the producer is: [flying] are the batches it has taken up and not
    yet linked, [loose] the addresses of their nodes. *)
Definition producer_ok (p : producer) (q : RequestBatchWaitQueue) (l : list (Z * Z))
    (flying : list Z) (loose : gset Z) : Prop :=
  match p with
  | P_done true | P_add => back_is_last q l ∧ flying = [] ∧ loose = ∅
  | P_load b | P_alloc Fast b => back_is_last q l ∧ flying = [b] ∧ loose = ∅
  | P_link Fast node =>
      back_is_last q l ∧ loose = {[node]} ∧
      ∃ b, flying = [b] ∧ heap q !! node = Some (MkNode b 0)
  | P_set_back Fast node => flying = [] ∧ loose = ∅ ∧ ∃ l' b, l = l' ++ [(node, b)]
  | _ => False
  end.

Section stream.
(** The nodes lost before, the batches in their order, the number of pops and
    the count in the end. *)
Context (leaked : gset Z) (all : list Z) (total : nat) (n : Z).

Record stream_at (l : list (Z * Z)) (flying : list Z) (loose : gset Z) (x : stream) : Prop := {
  sa_linked : linked (rc_queue x.1) l (leaked ∪ loose);
  sa_disjoint : loose ## leaked;
  sa_shared : wq_is_single_thread (wq_guard (rc_queue x.1)) = false;
  sa_order : rc_popped x.1 ++ l.*2 ++ flying ++ x.2 = all;
  sa_size : size (wq_guard (rc_queue x.1)) =
            n - unadded (rc_producer x.1) - lenZ x.2 + unsubtracted (rc_consumer x.1);
  sa_fast : 2 ≤ n - unadded (rc_producer x.1) - lenZ x.2;
  sa_max : n + unsubtracted (rc_consumer x.1) < 2 ^ 31;
  sa_room : (undeleted (rc_consumer x.1) < length l)%nat;
  sa_count : (length (rc_popped x.1) + undeleted (rc_consumer x.1) = total)%nat;
  sa_consumer : consumer_ok (rc_consumer x.1) (rc_queue x.1) l;
  sa_producer : producer_ok (rc_producer x.1) (rc_queue x.1) l flying loose
}.

Definition stream_inv (x : stream) : Prop := ∃ l flying loose, stream_at l flying loose x.

Lemma unsubtracted_nonneg c : 0 ≤ unsubtracted c.
Proof. destruct c; cbn; lia. Qed.

Lemma consumer_ok_snoc c q q' l a :
  front q' = front q → l ≠ [] → consumer_ok c q l → consumer_ok c q' (l ++ [a]).
Proof.
  intros Hf Hl. assert (Ef : first (l ++ [a]) = first l) by (by destruct l as [|[]]).
  destruct c; cbn; rewrite Hf, ?Ef; try done.
  - by intros (? & l' & ->); split; [|eexists].
  - by intros (? & b' & l' & ->); split; [|do 2 eexists].
  - by intros (b' & l' & ->); do 2 eexists.
  - by intros (b' & l' & ->); do 2 eexists.
Qed.

Lemma producer_step_inv s pending :
  stream_inv (s, pending) → rc_producer s ≠ P_done true →
  ∃ s', producer_step s = Ret s' ∧ stream_inv (s', pending) ∧ rc_consumer s' = rc_consumer s ∧
    S (producer_left (rc_producer s') pending) = producer_left (rc_producer s) pending.
Proof.
  intros (l & fl & lo & [Hl Hd Hs Ho Hz H2 Hm Hr Hk Hc Hp]) Hnd. cbn [fst snd] in *.
  pose proof (unsubtracted_nonneg (rc_consumer s)) as Hu.
  pose proof (lenZ_nonneg pending) as Hpn. destruct s as [q p c popped]. cbn in *.
  unfold producer_step. cbn [rc_producer rc_queue].
  destruct p as [b|k b|k b|k node|k node|node| |[]]; try done.
  - cbn in Hp, Hz, H2. unfold push_branch. rewrite i32_small by lia. decide_tests.
    eexists. split; [done|]. split; [|done]. by exists l, fl, lo.
  - destruct k; try done. destruct Hp as (Hb & -> & ->).
    destruct (new_Node q b) as [q1 node] eqn:En. rewrite union_empty_r_L in Hl.
    destruct (linked_new_Node _ _ _ _ _ _ Hl En) as (Hl1 & Hn & Hlk & Eb & Ef & Eg).
    eexists. split; [done|]. split; [|done]. exists l, [b], {[node]}. split; cbn; rewrite ?Eg; try done.
    + set_solver.
    + destruct c; cbn in *; by rewrite ?Ef.
    + split; [|split; [done|by exists b]]. intros l' a0 b0 E. rewrite Eb. by apply (Hb l' a0 b0).
  - destruct k; try done. destruct Hp as (Hb & -> & b & -> & Hn).
    destruct l as [|[a b0] l' _] using rev_ind; [cbn in Hr; lia|].
    rewrite (Hb l' a b0 eq_refl), (linked_last _ _ _ _ _ Hl). cbn [mbind exec_bind req_batch].
    eexists. split; [done|]. split; [|done]. exists ((l' ++ [(a, b0)]) ++ [(node, b)]), [], ∅.
    split; cbn; try done.
    + rewrite union_empty_r_L, <- app_assoc. apply linked_link; [done|done|set_solver].
    + rewrite <- Ho, (fmap_app snd (l' ++ _)), <- !app_assoc. done.
    + rewrite length_app. lia.
    + apply (consumer_ok_snoc c q); [done|by destruct l'|done].
    + split_and!; [done|done|by do 2 eexists].
  - destruct k; try done. destruct Hp as (-> & -> & l' & b & ->).
    eexists. split; [done|]. split; [|done]. exists (l' ++ [(node, b)]), [], ∅.
    split; cbn; try done; [by apply (linked_ext q)|]. split; [by apply back_is_last_snoc|done].
  - eexists. split; [done|]. split; [|done]. exists l, fl, lo. split; cbn; try done.
    + by apply (linked_ext q).
    + rewrite Hz, u32_small; cbn in *; lia.
    + cbn in *. lia.
Qed.

(** Taking the first of several nodes away is nothing to the producer. *)
Lemma producer_ok_tail p q a b a' b' l flying loose :
  linked q ((a, b) :: (a', b') :: l) (leaked ∪ loose) →
  producer_ok p q ((a, b) :: (a', b') :: l) flying loose →
  producer_ok p (set_wq_heap q (delete a (heap q))) ((a', b') :: l) flying loose.
Proof.
  intros Hl.
  assert (Hback : back_is_last q ((a, b) :: (a', b') :: l) →
                  back_is_last (set_wq_heap q (delete a (heap q))) ((a', b') :: l)).
  { intros Hb l' a0 b0 E. apply (Hb ((a, b) :: l') a0 b0). by rewrite E. }
  destruct p as [c|k c|k c|k node|k node|node| |[]]; cbn; try done.
  - intros (? & ?). by split; [apply Hback|].
  - destruct k; try done. intros (? & ?). by split; [apply Hback|].
  - destruct k; try done. intros (? & -> & c & -> & Hn). split; [by apply Hback|].
    split; [done|]. exists c. split; [done|]. rewrite lookup_delete_ne; [done|]. intros ->.
    destruct (holds_leaked _ _ _ Hl node) as [_ Hin]; [set_solver|]. apply Hin. by left.
  - destruct k; try done. intros (-> & -> & l' & c & E). split_and!; [done..|].
    destruct l' as [|[] l']; [done|]. injection E as -> -> E. by exists l', c.
  - intros (? & ?). by split; [apply Hback|].
  - intros (? & ?). by split; [apply Hback|].
Qed.

Lemma consumer_step_inv s pending :
  stream_inv (s, pending) → rc_consumer s ≠ C_done →
  ∃ s', consumer_step s = Ret s' ∧ stream_inv (s', pending) ∧ rc_producer s' = rc_producer s ∧
    S (consumer_left (rc_consumer s')) = consumer_left (rc_consumer s).
Proof.
  intros (l & fl & lo & [Hl Hd Hs Ho Hz H2 Hm Hr Hk Hc Hp]) Hnd. cbn [fst snd] in *.
  pose proof (lenZ_nonneg pending) as Hpn.
  assert (Hun : 0 ≤ unadded (rc_producer s)) by (destruct (rc_producer s); cbn; lia).
  destruct s as [q p c popped]. cbn in *. unfold consumer_step. cbn [rc_consumer rc_queue].
  destruct c as [pops|pops|pops b|pops b node old|pops b old|pops b old|]; try done.
  - destruct Hc as [Hpops Hf]. destruct pops as [|pops]; [done|].
    eexists. split; [done|]. split; [|cbn; split; [done|lia]]. exists l, fl, lo.
    split; cbn in *; try done; try lia; [by apply (linked_ext q)|].
    rewrite Hz, u32_small; lia.
  - destruct l as [|[a b] l]; [cbn in Hr; lia|]. cbn in Hc. rewrite Hc, (linked_node _ _ _ _ _ Hl).
    eexists. split; [done|]. split; [|done]. exists ((a, b) :: l), fl, lo.
    split; cbn in *; try done. by split; [|exists l; rewrite Hc].
  - destruct Hc as (Hf & l' & ->). rewrite (linked_node _ _ _ _ _ Hl).
    destruct l' as [|[a' b'] l']; [cbn in Hr; lia|].
    eexists. split; [done|]. split; [|done]. exists ((front q, b) :: (a', b') :: l'), fl, lo.
    split; cbn in *; try done. by split; [|do 2 eexists].
  - destruct Hc as (Hf & b' & l' & ->). eexists. split; [done|]. split; [|done].
    exists ((old, b) :: (node, b') :: l'), fl, lo.
    split; cbn in *; try done. by do 2 eexists.
  - destruct Hc as (b' & l' & ->). eexists. split; [done|]. split; [|done].
    exists ((old, b) :: (front q, b') :: l'), fl, lo.
    split; cbn in *; try done; [by apply (linked_ext q)|by do 2 eexists].
  - destruct Hc as (b' & l' & ->). eexists. split; [done|]. split; [|destruct pops; cbn; split; (done || lia)].
    exists ((front q, b') :: l'), fl, lo. apply linked_delete in Hl as Hl'.
    split; cbn -[producer_ok] in *; try done.
    + by rewrite <- app_assoc.
    + by destruct pops.
    + by destruct pops; cbn in *; lia.
    + by destruct pops; cbn in *; lia.
    + rewrite length_app. by destruct pops; cbn in *; lia.
    + by destruct pops.
    + by apply producer_ok_tail with b.
Qed.

Lemma stream_step_inv x t :
  stream_inv x →
  ∃ x', stream_step x t = Ret x' ∧ stream_inv x' ∧
    producer_left (rc_producer x'.1) x'.2 =
      (producer_left (rc_producer x.1) x.2 - turns ProducerTurn [t])%nat ∧
    consumer_left (rc_consumer x'.1) =
      (consumer_left (rc_consumer x.1) - turns ConsumerTurn [t])%nat.
Proof.
  destruct x as [s pending]. intros Hinv. destruct t.
  - change (turns ProducerTurn [ProducerTurn]) with 1%nat.
    change (turns ConsumerTurn [ProducerTurn]) with 0%nat. rewrite Nat.sub_0_r.
    destruct (decide (rc_producer s = P_done true)) as [Ep|Hne].
    + cbn [stream_step fst snd]. rewrite Ep. destruct pending as [|b rest].
      { exists (s, []). cbn. unfold producer_step. rewrite Ep. by split_and!; rewrite ?Ep. }
      destruct (producer_step_inv (with_producer s (rc_queue s) (P_load b)) rest)
        as (s' & -> & Hs' & Hc & Hleft); [|done|].
      { destruct Hinv as (l & fl & lo & [Hl Hd Hs Ho Hz H2 Hm Hr Hk Hc Hp]). cbn [fst snd] in *.
        rewrite Ep in Hz, H2, Hp. cbn [unadded producer_ok] in Hz, H2, Hp. rewrite lenZ_cons in Hz, H2.
        destruct Hp as (Hb & -> & ->). exists l, [b], ∅. split; cbn in *; try done; lia. }
      cbn [mbind exec_bind]. exists (s', rest). split_and!; [done..| |by cbn; rewrite Hc].
      cbn [fst snd with_producer rc_producer] in *. unfold producer_left in *. cbn [length] in *. lia.
    + destruct (producer_step_inv s pending Hinv Hne) as (s' & E & Hs' & Hc & Hleft).
      exists (s', pending). cbn [fst snd]. rewrite Hc. split_and!; [|done|lia|done].
      cbn [stream_step take_turn]. rewrite E.
      by destruct (rc_producer s) as [| | | | | | |[]]; destruct pending.
  - change (turns ProducerTurn [ConsumerTurn]) with 0%nat.
    change (turns ConsumerTurn [ConsumerTurn]) with 1%nat. rewrite Nat.sub_0_r.
    assert (E : stream_step (s, pending) ConsumerTurn =
                (s' ← consumer_step s; Ret (s', pending))) by done.
    rewrite E. destruct (decide (rc_consumer s = C_done)) as [Ec|Hne].
    + exists (s, pending). unfold consumer_step. rewrite Ec. cbn. by rewrite Ec.
    + destruct (consumer_step_inv s pending Hinv Hne) as (s' & -> & Hs' & Hp & Hleft).
      exists (s', pending). cbn [fst snd]. rewrite Hp. split_and!; [done..|lia].
Qed.

Lemma turns_cons t t' ts : turns t (t' :: ts) = (turns t [t'] + turns t ts)%nat.
Proof. unfold turns. rewrite !filter_cons. by case_decide. Qed.

(** Whatever the schedule, no access is undefined. *)
Lemma run_stream_inv schedule x :
  stream_inv x →
  ∃ x', run_stream schedule x = Ret x' ∧ stream_inv x' ∧
    producer_left (rc_producer x'.1) x'.2 =
      (producer_left (rc_producer x.1) x.2 - turns ProducerTurn schedule)%nat ∧
    consumer_left (rc_consumer x'.1) =
      (consumer_left (rc_consumer x.1) - turns ConsumerTurn schedule)%nat.
Proof.
  revert x. induction schedule as [|t ts IH]; intros x Hx.
  { exists x. change (turns _ []) with 0%nat. by rewrite !Nat.sub_0_r. }
  unfold run_stream in *. cbn [foldM].
  destruct (stream_step_inv x t Hx) as (x1 & -> & Hx1 & Hp1 & Hc1). cbn [mbind exec_bind].
  destruct (IH x1 Hx1) as (x2 & E & Hx2 & Hp2 & Hc2). exists x2.
  rewrite (turns_cons ProducerTurn t ts), (turns_cons ConsumerTurn t ts). split_and!; [done..|lia|lia].
Qed.

(** With no access left the queue holds the rest. *)
Lemma stream_end s pending :
  stream_inv (s, pending) → producer_left (rc_producer s) pending = 0%nat →
  consumer_left (rc_consumer s) = 0%nat →
  finished s ∧ pending = [] ∧ rc_popped s = take total all ∧
  shared_view (rc_queue s) n (drop total all) leaked.
Proof.
  intros (l & fl & lo & [Hl Hd Hs Ho Hz H2 Hm Hr Hk Hc Hp]) Hp0 Hc0. cbn [fst snd] in *.
  unfold producer_left in Hp0. destruct pending; [|cbn in Hp0; lia].
  assert (Ep : rc_producer s = P_done true) by (by destruct (rc_producer s) as [| | | | | | |[]]).
  assert (Ec : rc_consumer s = C_done).
  { destruct (rc_consumer s) as [[|pops]| | | | | |]; try done; cbn in Hc0, Hc; lia. }
  rewrite Ep in *. rewrite Ec in *. cbn in Hp, Hz, Hc, Hk. destruct Hp as (Hb & -> & ->).
  rewrite Nat.add_0_r in Hk. rewrite app_nil_r in Ho. rewrite union_empty_r_L in Hl.
  split; [by split|]. split; [done|]. subst total all.
  rewrite take_app_length, drop_app_length. split; [done|].
  split; [done|]. split; [change (lenZ []) with 0 in Hz; lia|]. exists l. split; [done|].
  split; [|done]. by apply (holds_ext (set_front (rc_queue s) (first l))).
Qed.

End stream.

(** C2: On a shared queue that counts at least two more batches than will be
    popped, and lists at least one more, any number of pushes and pops may run
    at the same time without a lock: under every interleaving of their
    accesses no freed or null node is touched, what is popped is always a
    prefix of what was queued, and once both threads had as many turns as their
    calls need (five for a push, six for a pop) the pops got the oldest batches
    in order and the queue holds the others with the new ones behind. *)
Theorem streams_are_fifo q m bs leaked pushes pops schedule :
  shared_view q m bs leaked → (pops < length bs)%nat →
  Z.of_nat pops + 2 ≤ m → m + lenZ pushes < 2 ^ 31 →
  ∃ s pending, run_stream schedule (start_stream q pushes pops) = Ret (s, pending) ∧
    rc_popped s `prefix_of` bs ++ pushes ∧
    ((5 * length pushes ≤ turns ProducerTurn schedule)%nat →
     (6 * pops ≤ turns ConsumerTurn schedule)%nat →
     finished s ∧ rc_popped s = take pops bs ∧
     shared_view (rc_queue s) (m + lenZ pushes - Z.of_nat pops) (drop pops bs ++ pushes) leaked).
Proof.
  intros (Hs & Hz & l & -> & Hl & Hb) Hlen Hm Hmax. rewrite length_fmap in Hlen.
  assert (Hinv : stream_inv leaked (l.*2 ++ pushes) pops (m + lenZ pushes - Z.of_nat pops)
                   (start_stream q pushes pops)).
  { assert (Hf : front q = first l)
      by (destruct Hl as [Hc _ _ _ _ _]; by destruct l as [|[]]; [|destruct Hc as [-> _]]).
    exists l, [], ∅. split; cbn; try done; try by destruct pops; cbn; (done || lia).
    rewrite union_empty_r_L. unfold linked. rewrite <- Hf. by destruct q. }
  destruct (run_stream_inv _ _ _ _ schedule _ Hinv) as ([s pending] & E & Hx & Hpl & Hcl).
  exists s, pending. split; [done|]. cbn [fst snd] in Hpl, Hcl. split.
  - destruct Hx as (l' & fl & lo & Hx). eexists. symmetry. apply (sa_order _ _ _ _ _ _ _ _ Hx).
  - intros Hp Hc. destruct (stream_end _ _ _ _ s pending Hx) as (Hfin & _ & Hpop & Hv).
    + rewrite Hpl. cbn. lia.
    + rewrite Hcl. destruct pops; cbn in *; lia.
    + rewrite take_app_le, drop_app_le in * by (rewrite length_fmap; lia). done.
Qed.

Lemma streams_are_fifo_witness :
  ∃ s pending, run_stream (mjoin (replicate 18 [ConsumerTurn; ProducerTurn]))
                 (start_stream four_batches [16; 17; 18] 3) = Ret (s, pending) ∧
    rc_popped s = [11; 13; 14] ∧ shared_view (rc_queue s) 5 [15; 16; 17; 18] {[2]}.
Proof.
  destruct (streams_are_fifo four_batches 5 [11; 13; 14; 15] {[2]} [16; 17; 18] 3
              (mjoin (replicate 18 [ConsumerTurn; ProducerTurn])))
    as (s & pending & E & _ & Hf); [exact four_batches_view|cbn; lia|done|done|].
  exists s, pending. destruct Hf as (_ & ? & ?); [apply Nat.leb_le; reflexivity..|]. by split_and!.
Defined.
