(* ===== verification/RequestBatch.v ===== *)
(** * Request batches and SSTable descriptors

    [request_batch.hpp] and [sstable_info.hpp].  The content of a batch is a
    union with an empty constructor: the alternative its [req_type] selects is
    whatever the memory held, so it is an argument of [new_RequestBatch]. *)

From S2P Require Import Prelude Config Requests Stack CacheHelper WaitQueue.

Inductive Content : Set :=
  | readwrite_pool (p : ReadWritePool)
  | req_seg (s : RequestSegment).

Record RequestBatch : Set := MkRequestBatch {
  rb_base : BaseRequest;
  content : Content
}.

Definition batch_type (b : RequestBatch) : RequestType := req_type (rb_base b).

Definition new_RequestBatch (ty : RequestType) (memory : Content) : RequestBatch :=
  MkRequestBatch (MkBaseRequest ty) memory.

(** The pool of a batch; reading the other alternative is undefined. *)
Definition pool_of (b : RequestBatch) : exec ReadWritePool :=
  match content b with
  | readwrite_pool p => Ret p
  | req_seg _ => Undef UninitPtr
  end.

Definition segment_of (b : RequestBatch) : exec RequestSegment :=
  match content b with
  | req_seg s => Ret s
  | readwrite_pool _ => Undef UninitPtr
  end.

(** [~RequestBatch]: [delete[]] of the array of the alternative that the type
    selects; the arrays themselves are values of the model. *)
Definition destroy_RequestBatch (b : RequestBatch) : exec unit :=
  if bool_decide (batch_type b = COMPACTION) then _ ← segment_of b; Ret tt
  else _ ← pool_of b; Ret tt.

(** [RequestBatch::insert_read_write]; [this] is the address of the batch. *)
Definition batch_insert_read_write {cfg : Config} (mem : bytes)
    (junk : ConnectionRequest) (b : RequestBatch) (this buf fd : Z) (ty : RequestType)
    : exec RequestBatch :=
  p ← pool_of b;
  p' ← insert_read_write mem junk p buf fd ty this;
  Ret (MkRequestBatch (rb_base b) (readwrite_pool p')).

(** ** [SSTableInfo] *)

(** The file path and the I/O ring are not modelled. *)
Record SSTableInfo : Set := MkSSTableInfo {
  req_batch_wq : RequestBatchWaitQueue;
  is_flushed_to : bool;
  insert_buffers_from : Z;
  page_cache_buffers : list Z;
  min_key : bytes;
  max_key : bytes;
  cache_helper : SSTableCacheHelper;
  stack : Stack;
  cur_req_batch : Z;
  waiting_on_io : bool;
  already_waited : bool;
  desired_sstable_offset : Z
}.

(** The default member initialisers; everything else is memory contents. *)
Definition new_SSTableInfo (wq : RequestBatchWaitQueue) (buffers : list Z)
    (kmin kmax : bytes) (locations : list CacheLocation) (ids : list Z)
    (rows : list (list Z)) (batch : Z) : SSTableInfo :=
  MkSSTableInfo wq false 0 buffers kmin kmax (new_SSTableCacheHelper locations ids)
    (MkStack 0 rows) batch false false (u64 (-2)).
