(* ===== verification/LevelInfo.v ===== *)
(** * A level of the tree

    [level_info.hpp] and [decomposition.hpp]: the guard, filters, sparse
    index, buffer queues and SSTable descriptors of a level, and the splitting
    of a request batch among its tables.  The filter type is any instance of
    the concept [FilterLike].  Batches live on a heap of their own, addressed
    by positive integers; a null pointer is 0. *)

From S2P Require Import Prelude Config Requests SparseIndex Stack BufferQueue CacheHelper.
From S2P Require Import WaitQueue Bloom Filter RequestBatch.

Abbreviation batch_heap := (gmap Z RequestBatch) (only parsing).

Record Decomposition : Set := MkDecomposition {
  decomposition : list Z;
  expected_sstable_sizes : list Z;
  num_req_batches : Z;
  total_decomp_size : Z
}.

Record LevelInfo (F : Type) : Type := MkLevelInfo {
  guard : Guard;
  filters : list F;
  sparse_index : SparseIndex;
  buffer_queues : list BufferQueue;
  sstable_infos : list SSTableInfo
}.

Arguments MkLevelInfo {F} _ _ _ _ _.
Arguments guard {F} _.
Arguments filters {F} _.
Arguments sparse_index {F} _.
Arguments buffer_queues {F} _.
Arguments sstable_infos {F} _.

Definition set_bq_single_thread (b : bool) (q : BufferQueue) : BufferQueue :=
  MkBufferQueue (queue_front q) (queue_back q) (cur_num_buffers q) (num_new_buffers q)
    (queue q) (MkGuard (atomic_guard (bq_guard q)) b).

Definition deref_batch (h : batch_heap) (p : Z) : exec RequestBatch :=
  if p =? 0 then Undef NullDeref
  else match h !! p with Some b => Ret b | None => Undef UseAfterFree end.

(** [delete batch] *)
Definition delete_batch (h : batch_heap) (p : Z) : exec batch_heap :=
  b ← deref_batch h p;
  _ ← destroy_RequestBatch b;
  Ret (delete p h).

(** The memory a [char*] points at, up to the end of its region. *)
Definition mem_from (m : bytes) (off : Z) : exec bytes :=
  if bool_decide (0 ≤ off ≤ lenZ m) then Ret (drop (Z.to_nat off) m)
  else Undef OutOfBounds.

Section level.
Context {cfg : Config} {F : Type} `{FilterLike F}.
Implicit Types (lv : LevelInfo F).

(** The first assignment of the source assigns the parameter to itself: the
    level's own guard keeps its flag. *)
Definition set_is_single_thread (lv : LevelInfo F) (is_single_thread : bool)
    : exec (LevelInfo F) :=
  qs ← foldM (λ qs i, q ← getZ qs i; setZ qs i (set_bq_single_thread is_single_thread q))
         (seqZ 0 LEVEL_FACTOR) (buffer_queues lv);
  Ret (MkLevelInfo (guard lv) (filters lv) (sparse_index lv) qs (sstable_infos lv)).

(** ** Splitting a read batch *)

(** The locals of [decompose] and the heap. *)
Record DecompState : Set := MkDecompState {
  ds_decomp : list Z;
  ds_sizes : list Z;
  ds_heap : batch_heap;
  ds_next : Z;
  ds_pool : ReadWritePool
}.

Context (mem : bytes) (junk : ConnectionRequest) (memory : Z → Content).

(** [new RequestBatch(READ)] *)
Definition new_read_batch (s : DecompState) : DecompState * Z :=
  (MkDecompState (ds_decomp s) (ds_sizes s)
     (<[ds_next s := new_RequestBatch READ (memory (ds_next s))]> (ds_heap s))
     (ds_next s + 1) (ds_pool s), ds_next s).

Definition set_decomp (s : DecompState) (i p : Z) : exec DecompState :=
  d ← setZ (ds_decomp s) i p;
  Ret (MkDecompState d (ds_sizes s) (ds_heap s) (ds_next s) (ds_pool s)).

(** [decomp.decomposition[i]->content.readwrite_pool.present_in_level = b] *)
Definition set_present (s : DecompState) (i : Z) (b : bool) : exec DecompState :=
  p ← getZ (ds_decomp s) i;
  rb ← deref_batch (ds_heap s) p;
  pool ← pool_of rb;
  let pool' := MkReadWritePool (rw_data pool) (rw_length pool) (num_sent pool) b in
  Ret (MkDecompState (ds_decomp s) (ds_sizes s)
         (<[p := MkRequestBatch (rb_base rb) (readwrite_pool pool')]> (ds_heap s))
         (ds_next s) (ds_pool s)).

(** [decomp.decomposition[i]->insert_read_write(...)] *)
Definition insert_into_slot (s : DecompState) (i : Z) (c : ConnectionRequest)
    : exec DecompState :=
  p ← getZ (ds_decomp s) i;
  rb ← deref_batch (ds_heap s) p;
  rb' ← batch_insert_read_write mem junk rb p (buffer c) (client_sock_fd c)
          (req_type (conn_base c));
  Ret (MkDecompState (ds_decomp s) (ds_sizes s) (<[p := rb']> (ds_heap s))
         (ds_next s) (ds_pool s)).

(** [conn_req->client_sock_fd = -1] *)
Definition clear_request (s : DecompState) (j : Z) : exec DecompState :=
  pool ← remove_via_index (ds_pool s) j;
  Ret (MkDecompState (ds_decomp s) (ds_sizes s) (ds_heap s) (ds_next s) pool).

Definition bump_size (s : DecompState) (i : Z) : exec DecompState :=
  n ← getZ (ds_sizes s) i;
  sizes ← setZ (ds_sizes s) i (u32 (n + 1));
  Ret (MkDecompState (ds_decomp s) sizes (ds_heap s) (ds_next s) (ds_pool s)).

(** Make sure the batch for requests no table holds exists; [i] is the index
    the source writes the [present_in_level] flag through. *)
Definition ensure_absent_batch (s : DecompState) (i : Z) : exec DecompState :=
  p ← getZ (ds_decomp s) LEVEL_FACTOR;
  if p =? 0 then
    let '(s1, p1) := new_read_batch s in
    s2 ← set_decomp s1 LEVEL_FACTOR p1;
    set_present s2 i false
  else Ret s.

(** The body of the inner loop: request [j] against table [i]. *)
Definition route_request (f : F) (i j : Z) (s : DecompState) : exec DecompState :=
  c ← getZ (rw_data (ds_pool s)) j;
  key ← mem_from mem (buffer c + 5);
  hit ← prob_contains_key f key;
  s1 ← (if hit : bool then
          p ← getZ (ds_decomp s) i;
          s0 ← (if p =? 0 then Ret s
                else
                  let '(s0, p0) := new_read_batch s in
                  s1 ← set_decomp s0 i p0;
                  set_present s1 i true);
          s2 ← insert_into_slot s0 i c;
          bump_size s2 i
        else
          s0 ← ensure_absent_batch s i;
          s2 ← insert_into_slot s0 LEVEL_FACTOR c;
          clear_request s2 j);
  clear_request s1 j.

(** [for (j = left_index; j < right_index; ++j)] in unsigned arithmetic; each
    round reads one element of the pool, which bounds the rounds. *)
Fixpoint route_range (fuel : nat) (f : F) (i j right : Z) (s : DecompState)
    : exec DecompState :=
  match fuel with
  | O => Spin
  | S fuel' =>
      if j <? right then
        s' ← route_request f i j s;
        route_range fuel' f i (u32 (j + 1)) right s'
      else Ret s
  end.

Definition route_table (lv : LevelInfo F) (f : F) (i : Z) (s : DecompState)
    : exec DecompState :=
  let ix := index (sparse_index lv) in
  left_index ← find_index_starting_from mem (ds_pool s) 0 ix (get_table_min_key i);
  right_index ← find_index_starting_from mem (ds_pool s) (u32 left_index) ix
                  (get_table_max_key i);
  route_range (S (length (rw_data (ds_pool s)))) f i (u32 left_index)
    (u32 right_index) s.

(** The outer loop stops at the first empty filter. *)
Fixpoint route_tables (n : nat) (lv : LevelInfo F) (i : Z) (s : DecompState)
    : exec DecompState :=
  match n with
  | O => Ret s
  | S n' =>
      f ← getZ (filters lv) i;
      if filter_empty f then Ret s
      else s' ← route_table lv f i s; route_tables n' lv (i + 1) s'
  end.

(** The second pass: requests no table claimed. *)
Definition route_rest (s : DecompState) (i : Z) : exec DecompState :=
  c ← getZ (rw_data (ds_pool s)) i;
  if client_sock_fd c =? -1 then Ret s
  else
    s1 ← ensure_absent_batch s i;
    insert_into_slot s1 LEVEL_FACTOR c.

Definition count_batches (d : list Z) : Z :=
  lenZ (base.filter (λ p, p ≠ 0) d).

Definition decompose_read (lv : LevelInfo F) (h : batch_heap) (next : Z)
    (pool : ReadWritePool) : exec (Decomposition * DecompState) :=
  let s0 := MkDecompState (replicate (S (Z.to_nat LEVEL_FACTOR)) 0)
              (replicate (Z.to_nat LEVEL_FACTOR) 0) h next pool in
  s1 ← route_tables (Z.to_nat LEVEL_FACTOR) lv 0 s0;
  s2 ← foldM route_rest (seqZ 0 (rw_length pool)) s1;
  Ret (MkDecomposition (ds_decomp s2) (ds_sizes s2) (count_batches (ds_decomp s2))
         (rw_length pool), s2).

(** ** Placing a compaction batch *)

(** [while (i < LEVEL_FACTOR && !filters[i++].empty());] *)
Fixpoint free_slot (n : nat) (fs : list F) (i : Z) : exec Z :=
  match n with
  | O => Ret i
  | S n' =>
      f ← getZ fs i;
      if filter_empty f then Ret (i + 1) else free_slot n' fs (i + 1)
  end.

(** The filling loop; [key] is the offset of the pointer that the source moves
    by the running offset [j] in every round. *)
Fixpoint fill_filter (fuel : nat) (data : bytes) (f : F) (j key : Z) : exec F :=
  match fuel with
  | O => Spin
  | S fuel' =>
      if j <? MEMTABLE_SIZE then
        m ← mem_from data (key + j);
        f' ← insert_key f m;
        fill_filter fuel' data f' (u32 (j + MEMTABLE_ENTRY_LENGTH)) (key + j)
      else Ret f
  end.

Definition fill_fuel : nat := S (Z.to_nat MEMTABLE_SIZE).

Definition decompose_compaction (lv : LevelInfo F) (batch : Z) (seg : RequestSegment)
    : exec (Decomposition * LevelInfo F) :=
  let null := replicate (S (Z.to_nat LEVEL_FACTOR)) 0 in
  let sizes := replicate (Z.to_nat LEVEL_FACTOR) 0 in
  i ← free_slot (Z.to_nat LEVEL_FACTOR) (filters lv) 0;
  '(lv', slot) ←
    (if i <? LEVEL_FACTOR then
       f ← getZ (filters lv) i;
       f' ← fill_filter fill_fuel (rs_data seg) f 0 0;
       fs ← setZ (filters lv) i f';
       Ret (MkLevelInfo (guard lv) fs (sparse_index lv) (buffer_queues lv)
              (sstable_infos lv), i)
     else Ret (lv, 0));
  d ← setZ null slot batch;
  sz ← setZ sizes slot MEMTABLE_SIZE;
  Ret (MkDecomposition d sz 1 MEMTABLE_SIZE, lv').

(** ** [decompose] *)

(** The level, the heap with the split batches and the requests taken out of
    the source batch. *)
Definition decompose (lv : LevelInfo F) (h : batch_heap) (next batch : Z)
    : exec (Decomposition * LevelInfo F * batch_heap * Z) :=
  rb ← deref_batch h batch;
  if bool_decide (batch_type rb = READ) then
    pool ← pool_of rb;
    '(d, s) ← decompose_read lv h next pool;
    Ret (d, lv, <[batch := MkRequestBatch (rb_base rb) (readwrite_pool (ds_pool s))]>
                  (ds_heap s), ds_next s)
  else
    seg ← segment_of rb;
    '(d, lv') ← decompose_compaction lv batch seg;
    Ret (d, lv', h, next).

End level.

(** ** The thread flag of a level *)

Definition mark_buffer_queues {F} (b : bool) (lv : LevelInfo F) : LevelInfo F :=
  MkLevelInfo (guard lv) (filters lv) (sparse_index lv)
    (set_bq_single_thread b <$> buffer_queues lv) (sstable_infos lv).

Lemma set_is_single_thread_ok `{cfg : Config} {F} (lv : LevelInfo F) b :
  lenZ (buffer_queues lv) = LEVEL_FACTOR →
  set_is_single_thread lv b = Ret (mark_buffer_queues b lv).
Proof.
  intros Hlen. unfold set_is_single_thread.
  by rewrite (foldM_updateZ_full (set_bq_single_thread b)) by done.
Qed.

(** [set_is_single_thread] marks every buffer queue of the level but leaves
    the flag of the level's own guard as it was: the assignment to it is a
    self-assignment of the parameter. *)
Theorem set_is_single_thread_spec `{cfg : Config} {F} (lv : LevelInfo F) b :
  lenZ (buffer_queues lv) = LEVEL_FACTOR →
  ∃ lv', set_is_single_thread lv b = Ret lv' ∧
    (∀ q, q ∈ buffer_queues lv' → is_single_thread (bq_guard q) = b) ∧
    length (buffer_queues lv') = length (buffer_queues lv) ∧
    guard lv' = guard lv ∧ filters lv' = filters lv ∧
    sstable_infos lv' = sstable_infos lv.
Proof.
  intros Hlen. rewrite set_is_single_thread_ok by done. eexists. split; [done|].
  split_and!; [|apply length_fmap|done..].
  intros q Hq. apply list_elem_of_fmap in Hq as (q0 & -> & _). done.
Qed.

(** ** Read batches *)

Section read_proofs.
Context {cfg : Config} {F : Type} `{FilterLike F}.
Context (mem : bytes) (junk : ConnectionRequest) (memory : Z → Content).
Context (HLF : 0 ≤ LEVEL_FACTOR).

Abbreviation route_request := (route_request (F := F) mem junk memory).
Abbreviation route_range := (route_range (F := F) mem junk memory).
Abbreviation route_tables := (route_tables (F := F) mem junk memory).
Abbreviation route_rest := (route_rest mem junk memory).

(** No table has been given a batch. *)
Definition no_table_batch (s : DecompState) : Prop :=
  lenZ (ds_decomp s) = LEVEL_FACTOR + 1 ∧
  ∀ i, 0 ≤ i < LEVEL_FACTOR → getZ (ds_decomp s) i = Ret 0.

(** ... and neither has the slot for absent keys. *)
Definition no_batch (s : DecompState) : Prop :=
  no_table_batch s ∧ getZ (ds_decomp s) LEVEL_FACTOR = Ret 0.

Lemma insert_into_null_slot s i c :
  getZ (ds_decomp s) i = Ret 0 → insert_into_slot mem junk s i c = Undef NullDeref.
Proof. intros Hi. unfold insert_into_slot. by rewrite Hi. Qed.

Lemma getZ_insert_ne {A} (l : list A) i j x :
  0 ≤ i → 0 ≤ j → i ≠ j → getZ (<[Z.to_nat j := x]> l) i = getZ l i.
Proof.
  intros Hi Hj Hne. unfold getZ. decide_tests. by rewrite list_lookup_insert_ne by lia.
Qed.

(** The slot for absent keys can only be created through its own index. *)
Lemma ensure_absent_null s i :
  no_batch s → 0 ≤ i < LEVEL_FACTOR →
  ensure_absent_batch memory s i = Undef NullDeref.
Proof.
  intros [[Hl Hz] HLFz] Hi. unfold ensure_absent_batch. rewrite HLFz.
  cbn [mbind exec_bind new_read_batch]. change (0 =? 0) with true. cbn iota.
  unfold set_decomp. cbn [ds_decomp]. rewrite setZ_ok by lia. cbn [mbind exec_bind].
  unfold set_present. cbn [ds_decomp]. rewrite getZ_insert_ne by lia. by rewrite Hz.
Qed.

(** Routing a request to a table always ends at a null pointer. *)
Lemma route_request_no_ret f i j s s' :
  no_batch s → 0 ≤ i < LEVEL_FACTOR → route_request f i j s ≠ Ret s'.
Proof.
  intros Hs Hi E. pose proof Hs as [[_ Hz] _]. unfold LevelInfo.route_request in E.
  apply bind_Ret_inv in E as (c & _ & E). apply bind_Ret_inv in E as (key & _ & E).
  apply bind_Ret_inv in E as (hit & _ & E). apply bind_Ret_inv in E as (s1 & E & _).
  destruct hit.
  - rewrite Hz in E by done. cbn [mbind exec_bind] in E. change (0 =? 0) with true in E.
    cbn iota in E. cbn [mbind exec_bind] in E.
    rewrite insert_into_null_slot in E by (by apply Hz). done.
  - by rewrite ensure_absent_null in E.
Qed.

Lemma route_tables_unchanged n lv i s s' :
  no_batch s → 0 ≤ i → i + Z.of_nat n ≤ LEVEL_FACTOR →
  route_tables n lv i s = Ret s' → s' = s.
Proof.
  intros Hs. revert i. induction n as [|n IH]; intros i Hi Hn E;
    cbn [LevelInfo.route_tables] in E.
  { by injection E as <-. }
  apply bind_Ret_inv in E as (f & _ & E).
  destruct (filter_empty f); [by injection E as <-|].
  apply bind_Ret_inv in E as (s1 & Et & E). unfold route_table in Et.
  apply bind_Ret_inv in Et as (li & _ & Et). apply bind_Ret_inv in Et as (ri & _ & Et).
  cbn [LevelInfo.route_range] in Et. destruct (u32 li <? u32 ri).
  - apply bind_Ret_inv in Et as (s2 & Er & _).
    exfalso. eapply (route_request_no_ret f i); [exact Hs|lia|exact Er].
  - injection Et as <-. apply (IH (i + 1)); [lia|lia|done].
Qed.

Lemma insert_into_slot_decomp s i c s' :
  insert_into_slot mem junk s i c = Ret s' →
  ds_decomp s' = ds_decomp s ∧ ds_sizes s' = ds_sizes s ∧ ds_pool s' = ds_pool s.
Proof. unfold insert_into_slot. intros E. inv_exec E. by injection E as <-. Qed.

Lemma ensure_absent_decomp s i s' :
  no_table_batch s → ensure_absent_batch memory s i = Ret s' →
  no_table_batch s' ∧ ds_sizes s' = ds_sizes s ∧ ds_pool s' = ds_pool s.
Proof.
  intros [Hl Hz] E. unfold ensure_absent_batch in E.
  apply bind_Ret_inv in E as (p & _ & E). destruct (p =? 0).
  - cbn [new_read_batch] in E. apply bind_Ret_inv in E as (s2 & E2 & E).
    unfold set_decomp in E2. cbn [ds_decomp] in E2. rewrite setZ_ok in E2 by lia.
    cbn [mbind exec_bind] in E2. injection E2 as <-.
    unfold set_present in E. inv_exec E. injection E as <-. cbn.
    split; [|done]. split; cbn; [by rewrite lenZ_insert|].
    intros k Hk. rewrite getZ_insert_ne by lia. by apply Hz.
  - by injection E as <-.
Qed.

Lemma route_rest_no_table l s s' :
  no_table_batch s → foldM route_rest l s = Ret s' →
  no_table_batch s' ∧ ds_sizes s' = ds_sizes s ∧ ds_pool s' = ds_pool s.
Proof.
  revert s. induction l as [|i l IH]; intros s Hs E; cbn [foldM] in E.
  { by injection E as <-. }
  apply bind_Ret_inv in E as (s1 & E1 & E).
  assert (H1 : no_table_batch s1 ∧ ds_sizes s1 = ds_sizes s ∧ ds_pool s1 = ds_pool s).
  { unfold LevelInfo.route_rest in E1. apply bind_Ret_inv in E1 as (c & _ & E1).
    destruct (client_sock_fd c =? -1); [by injection E1 as <-|].
    apply bind_Ret_inv in E1 as (s2 & E2 & E1).
    apply ensure_absent_decomp in E2 as (H2 & Hz2 & Hp2); [|done].
    apply insert_into_slot_decomp in E1 as (Hd & Hz & Hp).
    unfold no_table_batch in *. rewrite Hd, Hz, Hp. done. }
  destruct H1 as (H1 & Hz1 & Hp1). destruct (IH s1 H1 E) as (H2 & Hz2 & Hp2).
  split_and!; [done|congruence..].
Qed.

Lemma count_one d :
  lenZ d = LEVEL_FACTOR + 1 → (∀ i, 0 ≤ i < LEVEL_FACTOR → getZ d i = Ret 0) →
  0 ≤ count_batches d ≤ 1.
Proof.
  intros Hl Hz. unfold count_batches.
  destruct d as [|x d _] using rev_ind; [split; vm_compute; congruence|].
  assert (E : base.filter (λ p, p ≠ 0) d = []).
  { assert (Hd : Forall (λ p, p = 0) d).
    { apply Forall_lookup. intros k y Hk. pose proof (lookup_lt_Some _ _ _ Hk).
      rewrite lenZ_app in Hl. change (lenZ [x]) with 1 in Hl.
      specialize (Hz (Z.of_nat k) ltac:(unfold lenZ in Hl; lia)).
      apply getZ_Ret in Hz as [_ Hz]. rewrite Nat2Z.id, lookup_app_l in Hz by done.
      congruence. }
    clear -Hd. induction Hd as [|y d -> _ IH]; [done|].
    by rewrite filter_cons_False by tauto. }
  rewrite filter_app, E. cbn. destruct (decide (x ≠ 0)); unfold lenZ; cbn; lia.
Qed.

Lemma no_batch_start h next pool :
  no_batch (MkDecompState (replicate (S (Z.to_nat LEVEL_FACTOR)) 0)
              (replicate (Z.to_nat LEVEL_FACTOR) 0) h next pool).
Proof.
  assert (Hz : ∀ i, 0 ≤ i ≤ LEVEL_FACTOR →
    getZ (replicate (S (Z.to_nat LEVEL_FACTOR)) 0) i = Ret 0).
  { intros i Hi. apply getZ_Ret. split; [lia|]. apply lookup_replicate_2. lia. }
  split; [split|]; cbn [ds_decomp].
  - unfold lenZ. rewrite length_replicate. lia.
  - intros i Hi. apply Hz. lia.
  - apply Hz. lia.
Qed.

(** C29: Whenever splitting a read batch returns, no table of the level has been
    given a single request: every table's slot is null, its expected size is
    zero, no request was taken out of the source batch, and at most the batch
    of keys no table holds was created.  (Any attempt to route a request to a
    table follows a null pointer, since the batch is only created when it
    already exists.) *)
Theorem decompose_read_routes_nothing lv h next pool d s :
  decompose_read mem junk memory lv h next pool = Ret (d, s) →
  (∀ i, 0 ≤ i < LEVEL_FACTOR → getZ (decomposition d) i = Ret 0) ∧
  expected_sstable_sizes d = replicate (Z.to_nat LEVEL_FACTOR) 0 ∧
  0 ≤ num_req_batches d ≤ 1 ∧ ds_pool s = pool.
Proof.
  unfold decompose_read. intros E. apply bind_Ret_inv in E as (s1 & E1 & E).
  apply bind_Ret_inv in E as (s2 & E2 & E). injection E as <- <-.
  pose proof (no_batch_start h next pool) as H0.
  apply route_tables_unchanged in E1 as ->; [|done|lia|lia].
  apply route_rest_no_table in E2 as ((Hl & Hz) & Hs & Hp); [|apply H0].
  cbn [decomposition expected_sstable_sizes num_req_batches].
  split_and!; [done..|apply count_one| apply count_one|]; done.
Qed.

(** On a level whose first filter is empty the first live request decides. *)
Definition dead_before (pool : ReadWritePool) (n : Z) : Prop :=
  ∀ i, 0 ≤ i < n → ∃ c, getZ (rw_data pool) i = Ret c ∧ client_sock_fd c = -1.

Lemma route_rest_dead pool s n :
  0 ≤ n → ds_pool s = pool → dead_before pool n →
  foldM route_rest (seqZ 0 n) s = Ret s.
Proof.
  intros Hn Hp. pattern n. apply natlike_ind; [done| |done]. clear n Hn.
  intros n Hn IH Hd. rewrite <- Z.add_1_r in *.
  rewrite seqZ_app, foldM_app, IH by first [lia | intros i Hi; apply Hd; lia].
  rewrite Z.add_0_l, (seqZ_cons n 1), seqZ_nil by lia. cbn [mbind exec_bind foldM].
  destruct (Hd n ltac:(lia)) as (c & Hc & Hfd). unfold LevelInfo.route_rest.
  rewrite Hp, Hc. cbn [mbind exec_bind]. by rewrite Hfd.
Qed.

(** On a level whose first table is empty, a read batch without live
    requests is split into nothing; otherwise the position of the first live
    request decides: below [LEVEL_FACTOR] a null pointer is followed, above it
    the decomposition array is indexed out of bounds. *)
Theorem decompose_read_empty_level lv f h next pool n :
  getZ (filters lv) 0 = Ret f → filter_empty f = true → 1 ≤ LEVEL_FACTOR →
  0 ≤ n ≤ rw_length pool → dead_before pool n →
  (n = rw_length pool →
     ∃ s, decompose_read mem junk memory lv h next pool =
       Ret (MkDecomposition (replicate (S (Z.to_nat LEVEL_FACTOR)) 0)
              (replicate (Z.to_nat LEVEL_FACTOR) 0) 0 (rw_length pool), s) ∧
       ds_heap s = h) ∧
  (∀ c, n < rw_length pool → getZ (rw_data pool) n = Ret c → client_sock_fd c ≠ -1 →
     (n < LEVEL_FACTOR →
        decompose_read mem junk memory lv h next pool = Undef NullDeref) ∧
     (LEVEL_FACTOR < n →
        decompose_read mem junk memory lv h next pool = Undef OutOfBounds)).
Proof.
  intros Hf Hemp HL Hn Hd. unfold decompose_read.
  pose proof (no_batch_start h next pool) as H0. set (s0 := MkDecompState _ _ _ _ _) in *.
  assert (E1 : route_tables (Z.to_nat LEVEL_FACTOR) lv 0 s0 = Ret s0).
  { destruct (Z.to_nat LEVEL_FACTOR) eqn:E; [lia|]. cbn [LevelInfo.route_tables].
    rewrite Hf. cbn [mbind exec_bind]. by rewrite Hemp. }
  rewrite E1. cbn [mbind exec_bind]. split.
  - intros <-. rewrite (route_rest_dead pool) by (done || lia). cbn [mbind exec_bind].
    exists s0. split; [|done]. do 3 f_equal. cbn [ds_decomp s0].
    unfold count_batches. generalize (S (Z.to_nat LEVEL_FACTOR)). intros k.
    induction k as [|k IH]; [done|]. cbn [replicate].
    rewrite filter_cons_False by tauto. exact IH.
  - intros c Hlt Hc Hfd.
    replace (rw_length pool) with (n + (rw_length pool - n)) by lia.
    rewrite seqZ_app, foldM_app by lia. rewrite (route_rest_dead pool) by (done || lia).
    cbn [mbind exec_bind]. rewrite Z.add_0_l, seqZ_cons by lia. cbn [foldM].
    assert (Hr : route_rest s0 n = (s1 ← ensure_absent_batch memory s0 n;
                                    insert_into_slot mem junk s1 LEVEL_FACTOR c)).
    { unfold LevelInfo.route_rest. cbn [ds_pool s0]. rewrite Hc. cbn [mbind exec_bind].
      by rewrite (proj2 (Z.eqb_neq _ _) Hfd). }
    rewrite Hr. split; intros Hcmp.
    + by rewrite ensure_absent_null by (done || lia).
    + destruct H0 as [[Hl _] HLFz]. unfold ensure_absent_batch. rewrite HLFz.
      cbn [mbind exec_bind new_read_batch]. change (0 =? 0) with true. cbn iota.
      unfold set_decomp. cbn [ds_decomp]. rewrite setZ_ok by lia. cbn [mbind exec_bind].
      unfold set_present. cbn [ds_decomp].
      rewrite getZ_out by (rewrite lenZ_insert; lia). done.
Qed.

End read_proofs.

(** ** Compaction batches *)

Section compaction_proofs.
Context {cfg : Config} {F : Type} `{FL : FilterLaws F}.
Context (HE : 1 ≤ MEMTABLE_ENTRY_LENGTH) (HM : 3 * MEMTABLE_ENTRY_LENGTH < MEMTABLE_SIZE).
Context (HMmax : MEMTABLE_SIZE < 2 ^ 31).

Lemma mem_from_out (m : bytes) off : lenZ m < off → mem_from m off = Undef OutOfBounds.
Proof. intros Ho. unfold mem_from. by decide_tests. Qed.

Lemma mem_from_no_spin m off : mem_from m off ≠ Spin.
Proof. unfold mem_from. by case_bool_decide. Qed.

(** Round [k] reads at [E * k * (k + 1) / 2]: the pointer leaves the segment
    before the loop is through. *)
Lemma fill_filter_overruns fuel data (f : F) k key :
  let E := MEMTABLE_ENTRY_LENGTH in
  filter_inv f → lenZ data ≤ MEMTABLE_SIZE → 0 ≤ k →
  k ≤ (MEMTABLE_SIZE - 1) / E → E * k * (k - 1) ≤ 2 * key →
  (Z.to_nat ((MEMTABLE_SIZE - 1) / E - k) < fuel)%nat →
  ∃ u, fill_filter fuel data f (k * E) key = Undef u.
Proof.
  intros E. set (K := (MEMTABLE_SIZE - 1) / E).
  assert (HK : K * E < MEMTABLE_SIZE ∧ MEMTABLE_SIZE ≤ (K + 1) * E ∧ 3 ≤ K).
  { unfold K. fold E in HE, HM. pose proof (Z.div_mod (MEMTABLE_SIZE - 1) E ltac:(lia)).
    pose proof (Z.mod_pos_bound (MEMTABLE_SIZE - 1) E ltac:(lia)).
    set (q := (MEMTABLE_SIZE - 1) / E) in *. nia. }
  revert f k key. induction fuel as [|fuel IH]; intros f k key Hf Hd Hk HkK Hkey Hfuel; [lia|].
  fold E in HE. cbn [fill_filter]. decide_tests.
  rewrite (proj2 (Z.ltb_lt (k * E) MEMTABLE_SIZE)) by nia.
  destruct (mem_from data (key + k * E)) as [m|u|] eqn:Hm; cbn [mbind exec_bind];
    [|by eexists|by apply mem_from_no_spin in Hm].
  destruct (insert_key f m) as [f'|u|] eqn:Hi; cbn [mbind exec_bind];
    [|by eexists|by apply insert_key_no_spin in Hi].
  destruct (decide (k = K)) as [->|Hne].
  - exfalso. rewrite mem_from_out in Hm; [done|]. nia.
  - fold E. rewrite u32_small by nia. replace (k * E + E) with ((k + 1) * E) by lia.
    apply IH; [by eapply insert_key_inv|done|lia|lia|nia|lia].
Qed.

(** The scan for a free filter ends one past the first empty one. *)
Lemma free_slot_ok (pre post : list F) n i :
  Forall (λ f, filter_empty f = false) post → i = lenZ pre →
  (n ≤ length post)%nat → free_slot n (pre ++ post) i = Ret (i + Z.of_nat n).
Proof.
  intros Hp. revert pre n i. induction Hp as [|f post Hf _ IH]; intros pre n i -> Hn.
  - cbn in Hn. assert (n = 0%nat) as -> by lia. cbn. f_equal. lia.
  - destruct n as [|n]; [cbn; f_equal; lia|]. cbn [free_slot length] in *.
    rewrite getZ_middle. cbn [mbind exec_bind]. rewrite Hf.
    specialize (IH (pre ++ [f]) n (lenZ pre + 1)). rewrite <- app_assoc in IH. cbn in IH.
    rewrite IH by (rewrite ?lenZ_app; done || lia). f_equal. lia.
Qed.

Lemma free_slot_found (full : list F) f post n :
  Forall (λ g, filter_empty g = false) full → filter_empty f = true →
  (length full < n)%nat → free_slot n (full ++ f :: post) 0 = Ret (lenZ full + 1).
Proof.
  intros Hfull Hf Hn. enough (H' : ∀ pre i, i = lenZ pre →
    free_slot n (pre ++ full ++ f :: post) i = Ret (i + lenZ full + 1)).
  { exact (H' [] 0 eq_refl). }
  revert n Hn. induction Hfull as [|g full Hg _ IH]; intros n Hn pre i ->;
    (destruct n as [|n]; [cbn in Hn; lia|]); cbn [free_slot app].
  - rewrite getZ_middle. cbn [mbind exec_bind]. rewrite Hf. f_equal. unfold lenZ. cbn. lia.
  - rewrite getZ_middle. cbn [mbind exec_bind]. rewrite Hg.
    cbn [length] in Hn. specialize (IH n ltac:(lia) (pre ++ [g]) (lenZ pre + 1)).
    rewrite <- app_assoc in IH. cbn [app] in IH.
    rewrite IH by (rewrite lenZ_app; done). f_equal. rewrite lenZ_cons. lia.
Qed.

(** The decomposition that sends the whole batch to table 0. *)
Definition to_table_zero (batch : Z) : Decomposition :=
  MkDecomposition (<[0%nat := batch]> (replicate (S (Z.to_nat LEVEL_FACTOR)) 0))
    (<[0%nat := MEMTABLE_SIZE]> (replicate (Z.to_nat LEVEL_FACTOR) 0)) 1 MEMTABLE_SIZE.

Lemma place_in_table_zero (lv : LevelInfo F) batch :
  1 ≤ LEVEL_FACTOR →
  (d ← setZ (replicate (S (Z.to_nat LEVEL_FACTOR)) 0) 0 batch;
   sz ← setZ (replicate (Z.to_nat LEVEL_FACTOR) 0) 0 MEMTABLE_SIZE;
   Ret (MkDecomposition d sz 1 MEMTABLE_SIZE, lv)) = Ret (to_table_zero batch, lv).
Proof.
  intros HL. rewrite setZ_ok by (unfold lenZ; rewrite length_replicate; lia).
  cbn [mbind exec_bind]. rewrite setZ_ok by (unfold lenZ; rewrite length_replicate; lia).
  done.
Qed.

(** A compaction batch is only ever placed in table 0 of a level, and only
    when no table but possibly the last is free.  The scan stops one past the
    first empty table: if that is still a table, filling its filter walks the
    key pointer out of the segment, because the running offset is added to it
    in every round; with the last table empty, or none, the batch goes to
    table 0 although that table's filter is in use. *)
Theorem decompose_compaction_spec (lv : LevelInfo F) batch seg :
  1 ≤ LEVEL_FACTOR → lenZ (filters lv) = LEVEL_FACTOR →
  Forall filter_inv (filters lv) → lenZ (rs_data seg) ≤ MEMTABLE_SIZE →
  (∀ full f post,
     filters lv = full ++ f :: post → filter_empty f = true →
     Forall (λ g, filter_empty g = false) full →
     if decide (post = [])
     then decompose_compaction lv batch seg = Ret (to_table_zero batch, lv)
     else ∃ u, decompose_compaction lv batch seg = Undef u) ∧
  (Forall (λ g, filter_empty g = false) (filters lv) →
     decompose_compaction lv batch seg = Ret (to_table_zero batch, lv)).
Proof.
  intros HL Hlen Hinv Hdata. unfold decompose_compaction. split.
  - intros full f post Hfs Hf Hfull.
    assert (Hl : lenZ full + lenZ post + 1 = LEVEL_FACTOR)
      by (rewrite Hfs, lenZ_app, lenZ_cons in Hlen; lia).
    pose proof (lenZ_nonneg full). pose proof (lenZ_nonneg post).
    assert (Hslot : free_slot (Z.to_nat LEVEL_FACTOR) (filters lv) 0 = Ret (lenZ full + 1)).
    { rewrite Hfs. apply free_slot_found; [done..|]. unfold lenZ in *. lia. }
    rewrite Hslot. cbn [mbind exec_bind].
    case_decide as Hp.
    + subst post. change (lenZ []) with 0 in Hl. decide_tests. cbn [mbind exec_bind].
      by apply place_in_table_zero.
    + assert (1 ≤ lenZ post) by (destruct post; [done|rewrite lenZ_cons; unfold lenZ; lia]).
      decide_tests.
      destruct (getZ_lt (filters lv) (lenZ full + 1)) as (g & -> & Hg); [lia|].
      cbn [mbind exec_bind].
      destruct (fill_filter_overruns fill_fuel (rs_data seg) g 0 0) as [u Hu].
      * exact (Forall_lookup_1 _ _ _ _ Hinv Hg).
      * done.
      * lia.
      * apply Z.div_pos; lia.
      * lia.
      * unfold fill_fuel. assert ((MEMTABLE_SIZE - 1) / MEMTABLE_ENTRY_LENGTH ≤ MEMTABLE_SIZE - 1)
          by (apply Z.div_le_upper_bound; nia). lia.
      * rewrite Z.mul_0_l in Hu. rewrite Hu. by exists u.
  - intros Hall. pose proof (free_slot_ok [] (filters lv) (Z.to_nat LEVEL_FACTOR) 0) as Hs.
    cbn [app] in Hs. rewrite Hs by (done || (unfold lenZ in Hlen; lia)).
    cbn [mbind exec_bind]. decide_tests. cbn [mbind exec_bind]. by apply place_in_table_zero.
Qed.

End compaction_proofs.

(** ** A fresh level of the shipped configuration *)

Definition fresh_filter : Filter := @new_Filter cmake_config 1 1 8.

Definition used_filter : Filter :=
  MkFilter (with_bloom (filter fresh_filter) (bloom (filter fresh_filter)) 1).

Definition demo_level (fs : list Filter) : LevelInfo Filter :=
  MkLevelInfo (MkGuard 1 false) fs (@new_SparseIndex cmake_config)
    (replicate 10 (new_BufferQueue 0 [0] false)) [].

Lemma fresh_filter_inv : Filter_inv fresh_filter.
Proof. apply (@new_Filter_inv cmake_config 1 1 8); cbn; lia. Qed.

Lemma used_filter_inv : Filter_inv used_filter.
Proof.
  destruct fresh_filter_inv as [Hwf Hd]. split; [|exact Hd].
  apply with_bloom_wf; [exact Hwf|done|apply Hwf].
Qed.

Lemma set_is_single_thread_spec_witness :
  ∃ lv', set_is_single_thread (cfg := cmake_config) (demo_level []) true = Ret lv' ∧
    is_single_thread (guard lv') = false ∧
    ∀ q, q ∈ buffer_queues lv' → is_single_thread (bq_guard q) = true.
Proof.
  destruct (@set_is_single_thread_spec cmake_config Filter (demo_level []) true eq_refl)
    as (lv' & ? & Hq & _ & Hg & _).
  exists lv'. split_and!; [done|by rewrite Hg|done].
Defined.

Definition dead_request : ConnectionRequest :=
  MkConnectionRequest (MkBaseRequest READ) 0 (-1) 0.

Definition live_request : ConnectionRequest :=
  MkConnectionRequest (MkBaseRequest READ) 0 7 0.

Definition no_memory (p : Z) : Content := readwrite_pool (MkReadWritePool [] 0 0 false).

Lemma decompose_read_routes_nothing_witness :
  ∃ d s, decompose_read (cfg := cmake_config) [] dead_request no_memory
           (demo_level (replicate 10 fresh_filter)) ∅ 1
           (MkReadWritePool [dead_request] 1 0 true) = Ret (d, s) ∧
    0 ≤ num_req_batches d ≤ 1.
Proof.
  assert (HL : 0 ≤ @LEVEL_FACTOR cmake_config) by (cbn; lia).
  destruct (decompose_read (cfg := cmake_config) [] dead_request no_memory
           (demo_level (replicate 10 fresh_filter)) ∅ 1
           (MkReadWritePool [dead_request] 1 0 true)) as [[d s]| |] eqn:E;
    [|vm_compute in E; discriminate E..].
  exists d, s. split; [done|].
  exact (proj1 (proj2 (proj2 (@decompose_read_routes_nothing cmake_config Filter _ [] dead_request
    no_memory HL _ _ _ _ d s E)))).
Defined.

Lemma decompose_read_empty_level_witness :
  decompose_read (cfg := cmake_config) [] dead_request no_memory
    (demo_level (replicate 10 fresh_filter)) ∅ 1
    (MkReadWritePool [dead_request; live_request] 2 0 true) = Undef NullDeref.
Proof.
  assert (HL : 0 ≤ @LEVEL_FACTOR cmake_config) by (cbn; lia).
  refine (proj1 (proj2 (@decompose_read_empty_level cmake_config Filter _ [] dead_request no_memory
    HL (demo_level (replicate 10 fresh_filter)) fresh_filter ∅ 1
    (MkReadWritePool [dead_request; live_request] 2 0 true) 1 eq_refl eq_refl _ _ _)
    live_request _ eq_refl _) _); try (cbn; lia).
  - intros i Hi. assert (i = 0) as -> by lia. by exists dead_request.
Defined.

Lemma decompose_compaction_spec_witness :
  decompose_compaction (cfg := cmake_config)
    (demo_level (replicate 9 used_filter ++ [fresh_filter])) 5
    (MkRequestSegment (MkStack 0 []) []) =
  Ret (@to_table_zero cmake_config 5, demo_level (replicate 9 used_filter ++ [fresh_filter])).
Proof.
  set (lv := demo_level _). set (seg := MkRequestSegment _ _).
  assert (Hinv : Forall filter_inv (filters lv)).
  { apply Forall_app. split; [apply Forall_replicate, used_filter_inv|].
    apply Forall_singleton, fresh_filter_inv. }
  assert (Hused : Forall (λ g, filter_empty g = false) (replicate 9 used_filter))
    by (by apply Forall_replicate).
  pose proof (proj1 (@decompose_compaction_spec cmake_config Filter _ Filter_laws
    ltac:(by vm_compute) ltac:(by vm_compute) ltac:(by vm_compute) lv 5 seg
    ltac:(by vm_compute) eq_refl Hinv ltac:(by vm_compute))
    (replicate 9 used_filter) fresh_filter [] eq_refl eq_refl Hused) as Hspec.
  rewrite decide_True in Hspec by done. exact Hspec.
Defined.
