(* ===== verification/Init.v ===== *)
(** * Start-up: the thread flags of the levels

    The part of [LSMTree::initialize] that decides, level by level, which
    guards the worker threads will skip ([lsm_tree.hpp], lines 145 to 172). *)

From S2P Require Import Prelude Config BufferQueue WaitQueue RequestBatch LevelInfo.

Definition set_wq_single_thread (b : bool) (t : SSTableInfo) : SSTableInfo :=
  let q := req_batch_wq t in
  let g := wq_guard q in
  MkSSTableInfo
    (MkWaitQueue (heap q) (next_address q)
       (MkWaitQueueGuard (atomic_consumer_guard g) (size g) (atomic_producer_guard g) b)
       (WaitQueue.front q) (WaitQueue.back q))
    (is_flushed_to t) (insert_buffers_from t) (page_cache_buffers t) (min_key t) (max_key t)
    (cache_helper t) (stack t) (cur_req_batch t) (waiting_on_io t) (already_waited t)
    (desired_sstable_offset t).

Section initialize.
Context {cfg : Config} {F : Type}.
Implicit Types (lv : LevelInfo F).

(** [sstable_infos[j].req_batch_wq.guard.is_single_thread = b] for a range of
    tables. *)
Definition set_wq_flags (lo n : Z) (b : bool) (lv : LevelInfo F) : exec (LevelInfo F) :=
  ts ← foldM (λ ts j, update_at ts j (λ t, Ret (set_wq_single_thread b t))) (seqZ lo n)
         (sstable_infos lv);
  Ret (MkLevelInfo (guard lv) (filters lv) (sparse_index lv) (buffer_queues lv) ts).

(** The first and the last level. *)
Definition init_outer_level (lv : LevelInfo F) : exec (LevelInfo F) :=
  lv1 ← set_is_single_thread lv true;
  set_wq_flags 0 LEVEL_FACTOR true lv1.

(** A level in between. *)
Definition init_inner_level (level : Z) (lv : LevelInfo F) : exec (LevelInfo F) :=
  let per_worker := WORKER_SSTABLE_BATCH_SIZE / LEVEL_FACTOR in
  if per_worker =? 0 then Undef DivideByZero
  else
    let location := level mod per_worker in
    let not_beginning := 0 <? location in
    let not_end := location <? LEVEL_FACTOR - 1 in
    lv1 ← set_is_single_thread lv (not_beginning && not_end);
    lv2 ← set_wq_flags 0 (LEVEL_FACTOR - 1) not_beginning lv1;
    set_wq_flags (LEVEL_FACTOR - 1) 1 not_end lv2.

Definition initialize_guards (levels : list (LevelInfo F)) : exec (list (LevelInfo F)) :=
  l1 ← update_at levels 0 init_outer_level;
  l2 ← foldM (λ l level, update_at l level (init_inner_level level))
         (seqZ 1 (NUM_SSTABLE_LEVELS - 2)) l1;
  update_at l2 (NUM_SSTABLE_LEVELS - 1) init_outer_level.

(** ** What the flags become *)

(** The wait queue flag of table [j] on [level]. *)
Definition wq_flag_spec (level j : Z) : bool :=
  if decide (level = 0 ∨ level = NUM_SSTABLE_LEVELS - 1) then true
  else
    let location := level mod (WORKER_SSTABLE_BATCH_SIZE / LEVEL_FACTOR) in
    if decide (j = LEVEL_FACTOR - 1) then location <? LEVEL_FACTOR - 1 else 0 <? location.

(** The buffer queue flag of every table on [level]. *)
Definition bq_flag_spec (level : Z) : bool :=
  if decide (level = 0 ∨ level = NUM_SSTABLE_LEVELS - 1) then true
  else
    let location := level mod (WORKER_SSTABLE_BATCH_SIZE / LEVEL_FACTOR) in
    (0 <? location) && (location <? LEVEL_FACTOR - 1).

Definition level_shape (lv : LevelInfo F) : Prop :=
  lenZ (buffer_queues lv) = LEVEL_FACTOR ∧ lenZ (sstable_infos lv) = LEVEL_FACTOR.

Definition wq_flag (t : SSTableInfo) : bool := wq_is_single_thread (wq_guard (req_batch_wq t)).

(** A level after start-up: only the flags differ, and the flag of the
    level's own guard is not among them. *)
Definition flagged (level : Z) (lv : LevelInfo F) : LevelInfo F :=
  MkLevelInfo (guard lv) (filters lv) (sparse_index lv)
    (set_bq_single_thread (bq_flag_spec level) <$> buffer_queues lv)
    (imap (λ j t, set_wq_single_thread (wq_flag_spec level (Z.of_nat j)) t)
       (sstable_infos lv)).

Lemma set_wq_flags_ok lo n b lv :
  0 ≤ lo → 0 ≤ n → lo + n ≤ lenZ (sstable_infos lv) →
  ∃ ts, set_wq_flags lo n b lv =
      Ret (MkLevelInfo (guard lv) (filters lv) (sparse_index lv) (buffer_queues lv) ts) ∧
    lenZ ts = lenZ (sstable_infos lv) ∧
    ∀ j, 0 ≤ j → ts !! Z.to_nat j =
      if decide (lo ≤ j < lo + n)
      then set_wq_single_thread b <$> sstable_infos lv !! Z.to_nat j
      else sstable_infos lv !! Z.to_nat j.
Proof.
  intros Hlo Hn Hl. unfold set_wq_flags.
  destruct (foldM_update_range (λ _ t, Ret (set_wq_single_thread b t))
              (λ _, set_wq_single_thread b) lo n (sstable_infos lv))
    as (ts & -> & ? & ?); [done..|]. by exists ts.
Qed.

Lemma init_outer_level_ok level lv :
  level = 0 ∨ level = NUM_SSTABLE_LEVELS - 1 → 0 ≤ LEVEL_FACTOR → level_shape lv →
  init_outer_level lv = Ret (flagged level lv).
Proof.
  intros Hlevel HL [Hq Ht]. unfold init_outer_level.
  rewrite set_is_single_thread_ok by done. cbn [mbind exec_bind].
  destruct (set_wq_flags_ok 0 LEVEL_FACTOR true (mark_buffer_queues true lv))
    as (ts & -> & Hlen & Hts); [lia|lia|cbn; lia|]. cbn in *.
  unfold flagged, bq_flag_spec. rewrite decide_True by done. do 2 f_equal.
  apply list_eq. intros j. specialize (Hts (Z.of_nat j) ltac:(lia)). rewrite Nat2Z.id in Hts.
  rewrite Hts, list_lookup_imap. unfold wq_flag_spec. rewrite (decide_True (P := level = 0 ∨ _)) by done.
  case_decide; [done|].
  rewrite lookup_ge_None_2; [done|]. unfold lenZ in *. lia.
Qed.

Lemma init_inner_level_ok level lv :
  0 < level < NUM_SSTABLE_LEVELS - 1 → 1 ≤ LEVEL_FACTOR →
  WORKER_SSTABLE_BATCH_SIZE / LEVEL_FACTOR ≠ 0 → level_shape lv →
  init_inner_level level lv = Ret (flagged level lv).
Proof.
  intros Hlevel HL Hper [Hq Ht]. unfold init_inner_level.
  rewrite (proj2 (Z.eqb_neq _ _) Hper). cbn zeta.
  set (loc := level mod _) in *. rewrite set_is_single_thread_ok by done.
  cbn [mbind exec_bind].
  destruct (set_wq_flags_ok 0 (LEVEL_FACTOR - 1) (0 <? loc)
    (mark_buffer_queues ((0 <? loc) && (loc <? LEVEL_FACTOR - 1)) lv))
    as (ts & -> & Hlen & Hts); [lia|lia|cbn; lia|]. cbn [mbind exec_bind].
  set (lv2 := MkLevelInfo _ _ _ _ ts).
  destruct (set_wq_flags_ok (LEVEL_FACTOR - 1) 1 (loc <? LEVEL_FACTOR - 1) lv2)
    as (ts2 & -> & Hlen2 & Hts2); [lia|lia|cbn in *; lia|]. cbn in *.
  unfold flagged, bq_flag_spec. rewrite decide_False by lia. do 2 f_equal.
  apply list_eq. intros j. specialize (Hts (Z.of_nat j) ltac:(lia)).
  specialize (Hts2 (Z.of_nat j) ltac:(lia)). rewrite Nat2Z.id in *.
  rewrite Hts2, Hts, list_lookup_imap. unfold wq_flag_spec. fold loc.
  rewrite (decide_False (P := level = 0 ∨ _)) by lia.
  destruct (sstable_infos lv !! j) as [t|] eqn:Et; [|by repeat case_decide].
  apply lookup_lt_Some in Et. unfold lenZ in *. repeat case_decide; (done || lia).
Qed.

Lemma initialize_guards_ok (levels : list (LevelInfo F)) :
  1 ≤ LEVEL_FACTOR → WORKER_SSTABLE_BATCH_SIZE / LEVEL_FACTOR ≠ 0 →
  2 ≤ NUM_SSTABLE_LEVELS → lenZ levels = NUM_SSTABLE_LEVELS → Forall level_shape levels →
  initialize_guards levels = Ret (imap (λ i, flagged (Z.of_nat i)) levels).
Proof.
  intros HL Hper HN Hlen Hshape. set (N := NUM_SSTABLE_LEVELS) in *.
  assert (Hat : ∀ i, 0 ≤ i < N → ∃ lv, levels !! Z.to_nat i = Some lv ∧ level_shape lv).
  { intros i Hi. destruct (lookup_lt_is_Some_2 levels (Z.to_nat i)) as [lv Hlv];
      [unfold lenZ in *; lia|]. exists lv. split; [done|].
    exact (Forall_lookup_1 _ _ _ _ Hshape Hlv). }
  unfold initialize_guards. fold N. destruct (Hat 0 ltac:(lia)) as (lv0 & H0 & Hs0).
  rewrite (update_at_ok levels 0 _ lv0 (flagged 0 lv0))
    by (done || lia || (apply init_outer_level_ok; [by left|lia|done])).
  cbn [mbind exec_bind]. set (l1 := <[_ := _]> levels).
  assert (Hl1 : ∀ i, 0 < i → l1 !! Z.to_nat i = levels !! Z.to_nat i)
    by (intros i Hi; unfold l1; by rewrite list_lookup_insert_ne by lia).
  destruct (foldM_update_range init_inner_level flagged 1 (N - 2) l1)
    as (l2 & -> & Hlen2 & Hl2); [lia|lia|unfold l1; rewrite lenZ_insert; lia| |].
  { intros i lv Hi Hlv. apply init_inner_level_ok; [fold N; lia|done|done|].
    rewrite Hl1 in Hlv by lia. destruct (Hat i ltac:(lia)) as (lv' & Hlv' & ?). congruence. }
  cbn [mbind exec_bind]. destruct (Hat (N - 1) ltac:(lia)) as (lvN & HlN & HsN).
  rewrite (update_at_ok l2 (N - 1) _ lvN (flagged (N - 1) lvN)).
  - f_equal. apply list_eq. intros i. rewrite list_lookup_imap.
    specialize (Hl2 (Z.of_nat i) ltac:(lia)). rewrite Nat2Z.id in Hl2.
    destruct (decide (Z.of_nat i = N - 1)) as [Ei|].
    { replace i with (Z.to_nat (N - 1)) by lia. rewrite HlN, list_lookup_insert_eq.
      - cbn. by rewrite Z2Nat.id by lia.
      - unfold lenZ in *. unfold l1 in Hlen2. rewrite length_insert in Hlen2. lia. }
    rewrite list_lookup_insert_ne by lia. rewrite Hl2.
    destruct (decide (i = 0%nat)) as [->|].
    { rewrite decide_False by lia. unfold l1. change (Z.to_nat 0) with 0%nat in *.
      rewrite list_lookup_insert_eq, H0 by (apply lookup_lt_Some in H0; lia). done. }
    specialize (Hl1 (Z.of_nat i) ltac:(lia)). rewrite Nat2Z.id in Hl1. rewrite Hl1.
    case_decide; [done|]. rewrite lookup_ge_None_2; [done|]. unfold lenZ in *. lia.
  - lia.
  - rewrite Hl2, decide_False, Hl1 by lia. done.
  - apply init_outer_level_ok; [by right|lia|done].
Qed.

(** When every worker owns at least one whole level, start-up terminates
    without undefined behaviour and sets exactly the flags the source
    describes: everything single-threaded on the first and last level; on an
    inner level the buffer queues by its position among the worker's levels,
    the wait queues of all tables but the last by "not the first position",
    and that of the last table by "position below LEVEL_FACTOR - 1".  No level
    guard's own flag is ever written. *)
Theorem initialize_guards_spec (levels : list (LevelInfo F)) :
  1 ≤ LEVEL_FACTOR → WORKER_SSTABLE_BATCH_SIZE / LEVEL_FACTOR ≠ 0 →
  2 ≤ NUM_SSTABLE_LEVELS → lenZ levels = NUM_SSTABLE_LEVELS → Forall level_shape levels →
  initialize_guards levels = Ret (imap (λ i, flagged (Z.of_nat i)) levels).
Proof. apply initialize_guards_ok. Qed.

(** When a worker thread owns fewer tables than a level has, start-up
    divides by zero at the first inner level. *)
Theorem initialize_guards_div_by_zero (levels : list (LevelInfo F)) :
  1 ≤ LEVEL_FACTOR → 0 ≤ WORKER_SSTABLE_BATCH_SIZE < LEVEL_FACTOR →
  3 ≤ NUM_SSTABLE_LEVELS → lenZ levels = NUM_SSTABLE_LEVELS → Forall level_shape levels →
  initialize_guards levels = Undef DivideByZero.
Proof.
  intros HL Hper HN Hlen Hshape. unfold initialize_guards.
  destruct (lookup_lt_is_Some_2 levels 0) as [lv0 H0]; [unfold lenZ in *; lia|].
  rewrite (update_at_ok levels 0 _ lv0 (flagged 0 lv0)); [|lia|done|].
  2:{ apply init_outer_level_ok; [by left|lia|]. exact (Forall_lookup_1 _ _ _ _ Hshape H0). }
  cbn [mbind exec_bind]. rewrite seqZ_cons by lia. cbn [foldM].
  set (l1 := <[_ := _]> levels).
  assert (E : update_at l1 1 (init_inner_level 1) = Undef DivideByZero).
  { unfold update_at. destruct (getZ_lt l1 1) as (lv1 & -> & _);
      [unfold l1; rewrite lenZ_insert; lia|].
    cbn [mbind exec_bind]. unfold init_inner_level. by rewrite Z.div_small by lia. }
  by rewrite E.
Qed.

(** The last wait queue and the buffer queues of a level at the end of a
    worker's range are not recognised as shared: with at most
    [LEVEL_FACTOR - 1] levels per worker the last table's wait queue is marked
    single-threaded on every level. *)
Theorem last_table_never_shared level :
  1 ≤ WORKER_SSTABLE_BATCH_SIZE / LEVEL_FACTOR ≤ LEVEL_FACTOR - 1 →
  wq_flag_spec level (LEVEL_FACTOR - 1) = true.
Proof.
  intros Hper. unfold wq_flag_spec. case_decide; [done|]. rewrite decide_True by done.
  apply Z.ltb_lt. set (p := _ / _) in *.
  pose proof (Z.mod_pos_bound level p ltac:(lia)). lia.
Qed.

End initialize.

(** Ten levels of three tables, six tables and so two levels per worker. *)
Definition wide_config : Config := {|
  MEMTABLE_SIZE_MB_BITS := 1;
  TOTAL_SSTABLE_STORAGE_SPACE_MB := 60;
  LEVEL_FACTOR := 3;
  NUM_SSTABLE_WORKER_THREADS := 5;
  KEY_LENGTH := 1;
  VALUE_LENGTH := 2;
  PAGE_SIZE := 4096;
  BLOCK_SIZE := 4096;
  ALIGN_NO_FALSE_SHARING := 64;
  MAX_SIMULTANEOUS_CONNECTIONS := 100;
  NUM_PROCESSORS := 8;
  TOTAL_SSTABLE_PAGE_CACHE_SIZE := 1000
|}.

Definition blank_table : SSTableInfo :=
  new_SSTableInfo (new_WaitQueue false 0) [] [] [] [] [] [] 0.

Definition blank_level (n : nat) : LevelInfo unit :=
  MkLevelInfo (MkGuard 1 false) [] (SparseIndex.MkSparseIndex [])
    (replicate n (new_BufferQueue 0 [0] false)) (replicate n blank_table).

Lemma initialize_guards_spec_witness :
  @initialize_guards wide_config unit (replicate 10 (blank_level 3)) =
    Ret (imap (λ i, @flagged wide_config unit (Z.of_nat i)) (replicate 10 (blank_level 3))).
Proof.
  apply (@initialize_guards_spec wide_config unit); try (vm_compute; congruence).
  by apply Forall_replicate.
Defined.

Lemma initialize_guards_div_by_zero_witness :
  @initialize_guards cmake_config unit (replicate 50 (blank_level 10)) = Undef DivideByZero.
Proof.
  apply (@initialize_guards_div_by_zero cmake_config unit); try (by vm_compute).
  by apply Forall_replicate.
Defined.

(** Level 3 is the second and last one of its worker. *)
Lemma last_table_never_shared_witness : @wq_flag_spec wide_config 3 2 = true.
Proof. apply (@last_table_never_shared wide_config 3). by vm_compute. Defined.
