(* ===== verification/Distribute.v ===== *)
(** * Handing batches and buffers down to a level

    [LSMTree::insert_into_wqs] and [LSMTree::try_add_buffers_nonblockingly].
    The levels are an array; [sstable_info], a pointer to a table of the level
    above, is the pair of its indices.  [attempts] are the outcomes of the
    weak compare-and-exchange loops: [true] for a spurious failure. *)

From S2P Require Import Prelude Config Requests BufferQueue CacheHelper WaitQueue Guards.
From S2P Require Import Filter RequestBatch LevelInfo.

(** ** Updating a table in place *)

Definition set_req_batch_wq (q : RequestBatchWaitQueue) (t : SSTableInfo) : SSTableInfo :=
  MkSSTableInfo q (is_flushed_to t) (insert_buffers_from t) (page_cache_buffers t)
    (min_key t) (max_key t) (cache_helper t) (stack t) (cur_req_batch t) (waiting_on_io t)
    (already_waited t) (desired_sstable_offset t).

(** The buffers a table owns: their number, the array, the cache index. *)
Definition set_buffers (from : Z) (buffers : list Z) (c : SSTableCacheHelper)
    (t : SSTableInfo) : SSTableInfo :=
  MkSSTableInfo (req_batch_wq t) (is_flushed_to t) from buffers (min_key t) (max_key t)
    c (stack t) (cur_req_batch t) (waiting_on_io t) (already_waited t)
    (desired_sstable_offset t).

Definition set_producer_guard (v : Z) (q : RequestBatchWaitQueue) : RequestBatchWaitQueue :=
  let g := wq_guard q in
  MkWaitQueue (heap q) (next_address q)
    (MkWaitQueueGuard (atomic_consumer_guard g) (size g) v (wq_is_single_thread g))
    (WaitQueue.front q) (WaitQueue.back q).

Definition set_bq_guard (v : Z) (q : BufferQueue) : BufferQueue :=
  MkBufferQueue (queue_front q) (queue_back q) (cur_num_buffers q) (num_new_buffers q)
    (queue q) (MkGuard v (is_single_thread (bq_guard q))).

(** [while (!single && !guard.compare_exchange_weak(my_zero, 1));] *)
Definition lock (attempts : list bool) (g : Guard) : exec Guard :=
  if is_single_thread g then Ret g
  else '(v, _) ← acquire attempts (atomic_guard g) 0; Ret (MkGuard v (is_single_thread g)).

(** [if (!single) guard.store(1)] *)
Definition unlock (g : Guard) : Guard :=
  if is_single_thread g then g else MkGuard (release (atomic_guard g)) false.

(** ** [try_add_buffers_nonblockingly] *)

(** The loop runs while the front cell is not null; [insert_buffers_from] is
    not advanced.  [fuel] bounds the rounds of a loop whose end depends on the
    ring's contents. *)
Fixpoint add_buffers_loop (fuel : nat) (q : BufferQueue) (t : SSTableInfo)
    : exec (BufferQueue * SSTableInfo) :=
  match fuel with
  | O => Spin
  | S fuel' =>
      b ← BufferQueue.front q;
      if b =? 0 then Ret (q, t)
      else
        '(q', new_buffer) ← BufferQueue.pop_front q;
        bs ← setZ (page_cache_buffers t) (insert_buffers_from t) new_buffer;
        add_buffers_loop fuel' q'
          (set_buffers (insert_buffers_from t) bs (add_buffer (cache_helper t)) t)
  end.

Definition try_add_buffers_nonblockingly (fuel : nat) (spurious : bool)
    (t : SSTableInfo) (q : BufferQueue) : exec (BufferQueue * SSTableInfo) :=
  let g := bq_guard q in
  let '(ok, v) :=
    if is_single_thread g then (true, atomic_guard g)
    else try_acquire spurious (atomic_guard g) in
  let q1 := set_bq_guard v q in
  if ok : bool then
    '(q2, t') ← add_buffers_loop fuel q1 t;
    Ret (MkBufferQueue (queue_front q2) (queue_back q2) (cur_num_buffers q2)
           (num_new_buffers q2) (queue q2) (unlock (bq_guard q2)), t')
  else Ret (q1, t).

Section distribute.
Context {cfg : Config} {F : Type} `{FilterLike F}.
Context (mem : bytes) (junk : ConnectionRequest) (memory : Z → Content).

(** The shared state of the tree. *)
Record TreeState : Type := MkTreeState {
  level_infos : list (LevelInfo F);
  batches_heap : gmap Z RequestBatch;
  next_batch : Z
}.

Definition with_level (lv : LevelInfo F) (g : Guard) : LevelInfo F :=
  MkLevelInfo g (filters lv) (sparse_index lv) (buffer_queues lv) (sstable_infos lv).

Definition update_table (levels : list (LevelInfo F)) (level i : Z)
    (g : SSTableInfo → exec SSTableInfo) : exec (list (LevelInfo F)) :=
  update_at levels level (λ lv,
    ts ← update_at (sstable_infos lv) i g;
    Ret (MkLevelInfo (guard lv) (filters lv) (sparse_index lv) (buffer_queues lv) ts)).

Definition update_buffer_queue (levels : list (LevelInfo F)) (level i : Z)
    (g : BufferQueue → exec BufferQueue) : exec (list (LevelInfo F)) :=
  update_at levels level (λ lv,
    qs ← update_at (buffer_queues lv) i g;
    Ret (MkLevelInfo (guard lv) (filters lv) (sparse_index lv) qs (sstable_infos lv))).

Definition get_table (levels : list (LevelInfo F)) (level i : Z) : exec SSTableInfo :=
  lv ← getZ levels level; getZ (sstable_infos lv) i.

Definition get_buffer_queue (levels : list (LevelInfo F)) (level i : Z) : exec BufferQueue :=
  lv ← getZ levels level; getZ (buffer_queues lv) i.

(** ** Splitting the batch under the level guard *)

Definition decompose_locked (attempts : list bool) (s : TreeState) (level batch : Z)
    : exec (Decomposition * TreeState) :=
  lv ← getZ (level_infos s) level;
  g ← lock attempts (guard lv);
  '(d, lv1, h, next) ←
    decompose mem junk memory (with_level lv g) (batches_heap s) (next_batch s) batch;
  levels ← setZ (level_infos s) level (with_level lv1 (unlock (guard lv1)));
  Ret (d, MkTreeState levels h next).

(** ** Collecting buffers from the queue above *)

(** [for (num_new_buffers = 0; ...; ++num_new_buffers) new_buffers[...] =
    pop_front()]; the array has [max_sstable_height] cells. *)
Fixpoint collect_new (n : nat) (k : Z) (q : BufferQueue) (new_buffers : list Z)
    : exec (BufferQueue * list Z) :=
  match n with
  | O => Ret (q, new_buffers)
  | S n' =>
      '(q', b) ← BufferQueue.pop_front q;
      nb ← setZ new_buffers k b;
      collect_new n' (k + 1) q' nb
  end.

(** [while (buffer_queue.num_new_buffers)]: give the rest to the table above.
    Each round stores into its buffer array, whose length bounds them. *)
Fixpoint absorb_rest (fuel : nat) (q : BufferQueue) (t : SSTableInfo)
    : exec (BufferQueue * SSTableInfo) :=
  match fuel with
  | O => Spin
  | S fuel' =>
      if num_new_buffers q =? 0 then Ret (q, t)
      else
        '(q', b) ← BufferQueue.pop_front q;
        bs ← setZ (page_cache_buffers t) (insert_buffers_from t) b;
        absorb_rest fuel' q'
          (set_buffers (u32 (insert_buffers_from t + 1)) bs (add_buffer (cache_helper t)) t)
  end.

Definition old_buffer_limit_of (q : BufferQueue) : Z :=
  let old := i32 (cur_num_buffers q - num_new_buffers q) in
  if old =? 0 then 0 else Z.max (Z.quot old LEVEL_FACTOR) 1.

(** [num_new ? : max(min(max_sstable_height, num_new / LEVEL_FACTOR), 1)] *)
Definition new_buffer_limit_of (q : BufferQueue) : Z :=
  let n := num_new_buffers q in
  if n =? 0 then Z.max (Z.min max_sstable_height (n / LEVEL_FACTOR)) 1 else i32 n.

(** The [level > 0] part before the batches are queued.  The count of
    collected buffers that the rest of the function sees is a different,
    shadowed variable and stays zero, so only [old_buffer_limit] is
    returned. *)
Definition take_buffers (attempts : list bool) (stack_cells : list Z)
    (levels : list (LevelInfo F)) (level index_in_level : Z)
    : exec (list (LevelInfo F) * list Z * Z) :=
  q ← get_buffer_queue levels (level - 1) index_in_level;
  t ← get_table levels (level - 1) index_in_level;
  g ← lock attempts (bq_guard q);
  let q1 := set_bq_guard (atomic_guard g) q in
  let old_buffer_limit := old_buffer_limit_of q1 in
  let new_buffer_limit := new_buffer_limit_of q1 in
  '(q2, new_buffers) ← collect_new (Z.to_nat new_buffer_limit) 0 q1 stack_cells;
  '(q3, t') ← absorb_rest (S (S (length (page_cache_buffers t)))) q2 t;
  let q4 := MkBufferQueue (queue_front q3) (queue_back q3) (cur_num_buffers q3)
              (num_new_buffers q3) (queue q3) (unlock (bq_guard q3)) in
  levels1 ← update_buffer_queue levels (level - 1) index_in_level (λ _, Ret q4);
  levels2 ← update_table levels1 (level - 1) index_in_level (λ _, Ret t');
  Ret (levels2, new_buffers, old_buffer_limit).

(** ** Queueing the batches *)

Record QueueState : Type := MkQueueState {
  qs_levels : list (LevelInfo F);
  qs_batches : list Z;
  qs_inserted : list bool;
  qs_contend : list bool;
  qs_num_queued : Z
}.

(** Table [i] in one sweep.  A spurious failure of the weak attempt, which only
    puts the table off to the next sweep, is left out here. *)
Definition queue_one (level : Z) (s : QueueState) (i : Z) : exec QueueState :=
  p ← getZ (qs_batches s) i;
  if p =? 0 then Ret s
  else
    ins ← getZ (qs_inserted s) i;
    if ins : bool then Ret s
    else
      t ← get_table (qs_levels s) level i;
      let q := req_batch_wq t in
      let single := wq_is_single_thread (wq_guard q) in
      let '(ok, v) :=
        if single then (true, atomic_producer_guard (wq_guard q))
        else try_acquire false (atomic_producer_guard (wq_guard q)) in
      if ok : bool then
        c ← getZ (qs_contend s) i;
        '(q1, pushed) ← try_push_back (set_producer_guard v q) p c;
        contend ← setZ (qs_contend s) i (negb pushed);
        '(q2, batches, inserted, queued) ←
          (if pushed : bool then
             absent ← getZ (qs_batches s) LEVEL_FACTOR;
             '(q2, batches, extra) ←
               (if absent =? 0 then Ret (q1, qs_batches s, 0)
                else
                  q2 ← standard_push_back q1 absent;
                  b ← setZ (qs_batches s) LEVEL_FACTOR 0;
                  Ret (q2, b, 1));
             inserted ← setZ (qs_inserted s) i true;
             Ret (q2, batches, inserted, u32 (qs_num_queued s + extra + 1))
           else Ret (q1, qs_batches s, qs_inserted s, qs_num_queued s));
        let q3 := if single then q2
                  else set_producer_guard (release (atomic_producer_guard (wq_guard q2))) q2 in
        levels ← update_table (qs_levels s) level i (λ t, Ret (set_req_batch_wq q3 t));
        Ret (MkQueueState levels batches inserted contend queued)
      else
        levels ← update_table (qs_levels s) level i
                   (λ t, Ret (set_req_batch_wq (set_producer_guard v q) t));
        Ret (MkQueueState levels (qs_batches s) (qs_inserted s) (qs_contend s)
               (qs_num_queued s)).

Definition queue_sweep (level : Z) (s : QueueState) : exec QueueState :=
  foldM (queue_one level) (seqZ 0 LEVEL_FACTOR) s.

(** [while (num_queued < decomp.num_req_batches)] *)
Fixpoint queue_batches (fuel : nat) (level num_req : Z) (s : QueueState) : exec QueueState :=
  match fuel with
  | O => Spin
  | S fuel' =>
      if qs_num_queued s <? num_req
      then s' ← queue_sweep level s; queue_batches fuel' level num_req s'
      else Ret s
  end.

(** ** Giving buffers to the tables below *)

Record GiveState : Type := MkGiveState {
  gv_levels : list (LevelInfo F);
  gv_given : list bool;
  gv_num_given : Z;
  gv_old_given : Z
}.

(** [for (j = 0; j < n && num_old_buffers_given < limit; ++j)
    bq->push_back(page_cache_buffers[--insert_buffers_from])] *)
Fixpoint give_old (n : nat) (limit given : Z) (q : BufferQueue) (t : SSTableInfo)
    : exec (BufferQueue * SSTableInfo * Z) :=
  match n with
  | O => Ret (q, t, given)
  | S n' =>
      if given <? limit then
        let from := u32 (insert_buffers_from t - 1) in
        b ← getZ (page_cache_buffers t) from;
        q' ← BufferQueue.push_back q b;
        give_old n' limit (given + 1) q'
          (set_buffers from (page_cache_buffers t) (cache_helper t) t)
      else Ret (q, t, given)
  end.

(** Table [i] in one sweep.  The number of collected new buffers is zero here
    (the loop that collected them counted in a shadowing variable), so the
    loops that would push [new_buffers] do not run.  A spurious failure, which
    puts the table off to the next sweep, is left out here too. *)
Definition give_one (level index_in_level : Z) (batches : list Z) (d : Decomposition)
    (old_buffer_limit : Z) (s : GiveState) (i : Z) : exec GiveState :=
  p ← getZ batches i;
  if p =? 0 then Ret s
  else
    gvn ← getZ (gv_given s) i;
    if gvn : bool then Ret s
    else
      q ← get_buffer_queue (gv_levels s) level i;
      let g := bq_guard q in
      let '(ok, v) := if is_single_thread g then (true, atomic_guard g)
                      else try_acquire false (atomic_guard g) in
      let q1 := set_bq_guard v q in
      if ok : bool then
        given ← setZ (gv_given s) i true;
        '(q2, levels, old_given) ←
          (if cur_num_buffers q1 <? max_sstable_height then
             share ← getZ (expected_sstable_sizes d) i;
             t ← get_table (gv_levels s) (level - 1) index_in_level;
             let quantity := share / total_decomp_size d * old_buffer_limit in
             '(q2, t', n) ← give_old (Z.to_nat quantity) old_buffer_limit (gv_old_given s) q1 t;
             levels ← update_table (gv_levels s) (level - 1) index_in_level (λ _, Ret t');
             Ret (q2, levels, n)
           else Ret (q1, gv_levels s, gv_old_given s));
        let q3 := MkBufferQueue (queue_front q2) (queue_back q2) (cur_num_buffers q2)
                    (num_new_buffers q2) (queue q2) (unlock (bq_guard q2)) in
        levels' ← update_buffer_queue levels level i (λ _, Ret q3);
        Ret (MkGiveState levels' given (gv_num_given s + 1) old_given)
      else
        levels ← update_buffer_queue (gv_levels s) level i (λ _, Ret q1);
        Ret (MkGiveState levels (gv_given s) (gv_num_given s) (gv_old_given s)).

Fixpoint give_buffers (fuel : nat) (level index_in_level : Z) (batches : list Z)
    (d : Decomposition) (old_buffer_limit : Z) (s : GiveState) : exec GiveState :=
  match fuel with
  | O => Spin
  | S fuel' =>
      if gv_num_given s <? num_req_batches d then
        s' ← foldM (give_one level index_in_level batches d old_buffer_limit)
               (seqZ 0 LEVEL_FACTOR) s;
        give_buffers fuel' level index_in_level batches d old_buffer_limit s'
      else Ret s
  end.

(** The removal of the transferred buffers from the cache index. *)
Definition remove_given (levels : list (LevelInfo F)) (level index_in_level original : Z)
    : exec (list (LevelInfo F)) :=
  update_table levels (level - 1) index_in_level (λ t,
    let from := u32 (insert_buffers_from t + 1) in
    c ← remove_buffer_range (cache_helper t) from original;
    Ret (set_buffers from (page_cache_buffers t) c t)).

(** ** [insert_into_wqs] *)

(** [proportions[i] = expected_sstable_sizes[i] / total_decomp_size], an
    integer division. *)
Definition proportions (d : Decomposition) : exec (list Z) :=
  foldM (λ ps i,
    n ← getZ (expected_sstable_sizes d) i;
    if total_decomp_size d =? 0 then Undef DivideByZero
    else Ret (ps ++ [n / total_decomp_size d])) (seqZ 0 LEVEL_FACTOR) [].

(** [could_contend_with_consumer[LEVEL_FACTOR] = false], in every round of the
    loop that is meant to clear the array. *)
Definition init_could_contend (cells : list bool) : exec (list bool) :=
  foldM (λ c _, setZ c LEVEL_FACTOR false) (seqZ 0 LEVEL_FACTOR) cells.

(** [stack_flags] and [stack_cells] are the uninitialised locals
    [could_contend_with_consumer] and [new_buffers]; [above] is the index of
    the table the batch comes from when [level > 0]. *)
Definition insert_into_wqs (fuel : nat) (attempts : list bool) (stack_flags : list bool)
    (stack_cells : list Z) (s : TreeState) (level batch above : Z) : exec TreeState :=
  rb ← deref_batch (batches_heap s) batch;
  '(d, s1) ← decompose_locked attempts s level batch;
  let s2 :=
    if level =? 0 then
      MkTreeState (level_infos s1)
        (<[next_batch s1 := new_RequestBatch (batch_type rb) (memory (next_batch s1))]>
           (batches_heap s1)) (next_batch s1 + 1)
    else s1 in
  contend ← init_could_contend stack_flags;
  _ ← proportions d;
  '(levels, _, old_limit) ←
    (if level =? 0 then Ret (level_infos s2, stack_cells, 0)
     else take_buffers attempts stack_cells (level_infos s2) level above);
  qs ← queue_batches fuel level (num_req_batches d)
         (MkQueueState levels (decomposition d)
            (replicate (Z.to_nat LEVEL_FACTOR) false) contend 0);
  levels' ←
    (if (0 <? level) && negb (old_limit =? 0) then
       t ← get_table (qs_levels qs) (level - 1) above;
       gs ← give_buffers fuel level above (qs_batches qs) d old_limit
              (MkGiveState (qs_levels qs) (replicate (Z.to_nat LEVEL_FACTOR) false) 0 0);
       if gv_old_given gs =? 0 then Ret (gv_levels gs)
       else remove_given (gv_levels gs) level above (insert_buffers_from t)
     else Ret (qs_levels qs));
  Ret (MkTreeState levels' (batches_heap s2) (next_batch s2)).

End distribute.
