(* ===== verification/DistributeProofs.v ===== *)
(** * What handing batches and buffers down does

    Theorems about [Distribute]: delivery of the batches of a decomposition to
    the wait queues of a level, the buffer transfers, and the function
    [insert_into_wqs] as a whole. *)

From S2P Require Import Prelude Config Requests BufferQueue CacheHelper WaitQueue Guards.
From S2P Require Import Filter RequestBatch LevelInfo Init Distribute.

Section delivery.
Context {cfg : Config} {F : Type}.
Implicit Types (lv : LevelInfo F) (levels : list (LevelInfo F)) (vs : list (list Z)).

(** Table [i] of [level] has a single-threaded wait queue that holds
    [vs !! i]. *)
Definition table_views (levels : list (LevelInfo F)) (level : Z) (vs : list (list Z)) : Prop :=
  0 ≤ level ∧ ∃ lv, levels !! Z.to_nat level = Some lv ∧
    Forall2 (λ t v, single_view (req_batch_wq t) v) (sstable_infos lv) vs.

(** What delivery makes of a queue. *)
Definition deliver (v : list Z) (p : Z) : list Z := if p =? 0 then v else v ++ [p].

Lemma single_view_guard v q bs :
  single_view q bs → single_view (set_producer_guard v q) bs.
Proof.
  intros (Hs & l & -> & Hh & Hb). split; [done|]. exists l. split_and!; [done| |done].
  by apply (holds_ext q).
Qed.

(** In single-thread mode the contention flag is not looked at. *)
Lemma try_push_single q bs b c :
  single_view q bs → try_push_back q b c = try_push_back q b false.
Proof. intros (Hs & _). unfold try_push_back. by rewrite Hs. Qed.

Lemma get_table_view levels level vs i v :
  table_views levels level vs → 0 ≤ i → vs !! Z.to_nat i = Some v →
  ∃ t, get_table levels level i = Ret t ∧ single_view (req_batch_wq t) v.
Proof.
  intros (Hl & lv & Hlv & Hf) Hi Hv. unfold get_table.
  assert (Eg : getZ levels level = Ret lv) by (by apply getZ_Ret). rewrite Eg.
  cbn [mbind exec_bind].
  destruct (Forall2_lookup_r _ _ _ _ _ Hf Hv) as (t & Ht & Hs).
  exists t. split; [by apply getZ_Ret|done].
Qed.

Lemma update_table_view levels level vs i v q :
  table_views levels level vs → 0 ≤ i < lenZ vs → single_view q v →
  ∃ levels', update_table levels level i (λ t, Ret (set_req_batch_wq q t)) = Ret levels' ∧
    table_views levels' level (<[Z.to_nat i := v]> vs).
Proof.
  intros (Hl & lv & Hlv & Hf) Hi Hq. unfold update_table.
  destruct (lookup_lt_is_Some_2 (sstable_infos lv) (Z.to_nat i)) as [t Ht].
  { rewrite (Forall2_length _ _ _ Hf). unfold lenZ in Hi. lia. }
  rewrite (update_at_ok levels level _ lv (MkLevelInfo (guard lv) (filters lv)
    (sparse_index lv) (buffer_queues lv)
    (<[Z.to_nat i := set_req_batch_wq q t]> (sstable_infos lv)))); [|done|done|].
  2:{ by rewrite (update_at_ok (sstable_infos lv) i _ t (set_req_batch_wq q t)) by (done || lia). }
  eexists. split; [done|]. split; [done|]. eexists. split.
  { apply list_lookup_insert_eq. by apply lookup_lt_Some in Hlv. }
  cbn. by apply Forall2_insert.
Qed.

(** One table of a sweep when nothing is left for the absent-key slot. *)
Lemma queue_one_ok level s i vs v p :
  table_views (qs_levels s) level vs → 0 ≤ i < lenZ vs → vs !! Z.to_nat i = Some v →
  getZ (qs_batches s) i = Ret p → getZ (qs_batches s) LEVEL_FACTOR = Ret 0 →
  getZ (qs_inserted s) i = Ret false → 0 ≤ i < lenZ (qs_contend s) →
  ∃ levels' contend, queue_one (F := F) level s i =
    Ret (MkQueueState levels' (qs_batches s)
           (if p =? 0 then qs_inserted s else <[Z.to_nat i := true]> (qs_inserted s)) contend
           (if p =? 0 then qs_num_queued s else u32 (qs_num_queued s + 0 + 1))) ∧
    table_views levels' level (<[Z.to_nat i := deliver v p]> vs) ∧
    lenZ contend = lenZ (qs_contend s).
Proof.
  intros Hv Hi Hvi Hp HLF Hins Hc. unfold queue_one. rewrite Hp. cbn [mbind exec_bind].
  unfold deliver. destruct (Z.eqb_spec p 0) as [->|Hne].
  { exists (qs_levels s), (qs_contend s). split_and!; [by destruct s| |done].
    by rewrite list_insert_id. }
  rewrite Hins. cbn [mbind exec_bind].
  destruct (get_table_view _ _ _ i v Hv ltac:(lia) Hvi) as (t & -> & Hs).
  cbn [mbind exec_bind]. pose proof Hs as (Hsingle & _). rewrite Hsingle. cbn zeta.
  destruct (getZ_lt (qs_contend s) i Hc) as (c & -> & _). cbn [mbind exec_bind].
  set (q0 := set_producer_guard _ _).
  pose proof (single_view_guard (atomic_producer_guard (wq_guard (req_batch_wq t))) _ _ Hs) as Hs0.
  fold q0 in Hs0. rewrite (try_push_single q0 v p c Hs0).
  destruct (single_push_ok q0 v p Hs0) as (q1 & -> & Hs1). cbn [mbind exec_bind].
  rewrite (setZ_ok (qs_contend s) i) by done. cbn [mbind exec_bind]. rewrite HLF. cbn [mbind exec_bind].
  change (0 =? 0) with true. cbn iota. cbn [mbind exec_bind].
  assert (Hil : 0 ≤ i < lenZ (qs_inserted s)).
  { apply getZ_Ret in Hins as [_ Hins]. apply lookup_lt_Some in Hins. unfold lenZ. lia. }
  rewrite (setZ_ok (qs_inserted s) i) by done. cbn [mbind exec_bind].
  destruct (update_table_view _ _ _ i _ q1 Hv Hi Hs1) as (levels' & -> & Hv').
  cbn [mbind exec_bind]. eexists _, _. split; [done|]. split; [done|]. apply lenZ_insert.
Qed.

Lemma count_batches_snoc d p :
  count_batches (d ++ [p]) = count_batches d + (if p =? 0 then 0 else 1).
Proof.
  unfold count_batches. rewrite filter_app, lenZ_app. f_equal.
  destruct (Z.eqb_spec p 0) as [->|Hp].
  - by rewrite filter_cons_False by tauto.
  - by rewrite filter_cons_True by done.
Qed.

Lemma count_batches_bounds d : 0 ≤ count_batches d ≤ lenZ d.
Proof.
  unfold count_batches, lenZ. pose proof (length_filter (λ p, p ≠ 0) d). lia.
Qed.

(** The state a sweep starts from. *)
Definition sweep_ready (s : QueueState (F := F)) (vs : list (list Z)) : Prop :=
  lenZ vs = LEVEL_FACTOR ∧ lenZ (qs_batches s) = LEVEL_FACTOR + 1 ∧
  getZ (qs_batches s) LEVEL_FACTOR = Ret 0 ∧ lenZ (qs_contend s) = LEVEL_FACTOR ∧
  qs_inserted s = replicate (Z.to_nat LEVEL_FACTOR) false ∧
  qs_num_queued s = 0 ∧ LEVEL_FACTOR < 2 ^ 32.

Lemma sweep_prefix level s vs n :
  0 ≤ n → n ≤ LEVEL_FACTOR → sweep_ready s vs → table_views (qs_levels s) level vs →
  ∃ s', foldM (queue_one level) (seqZ 0 n) s = Ret s' ∧
    qs_batches s' = qs_batches s ∧ lenZ (qs_contend s') = LEVEL_FACTOR ∧
    table_views (qs_levels s') level
      (zip_with deliver (take (Z.to_nat n) vs) (qs_batches s) ++ drop (Z.to_nat n) vs) ∧
    (∀ i, n ≤ i < LEVEL_FACTOR → getZ (qs_inserted s') i = Ret false) ∧
    qs_num_queued s' = count_batches (take (Z.to_nat n) (qs_batches s)).
Proof.
  intros Hn. pattern n. apply natlike_ind; [|clear n Hn|done].
  { intros _ (Hvs & Hb & Hz & Hc & Hins & Hq & _) Hv. exists s. split_and!; try done.
    intros i Hi. rewrite Hins. apply getZ_Ret. split; [lia|]. apply lookup_replicate_2. lia. }
  intros n Hn IH Hle Hr Hv. rewrite <- Z.add_1_r in *.
  destruct (IH ltac:(lia) Hr Hv) as (s1 & E1 & Hb1 & Hc1 & Hv1 & Hins1 & Hq1).
  destruct Hr as (Hvs & Hb & Hz & Hc & Hins & Hq & Hmax).
  rewrite seqZ_app, foldM_app, E1, Z.add_0_l, (seqZ_cons n 1), seqZ_nil by lia.
  cbn [mbind exec_bind foldM].
  destruct (lookup_lt_is_Some_2 vs (Z.to_nat n)) as [v Hvn]; [unfold lenZ in *; lia|].
  destruct (getZ_lt (qs_batches s) n) as (p & Hp & Hpn); [lia|].
  set (A := zip_with deliver (take (Z.to_nat n) vs) (qs_batches s)) in *.
  assert (HA : length A = Z.to_nat n).
  { unfold A. rewrite length_zip_with, length_take. unfold lenZ in *. lia. }
  rewrite (drop_S _ _ _ Hvn) in Hv1.
  destruct (queue_one_ok level s1 n _ v p Hv1) as (levels' & contend & E2 & Hv2 & Hc2).
  { rewrite lenZ_app, lenZ_cons. unfold lenZ. rewrite HA. lia. }
  { rewrite lookup_app_r, HA, Nat.sub_diag by lia. done. }
  { by rewrite Hb1. }
  { by rewrite Hb1. }
  { apply Hins1. lia. }
  { lia. }
  rewrite E2. cbn [mbind exec_bind]. eexists. split; [done|].
  cbn [qs_batches qs_contend qs_levels qs_inserted qs_num_queued].
  rewrite insert_middle in Hv2 by done.
  replace (Z.to_nat (n + 1)) with (S (Z.to_nat n)) by lia.
  rewrite (take_S_r _ _ _ Hpn), count_batches_snoc.
  pose proof (count_batches_bounds (take (Z.to_nat n) (qs_batches s))) as Hcb.
  unfold lenZ in Hcb. rewrite length_take in Hcb.
  split_and!; [done|lia| | |].
  - rewrite (take_S_r _ _ _ Hvn).
    rewrite <- (take_drop_middle (qs_batches s) _ _ Hpn) at 1.
    rewrite zip_with_app by (rewrite !length_take; unfold lenZ in *; lia).
    assert (EA : zip_with deliver (take (Z.to_nat n) vs) (take (Z.to_nat n) (qs_batches s)) = A).
    { apply zip_with_take_r'. rewrite length_take. lia. }
    rewrite EA, <- app_assoc. done.
  - intros i Hi. destruct (p =? 0); [apply Hins1; lia|].
    pose proof (Hins1 i ltac:(lia)) as Hi1. apply getZ_Ret in Hi1 as [? Hi1].
    apply getZ_Ret. split; [done|]. by rewrite list_lookup_insert_ne by lia.
  - rewrite Hq1. destruct (p =? 0); [lia|]. rewrite u32_small by lia. lia.
Qed.

(** C5: On a level whose wait queues one thread owns, queueing a decomposition
    that has a batch for at least one table and no absent-key batch (the last
    slot is null), with nothing inserted yet and all its batches to be queued,
    terminates after a single sweep, and every table's queue has received
    exactly its batch, at the end, and nothing else. *)
Theorem queue_batches_delivers fuel level s vs :
  sweep_ready s vs → 0 ≤ LEVEL_FACTOR → table_views (qs_levels s) level vs →
  1 ≤ count_batches (qs_batches s) →
  ∃ s', queue_batches (S (S fuel)) level (count_batches (qs_batches s)) s = Ret s' ∧
    table_views (qs_levels s') level (zip_with deliver vs (qs_batches s)) ∧
    qs_num_queued s' = count_batches (qs_batches s).
Proof.
  intros Hr HL Hv Hcnt.
  destruct (sweep_prefix level s vs LEVEL_FACTOR HL ltac:(lia) Hr Hv)
    as (s' & E & Hb & _ & Hv' & _ & Hq).
  destruct Hr as (Hvs & Hbl & Hz & _ & _ & Hq0 & _).
  rewrite (take_ge vs), (drop_ge vs), app_nil_r in Hv' by (unfold lenZ in *; lia).
  assert (Hcount : count_batches (take (Z.to_nat LEVEL_FACTOR) (qs_batches s)) =
                   count_batches (qs_batches s)).
  { apply getZ_Ret in Hz as [_ Hz].
    rewrite <- (take_drop_middle _ _ _ Hz) at 2.
    rewrite (drop_ge (qs_batches s)), count_batches_snoc by (unfold lenZ in *; lia).
    change (0 =? 0) with true. cbn iota. lia. }
  cbn [queue_batches]. rewrite Hq0, (proj2 (Z.ltb_lt 0 _)) by lia.
  unfold queue_sweep. rewrite E. cbn [mbind exec_bind].
  rewrite Hq, Hcount, Z.ltb_irrefl. exists s'. split_and!; [done|done|lia].
Qed.

(** C34: A decomposition whose only batch is the one for keys no table holds,
    which is all a read batch can produce, is never queued: the sweep only
    looks at the slots of the tables, so the loop never ends. *)
Theorem queue_absent_only_spins fuel level s num_req :
  (∀ i, 0 ≤ i < LEVEL_FACTOR → getZ (qs_batches s) i = Ret 0) →
  qs_num_queued s < num_req →
  queue_batches (F := F) fuel level num_req s = Spin.
Proof.
  intros Hz Hq. assert (Hs : queue_sweep level s = Ret s).
  { unfold queue_sweep. assert (Hl : Forall (λ i, 0 ≤ i < LEVEL_FACTOR) (seqZ 0 LEVEL_FACTOR)).
    { apply Forall_forall. intros i Hi. apply elem_of_seqZ in Hi. lia. }
    assert (Hone : ∀ i, 0 ≤ i < LEVEL_FACTOR → queue_one level s i = Ret s).
    { intros i Hi. unfold queue_one. rewrite (Hz i Hi). reflexivity. }
    induction Hl as [|i l Hi _ IH]; cbn [foldM]; [done|].
    rewrite Hone by done. exact IH. }
  induction fuel as [|fuel IH]; [done|]. cbn [queue_batches].
  rewrite (proj2 (Z.ltb_lt _ _) Hq), Hs. exact IH.
Qed.
End delivery.

Section whole.
Context {cfg : Config} {F : Type} `{FilterLike F}.
Context (mem : bytes) (junk : ConnectionRequest) (memory : Z → Content).

Lemma init_could_contend_out flags :
  1 ≤ LEVEL_FACTOR → lenZ flags = LEVEL_FACTOR →
  init_could_contend flags = Undef OutOfBounds.
Proof.
  intros HL Hfl. unfold init_could_contend. rewrite seqZ_cons by lia. cbn [foldM].
  by rewrite setZ_out by lia.
Qed.

Lemma insert_into_wqs_no_ret fuel attempts flags cells s level batch above s' :
  1 ≤ LEVEL_FACTOR → lenZ flags = LEVEL_FACTOR →
  insert_into_wqs mem junk memory fuel attempts flags cells s level batch above ≠ Ret s'.
Proof.
  intros HL Hfl E. unfold insert_into_wqs in E. apply bind_Ret_inv in E as (rb & _ & E).
  apply bind_Ret_inv in E as ([d s1] & _ & E). by rewrite init_could_contend_out in E.
Qed.

(** C32: No call of [insert_into_wqs] has defined behaviour: once the batch is
    split, the loop that should clear the array of contention flags writes one
    element past its end. *)
Theorem insert_into_wqs_out_of_bounds fuel attempts flags cells s level batch above :
  1 ≤ LEVEL_FACTOR → lenZ flags = LEVEL_FACTOR →
  (∀ d s1, decompose_locked mem junk memory attempts s level batch = Ret (d, s1) →
     insert_into_wqs mem junk memory fuel attempts flags cells s level batch above =
       Undef OutOfBounds) ∧
  ∀ s', insert_into_wqs mem junk memory fuel attempts flags cells s level batch above ≠ Ret s'.
Proof.
  intros HL Hfl. split; [|by intros; apply insert_into_wqs_no_ret].
  intros d s1 E. pose proof E as E'. unfold decompose_locked in E'.
  apply bind_Ret_inv in E' as (lv & _ & E'). apply bind_Ret_inv in E' as (g & _ & E').
  apply bind_Ret_inv in E' as ([[[d' lv1] h] nx] & E' & _). unfold decompose in E'.
  apply bind_Ret_inv in E' as (rb & Hb & _). unfold insert_into_wqs.
  rewrite Hb. cbn [mbind exec_bind]. rewrite E. cbn [mbind exec_bind].
  by rewrite init_could_contend_out.
Qed.
End whole.

(** ** Buffer transfers *)

Definition ring_ok (q : BufferQueue) : Prop :=
  1 ≤ lenZ (queue q) < 2 ^ 31 ∧ 0 ≤ queue_front q < lenZ (queue q).

Lemma pop_front_ok q :
  ring_ok q → ∃ q' b, BufferQueue.pop_front q = Ret (q', b) ∧ ring_ok q' ∧
    num_new_buffers q' = u32 (num_new_buffers q - 1).
Proof.
  intros [Hn Hf]. unfold BufferQueue.pop_front.
  destruct (getZ_lt (queue q) (queue_front q) Hf) as (b & -> & _). cbn [mbind exec_bind].
  rewrite next_slot_ok by done. cbn [mbind exec_bind]. eexists _, _. split; [done|].
  split; [|done]. split; [done|]. cbn. apply mod_range. lia.
Qed.

Lemma absorb_rest_overruns fuel q t :
  ring_ok q → 0 ≤ insert_buffers_from t →
  (Z.to_nat (lenZ (page_cache_buffers t) - insert_buffers_from t) < fuel)%nat →
  Z.of_nat fuel ≤ num_new_buffers q < 2 ^ 32 → lenZ (page_cache_buffers t) < 2 ^ 32 - 1 →
  absorb_rest fuel q t = Undef OutOfBounds.
Proof.
  revert q t. induction fuel as [|fuel IH]; intros q t Hq Hfrom Hf Hnew Hmax; [lia|].
  cbn [absorb_rest]. decide_tests.
  destruct (pop_front_ok q Hq) as (q' & b & -> & Hq' & Hnew'). cbn [mbind exec_bind].
  destruct (decide (insert_buffers_from t < lenZ (page_cache_buffers t))).
  - rewrite setZ_ok by lia. cbn [mbind exec_bind]. rewrite u32_small by lia.
    rewrite u32_small in Hnew' by lia. apply IH; cbn; rewrite ?lenZ_insert; try done; lia.
  - by rewrite setZ_out by lia.
Qed.

Section take.
Context {cfg : Config} {F : Type}.

(** When the buffer queue above has no new buffers, collecting buffers
    still pops one; the unsigned count of new buffers wraps around and the
    rest of them is "absorbed" until the table's buffer array is overrun. *)
Theorem take_buffers_underflow attempts cells (levels : list (LevelInfo F)) level above q t g :
  get_buffer_queue levels (level - 1) above = Ret q →
  get_table levels (level - 1) above = Ret t →
  lock attempts (bq_guard q) = Ret g → ring_ok q → num_new_buffers q = 0 →
  1 ≤ LEVEL_FACTOR → 1 ≤ max_sstable_height → 1 ≤ lenZ cells →
  0 ≤ insert_buffers_from t → lenZ (page_cache_buffers t) < 2 ^ 32 - 3 →
  take_buffers attempts cells levels level above = Undef OutOfBounds.
Proof.
  intros Hgq Hgt Hl Hq Hnew HL Hh Hc Hfrom Hlen. unfold take_buffers.
  rewrite Hgq, Hgt. cbn [mbind exec_bind]. rewrite Hl. cbn [mbind exec_bind].
  assert (Hlim : new_buffer_limit_of (set_bq_guard (atomic_guard g) q) = 1).
  { unfold new_buffer_limit_of. cbn. rewrite Hnew. change (0 =? 0) with true. cbn iota.
    rewrite Z.div_0_l by lia. lia. }
  rewrite Hlim. change (Z.to_nat 1) with 1%nat. cbn [collect_new].
  destruct (pop_front_ok (set_bq_guard (atomic_guard g) q)) as (q' & b & -> & Hq' & Hnew').
  { done. }
  cbn [mbind exec_bind]. rewrite setZ_ok by lia. cbn [mbind exec_bind].
  cbn in Hnew'. rewrite Hnew in Hnew'. change (u32 (0 - 1)) with (2 ^ 32 - 1) in Hnew'.
  rewrite absorb_rest_overruns; [done|done|done|..]; unfold lenZ in *; lia.
Qed.

End take.

(** Buffers a table takes from its own ring, single-threaded. *)
Lemma add_buffers_loop_ok fuel q t l k :
  represents q (l ++ 0 :: k) → Forall (λ b, b ≠ 0) l →
  0 ≤ insert_buffers_from t < lenZ (page_cache_buffers t) → (length l < fuel)%nat →
  ∃ q' t', add_buffers_loop fuel q t = Ret (q', t') ∧ represents q' (0 :: k) ∧
    insert_buffers_from t' = insert_buffers_from t ∧
    page_cache_buffers t' =
      match last l with
      | Some b => <[Z.to_nat (insert_buffers_from t) := b]> (page_cache_buffers t)
      | None => page_cache_buffers t
      end ∧
    bq_guard q' = bq_guard q.
Proof.
  intros Hr Hl. revert fuel q t Hr.
  induction Hl as [|b l Hb Hl IH]; intros [|fuel] q t Hr Hfrom Hf; cbn [length] in Hf; try lia;
    cbn [add_buffers_loop].
  - pose proof (pop_front_represents q 0 k Hr) as (q1 & E & _).
    unfold BufferQueue.pop_front in E. apply bind_Ret_inv in E as (x & Hx & E).
    apply bind_Ret_inv in E as (y & _ & E). injection E as _ ->.
    unfold BufferQueue.front. rewrite Hx. cbn [mbind exec_bind].
    change (0 =? 0) with true. cbn iota. by exists q, t.
  - pose proof (pop_front_represents q b (l ++ 0 :: k) Hr) as (q1 & E & Hr1 & _).
    pose proof E as E'. unfold BufferQueue.pop_front in E'.
    apply bind_Ret_inv in E' as (x & Hx & E').
    apply bind_Ret_inv in E' as (y & _ & E'). injection E' as Eq1 ->.
    unfold BufferQueue.front. rewrite Hx. cbn [mbind exec_bind].
    rewrite (proj2 (Z.eqb_neq b 0)) by done. rewrite E. cbn [mbind exec_bind].
    rewrite setZ_ok by lia. cbn [mbind exec_bind].
    destruct (IH fuel q1 (set_buffers (insert_buffers_from t)
      (<[Z.to_nat (insert_buffers_from t) := b]> (page_cache_buffers t))
      (add_buffer (cache_helper t)) t) Hr1) as (q' & t' & -> & Hr' & Hi' & Hp' & Hg').
    { cbn. rewrite lenZ_insert. lia. }
    { lia. }
    exists q', t'. split; [done|]. cbn in Hp', Hi'. split_and!; [done|done| |].
    + rewrite Hp'. rewrite last_cons. destruct (last l); [|done].
      by rewrite list_insert_insert_eq.
    + rewrite Hg', <- Eq1. done.
Qed.

(** A table that owns its buffer ring alone empties it up to the first null
    cell but stores every buffer into the same slot, so that only the last one
    is kept; a table that shares the ring never gets any, since the single
    attempt to take the guard cannot succeed. *)
Theorem try_add_buffers_spec fuel spurious t q l k :
  (is_single_thread (bq_guard q) = true → represents q (l ++ 0 :: k) →
     Forall (λ b, b ≠ 0) l → 0 ≤ insert_buffers_from t < lenZ (page_cache_buffers t) →
     (length l < fuel)%nat →
     ∃ q' t', try_add_buffers_nonblockingly fuel spurious t q = Ret (q', t') ∧
       represents q' (0 :: k) ∧ insert_buffers_from t' = insert_buffers_from t ∧
       page_cache_buffers t' =
         match last l with
         | Some b => <[Z.to_nat (insert_buffers_from t) := b]> (page_cache_buffers t)
         | None => page_cache_buffers t
         end) ∧
  (is_single_thread (bq_guard q) = false → atomic_guard (bq_guard q) = 1 →
     try_add_buffers_nonblockingly fuel spurious t q = Ret (q, t)).
Proof.
  unfold try_add_buffers_nonblockingly. split.
  - intros Hs Hr Hl Hfrom Hf. rewrite Hs.
    destruct (add_buffers_loop_ok fuel (set_bq_guard (atomic_guard (bq_guard q)) q) t l k)
      as (q' & t' & -> & Hr' & Hi' & Hp' & _); [done..|].
    cbn [mbind exec_bind]. eexists _, t'. split; [done|]. by split_and!.
  - intros Hs Hg. rewrite Hs, Hg. unfold try_acquire, compare_exchange_weak.
    destruct q as [? ? ? ? ? [a b]]. cbn in *. subst. by destruct spurious.
Qed.

(** ** Examples *)

(** Three tables, each with an empty wait queue of its own thread. *)
Definition owned_table : SSTableInfo := set_wq_single_thread true blank_table.

Definition owned_level : LevelInfo unit :=
  MkLevelInfo (MkGuard 1 true) [] (SparseIndex.MkSparseIndex [])
    (replicate 3 (new_BufferQueue 0 [0] true)) (replicate 3 owned_table).

Definition demo_queue_state (batches : list Z) : QueueState (F := unit) :=
  MkQueueState [owned_level] batches (replicate 3 false) (replicate 3 true) 0.

Lemma owned_views batches :
  table_views (qs_levels (demo_queue_state batches)) 0 [[]; []; []].
Proof.
  split; [lia|]. exists owned_level. split; [done|].
  assert (Hv : single_view (req_batch_wq owned_table) []) by exact (new_single_view 0).
  cbn. do 3 (constructor; [exact Hv|]). constructor.
Qed.

Lemma queue_batches_delivers_witness :
  ∃ s', queue_batches (cfg := wide_config) 2 0 2 (demo_queue_state [7; 0; 8; 0]) = Ret s' ∧
    table_views (qs_levels s') 0 [[7]; []; [8]].
Proof.
  destruct (@queue_batches_delivers wide_config unit 0 0 (demo_queue_state [7; 0; 8; 0])
              [[]; []; []]) as (s' & ? & ? & _).
  - by split_and!.
  - by vm_compute.
  - apply owned_views.
  - by vm_compute.
  - by exists s'.
Defined.

Lemma queue_absent_only_spins_witness :
  queue_batches (cfg := wide_config) 1000 0 1 (demo_queue_state [0; 0; 0; 9]) = Spin.
Proof.
  apply (@queue_absent_only_spins wide_config unit); [|by vm_compute].
  intros i Hi. change (@LEVEL_FACTOR wide_config) with 3 in Hi.
  assert (i = 0 ∨ i = 1 ∨ i = 2) as [-> | [-> | ->]] by lia; done.
Defined.

(** A level of empty tables and, at address 4, a read batch whose only request
    is already done. *)
Definition demo_tree : TreeState (F := Filter) :=
  MkTreeState (replicate 10 (demo_level (replicate 3 fresh_filter)))
    {[4 := MkRequestBatch (MkBaseRequest READ)
             (readwrite_pool (MkReadWritePool [dead_request] 1 0 true))]} 5.

Lemma insert_into_wqs_out_of_bounds_witness :
  insert_into_wqs (cfg := wide_config) [] dead_request no_memory 5 [false; false]
    [false; false; false] [] demo_tree 0 4 0 = Undef OutOfBounds.
Proof.
  destruct (decompose_locked (cfg := wide_config) [] dead_request no_memory [false; false]
    demo_tree 0 4) as [[d s1]| |] eqn:E; [|vm_compute in E; discriminate E..].
  refine (proj1 (@insert_into_wqs_out_of_bounds wide_config Filter _ [] dead_request no_memory
    5 [false; false] [false; false; false] [] demo_tree 0 4 0 _ eq_refl) d s1 E).
  by vm_compute.
Defined.

(** A ring of two cells, a table with room for three buffers. *)
Definition three_slots : SSTableInfo :=
  set_buffers 0 [0; 0; 0] (cache_helper blank_table) blank_table.

Definition ring_level : LevelInfo unit :=
  MkLevelInfo (MkGuard 1 true) [] (SparseIndex.MkSparseIndex [])
    [new_BufferQueue 0 [5; 6] true] [three_slots].

Lemma take_buffers_underflow_witness :
  take_buffers (cfg := wide_config) [] [0] [ring_level] 1 0 = Undef OutOfBounds.
Proof.
  apply (@take_buffers_underflow wide_config unit [] [0] [ring_level] 1 0
           (new_BufferQueue 0 [5; 6] true) three_slots (MkGuard 1 true));
    by vm_compute.
Defined.

Lemma try_add_buffers_spec_witness :
  ∃ q' t', try_add_buffers_nonblockingly 3 false three_slots
             (MkBufferQueue 0 2 0 2 [5; 6; 0] (MkGuard 1 true)) = Ret (q', t') ∧
    page_cache_buffers t' = [6; 0; 0].
Proof.
  destruct (proj1 (try_add_buffers_spec 3 false three_slots
    (MkBufferQueue 0 2 0 2 [5; 6; 0] (MkGuard 1 true)) [5; 6] []) eq_refl)
    as (q' & t' & ? & _ & _ & Hp).
  - unfold represents. cbn. split_and!; try lia; try done.
    intros [|[|[|i]]] x Hx; simplify_eq/=; done.
  - repeat constructor; lia.
  - by vm_compute.
  - cbn. lia.
  - by exists q', t'.
Defined.
