(* ===== verification/Server.v ===== *)
(** * The main thread: level zero

    The body of the request loop of [LSMTree::start_ringdb] ([lsm_tree.hpp],
    lines 930 to 983): a batch of client requests is answered from, or written
    to, the memtables, what they cannot answer is collected in a read batch for
    level one, and the batch is sent back to the network thread.  The socket buffers are one region of bytes; batches
    are addressed on the batch heap of the tree. *)

From S2P Require Import Prelude Config Requests SparseIndex MemTable Stack Guards Filter.
From S2P Require Import RequestBatch LevelInfo Distribute.

Section server.
Context {cfg : Config} {F : Type} `{FilterLike F}.
Context (junk : ConnectionRequest) (memory : Z → Content).

(** The choices of the environment in a call of [insert_into_wqs] and
    [insert_memtable]: loop bound, outcomes of the atomic operations and the
    contents of uninitialised locals and heap blocks. *)
Record Environment : Type := MkEnvironment {
  env_fuel : nat;
  env_attempts : list bool;
  env_flags : list bool;
  env_cells : list Z;
  env_indices : list Z;
  env_fresh : bytes
}.

Record Server : Type := MkServer {
  sv_mem : bytes;
  sv_memtables : list MemTable;
  sv_index : SparseIndex;
  sv_tree : TreeState (F := F);
  sv_read_batch : Z;
  sv_compaction_batch : Z;
  sv_is_practically_full : bool;
  sv_replies : list Z (** the batches sent back to the network ring *)
}.

Definition set_mem (s : Server) (m : bytes) : Server :=
  MkServer m (sv_memtables s) (sv_index s) (sv_tree s) (sv_read_batch s)
    (sv_compaction_batch s) (sv_is_practically_full s) (sv_replies s).

Definition set_index (s : Server) (si : SparseIndex) : Server :=
  MkServer (sv_mem s) (sv_memtables s) si (sv_tree s) (sv_read_batch s)
    (sv_compaction_batch s) (sv_is_practically_full s) (sv_replies s).

Definition set_tree (s : Server) (t : TreeState) : Server :=
  MkServer (sv_mem s) (sv_memtables s) (sv_index s) t (sv_read_batch s)
    (sv_compaction_batch s) (sv_is_practically_full s) (sv_replies s).

Definition set_table (s : Server) (mts : list MemTable) (si : SparseIndex) : Server :=
  MkServer (sv_mem s) mts si (sv_tree s) (sv_read_batch s)
    (sv_compaction_batch s) (sv_is_practically_full s) (sv_replies s).

(** [io_uring_prep_msg_ring(sqe, network_ring_fd, 0, req_batch, 0)] *)
Definition send_reply (s : Server) (batch : Z) : Server :=
  MkServer (sv_mem s) (sv_memtables s) (sv_index s) (sv_tree s) (sv_read_batch s)
    (sv_compaction_batch s) (sv_is_practically_full s) (sv_replies s ++ [batch]).

Definition set_batch (t : TreeState) (p : Z) (b : RequestBatch) : TreeState :=
  MkTreeState (F := F) (level_infos t) (<[p := b]> (batches_heap t)) (next_batch t).

Definition get_pool (t : TreeState) (p : Z) : exec (RequestBatch * ReadWritePool) :=
  rb ← deref_batch (batches_heap (F := F) t) p;
  pool ← pool_of rb;
  Ret (rb, pool).

(** A read that level zero cannot answer. *)
Definition forward_read (env : Environment) (s : Server) (batch i : Z)
    (c : ConnectionRequest) : exec Server :=
  rb ← deref_batch (batches_heap (sv_tree s)) (sv_read_batch s);
  rb' ← batch_insert_read_write (sv_mem s) junk rb (sv_read_batch s) (buffer c)
          (client_sock_fd c) READ;
  let t1 := set_batch (sv_tree s) (sv_read_batch s) rb' in
  '(_, pool) ← get_pool t1 (sv_read_batch s);
  t2 ← (if rw_length pool =? BATCH_NUM_REQUESTS
        then insert_into_wqs (sv_mem s) junk memory (env_fuel env) (env_attempts env)
               (env_flags env) (env_cells env) t1 0 (sv_read_batch s) 0
        else Ret t1);
  '(rb2, pool2) ← get_pool t2 batch;
  pool3 ← remove_via_index pool2 i;
  Ret (set_tree s (set_batch t2 batch (MkRequestBatch (rb_base rb2) (readwrite_pool pool3)))).

(** A write to memtable [table], [key] and [value] being the request's. *)
Definition write_to (s : Server) (table : Z) (key value : bytes) : exec Server :=
  mt ← getZ (sv_memtables s) table;
  '(mt', si) ← write mt key value table (sv_index s);
  mts ← setZ (sv_memtables s) table mt';
  Ret (set_table s mts si).

(** The memtable is full: compact it to level one and start it over. *)
Definition compact (env : Environment) (s : Server) (table : Z) : exec Server :=
  si ← remove_table (sv_index s) table;
  mt ← getZ (sv_memtables s) table;
  rb ← deref_batch (batches_heap (sv_tree s)) (sv_compaction_batch s);
  seg ← segment_of rb;
  seg' ← insert_memtable (env_fuel env) (env_fresh env) (env_indices env) seg (mt_data mt);
  let t1 := set_batch (sv_tree s) (sv_compaction_batch s)
              (MkRequestBatch (rb_base rb) (req_seg seg')) in
  mt' ← empty_out mt;
  mts ← setZ (sv_memtables s) table mt';
  t2 ← insert_into_wqs (sv_mem s) junk memory (env_fuel env) (env_attempts env)
         (env_flags env) (env_cells env) t1 0 (sv_compaction_batch s) 0;
  Ret (set_tree (set_table s mts si) t2).

(** Request [i] of the batch at [batch].  When the tree is full the source
    copies ['\0'], that is no, bytes into the reply. *)
Definition process_request (env : Environment) (batch : Z) (s : Server) (i : Z)
    : exec Server :=
  '(_, pool) ← get_pool (sv_tree s) batch;
  c ← getZ (rw_data pool) i;
  key ← mem_from (sv_mem s) (buffer c + 5);
  '(si, table) ← get_table_num (sv_index s) key;
  let s1 := set_index s si in
  k ← load key 0 KEY_LENGTH;
  if memcmp k null_key =? 0 then
    m ← store (sv_mem s) (buffer c) (zeros SOCKET_BUFFER_LENGTH);
    Ret (set_mem s1 m)
  else if bool_decide (req_type (conn_base c) = READ) then
    found ← (if table =? u32_max then Ret None
             else mt ← getZ (sv_memtables s1) table; read mt key);
    match found with
    | Some v =>
        m ← store (sv_mem s) (buffer c + 5 + KEY_LENGTH) v;
        Ret (set_mem s1 m)
    | None => forward_read env s1 batch i c
    end
  else
    mt ← getZ (sv_memtables s1) table;
    value ← mem_from (sv_mem s) (buffer c + 5 + KEY_LENGTH);
    if mt_size mt <? MEMTABLE_SIZE then write_to s1 table key value
    else s2 ← compact env s1 table; write_to s2 table key value.

(** [for (i = 0; i < rw_pool.length; ++i)], then the message to the network
    thread.  The body changes the length of no batch but [read_batch], which
    the network thread does not know, so the bound is read once. *)
Definition process_batch (env : Environment) (batch : Z) (s : Server) : exec Server :=
  '(_, pool) ← get_pool (sv_tree s) batch;
  s' ← foldM (process_request env batch) (seqZ 0 (rw_length pool)) s;
  Ret (send_reply s' batch).

(** The batches the network thread sends, one after the other. *)
Definition process_batches (envs : list (Environment * Z)) (s : Server) : exec Server :=
  foldM (λ s e, process_batch e.1 e.2 s) envs s.

End server.

(** ** Level zero as the program runs it *)

Section server_proofs.
Context {cfg : Config} {ic : IndexConfig cfg} {F : Type} `{FilterLike F}.
Context (junk : ConnectionRequest) (memory : Z → Content).
Context (HV : 0 ≤ VALUE_LENGTH).
Implicit Types (s : Server (F := F)).

Abbreviation process_request := (process_request (F := F) junk memory).
Abbreviation process_batch := (process_batch (F := F) junk memory).
Abbreviation process_batches := (process_batches (F := F) junk memory).
Abbreviation forward_read := (forward_read (F := F) junk memory).

(** What holds from start-up on: the sparse index has no upper bounds. *)
Definition server_inv (s : Server (F := F)) : Prop :=
  no_upper_bounds (index (sv_index s)) ∧ valid_bytes (sv_mem s) ∧
  lenZ (sv_memtables s) < u32_max.

(** The bytes of request [c]'s key. *)
Definition request_key (s : Server (F := F)) (c : ConnectionRequest) : bytes :=
  slice (sv_mem s) (buffer c + 5) KEY_LENGTH.

Lemma mem_from_Ret m off k : mem_from m off = Ret k → k = drop (Z.to_nat off) m ∧ 0 ≤ off.
Proof. unfold mem_from. case_bool_decide; [|done]. intros [= <-]. split; [done|lia]. Qed.

(** The first steps of every request: its key is read and looked up in vain. *)
Lemma process_request_prefix batch s i rb pool c :
  server_inv s → get_pool (sv_tree s) batch = Ret (rb, pool) →
  getZ (rw_data pool) i = Ret c →
  0 ≤ buffer c + 5 → buffer c + 5 + KEY_LENGTH ≤ lenZ (sv_mem s) →
  ∃ si key, no_upper_bounds (index si) ∧ mem_from (sv_mem s) (buffer c + 5) = Ret key ∧
    get_table_num (sv_index s) key = Ret (si, u32_max) ∧
    load key 0 KEY_LENGTH = Ret (request_key s c).
Proof.
  intros (Hn & Hv & Hmt) Hpool Hc Hlo Hhi. pose proof ic_key as HK.
  set (key := drop (Z.to_nat (buffer c + 5)) (sv_mem s)).
  assert (Hlen : KEY_LENGTH ≤ lenZ key) by (unfold key, lenZ in *; rewrite length_drop; lia).
  destruct (get_table_num_misses (sv_index s) key Hn Hlen) as (si & Hsi & Hn').
  { by apply Forall_drop. }
  exists si, key. split_and!; [done| |done|].
  - unfold mem_from. by decide_tests.
  - rewrite load_ok by lia. done.
Qed.

(** The ways of one request. *)
Lemma process_request_cases env batch s i rb pool c :
  server_inv s → get_pool (sv_tree s) batch = Ret (rb, pool) →
  getZ (rw_data pool) i = Ret c →
  0 ≤ buffer c → buffer c + SOCKET_BUFFER_LENGTH ≤ lenZ (sv_mem s) →
  ∃ si, no_upper_bounds (index si) ∧
    process_request env batch s i =
      if decide (request_key s c = null_key) then
        Ret (set_mem (set_index s si)
               (splice (sv_mem s) (buffer c) (zeros SOCKET_BUFFER_LENGTH)))
      else if decide (req_type (conn_base c) = READ) then
        forward_read env (set_index s si) batch i c
      else Undef OutOfBounds.
Proof.
  intros Hinv Hpool Hc Hlo Hhi. pose proof ic_key as HK. unfold SOCKET_BUFFER_LENGTH in Hhi.
  destruct (process_request_prefix batch s i rb pool c) as (si & key & Hn & Hkey & Hsi & Hk);
    [done|done|done|lia|lia|].
  exists si. split; [done|]. unfold Server.process_request. rewrite Hpool.
  cbn [mbind exec_bind]. rewrite Hc. cbn [mbind exec_bind]. rewrite Hkey.
  cbn [mbind exec_bind]. rewrite Hsi. cbn [mbind exec_bind]. rewrite Hk. cbn [mbind exec_bind].
  assert (Hlk : lenZ (request_key s c) = KEY_LENGTH) by (apply lenZ_slice; lia).
  case_decide as Hnull.
  { rewrite Hnull, memcmp_refl. change (0 =? 0) with true. cbn iota.
    rewrite store_ok by (rewrite ?lenZ_zeros; unfold SOCKET_BUFFER_LENGTH; lia). done. }
  destruct (Z.eqb_spec (memcmp (request_key s c) null_key) 0) as [E|_].
  { exfalso. apply Hnull, memcmp_0; [|done]. apply lenZ_length_eq. by rewrite lenZ_null_key. }
  destruct (decide (req_type (conn_base c) = READ)) as [Hr|Hr].
  - rewrite bool_decide_eq_true_2 by done. rewrite Z.eqb_refl. done.
  - rewrite bool_decide_eq_false_2 by done.
    destruct Hinv as (_ & _ & Hmt). by rewrite getZ_out by (cbn; lia).
Qed.

(** C15: On a server whose sparse index has no upper bounds, as it is after
    start-up and ever after, every request with a readable key takes one of
    three ways: the reply to a null key is zeroed, a read is forwarded to
    level one without looking at any memtable, and a write indexes the
    memtables at [UINT_MAX], which is undefined. *)
Theorem level_zero_outcomes env batch s i rb pool c :
  server_inv s → get_pool (sv_tree s) batch = Ret (rb, pool) →
  getZ (rw_data pool) i = Ret c →
  0 ≤ buffer c → buffer c + SOCKET_BUFFER_LENGTH ≤ lenZ (sv_mem s) →
  ∃ si, no_upper_bounds (index si) ∧
    process_request env batch s i =
      if decide (request_key s c = null_key) then
        Ret (set_mem (set_index s si)
               (splice (sv_mem s) (buffer c) (zeros SOCKET_BUFFER_LENGTH)))
      else if decide (req_type (conn_base c) = READ) then
        forward_read env (set_index s si) batch i c
      else Undef OutOfBounds.
Proof. exact (process_request_cases env batch s i rb pool c). Qed.

Lemma forward_read_Ret env s batch i c s' :
  forward_read env s batch i c = Ret s' →
  sv_memtables s' = sv_memtables s ∧ sv_index s' = sv_index s ∧ sv_mem s' = sv_mem s ∧
  sv_replies s' = sv_replies s.
Proof.
  unfold Server.forward_read. intros E.
  apply bind_Ret_inv in E as (rb & _ & E). apply bind_Ret_inv in E as (rb' & _ & E).
  apply bind_Ret_inv in E as ([? pool] & _ & E). apply bind_Ret_inv in E as (t2 & _ & E).
  apply bind_Ret_inv in E as ([rb2 pool2] & _ & E). apply bind_Ret_inv in E as (pool3 & _ & E).
  by injection E as <-.
Qed.

(** Whatever key is looked up, no table is found. *)
Lemma lookup_in_vain s off key si t k :
  server_inv s → mem_from (sv_mem s) off = Ret key →
  get_table_num (sv_index s) key = Ret (si, t) → load key 0 KEY_LENGTH = Ret k →
  t = u32_max ∧ no_upper_bounds (index si).
Proof.
  intros (Hn & Hv & _) Hkey Hsi Hk.
  apply mem_from_Ret in Hkey as [-> _]. apply load_Ret in Hk as (_ & _ & Hlen & _ & _).
  rewrite Z.add_0_l in Hlen.
  destruct (get_table_num_misses (sv_index s) _ Hn Hlen) as (si' & Hsi' & Hn').
  { by apply Forall_drop. }
  rewrite Hsi' in Hsi. by injection Hsi as <- <-.
Qed.

Lemma process_request_inv env batch s i s' :
  server_inv s → process_request env batch s i = Ret s' →
  server_inv s' ∧ sv_memtables s' = sv_memtables s ∧ sv_replies s' = sv_replies s.
Proof.
  intros Hinv E. unfold Server.process_request in E.
  apply bind_Ret_inv in E as ([rb pool] & Hpool & E). apply bind_Ret_inv in E as (c & Hc & E).
  apply bind_Ret_inv in E as (key & Hkey & E). apply bind_Ret_inv in E as ([si t] & Hsi & E).
  apply bind_Ret_inv in E as (k & Hk & E). pose proof Hinv as (Hn & Hv & Hmt).
  destruct (lookup_in_vain _ _ _ _ _ _ Hinv Hkey Hsi Hk) as [-> Hn'].
  destruct (memcmp k null_key =? 0).
  - apply bind_Ret_inv in E as (m & Hm & E). injection E as <-.
    apply store_Ret in Hm as (_ & _ & -> & _).
    split; [|done]. split_and!; cbn; [done| |done].
    apply valid_bytes_splice; [done|apply valid_bytes_zeros].
  - destruct (bool_decide _).
    + rewrite Z.eqb_refl in E. cbn [mbind exec_bind] in E.
      apply forward_read_Ret in E as (Em & Ei & Emem & Er). cbn in Em, Ei, Emem, Er.
      unfold server_inv. rewrite Em, Ei, Emem. done.
    + rewrite getZ_out in E by (cbn; lia). done.
Qed.

Lemma process_requests_inv env batch l s s' :
  server_inv s → foldM (process_request env batch) l s = Ret s' →
  server_inv s' ∧ sv_memtables s' = sv_memtables s ∧ sv_replies s' = sv_replies s.
Proof.
  intros Hs E. apply (foldM_inv (λ s1, server_inv s1 ∧ sv_memtables s1 = sv_memtables s ∧
    sv_replies s1 = sv_replies s)) in E; [done| |done].
  intros s1 i s2 (H1 & Hm1 & Hr1) E1. apply process_request_inv in E1 as (H2 & Hm2 & Hr2); [|done].
  split; [done|split; congruence].
Qed.

Lemma process_batch_inv env batch s s' :
  server_inv s → process_batch env batch s = Ret s' →
  server_inv s' ∧ sv_memtables s' = sv_memtables s ∧ sv_replies s' = sv_replies s ++ [batch].
Proof.
  intros Hs E. unfold Server.process_batch in E. apply bind_Ret_inv in E as ([rb pool] & _ & E).
  apply bind_Ret_inv in E as (s1 & E1 & [= <-]).
  apply process_requests_inv in E1 as (Hs1 & Hm1 & Hr1); [|done].
  split; [done|]. split; [done|]. cbn. by rewrite Hr1.
Qed.

(** The main thread answers every client batch, in the order they came,
    and no history of batches ever stores anything in a memtable: as long as
    the main thread's behaviour is defined, the memtables are what they were at
    start-up, and the index still has no upper bounds. *)
Theorem memtables_never_written envs s s' :
  server_inv s → process_batches envs s = Ret s' →
  sv_memtables s' = sv_memtables s ∧ server_inv s' ∧
  sv_replies s' = sv_replies s ++ envs.*2.
Proof.
  unfold Server.process_batches. revert s.
  induction envs as [|[env batch] envs IH]; intros s Hs E; cbn [foldM] in E.
  { injection E as <-. by rewrite app_nil_r. }
  apply bind_Ret_inv in E as (s1 & E1 & E).
  apply process_batch_inv in E1 as (Hs1 & Hm1 & Hr1); [|done].
  destruct (IH s1 Hs1 E) as (Hm' & Hs' & Hr'). split; [congruence|]. split; [done|].
  rewrite Hr', Hr1, <- app_assoc. done.
Qed.

(** The server at start-up satisfies the invariant. *)
Lemma new_server_inv mem mts tree rb cb full :
  valid_bytes mem → lenZ mts < u32_max →
  server_inv (MkServer mem mts new_SparseIndex tree rb cb full []).
Proof. intros Hv Hm. split_and!; [apply no_upper_bounds_new|done|done]. Qed.

End server_proofs.

(** ** Examples *)

Definition demo_request (ty : RequestType) : ConnectionRequest :=
  MkConnectionRequest (MkBaseRequest ty) 1 5 0.

Definition demo_batch (cs : list ConnectionRequest) : RequestBatch :=
  MkRequestBatch (MkBaseRequest READ) (readwrite_pool (MkReadWritePool cs (lenZ cs) 0 false)).

(** One request with key 7 and value 1, 1 in the batch at 1; an empty read
    batch at 2. *)
Definition demo_server (ty : RequestType) : Server (F := Filter) :=
  MkServer [0; 0; 0; 0; 0; 7; 1; 1] [] (@new_SparseIndex cmake_config)
    (MkTreeState [] {[1 := demo_batch [demo_request ty]; 2 := demo_batch []]} 3) 2 3 false [].

Definition demo_env : Environment := MkEnvironment 3 [false; false] [] [] [] [].

Lemma demo_server_inv ty : @server_inv cmake_config Filter (demo_server ty).
Proof.
  apply new_server_inv; [|done]. repeat (constructor; [lia|]). constructor.
Qed.

Lemma level_zero_outcomes_witness :
  process_request (cfg := cmake_config) (F := Filter) (demo_request READ) no_memory
    demo_env 1 (demo_server WRITE) 0 = Undef OutOfBounds.
Proof.
  destruct (@level_zero_outcomes cmake_config _ Filter _ (demo_request READ) no_memory
    ltac:(by vm_compute) demo_env 1 (demo_server WRITE) 0
    (demo_batch [demo_request WRITE]) (MkReadWritePool [demo_request WRITE] 1 0 false)
    (demo_request WRITE) (demo_server_inv WRITE)) as (si & _ & E); [by vm_compute..|].
  rewrite E, !decide_False; [done|done|]. by vm_compute.
Defined.

Lemma memtables_never_written_witness :
  ∃ s', process_batches (cfg := cmake_config) (F := Filter) (demo_request READ) no_memory
          [(demo_env, 1)] (demo_server READ) = Ret s' ∧
    sv_memtables s' = [] ∧ sv_replies s' = [1].
Proof.
  destruct (process_batches (cfg := cmake_config) (F := Filter) (demo_request READ) no_memory
          [(demo_env, 1)] (demo_server READ)) as [s'| |] eqn:E;
    [|vm_compute in E; discriminate E..].
  exists s'. split; [done|].
  destruct (@memtables_never_written cmake_config _ Filter _ (demo_request READ) no_memory
    [(demo_env, 1)] (demo_server READ) s' (demo_server_inv READ) E) as (Hm & _ & Hr).
  split; [exact Hm|exact Hr].
Defined.
