(* ===== verification/Descent.v ===== *)
(** * Reading a batch from an SSTable

    [LSMTree::move_down_to_children] and
    [LSMTree::try_sstable_tree_read_in_memory].  The page cache is a map from
    buffer addresses to their bytes.  A request is prepared in the submission
    queue of the table's ring and stays there until [io_uring_submit] of that
    ring hands all of them to the kernel. *)

From S2P Require Import Prelude Config Requests SparseIndex Stack BufferQueue CacheHelper.
From S2P Require Import WaitQueue Guards Filter RequestBatch LevelInfo Distribute.

(** A request: the file of a table is opened, read into a buffer or written
    from the segment of a batch, or a message is sent to a ring. *)
Inductive Sqe : Set :=
  | sqe_open (level index : Z)
  | sqe_read (fd buf len offset : Z)
  | sqe_write (fd batch len offset : Z)
  | sqe_msg (ring user_data : Z).

#[global] Instance Sqe_eq_dec : EqDecision Sqe.
Proof. solve_decision. Defined.

(** [io_uring_queue_init_params(3, sstable_info->io_ring, ...)]: the size of the
    submission queue is rounded up to a power of two. *)
Definition sstable_ring_entries : Z := 4.

(** [io_uring_get_sqe] answers null once the queue of prepared requests is full,
    and the request is then written through the null pointer. *)
Definition prep (prepared sqes : list Sqe) : exec (list Sqe) :=
  if lenZ prepared + lenZ sqes <=? sstable_ring_entries then Ret (prepared ++ sqes)
  else Undef NullDeref.

Lemma prep_ok prepared sqes :
  lenZ prepared + lenZ sqes ≤ sstable_ring_entries → prep prepared sqes = Ret (prepared ++ sqes).
Proof. intros Hroom. unfold prep. by decide_tests. Qed.

Definition set_stack (st : Stack) (t : SSTableInfo) : SSTableInfo :=
  MkSSTableInfo (req_batch_wq t) (is_flushed_to t) (insert_buffers_from t)
    (page_cache_buffers t) (min_key t) (max_key t) (cache_helper t) st (cur_req_batch t)
    (waiting_on_io t) (already_waited t) (desired_sstable_offset t).

Definition set_offset (o : Z) (t : SSTableInfo) : SSTableInfo :=
  MkSSTableInfo (req_batch_wq t) (is_flushed_to t) (insert_buffers_from t)
    (page_cache_buffers t) (min_key t) (max_key t) (cache_helper t) (stack t)
    (cur_req_batch t) (waiting_on_io t) (already_waited t) o.

Definition set_waiting (w : bool) (t : SSTableInfo) : SSTableInfo :=
  MkSSTableInfo (req_batch_wq t) (is_flushed_to t) (insert_buffers_from t)
    (page_cache_buffers t) (min_key t) (max_key t) (cache_helper t) (stack t)
    (cur_req_batch t) w (already_waited t) (desired_sstable_offset t).

Definition set_cache (c : SSTableCacheHelper) (t : SSTableInfo) : SSTableInfo :=
  set_buffers (insert_buffers_from t) (page_cache_buffers t) c t.

Section descent.
Context {cfg : Config}.

(** [memcmp(data[child].buffer + 5, null_key, KEY_LENGTH)] as a condition *)
Definition has_key (mem : bytes) (pool : ReadWritePool) (child : Z) : exec bool :=
  c ← getZ (rw_data pool) child;
  k ← load mem (buffer c + 5) KEY_LENGTH;
  Ret (negb (memcmp k null_key =? 0)).

Definition move_down_to_children (mem : bytes) (pool : ReadWritePool) (t : SSTableInfo)
    : exec SSTableInfo :=
  r ← top (stack t);
  cur_request ← getZ r 0;
  lo ← getZ r 1;
  hi ← getZ r 2;
  let st := pop_top (stack t) in
  let left_child := Z.shiftr (u32 (lo + cur_request)) 1 in
  let right_child := Z.shiftr (u32 (cur_request + hi)) 1 in
  let off := u32 (desired_sstable_offset t) in
  push_right ← (if cur_request <? right_child then has_key mem pool right_child
                else Ret false);
  st1 ← (if push_right : bool then push_top st off right_child cur_request hi else Ret st);
  push_left ← (if left_child <? cur_request then has_key mem pool left_child
               else Ret false);
  st2 ← (if push_left : bool then push_top st1 off left_child lo cur_request else Ret st1);
  Ret (set_stack st2 t).

(** ** Searching a cached buffer *)

(** [buffer_in_cache[index].key], entries of [KEY_LENGTH + VALUE_LENGTH] bytes *)
Definition page_key (page : bytes) (index : Z) : exec bytes :=
  load page (index * MEMTABLE_ENTRY_LENGTH) KEY_LENGTH.

Definition page_value (page : bytes) (index : Z) : exec bytes :=
  load page (index * MEMTABLE_ENTRY_LENGTH + KEY_LENGTH) VALUE_LENGTH.

(** The walk down the tree in the buffer; [res] and [not_null] have no initial
    value.  The index at least doubles in every round, so 33 rounds leave the
    range of an [unsigned int]. *)
Fixpoint search_page (fuel : nat) (page key : bytes) (num_entries index : Z)
    (res not_null : option Z) : exec (Z * option Z * option Z) :=
  match fuel with
  | O => Spin
  | S fuel' =>
      if index <? num_entries then
        k ← page_key page index;
        let nn := memcmp k null_key in
        if nn =? 0 then Ret (index, res, Some nn)
        else
          let r := memcmp k key in
          if r =? 0 then Ret (index, Some r, Some nn)
          else search_page fuel' page key num_entries
                 (u32 (u32 (Z.shiftl index 1) + 2 - b2z (0 <? r))) (Some r) (Some nn)
      else Ret (index, res, not_null)
  end.

(** ** One round of the read loop *)

Record ReadState : Type := MkReadState {
  rd_mem : bytes;
  rd_pool : ReadWritePool;
  rd_table : SSTableInfo;
  rd_sqes : list Sqe;     (** submitted by now *)
  rd_prepared : list Sqe  (** prepared in the table's ring *)
}.

Definition set_table_state (s : ReadState) (t : SSTableInfo) : ReadState :=
  MkReadState (rd_mem s) (rd_pool s) t (rd_sqes s) (rd_prepared s).

(** The desired offset is not cached: schedule a read, and a prefetch when
    exactly two buffers are free. *)
Definition schedule_read (sstable_num scheduler_ring : Z) (s : ReadState) : exec ReadState :=
  let t := rd_table s in
  h ← (if free_buffers_left (cache_helper t) =? 0
       then replenish_least_recently_selected_buffer (cache_helper t)
       else Ret (cache_helper t));
  left_boundary ← round_to_block_size_multiple (desired_sstable_offset t);
  let first := u32 (most_recent h + 1) in
  buf ← getZ (page_cache_buffers t) first;
  let len := fair_aligned_sstable_page_cache_buffer_size in
  let read1 := sqe_read sstable_num buf len left_boundary in
  prefetch ←
    (if free_buffers_left h =? 2 then
       let lb := if left_boundary =? 0 then len else u64 (Z.shiftl left_boundary 1) in
       if lb <? get_cur_min_invalid_offset h then
         buf2 ← getZ (page_cache_buffers t) (first + 1);
         Ret [sqe_read sstable_num buf2 len lb]
       else Ret []
     else Ret []);
  ops ← prep (rd_prepared s) ([read1] ++ prefetch ++ [sqe_msg scheduler_ring sstable_num]);
  Ret (MkReadState (rd_mem s) (rd_pool s) (set_waiting true (set_cache h t))
         (rd_sqes s ++ ops) []).

(** The desired offset is cached in [location]. *)
Definition search_cached (pages : gmap Z bytes) (s : ReadState) (c : ConnectionRequest)
    (location : CacheLocation) : exec ReadState :=
  let t := rd_table s in
  let num_entries :=
    u32 (u64 (boundary_hi location - boundary_lo location) / MEMTABLE_ENTRY_LENGTH) in
  buf ← getZ (page_cache_buffers t) (buffer_id location);
  page ← match pages !! buf with Some p => Ret p | None => Undef OutOfBounds end;
  key ← load (rd_mem s) (buffer c + 5) KEY_LENGTH;
  '(index, res, not_null) ←
    search_page 34 page key num_entries
      (u32 (desired_sstable_offset t - boundary_lo location)) None None;
  match res with
  | None => Undef UninitRead
  | Some r =>
      if negb (r =? 0) then
        Ret (set_table_state s (set_offset (u64 (index + boundary_lo location)) t))
      else
        match not_null with
        | None => Undef UninitRead
        | Some nn =>
            mem ← (if negb (nn =? 0) then
                     v ← page_value page index;
                     store (rd_mem s) (buffer c + 5 + KEY_LENGTH) v
                   else Ret (rd_mem s));
            t' ← move_down_to_children mem (rd_pool s) t;
            Ret (MkReadState mem (rd_pool s) t' (rd_sqes s) (rd_prepared s))
        end
  end.

Definition read_round (pages : gmap Z bytes) (sstable_num scheduler_ring : Z)
    (s : ReadState) : exec ReadState :=
  let t := rd_table s in
  if get_cur_min_invalid_offset (cache_helper t) <=? desired_sstable_offset t then
    t' ← move_down_to_children (rd_mem s) (rd_pool s) t;
    Ret (set_table_state s t')
  else
    r ← top (stack t);
    off ← getZ r 0;
    cur_request ← getZ r 1;
    let s1 := set_table_state s (set_offset off t) in
    location ← get_buffer_info (cache_helper t) off;
    if boundary_lo location =? u64_max then schedule_read sstable_num scheduler_ring s1
    else
      c ← getZ (rw_data (rd_pool s)) cur_request;
      search_cached pages s1 c location.

(** [do { ... } while (!(stack.empty() || waiting_on_io))] *)
Fixpoint read_loop (fuel : nat) (pages : gmap Z bytes) (sstable_num scheduler_ring : Z)
    (s : ReadState) : exec ReadState :=
  match fuel with
  | O => Spin
  | S fuel' =>
      s' ← read_round pages sstable_num scheduler_ring s;
      if stack_empty (stack (rd_table s')) || waiting_on_io (rd_table s') then Ret s'
      else read_loop fuel' pages sstable_num scheduler_ring s'
  end.

(** ** The whole operation *)

Context {F : Type} `{FilterLike F}.
Context (junk : ConnectionRequest) (memory : Z → Content).

(** The tree, the socket buffers, the requests submitted so far, and those
    that are only prepared in the rings of the tables. *)
Record IoState : Type := MkIoState {
  io_tree : TreeState (F := F);
  io_mem : bytes;
  io_sqes : list Sqe;
  io_prepared : gmap Z (list Sqe)
}.

Definition ring_of (s : IoState) (sstable_num : Z) : list Sqe :=
  default [] (io_prepared s !! sstable_num).

(** What is prepared and what is submitted in the end.  The message to the
    network thread is prepared without being submitted. *)

Definition try_sstable_tree_read_in_memory (fuel : nat) (attempts flags : list bool)
    (cells : list Z) (pages : gmap Z bytes) (sstable_num scheduler_ring network_ring : Z)
    (s : IoState) (level index_in_level : Z) : exec IoState :=
  t ← get_table (level_infos (io_tree s)) level index_in_level;
  rb ← deref_batch (batches_heap (io_tree s)) (cur_req_batch t);
  pool ← pool_of rb;
  r ← read_loop fuel pages sstable_num scheduler_ring
        (MkReadState (io_mem s) pool t (io_sqes s) (ring_of s sstable_num));
  let t' := if stack_empty (stack (rd_table r)) then set_waiting false (rd_table r)
            else rd_table r in
  levels ← update_table (level_infos (io_tree s)) level index_in_level (λ _, Ret t');
  let tree := MkTreeState levels (batches_heap (io_tree s)) (next_batch (io_tree s)) in
  let ends tree ring := MkIoState tree (rd_mem r) (rd_sqes r)
                          (<[sstable_num := ring]> (io_prepared s)) in
  if stack_empty (stack t') then
    if level <? NUM_SSTABLE_LEVELS - 1 then
      tree' ← insert_into_wqs (rd_mem r) junk memory fuel attempts flags cells tree
                (level + 1) (cur_req_batch t') index_in_level;
      Ret (ends tree' (rd_prepared r))
    else
      ring ← prep (rd_prepared r) [sqe_msg network_ring (cur_req_batch t')];
      Ret (ends tree ring)
  else Ret (ends tree (rd_prepared r)).

End descent.

Section descent_proofs.
Context {cfg : Config}.

Lemma load_no_spin m off n : load m off n ≠ Spin.
Proof. unfold load. by case_bool_decide. Qed.

Lemma search_page_no_spin fuel page key n index res nn :
  0 ≤ index → 0 ≤ n < 2 ^ 31 → 2 ^ 31 ≤ (index + 1) * 2 ^ Z.of_nat fuel →
  search_page (S fuel) page key n index res nn ≠ Spin.
Proof.
  revert index res nn. induction fuel as [|fuel IH]; intros index res nn Hi Hn Hf.
  - change (2 ^ Z.of_nat 0) with 1 in Hf. cbn [search_page]. by decide_tests.
  - remember (S fuel) as f eqn:Ef. cbn [search_page].
    destruct (Z.ltb_spec index n); [|done].
    apply bind_no_spin; [apply load_no_spin|]. intros k.
    destruct (memcmp k null_key =? 0); [done|]. destruct (memcmp k key =? 0); [done|].
    subst f. rewrite Nat2Z.inj_succ, Z.pow_succ_r in Hf by lia.
    set (b := b2z (0 <? memcmp k key)).
    assert (0 ≤ b ≤ 1) by (unfold b; destruct (0 <? memcmp k key); cbn; lia).
    rewrite Z.shiftl_mul_pow2 by lia. change (2 ^ 1) with 2.
    rewrite !u32_small by (rewrite ?u32_small by lia; lia).
    apply IH; [lia|done|]. assert (0 ≤ 2 ^ Z.of_nat fuel) by (apply Z.pow_nonneg; lia). nia.
Qed.

(** C40: The walk down the tree inside a cached buffer terminates: with fewer
    than [2^31] entries, 34 rounds are always enough, whatever the buffer
    holds. *)
Theorem search_page_terminates page key n index :
  0 ≤ index → 0 ≤ n < 2 ^ 31 → search_page 34 page key n index None None ≠ Spin.
Proof.
  intros Hi Hn. apply search_page_no_spin; [done|done|].
  change (2 ^ Z.of_nat 33) with (2 ^ 33). lia.
Qed.

Lemma push_top_row st x y z w :
  stack_wf st → Stack.back st < lenZ (data st) →
  ∃ st', push_top st x y z w = Ret st' ∧ stack_wf st' ∧
    Stack.back st' = Stack.back st + 1 ∧ lenZ (data st') = lenZ (data st) ∧
    data st' !! Z.to_nat (Stack.back st) = Some [x; y; z; w] ∧
    ∀ j, j ≠ Z.to_nat (Stack.back st) → data st' !! j = data st !! j.
Proof.
  intros Hwf Hlt. pose proof (push_top_ok st x y z w Hwf Hlt) as E. eexists. split; [exact E|].
  destruct (push_top_wf _ _ _ _ _ _ Hwf E) as [Hwf' Hb']. split_and!; [done..| | |].
  - apply lenZ_insert.
  - apply list_lookup_insert_eq. destruct Hwf as (? & _). unfold lenZ in *. lia.
  - intros j Hj. cbn. by rewrite list_lookup_insert_ne.
Qed.

(** The descent into the children of a request, on every branch.  The row
    it looks at is the one [top] answers, and it takes the first three of its
    four entries [(offset, request, left, right)] as request, left and right
    bound; the row is popped, then the right and the left child are pushed
    when they exist and have a key. *)
Theorem move_down_spec mem pool t a b c d (kr kl : bool) :
  stack_wf (stack t) → 1 ≤ Stack.back (stack t) → Stack.back (stack t) + 1 < lenZ (data (stack t)) →
  top (stack t) = Ret [a; b; c; d] →
  let left_child := Z.shiftr (u32 (b + a)) 1 in
  let right_child := Z.shiftr (u32 (a + c)) 1 in
  let off := u32 (desired_sstable_offset t) in
  (a < right_child → has_key mem pool right_child = Ret kr) →
  (left_child < a → has_key mem pool left_child = Ret kl) →
  ∃ st, move_down_to_children mem pool t = Ret (set_stack st t) ∧ stack_wf st ∧
    let pushed := (if (a <? right_child) && kr then [[off; right_child; a; c]] else []) ++
                  (if (left_child <? a) && kl then [[off; left_child; b; a]] else []) in
    Stack.back st = Stack.back (stack t) - 1 + lenZ pushed ∧
    ∀ i r, pushed !! i = Some r →
      data st !! (Z.to_nat (Stack.back (stack t) - 1) + i)%nat = Some r.
Proof.
  intros Hwf Hb1 Hcap Htop left_child right_child off Hr Hl.
  unfold move_down_to_children. rewrite Htop. cbn [mbind exec_bind].
  change (getZ [a; b; c; d] 0) with (Ret a). change (getZ [a; b; c; d] 1) with (Ret b).
  change (getZ [a; b; c; d] 2) with (Ret c). cbn [mbind exec_bind].
  fold left_child right_child off.
  set (n := Stack.back (stack t) - 1). set (st := pop_top (stack t)).
  assert (Hst : Stack.back st = n ∧ data st = data (stack t) ∧ stack_wf st).
  { destruct Hwf as (Hbk & Hlen & Hrows). unfold st, pop_top, stack_wf. cbn [Stack.back data].
    rewrite u32_small by lia. split_and!; (done || lia). }
  destruct Hst as (Hbst & Hdst & Hwst).
  assert (E1 : (if a <? right_child then has_key mem pool right_child else Ret false) =
               Ret ((a <? right_child) && kr)).
  { destruct (Z.ltb_spec a right_child); [by rewrite Hr|done]. }
  assert (E2 : (if left_child <? a then has_key mem pool left_child else Ret false) =
               Ret ((left_child <? a) && kl)).
  { destruct (Z.ltb_spec left_child a); [by rewrite Hl|done]. }
  rewrite E1. cbn [mbind exec_bind]. rewrite E2.
  destruct ((a <? right_child) && kr), ((left_child <? a) && kl).
  - destruct (push_top_row st off right_child a c Hwst)
      as (st1 & -> & Hw1 & Hb1' & Hl1 & Hd1 & Ho1); [rewrite Hdst; lia|]. cbn [mbind exec_bind].
    destruct (push_top_row st1 off left_child b a Hw1)
      as (st2 & -> & Hw2 & Hb2 & Hl2 & Hd2 & Ho2); [rewrite Hl1, Hdst; lia|].
    cbn [mbind exec_bind]. exists st2. split; [done|]. split; [done|]. cbn.
    split; [unfold lenZ; cbn; lia|]. rewrite Hb1', Hbst in *.
    intros [|[|i]] r Hri; simplify_eq/=.
    + rewrite Ho2 by lia. by rewrite Nat.add_0_r.
    + rewrite <- Hd2. f_equal. lia.
  - destruct (push_top_row st off right_child a c Hwst)
      as (st1 & -> & Hw1 & Hb1' & Hl1 & Hd1 & Ho1); [rewrite Hdst; lia|]. cbn [mbind exec_bind].
    exists st1. split; [done|]. split; [done|]. cbn.
    split; [unfold lenZ; cbn; lia|]. rewrite Hbst in *.
    intros [|i] r Hri; simplify_eq/=. by rewrite Nat.add_0_r.
  - destruct (push_top_row st off left_child b a Hwst)
      as (st1 & Ep & Hw1 & Hb1' & Hl1 & Hd1 & Ho1); [rewrite Hdst; lia|]. cbn [mbind exec_bind].
    rewrite Ep. cbn [mbind exec_bind]. exists st1. split; [done|]. split; [done|]. cbn.
    split; [unfold lenZ; cbn; lia|]. rewrite Hbst in *.
    intros [|i] r Hri; simplify_eq/=. by rewrite Nat.add_0_r.
  - cbn [mbind exec_bind]. exists st. split; [done|]. split; [done|]. cbn [app].
    split; [unfold lenZ; cbn [length]; lia|]. by intros [].
Qed.

(** The descent of a read batch as the worker starts it on a fresh stack. *)
Definition start_descent (t : SSTableInfo) (length : Z) : exec SSTableInfo :=
  st ← push_top (stack t) 0 (Z.shiftr length 1) 0 length;
  Ret (set_stack st (set_offset 0 t)).

(** A read that misses the page cache.  With a free buffer it schedules one
    read of a whole buffer at the rounded offset of the row above the top of
    the stack, followed by the completion message (and a prefetch only when
    exactly two buffers are free), submits them after what was left prepared in
    the table's ring, waits for them and leaves the stack alone;
    without a free buffer it indexes the buffer list at [UINT_MAX].  As the
    index is never filled, this is every read of a valid offset. *)
Theorem uncached_read_outcomes pages num ring s off c x y lb buf :
  let t := rd_table s in
  never_filled (cache_helper t) →
  desired_sstable_offset t < get_cur_min_invalid_offset (cache_helper t) →
  top (stack t) = Ret [off; c; x; y] →
  round_to_block_size_multiple off = Ret lb → getZ (page_cache_buffers t) 0 = Ret buf →
  (free_buffers_left (cache_helper t) = 0 →
     ∀ fuel, read_loop (S fuel) pages num ring s = Undef OutOfBounds) ∧
  (free_buffers_left (cache_helper t) ≠ 0 → free_buffers_left (cache_helper t) ≠ 2 →
   lenZ (rd_prepared s) + 2 ≤ sstable_ring_entries →
     ∀ fuel, ∃ s', read_loop (S fuel) pages num ring s = Ret s' ∧
       rd_sqes s' = rd_sqes s ++ rd_prepared s ++
         [sqe_read num buf fair_aligned_sstable_page_cache_buffer_size lb; sqe_msg ring num] ∧
       rd_prepared s' = [] ∧
       waiting_on_io (rd_table s') = true ∧ stack (rd_table s') = stack t ∧
       rd_mem s' = rd_mem s ∧ cache_helper (rd_table s') = cache_helper t).
Proof.
  intros t Hnf Hoff Htop Hlb Hbuf.
  assert (Hround : read_round pages num ring s =
                   schedule_read num ring (set_table_state s (set_offset off t))).
  { unfold read_round. fold t. decide_tests. rewrite Htop. cbn [mbind exec_bind].
    change (getZ [off; c; x; y] 0) with (Ret off). change (getZ [off; c; x; y] 1) with (Ret c).
    cbn [mbind exec_bind]. unfold get_buffer_info, lower_bound.
    destruct Hnf as (-> & _). done. }
  split.
  - intros Hfree fuel. cbn [read_loop]. rewrite Hround. unfold schedule_read. cbn.
    rewrite Hfree. change (0 =? 0) with true. cbn iota.
    by rewrite (proj1 (proj2 (never_filled_undefined _ Hnf))).
  - intros Hf0 Hf2 Hroom fuel. cbn [read_loop]. rewrite Hround. unfold schedule_read.
    cbn [rd_table set_table_state set_offset cache_helper desired_sstable_offset
         page_cache_buffers].
    rewrite (proj2 (Z.eqb_neq _ 0) Hf0). cbn [mbind exec_bind]. rewrite Hlb.
    cbn [mbind exec_bind]. destruct Hnf as (Hm & _). rewrite Hm.
    change (u32 (u32_max + 1)) with 0. rewrite Hbuf. cbn [mbind exec_bind].
    rewrite (proj2 (Z.eqb_neq _ 2) Hf2). cbn [mbind exec_bind app].
    rewrite prep_ok by exact Hroom. cbn [mbind exec_bind].
    eexists. split; [cbn; by rewrite orb_true_r|]. by split_and!.
Qed.

(** On a table whose first offset is already known to be invalid, a read
    batch that starts on a fresh stack is finished without any of its requests
    being looked at: the round reads the untouched row above the one just
    pushed, finds no children in it and pops the pushed row, so the batch
    moves on with its replies unchanged. *)
Theorem fresh_descent_visits_nothing fuel pages num ring mem pool t len sqes prepared :
  stack_wf (stack t) → Stack.back (stack t) = 0 →
  data (stack t) !! 1%nat = Some [0; 0; 0; 0] → 0 ≤ len →
  get_cur_min_invalid_offset (cache_helper t) = 0 →
  ∃ t0 s', start_descent t len = Ret t0 ∧
    read_loop (S fuel) pages num ring (MkReadState mem pool t0 sqes prepared) = Ret s' ∧
    stack_empty (stack (rd_table s')) = true ∧ rd_mem s' = mem ∧ rd_pool s' = pool ∧
    rd_sqes s' = sqes ∧ rd_prepared s' = prepared.
Proof.
  intros Hwf Hb Hrow Hlen Hmin. unfold start_descent.
  pose proof (lookup_lt_Some _ _ _ Hrow) as Hlt.
  rewrite push_top_ok by (done || (rewrite Hb; unfold lenZ; lia)). cbn [mbind exec_bind].
  eexists _, _. split; [done|]. cbn [read_loop]. unfold read_round.
  cbn [rd_table set_stack set_offset cache_helper desired_sstable_offset].
  rewrite Hmin. change (0 <=? 0) with true. cbn iota. unfold move_down_to_children.
  cbn [stack set_stack set_offset]. unfold top. cbn [Stack.back data]. rewrite Hb.
  assert (Hg : getZ (<[Z.to_nat 0 := [0; Z.shiftr len 1; 0; len]]> (data (stack t))) (0 + 1) =
               Ret [0; 0; 0; 0]).
  { apply getZ_Ret. split; [lia|]. by rewrite list_lookup_insert_ne by lia. }
  rewrite Hg. cbn [mbind exec_bind].
  change (getZ [0; 0; 0; 0] 0) with (Ret 0). change (getZ [0; 0; 0; 0] 1) with (Ret 0).
  change (getZ [0; 0; 0; 0] 2) with (Ret 0). cbn [mbind exec_bind].
  split; [done|]. by split_and!.
Qed.

End descent_proofs.

(** ** Examples *)

Definition demo_rows : list (list Z) := [[0; 0; 0; 0]; [0; 0; 0; 0]; [0; 0; 0; 0]].

Definition demo_table (rows : list (list Z)) (top_row free min_invalid : Z) : SSTableInfo :=
  MkSSTableInfo (new_WaitQueue true 0) true 0 [4096] [] []
    (MkSSTableCacheHelper (MkSparseBufferIndex [] [] min_invalid u32_max) free u32_max)
    (MkStack top_row rows) 0 false false 0.

Lemma search_page_terminates_witness :
  search_page (cfg := cmake_config) 34 [5; 1; 1; 3; 2; 2] [3] 2 0 None None ≠ Spin.
Proof. apply (@search_page_terminates cmake_config); lia. Defined.

(** Request 2 of four, bounds 0 and 4: both children exist. *)
Lemma move_down_spec_witness :
  ∃ st, move_down_to_children (cfg := cmake_config) (seqZ 1 20)
      (MkReadWritePool (replicate 4 (MkConnectionRequest (MkBaseRequest READ) 0 1 0)) 4 0 true)
      (demo_table [[9; 9; 9; 9]; [2; 0; 4; 0]; [0; 0; 0; 0]] 1 1 0) =
      Ret (set_stack st (demo_table [[9; 9; 9; 9]; [2; 0; 4; 0]; [0; 0; 0; 0]] 1 1 0)) ∧
    Stack.back st = 2.
Proof.
  destruct (@move_down_spec cmake_config (seqZ 1 20)
      (MkReadWritePool (replicate 4 (MkConnectionRequest (MkBaseRequest READ) 0 1 0)) 4 0 true)
      (demo_table [[9; 9; 9; 9]; [2; 0; 4; 0]; [0; 0; 0; 0]] 1 1 0) 2 0 4 0 true true)
    as (st & ? & _ & Hb & _).
  - split_and!; first [by repeat constructor | by vm_compute].
  - by vm_compute.
  - by vm_compute.
  - done.
  - done.
  - done.
  - by exists st.
Defined.

Lemma uncached_read_outcomes_witness :
  ∃ s', read_loop (cfg := cmake_config) 1 ∅ 3 8
      (MkReadState [] (MkReadWritePool [] 0 0 true) (demo_table demo_rows 1 1 100) [] []) =
      Ret s' ∧ rd_sqes s' = [sqe_read 3 4096 0 0; sqe_msg 8 3].
Proof.
  destruct (@uncached_read_outcomes cmake_config ∅ 3 8
    (MkReadState [] (MkReadWritePool [] 0 0 true) (demo_table demo_rows 1 1 100) [] [])
    0 0 0 0 0 4096) as [_ Hread]; [by vm_compute..|].
  destruct (Hread ltac:(done) ltac:(done) ltac:(by vm_compute) 0%nat) as (s' & ? & Hq & _).
  exists s'. split; [done|]. rewrite Hq. by vm_compute.
Defined.

Lemma fresh_descent_visits_nothing_witness :
  ∃ t0 s', start_descent (demo_table demo_rows 0 1 0) 4 = Ret t0 ∧
    read_loop (cfg := cmake_config) 1 ∅ 3 8
      (MkReadState [] (MkReadWritePool [] 0 0 true) t0 [] []) = Ret s' ∧
    stack_empty (stack (rd_table s')) = true.
Proof.
  destruct (@fresh_descent_visits_nothing cmake_config 0 ∅ 3 8 []
    (MkReadWritePool [] 0 0 true) (demo_table demo_rows 0 1 0) 4 [] [])
    as (t0 & s' & ? & ? & ? & _); [|done..|].
  - split_and!; first [by repeat constructor | by vm_compute].
  - by exists t0, s'.
Defined.
