(* ===== verification/Worker.v ===== *)
(** * The worker threads

    The event loop of [LSMTree::sstable_worker_thread] ([lsm_tree.hpp], lines
    666 to 901).  A worker goes over its tables; before each it looks for one
    completion on its scheduler ring, and a table that does not wait for I/O
    takes the next batch of its wait queue or, when it had none twice in a row,
    returns buffers to the table above.

    [WorkerEnv] holds what the loop does not decide itself: loop bounds, the
    outcomes of the weak compare-and-exchange operations, uninitialised locals,
    the contents of the page cache and the descriptors of the rings. *)

From S2P Require Import Prelude Config Requests Stack BufferQueue CacheHelper WaitQueue.
From S2P Require Import Guards Filter RequestBatch LevelInfo Init Distribute.
From S2P Require Import DistributeProofs Descent.

Record WorkerEnv : Type := MkWorkerEnv {
  we_fuel : nat;
  we_attempts : list bool;
  we_spurious : bool;
  we_flags : list bool;
  we_cells : list Z;
  we_pages : gmap Z bytes;
  we_scheduler : Z;
  we_network : Z
}.

Definition set_flushed (t : SSTableInfo) : SSTableInfo :=
  MkSSTableInfo (req_batch_wq t) true (insert_buffers_from t) (page_cache_buffers t)
    (min_key t) (max_key t) (cache_helper t) (stack t) (cur_req_batch t) (waiting_on_io t)
    (already_waited t) (desired_sstable_offset t).

Definition set_waited (b : bool) (t : SSTableInfo) : SSTableInfo :=
  MkSSTableInfo (req_batch_wq t) (is_flushed_to t) (insert_buffers_from t)
    (page_cache_buffers t) (min_key t) (max_key t) (cache_helper t) (stack t)
    (cur_req_batch t) (waiting_on_io t) b (desired_sstable_offset t).

(** [req_batch = req_batch_wq.pop_front()] *)
Definition set_taken (q : RequestBatchWaitQueue) (batch : Z) (t : SSTableInfo) : SSTableInfo :=
  MkSSTableInfo q (is_flushed_to t) (insert_buffers_from t) (page_cache_buffers t)
    (min_key t) (max_key t) (cache_helper t) (stack t) batch (waiting_on_io t)
    (already_waited t) (desired_sstable_offset t).

Definition set_consumer_guard (v : Z) (q : RequestBatchWaitQueue) : RequestBatchWaitQueue :=
  let g := wq_guard q in
  MkWaitQueue (heap q) (next_address q)
    (MkWaitQueueGuard v (size g) (atomic_producer_guard g) (wq_is_single_thread g))
    (WaitQueue.front q) (WaitQueue.back q).

Definition lock_ring (attempts : list bool) (q : BufferQueue) : exec BufferQueue :=
  g ← lock attempts (bq_guard q);
  Ret (set_bq_guard (atomic_guard g) q).

Definition unlock_ring (q : BufferQueue) : BufferQueue :=
  MkBufferQueue (queue_front q) (queue_back q) (cur_num_buffers q) (num_new_buffers q)
    (queue q) (unlock (bq_guard q)).

Section idle.
Context {cfg : Config}.

(** ** A table without work returns buffers *)

(** [while (num_new_buffers--) prev_buffer_queue->push_back(...)] *)
Fixpoint push_reverse (n : nat) (buffers : list Z) (q : BufferQueue) : exec BufferQueue :=
  match n with
  | O => Ret q
  | S n' => b ← getZ buffers (Z.of_nat n'); q' ← push_back q b; push_reverse n' buffers q'
  end.

(** New buffers of the own ring [q] go to the ring [prev] of the table
    above. *)
Definition return_new (env : WorkerEnv) (q prev : BufferQueue)
    : exec (BufferQueue * BufferQueue) :=
  let at_most_fair := Z.min max_sstable_height (num_new_buffers q) in
  '(q1, buffers) ← collect_new (Z.to_nat at_most_fair) 0 q (we_cells env);
  prev1 ← lock_ring (we_attempts env) prev;
  prev2 ← push_reverse (Z.to_nat at_most_fair) buffers prev1;
  Ret (unlock_ring q1, unlock_ring prev2).

(** Without new buffers a part of the table's own goes there.  The own ring
    stays locked when there is nothing to give. *)
Definition return_old (env : WorkerEnv) (q prev : BufferQueue) (t : SSTableInfo)
    : exec (BufferQueue * BufferQueue * SSTableInfo) :=
  let cur := cur_num_buffers q in
  let to_give := if cur =? 0 then 0
                 else Z.max (Z.min cur max_sstable_height / LEVEL_FACTOR) 1 in
  if to_give =? 0 then Ret (q, prev, t)
  else
    let q1 := MkBufferQueue (queue_front q) (queue_back q) (u32 (cur - to_give))
                (num_new_buffers q) (queue q) (bq_guard q) in
    prev1 ← lock_ring (we_attempts env) prev;
    '(prev2, t1, _) ← give_old (Z.to_nat to_give) to_give 0 prev1 t;
    let from := u32 (insert_buffers_from t1 + 1) in
    c ← remove_buffer_range (cache_helper t1) from (insert_buffers_from t);
    Ret (unlock_ring q1, unlock_ring prev2, set_buffers from (page_cache_buffers t1) c t1).

(** The branch of a table that has already waited; the last component is the
    worker's [my_zero], which a failed attempt overwrites. *)
Definition idle_turn (env : WorkerEnv) (level : Z) (q prev : BufferQueue) (t : SSTableInfo)
    : exec (BufferQueue * BufferQueue * SSTableInfo * Z) :=
  if 0 <? level then
    let g := bq_guard q in
    let '(ok, v, my_zero) :=
      if is_single_thread g then (true, atomic_guard g, 0)
      else compare_exchange_weak (we_spurious env) (atomic_guard g) 0 1 in
    let q1 := set_bq_guard v q in
    if ok : bool then
      if num_new_buffers q1 =? 0 then
        '(q2, prev2, t2) ← return_old env q1 prev (set_waited false t);
        Ret (q2, prev2, t2, 0)
      else '(q2, prev2) ← return_new env q1 prev; Ret (q2, prev2, t, 0)
    else Ret (q1, prev, t, my_zero)
  else Ret (q, prev, t, 0).

End idle.

Section worker.
Context {cfg : Config} {F : Type} `{FilterLike F}.
Context (junk : ConnectionRequest) (memory : Z → Content).

(** The shared state and what the loop carries along. *)
Record Worker : Type := MkWorker {
  wk_io : IoState (F := F);
  wk_is_practically_full : bool;
  wk_my_zero : Z
}.

Definition wk_levels (w : Worker) : list (LevelInfo F) := level_infos (io_tree (wk_io w)).

Definition set_levels (levels : list (LevelInfo F)) (w : Worker) : Worker :=
  let io := wk_io w in let tree := io_tree io in
  MkWorker (MkIoState (MkTreeState levels (batches_heap tree) (next_batch tree))
              (io_mem io) (io_sqes io) (io_prepared io)) (wk_is_practically_full w) (wk_my_zero w).

Definition set_io (io : IoState (F := F)) (w : Worker) : Worker :=
  MkWorker io (wk_is_practically_full w) (wk_my_zero w).

Definition set_my_zero (z : Z) (w : Worker) : Worker :=
  MkWorker (wk_io w) (wk_is_practically_full w) z.

Definition wk_ring (w : Worker) (sstable_num : Z) : list Sqe := ring_of (wk_io w) sstable_num.

Definition set_ring (sstable_num : Z) (ring : list Sqe) (w : Worker) : Worker :=
  let io := wk_io w in
  set_io (MkIoState (io_tree io) (io_mem io) (io_sqes io)
            (<[sstable_num := ring]> (io_prepared io))) w.

(** [io_uring_get_sqe] and the [io_uring_prep_...] functions on the ring of a
    table *)
Definition prep_on (sstable_num : Z) (sqes : list Sqe) (w : Worker) : exec Worker :=
  ring ← prep (wk_ring w sstable_num) sqes;
  Ret (set_ring sstable_num ring w).

(** [io_uring_submit]: everything prepared in the table's ring *)
Definition submit (sstable_num : Z) (w : Worker) : Worker :=
  let io := wk_io w in
  set_io (MkIoState (io_tree io) (io_mem io) (io_sqes io ++ wk_ring w sstable_num)
            (<[sstable_num := []]> (io_prepared io))) w.

Definition put_table (w : Worker) (level index : Z) (t : SSTableInfo) : exec Worker :=
  levels ← update_table (wk_levels w) level index (λ _, Ret t);
  Ret (set_levels levels w).

Definition hand_down (env : WorkerEnv) (w : Worker) (level index batch : Z) : exec Worker :=
  let io := wk_io w in
  tree ← insert_into_wqs (io_mem io) junk memory (we_fuel env) (we_attempts env)
           (we_flags env) (we_cells env) (io_tree io) (level + 1) batch index;
  Ret (set_io (MkIoState tree (io_mem io) (io_sqes io) (io_prepared io)) w).

Definition read_table (env : WorkerEnv) (w : Worker) (sstable_num level index : Z)
    : exec Worker :=
  io ← try_sstable_tree_read_in_memory junk memory (we_fuel env) (we_attempts env)
         (we_flags env) (we_cells env) (we_pages env) sstable_num (we_scheduler env)
         (we_network env) (wk_io w) level index;
  Ret (set_io io w).

(** ** A batch was taken from the wait queue *)

Definition start_read (env : WorkerEnv) (w : Worker) (sstable_num level index : Z)
    (t : SSTableInfo) (length : Z) : exec Worker :=
  q ← get_buffer_queue (wk_levels w) level index;
  '(q', t1) ← try_add_buffers_nonblockingly (we_fuel env) (we_spurious env) t q;
  t2 ← start_descent t1 length;
  levels ← update_buffer_queue (wk_levels w) level index (λ _, Ret q');
  w1 ← put_table (set_levels levels w) level index t2;
  read_table env w1 sstable_num level index.

(** The file write of a compaction; its length is an [unsigned]. *)
Definition flush (env : WorkerEnv) (sstable_num batch : Z) : list Sqe :=
  [sqe_write sstable_num batch (u32 (MEMTABLE_SIZE * MEMTABLE_ENTRY_LENGTH)) 0;
   sqe_msg (we_scheduler env) sstable_num].

Definition work_on (env : WorkerEnv) (w : Worker) (sstable_num level index : Z)
    (t : SSTableInfo) (batch : Z) : exec Worker :=
  let tree := io_tree (wk_io w) in
  rb ← deref_batch (batches_heap tree) batch;
  if bool_decide (batch_type rb = READ) then
    pool ← pool_of rb;
    if present_in_level pool && is_flushed_to t then
      start_read env w sstable_num level index t (rw_length pool)
    else if level <? NUM_SSTABLE_LEVELS - 1 then hand_down env w level index batch
    else prep_on sstable_num [sqe_msg (we_network env) batch] w
  else if is_flushed_to t && (level <? NUM_SSTABLE_LEVELS - 1) then
    hand_down env w level index batch
  else if negb (is_flushed_to t) then
    w1 ← prep_on sstable_num (flush env sstable_num batch) w;
    put_table (submit sstable_num w1) level index (set_waiting true t)
  else
    h ← delete_batch (batches_heap tree) batch;
    Ret (set_io (MkIoState (MkTreeState (level_infos tree) h (next_batch tree))
                   (io_mem (wk_io w)) (io_sqes (wk_io w)) (io_prepared (wk_io w))) w).

(** ** One table's turn *)

Definition worker_turn (env : WorkerEnv) (w : Worker) (sstable_num : Z) : exec Worker :=
  let level := sstable_num / LEVEL_FACTOR in
  let index := sstable_num - level * LEVEL_FACTOR in
  t ← get_table (wk_levels w) level index;
  if waiting_on_io t then Ret w
  else
    let q := req_batch_wq t in
    q1 ← (if wq_is_single_thread (wq_guard q) then Ret q
          else '(v, _) ← acquire (we_attempts env) (atomic_consumer_guard (wq_guard q))
                           (wk_my_zero w);
               Ret (set_consumer_guard v q));
    '(q2, batch) ← WaitQueue.pop_front q1;
    let t1 := set_taken q2 batch t in
    w1 ← put_table (set_my_zero 0 w) level index t1;
    if negb (batch =? 0) then work_on env w1 sstable_num level index t1 batch
    else if negb (already_waited t1) then put_table w1 level index (set_waited true t1)
    else if 0 <? level then
      own ← get_buffer_queue (wk_levels w1) level index;
      prev ← get_buffer_queue (wk_levels w1) (level - 1) index;
      '(own', prev', t2, my_zero) ← idle_turn env level own prev t1;
      l1 ← update_buffer_queue (wk_levels w1) level index (λ _, Ret own');
      l2 ← update_buffer_queue l1 (level - 1) index (λ _, Ret prev');
      put_table (set_my_zero my_zero (set_levels l2 w1)) level index t2
    else Ret w1.

(** ** A completion *)

(** Chunk [j] of a finished read: the offset it was read from and the number of
    bytes read, or an error. *)
Definition note_chunk (h : SSTableCacheHelper) (j left_boundary res : Z)
    : exec SSTableCacheHelper :=
  if 0 <? res then
    let right_boundary := u64 (left_boundary + res) in
    h1 ← map_buffer_to_offset_boundary h (u32 (most_recent h + 1 + j)) left_boundary
           right_boundary;
    Ret (if res <? fair_aligned_sstable_page_cache_buffer_size
         then set_cur_min_invalid_offset h1 (u64 (right_boundary + 1)) else h1)
  else Ret (set_cur_min_invalid_offset h left_boundary).

Fixpoint note_chunks (h : SSTableCacheHelper) (j : Z) (chunks : list (Z * Z))
    : exec SSTableCacheHelper :=
  match chunks with
  | [] => Ret h
  | (left_boundary, res) :: chunks' =>
      h1 ← note_chunk h j left_boundary res; note_chunks h1 (j + 1) chunks'
  end.

(** A message on the scheduler ring; [chunks] is what the table's ring holds,
    and nothing there means that a flush is done. *)
Definition worker_completion (env : WorkerEnv) (w : Worker) (sstable_num : Z)
    (chunks : list (Z * Z)) : exec Worker :=
  let level := sstable_num / LEVEL_FACTOR in
  let index := sstable_num - level * LEVEL_FACTOR in
  t ← get_table (wk_levels w) level index;
  match chunks with
  | [] =>
      w1 ← put_table w level index (set_flushed t);
      Ret (MkWorker (wk_io w1) (level =? NUM_SSTABLE_LEVELS - 1) (wk_my_zero w1))
  | _ =>
      h ← note_chunks (cache_helper t) 0 chunks;
      w1 ← put_table w level index (set_cache h t);
      read_table env w1 sstable_num level index
  end.

(** ** The loop over the tables of a worker *)

(** Table [i], preceded by the completion that is there, if any. *)
Definition worker_step (env : WorkerEnv) (w : Worker)
    (x : Z * option (Z * list (Z * Z))) : exec Worker :=
  w1 ← match x.2 with
       | Some (sstable_num, chunks) => worker_completion env w sstable_num chunks
       | None => Ret w
       end;
  worker_turn env w1 x.1.

(** One pass over the tables of worker [worker_thread_num]; [completions] says
    what is found before each. *)
Definition worker_pass (env : WorkerEnv) (worker_thread_num : Z)
    (completions : Z → option (Z * list (Z * Z))) (w : Worker) : exec Worker :=
  foldM (λ w i, worker_step env w (i, completions i))
    (seqZ (worker_thread_num * WORKER_SSTABLE_BATCH_SIZE) WORKER_SSTABLE_BATCH_SIZE) w.

End worker.

(** ** Reading and writing the tables of the tree *)

Section tables.
Context {F : Type}.
Implicit Types (levels : list (LevelInfo F)).

Lemma get_table_Ret levels level i t :
  get_table levels level i = Ret t ↔
  ∃ lv, getZ levels level = Ret lv ∧ getZ (sstable_infos lv) i = Ret t.
Proof. unfold get_table. apply bind_Ret_inv. Qed.

(** Storing a table changes that table and nothing else. *)
Lemma update_table_ok levels level i t t' :
  get_table levels level i = Ret t →
  ∃ levels', update_table levels level i (λ _, Ret t') = Ret levels' ∧
    get_table levels' level i = Ret t' ∧
    (∀ l j, (l, j) ≠ (level, i) → get_table levels' l j = get_table levels l j) ∧
    ∀ l j, get_buffer_queue levels' l j = get_buffer_queue levels l j.
Proof.
  intros (lv & Hlv & Ht)%get_table_Ret.
  pose proof Hlv as [Hl Hlk]%getZ_Ret. pose proof Ht as [Hi Htk]%getZ_Ret.
  unfold update_table.
  rewrite (update_at_ok levels level _ lv (MkLevelInfo (guard lv) (filters lv)
    (sparse_index lv) (buffer_queues lv) (<[Z.to_nat i := t']> (sstable_infos lv))));
    [|lia|done|by rewrite (update_at_ok (sstable_infos lv) i _ t t') by (done || lia)].
  eexists. split; [done|].
  assert (Hlen : 0 ≤ level < lenZ levels) by (apply lookup_lt_Some in Hlk; unfold lenZ; lia).
  assert (Hilen : 0 ≤ i < lenZ (sstable_infos lv))
    by (apply lookup_lt_Some in Htk; unfold lenZ; lia).
  unfold get_table, get_buffer_queue. split; [|split].
  - rewrite getZ_insert, decide_True by done. cbn. by rewrite getZ_insert, decide_True.
  - intros l j Hne. rewrite getZ_insert by done. case_decide as Hll; [subst l|done].
    rewrite Hlv. cbn. rewrite getZ_insert, decide_False by (done || congruence). done.
  - intros l j. rewrite getZ_insert by done. case_decide as Hll; [subst l|done].
    by rewrite Hlv.
Qed.

End tables.

(** ** A turn with work *)

Section turns.
Context {cfg : Config} {F : Type} `{FilterLike F}.
Context (junk : ConnectionRequest) (memory : Z → Content).
Implicit Types (w : Worker (F := F)).

Lemma put_table_ok w level i t t' :
  get_table (wk_levels w) level i = Ret t →
  ∃ levels, put_table w level i t' = Ret (set_levels levels w) ∧
    get_table levels level i = Ret t' ∧
    (∀ l j, (l, j) ≠ (level, i) → get_table levels l j = get_table (wk_levels w) l j) ∧
    ∀ l j, get_buffer_queue levels l j = get_buffer_queue (wk_levels w) l j.
Proof.
  intros Ht. unfold put_table. destruct (update_table_ok _ _ _ _ t' Ht) as (levels & -> & ?).
  by exists levels.
Qed.

(** The start of a turn of a table of one thread: the next batch is taken. *)
Lemma turn_prefix env w n level index t q' batch :
  level = n / LEVEL_FACTOR → index = n - level * LEVEL_FACTOR →
  get_table (wk_levels w) level index = Ret t → waiting_on_io t = false →
  wq_is_single_thread (wq_guard (req_batch_wq t)) = true →
  WaitQueue.pop_front (req_batch_wq t) = Ret (q', batch) →
  let t1 := set_taken q' batch t in
  ∃ levels, let w1 := set_levels levels (set_my_zero 0 w) in
    get_table levels level index = Ret t1 ∧
    (∀ l j, (l, j) ≠ (level, index) → get_table levels l j = get_table (wk_levels w) l j) ∧
    (∀ l j, get_buffer_queue levels l j = get_buffer_queue (wk_levels w) l j) ∧
    worker_turn junk memory env w n =
      if negb (batch =? 0) then work_on junk memory env w1 n level index t1 batch
      else if negb (already_waited t) then put_table w1 level index (set_waited true t1)
      else if 0 <? level then
        own ← get_buffer_queue levels level index;
        prev ← get_buffer_queue levels (level - 1) index;
        '(own', prev', t2, my_zero) ← idle_turn env level own prev t1;
        l1 ← update_buffer_queue levels level index (λ _, Ret own');
        l2 ← update_buffer_queue l1 (level - 1) index (λ _, Ret prev');
        put_table (set_my_zero my_zero (set_levels l2 w1)) level index t2
      else Ret w1.
Proof.
  intros Hl Hi Ht Hw Hs Hpop t1. unfold worker_turn. rewrite <- Hl, <- Hi, Ht.
  cbn [mbind exec_bind]. rewrite Hw, Hs. cbn [mbind exec_bind]. rewrite Hpop.
  cbn [mbind exec_bind]. fold t1.
  destruct (put_table_ok (set_my_zero 0 w) level index t t1 Ht) as (levels & E & Hg & Ho & Hb).
  rewrite E. exists levels. by split_and!.
Qed.

Lemma deref_batch_ok (h : gmap Z RequestBatch) b rb :
  b ≠ 0 → h !! b = Some rb → deref_batch h b = Ret rb.
Proof. intros Hb Hh. unfold deref_batch. decide_tests. by rewrite Hh. Qed.

(** The batches a table passes on to the level below. *)
Definition passed_on (t : SSTableInfo) (rb : RequestBatch) : Prop :=
  match content rb with
  | readwrite_pool pool =>
      batch_type rb = READ ∧ present_in_level pool && is_flushed_to t = false
  | req_seg _ => batch_type rb ≠ READ ∧ is_flushed_to t = true
  end.

(** After [prep_on] and [submit] everything in the ring is with the kernel. *)
Lemma prep_on_ok w n sqes :
  lenZ (wk_ring w n) + lenZ sqes ≤ sstable_ring_entries →
  prep_on n sqes w = Ret (set_ring n (wk_ring w n ++ sqes) w).
Proof. intros Hroom. unfold prep_on. by rewrite prep_ok. Qed.

Lemma wk_ring_set_ring w n ring : wk_ring (set_ring n ring w) n = ring.
Proof. unfold wk_ring, ring_of, set_ring. cbn. by rewrite lookup_insert_eq. Qed.

(** A batch on its way down ends the worker's defined behaviour. *)
Lemma hand_down_no_ret env w level index b w' :
  1 ≤ LEVEL_FACTOR → lenZ (we_flags env) = LEVEL_FACTOR →
  hand_down junk memory env w level index b ≠ Ret w'.
Proof.
  intros HL Hfl E. unfold hand_down in E. apply bind_Ret_inv in E as (tree & E & _).
  by apply insert_into_wqs_no_ret in E.
Qed.

Lemma passed_on_no_ret env w n level index t b rb w' :
  1 ≤ LEVEL_FACTOR → lenZ (we_flags env) = LEVEL_FACTOR →
  deref_batch (batches_heap (io_tree (wk_io w))) b = Ret rb → passed_on t rb →
  level < NUM_SSTABLE_LEVELS - 1 → work_on junk memory env w n level index t b ≠ Ret w'.
Proof.
  intros HL Hfl Hrb Hp Hlev E. unfold work_on in E. rewrite Hrb in E. cbn [mbind exec_bind] in E.
  unfold passed_on, pool_of in *. destruct (content rb) as [pool|seg], Hp as [Hty Hp].
  - rewrite bool_decide_eq_true_2 in E by done. cbn [mbind exec_bind] in E.
    rewrite Hp, (proj2 (Z.ltb_lt _ _)) in E by done. by apply hand_down_no_ret in E.
  - rewrite bool_decide_eq_false_2, Hp, (proj2 (Z.ltb_lt _ _)) in E by done.
    by apply hand_down_no_ret in E.
Qed.

(** C11: A table of one thread that waits for nothing and has a batch in its
    wait queue takes the oldest one, and then:
    - a compaction of a table that holds no data yet: its file is written; the
      write and a message to the scheduler ring are submitted behind whatever
      was prepared in the table's ring, and the table waits;
    - a compaction of a table of the last level that has data is deleted;
    - a read batch for keys the table cannot hold: at the last level a message
      to the network thread is prepared in the table's ring, and not submitted;
    - a read batch for keys it may hold, of a table with data: the descent
      through the batch starts ([start_read]);
    - a batch that must go down a level ends in undefined behaviour. *)
Theorem worker_turn_spec env w n t b bs rb :
  let level := n / LEVEL_FACTOR in
  let index := n - level * LEVEL_FACTOR in
  get_table (wk_levels w) level index = Ret t → waiting_on_io t = false →
  single_view (req_batch_wq t) (b :: bs) →
  b ≠ 0 → batches_heap (io_tree (wk_io w)) !! b = Some rb →
  1 ≤ LEVEL_FACTOR → lenZ (we_flags env) = LEVEL_FACTOR →
  lenZ (wk_ring w n) + 2 ≤ sstable_ring_entries →
  let turn := worker_turn junk memory env w n in
  let ends_with tab sqes ring heap :=
    ∃ w', turn = Ret w' ∧ get_table (wk_levels w') level index = Ret tab ∧
      io_sqes (wk_io w') = io_sqes (wk_io w) ++ sqes ∧ wk_ring w' n = ring ∧
      batches_heap (io_tree (wk_io w')) = heap (batches_heap (io_tree (wk_io w))) in
  ∃ q levels, single_view q bs ∧ let t1 := set_taken q b t in
    (batch_type rb ≠ READ → is_flushed_to t = false →
     ends_with (set_waiting true t1) (wk_ring w n ++ flush env n b) [] (λ h, h)) ∧
    (batch_type rb ≠ READ → is_flushed_to t = true → NUM_SSTABLE_LEVELS - 1 ≤ level →
     destroy_RequestBatch rb = Ret tt → ends_with t1 [] (wk_ring w n) (delete b)) ∧
    (∀ pool, content rb = readwrite_pool pool → passed_on t rb →
     NUM_SSTABLE_LEVELS - 1 ≤ level →
     ends_with t1 [] (wk_ring w n ++ [sqe_msg (we_network env) b]) (λ h, h)) ∧
    (∀ pool, batch_type rb = READ → content rb = readwrite_pool pool →
     present_in_level pool = true → is_flushed_to t = true →
     get_table levels level index = Ret t1 ∧
     turn = start_read junk memory env (set_levels levels (set_my_zero 0 w)) n level index t1
              (rw_length pool)) ∧
    (passed_on t rb → level < NUM_SSTABLE_LEVELS - 1 → ∀ w', turn ≠ Ret w').
Proof.
  intros level index Ht Hw Hv Hb Hrb HL Hfl Hroom turn ends_with.
  destruct (single_pop_ok _ _ _ Hv) as (q & Hpop & Hq).
  destruct (turn_prefix env w n level index t q b eq_refl eq_refl Ht Hw (proj1 Hv) Hpop)
    as (levels & Hg & _ & _ & Hturn).
  exists q, levels. split; [done|]. intros t1.
  rewrite (proj2 (Z.eqb_neq b 0) Hb) in Hturn. cbn [negb] in Hturn.
  fold turn t1 in Hturn, Hg. set (w1 := set_levels levels (set_my_zero 0 w)) in *.
  assert (Hd : deref_batch (batches_heap (io_tree (wk_io w1))) b = Ret rb)
    by (by apply deref_batch_ok).
  split; [|split; [|split; [|split]]].
  5:{ intros Hp Hlev w' Hret. rewrite Hturn in Hret.
      by apply (passed_on_no_ret _ _ _ _ _ t1 _ rb) in Hret. }
  all: unfold work_on in Hturn; rewrite Hd in Hturn; cbn [mbind exec_bind] in Hturn;
    change (is_flushed_to t1) with (is_flushed_to t) in Hturn.
  - intros Hty Hf. rewrite bool_decide_eq_false_2, Hf in Hturn by done. cbn [andb negb] in Hturn.
    rewrite prep_on_ok in Hturn by exact Hroom. cbn [mbind exec_bind] in Hturn.
    destruct (put_table_ok (submit n (set_ring n (wk_ring w1 n ++ flush env n b) w1)) level index
                t1 (set_waiting true t1) Hg) as (levels' & E & Hg' & _).
    eexists. rewrite Hturn. split; [exact E|]. split; [exact Hg'|]. cbn.
    rewrite wk_ring_set_ring. split_and!; [done| |done].
    unfold wk_ring, ring_of. cbn. by rewrite lookup_insert_eq.
  - intros Hty Hf Hlast Hdel. rewrite bool_decide_eq_false_2, Hf in Hturn by done.
    rewrite (proj2 (Z.ltb_ge _ _)) in Hturn by done. cbn [andb negb] in Hturn.
    unfold delete_batch in Hturn. rewrite Hd in Hturn. cbn [mbind exec_bind] in Hturn.
    rewrite Hdel in Hturn. eexists. rewrite app_nil_r. split; [exact Hturn|]. by split.
  - intros pool Hc Hp Hlast. unfold passed_on in Hp. rewrite Hc in Hp. destruct Hp as [Hty Hp].
    rewrite bool_decide_eq_true_2 in Hturn by done. unfold pool_of in Hturn.
    rewrite Hc in Hturn. cbn [mbind exec_bind] in Hturn. rewrite Hp in Hturn.
    rewrite (proj2 (Z.ltb_ge _ _)) in Hturn by done.
    assert (Hr1 : lenZ (wk_ring w1 n) + lenZ [sqe_msg (we_network env) b] ≤ sstable_ring_entries).
    { change (lenZ (wk_ring w n) + 1 ≤ sstable_ring_entries). lia. }
    rewrite (prep_on_ok _ _ _ Hr1) in Hturn.
    eexists. rewrite app_nil_r. split; [exact Hturn|]. split; [exact Hg|].
    split; [done|]. by rewrite wk_ring_set_ring.
  - intros pool Hty Hc Hp Hf. rewrite bool_decide_eq_true_2 in Hturn by done.
    unfold pool_of in Hturn. rewrite Hc in Hturn. cbn [mbind exec_bind] in Hturn.
    rewrite Hp, Hf in Hturn. by split.
Qed.

End turns.

(** ** Buffers on their way up *)

Lemma collect_new_ok q l k i cells :
  represents q (l ++ k) → 0 ≤ i → i + lenZ l ≤ lenZ cells →
  lenZ l ≤ num_new_buffers q < 2 ^ 32 →
  ∃ q' cells', collect_new (length l) i q cells = Ret (q', cells') ∧ represents q' k ∧
    num_new_buffers q' = num_new_buffers q - lenZ l ∧ lenZ cells' = lenZ cells ∧
    (∀ j, 0 ≤ j < i → cells' !! Z.to_nat j = cells !! Z.to_nat j) ∧
    ∀ j x, l !! j = Some x → cells' !! Z.to_nat (i + Z.of_nat j) = Some x.
Proof.
  revert q i cells. induction l as [|x l IH]; intros q i cells Hq Hi Hc Hn; cbn [collect_new length].
  { exists q, cells. split_and!; try done. change (lenZ []) with 0. lia. }
  rewrite lenZ_cons in *. pose proof (lenZ_nonneg l).
  destruct (pop_front_represents q x (l ++ k) Hq) as (q1 & -> & Hq1 & _ & _ & Hn1).
  rewrite u32_small in Hn1 by lia. cbn [mbind exec_bind]. rewrite setZ_ok by lia.
  cbn [mbind exec_bind].
  destruct (IH q1 (i + 1) (<[Z.to_nat i := x]> cells)) as (q' & cs & -> & Hq' & Hn' & Hl' & Hlo & Hlk);
    [done|lia|rewrite lenZ_insert; lia|lia|].
  rewrite lenZ_insert in Hl'. exists q', cs. split_and!; [done|done|lia|done| |].
  - intros j Hj. rewrite Hlo by lia. by rewrite list_lookup_insert_ne by lia.
  - intros [|j] y Hy; cbn in Hy.
    + injection Hy as <-. rewrite Z.add_0_r, Hlo by lia. apply list_lookup_insert_eq.
      unfold lenZ in *. lia.
    + rewrite <- (Hlk j y Hy). f_equal. lia.
Qed.

Lemma push_reverse_ok q l bs cells :
  represents q l → (∀ j x, bs !! j = Some x → cells !! j = Some x) →
  lenZ l + lenZ bs ≤ lenZ (queue q) → 0 ≤ num_new_buffers q →
  num_new_buffers q + lenZ bs < 2 ^ 32 →
  ∃ q', push_reverse (length bs) cells q = Ret q' ∧ represents q' (l ++ reverse bs) ∧
    num_new_buffers q' = num_new_buffers q + lenZ bs.
Proof.
  revert q l. induction bs as [|b bs IH] using rev_ind; intros q l Hq Hcs Hlen Hn0 Hn.
  { exists q. cbn. by rewrite app_nil_r, Z.add_0_r. }
  rewrite lenZ_app in *. change (lenZ [b]) with 1 in *. pose proof (lenZ_nonneg bs).
  rewrite length_app, Nat.add_1_r. cbn [push_reverse].
  rewrite (proj2 (getZ_Ret cells (Z.of_nat (length bs)) b)).
  2:{ split; [lia|]. rewrite Nat2Z.id. apply Hcs. by rewrite lookup_app_r, Nat.sub_diag by lia. }
  cbn [mbind exec_bind].
  destruct (push_back_represents q l b Hq) as (q1 & -> & Hq1 & Hl1 & _ & Hn1); [lia|].
  rewrite u32_small in Hn1 by lia. cbn [mbind exec_bind].
  destruct (IH q1 (l ++ [b])) as (q' & -> & Hq' & Hn'); [done| |..].
  { intros j x Hx. apply Hcs. by apply lookup_app_l_Some. }
  { rewrite lenZ_app, Hl1. change (lenZ [b]) with 1. lia. }
  { lia. }
  { lia. }
  exists q'. rewrite <- app_assoc in Hq'. rewrite reverse_snoc. split_and!; [done|done|lia].
Qed.

Section upstream.
Context {cfg : Config}.

(** C20: A table without work returns new buffers to the table above: the oldest
    of them, at most a table's fair number, leave its ring and enter the
    other ring youngest first; nothing is lost and the counts of both rings
    follow. *)
Theorem returned_buffers_spec env q prev l l' g :
  represents q l → represents prev l' → lock (we_attempts env) (bq_guard prev) = Ret g →
  0 ≤ max_sstable_height ≤ lenZ (we_cells env) →
  0 ≤ num_new_buffers q < 2 ^ 32 → num_new_buffers q ≤ lenZ l →
  let n := Z.min max_sstable_height (num_new_buffers q) in
  lenZ l' + n ≤ lenZ (queue prev) → 0 ≤ num_new_buffers prev →
  num_new_buffers prev + n < 2 ^ 32 →
  ∃ q' prev', return_new env q prev = Ret (q', prev') ∧
    represents q' (drop (Z.to_nat n) l) ∧
    represents prev' (l' ++ reverse (take (Z.to_nat n) l)) ∧
    num_new_buffers q' = num_new_buffers q - n ∧
    num_new_buffers prev' = num_new_buffers prev + n.
Proof.
  intros Hq Hprev Hg Hh Hnew Hle n Hroom Hp0 Hp. unfold return_new. fold n.
  set (bs := take (Z.to_nat n) l).
  assert (Hbs : lenZ bs = n)
    by (unfold bs, lenZ in *; rewrite length_take; unfold n; lia).
  assert (Hlen : Z.to_nat n = length bs) by (unfold lenZ in Hbs; lia).
  rewrite <- (take_drop (Z.to_nat n) l) in Hq. fold bs in Hq. rewrite Hlen in *.
  destruct (collect_new_ok q bs (drop (length bs) l) 0 (we_cells env) Hq)
    as (q1 & cs & -> & Hq1 & Hn1 & _ & _ & Hlk); [lia|lia|lia|].
  cbn [mbind exec_bind]. unfold lock_ring. rewrite Hg. cbn [mbind exec_bind].
  destruct (push_reverse_ok (set_bq_guard (atomic_guard g) prev) l' bs cs)
    as (prev1 & -> & Hprev1 & Hn2); [done| |cbn; lia|done|cbn; lia|].
  { intros j x Hx. rewrite <- (Hlk j x Hx). f_equal. lia. }
  cbn [mbind exec_bind]. cbn in Hn2. eexists _, _. split; [done|].
  split; [exact Hq1|]. split; [exact Hprev1|]. cbn. lia.
Qed.

End upstream.

(** ** A table without work *)

Lemma give_old_ok n limit given q t l :
  limit = given + Z.of_nat n → represents q l → lenZ l + Z.of_nat n ≤ lenZ (queue q) →
  Z.of_nat n ≤ insert_buffers_from t ≤ lenZ (page_cache_buffers t) →
  lenZ (page_cache_buffers t) < 2 ^ 32 →
  ∃ q' t' given', give_old n limit given q t = Ret (q', t', given') ∧
    cache_helper t' = cache_helper t ∧
    insert_buffers_from t' = insert_buffers_from t - Z.of_nat n.
Proof.
  revert given q t l. induction n as [|n IH]; intros given q t l Hlim Hq Hroom Hfrom Hlen;
    cbn [give_old].
  { exists q, t, given. split_and!; [done..|lia]. }
  decide_tests. rewrite u32_small by lia.
  destruct (getZ_lt (page_cache_buffers t) (insert_buffers_from t - 1)) as (b & -> & _); [lia|].
  cbn [mbind exec_bind].
  destruct (push_back_represents q l b Hq) as (q1 & -> & Hq1 & Hl1 & _); [lia|].
  cbn [mbind exec_bind].
  destruct (IH (given + 1) q1 (set_buffers (insert_buffers_from t - 1) (page_cache_buffers t)
    (cache_helper t) t) (l ++ [b])) as (q' & t' & g' & -> & Hc & Hf); [lia|done| |cbn; lia|done|].
  { rewrite lenZ_app, Hl1. change (lenZ [b]) with 1. lia. }
  exists q', t', g'. split_and!; [done|done|cbn in Hf; lia].
Qed.

Section idle_proofs.
Context {cfg : Config} {F : Type} `{FilterLike F}.
Context (junk : ConnectionRequest) (memory : Z → Content).
Implicit Types (w : Worker (F := F)).

(** How many buffers a table with [cur] of them gives away. *)
Definition given_away (cur : Z) : Z :=
  Z.max (Z.min cur max_sstable_height / LEVEL_FACTOR) 1.

Lemma return_old_never_filled env q prev t l g :
  lock (we_attempts env) (bq_guard prev) = Ret g → represents prev l →
  1 ≤ cur_num_buffers q → never_filled (cache_helper t) →
  let n := given_away (cur_num_buffers q) in
  lenZ l + n ≤ lenZ (queue prev) →
  n ≤ insert_buffers_from t ≤ lenZ (page_cache_buffers t) →
  lenZ (page_cache_buffers t) < 2 ^ 32 →
  return_old env q prev t = Undef OutOfBounds.
Proof.
  intros Hg Hprev Hcur Hnf n Hroom Hfrom Hlen. unfold return_old.
  rewrite (proj2 (Z.eqb_neq (cur_num_buffers q) 0)) by lia. fold (given_away (cur_num_buffers q)).
  fold n. assert (Hn : 1 ≤ n) by (unfold n, given_away; lia).
  rewrite (proj2 (Z.eqb_neq n 0)) by lia. unfold lock_ring. rewrite Hg. cbn [mbind exec_bind].
  destruct (give_old_ok (Z.to_nat n) n 0 (set_bq_guard (atomic_guard g) prev) t l)
    as (q' & t' & g' & -> & Hc & Hf); [lia|done|cbn; lia|lia|done|].
  cbn [mbind exec_bind]. rewrite Hc.
  destruct (never_filled_undefined _ Hnf) as (_ & _ & Hrem).
  rewrite Hrem; [done|]. pose proof (u32_range (insert_buffers_from t' + 1)).
  change u32_max with (2 ^ 32 - 1). lia.
Qed.

(** A table of one thread without a batch.  The first time it only notes
    that it has waited, without taking anything from its queue or submitting
    anything.  The next time, below the first level and with no new buffers,
    it gives a part of its buffers to the table above; as its cache index is
    never filled, removing them from it leaves the index array, so that the
    worker's behaviour is undefined as soon as a table has been idle twice. *)
Theorem idle_table_spec env w n t own prev l :
  let level := n / LEVEL_FACTOR in
  let index := n - level * LEVEL_FACTOR in
  get_table (wk_levels w) level index = Ret t → waiting_on_io t = false →
  single_view (req_batch_wq t) [] →
  let turn := worker_turn junk memory env w n in
  let t1 := set_taken (req_batch_wq t) 0 t in
  (already_waited t = false →
   ∃ w', turn = Ret w' ∧ get_table (wk_levels w') level index = Ret (set_waited true t1) ∧
     io_sqes (wk_io w') = io_sqes (wk_io w) ∧
     io_prepared (wk_io w') = io_prepared (wk_io w)) ∧
  (already_waited t = true → 1 ≤ level →
   get_buffer_queue (wk_levels w) level index = Ret own →
   get_buffer_queue (wk_levels w) (level - 1) index = Ret prev →
   is_single_thread (bq_guard own) = true → is_single_thread (bq_guard prev) = true →
   num_new_buffers own = 0 → 1 ≤ cur_num_buffers own → represents prev l →
   never_filled (cache_helper t) →
   let k := given_away (cur_num_buffers own) in
   lenZ l + k ≤ lenZ (queue prev) →
   k ≤ insert_buffers_from t ≤ lenZ (page_cache_buffers t) →
   lenZ (page_cache_buffers t) < 2 ^ 32 →
   turn = Undef OutOfBounds).
Proof.
  intros level index Ht Hw Hv turn t1.
  destruct (turn_prefix junk memory env w n level index t (req_batch_wq t) 0 eq_refl eq_refl Ht Hw
    (proj1 Hv) (single_pop_empty _ Hv)) as (levels & Hg & _ & Hbq & Hturn).
  change (negb (0 =? 0)) with false in Hturn. cbn iota in Hturn. fold turn t1 in Hturn, Hg.
  split.
  - intros Haw. rewrite Haw in Hturn. cbn [negb] in Hturn.
    destruct (put_table_ok (set_levels levels (set_my_zero 0 w)) level index t1
      (set_waited true t1) Hg) as (levels' & E & Hg' & _).
    exists (set_levels levels' (set_levels levels (set_my_zero 0 w))). by rewrite Hturn, E.
  - intros Haw Hlev Hown Hprev Hso Hsp Hnew Hcur Hl Hnf k Hroom Hfrom Hlen.
    rewrite Haw, (proj2 (Z.ltb_lt _ _)) in Hturn by lia. cbn [negb] in Hturn.
    rewrite !Hbq, Hown, Hprev in Hturn. cbn [mbind exec_bind] in Hturn. rewrite Hturn.
    unfold idle_turn. rewrite (proj2 (Z.ltb_lt _ _)), Hso by lia.
    change (num_new_buffers (set_bq_guard (atomic_guard (bq_guard own)) own))
      with (num_new_buffers own). rewrite Hnew. change (0 =? 0) with true. cbn iota.
    rewrite (return_old_never_filled env _ prev (set_waited false t1) l (bq_guard prev));
      try done. unfold lock. by rewrite Hsp.
Qed.

(** A message on the scheduler ring: after a flush the table counts as written
    (and the database as full when it lies on the last level); after a read
    that returned bytes, the buffer cannot be entered into the index. *)
Theorem worker_completion_spec env w n t left_boundary res chunks :
  let level := n / LEVEL_FACTOR in
  let index := n - level * LEVEL_FACTOR in
  get_table (wk_levels w) level index = Ret t →
  (∃ w', worker_completion junk memory env w n [] = Ret w' ∧
     get_table (wk_levels w') level index = Ret (set_flushed t) ∧
     wk_is_practically_full w' = (level =? NUM_SSTABLE_LEVELS - 1)) ∧
  (never_filled (cache_helper t) → 0 < res →
   worker_completion junk memory env w n ((left_boundary, res) :: chunks) = Undef UninitPtr).
Proof.
  intros level index Ht. unfold worker_completion. fold level index. rewrite Ht.
  cbn [mbind exec_bind]. split.
  - destruct (put_table_ok w level index t (set_flushed t) Ht) as (levels & -> & Hg & _).
    cbn [mbind exec_bind]. by eexists.
  - intros Hnf Hres. cbn [note_chunks]. unfold note_chunk. decide_tests.
    destruct (never_filled_undefined _ Hnf) as (Hmap & _). by rewrite Hmap.
Qed.

End idle_proofs.

(** ** Examples *)

(** A table that its one thread feeds and drains, with the batch at 7 in its
    queue. *)
Definition busy_queue : RequestBatchWaitQueue :=
  match try_push_back (new_WaitQueue true 0) 7 false with
  | Ret (q, _) => q
  | _ => new_WaitQueue true 0
  end.

Lemma busy_queue_view : single_view busy_queue [7].
Proof.
  destruct (single_push_ok _ [] 7 (new_single_view 0)) as (q & E & Hq).
  unfold busy_queue. by rewrite E.
Qed.

(** Ten levels of three tables [t] whose rings have room for four buffers and
    count [cur] old ones; a compaction at 7. *)
Definition demo_worker (t : SSTableInfo) (cur : Z) : Worker (F := Filter) :=
  MkWorker (MkIoState (MkTreeState
      (replicate 10 (MkLevelInfo (MkGuard 1 true) [] (SparseIndex.MkSparseIndex [])
        (replicate 3 (new_BufferQueue cur [0; 0; 0; 0] true)) (replicate 3 t)))
      {[7 := MkRequestBatch (MkBaseRequest COMPACTION) (req_seg (MkRequestSegment (MkStack 0 []) []))]}
      8) [] [] ∅) false 0.

Definition demo_worker_env : WorkerEnv :=
  MkWorkerEnv 5 [] false [false; false; false] (replicate 20 0) ∅ 100 200.

Definition busy_table : SSTableInfo := set_req_batch_wq busy_queue blank_table.

(** A read batch of no requests at 7 instead, on the last level. *)
Definition demo_reader : Worker (F := Filter) :=
  let w := demo_worker busy_table 0 in
  MkWorker (MkIoState (MkTreeState (wk_levels w)
      {[7 := MkRequestBatch (MkBaseRequest READ) (readwrite_pool (MkReadWritePool [] 0 0 false))]}
      8) [] [] ∅) false 0.

(** Table 4 is written for the first time; table 28, of the last level, passes
    its read batch back, which stays in its ring. *)
Lemma worker_turn_spec_witness :
  (∃ w', worker_turn (cfg := wide_config) dead_request no_memory demo_worker_env
           (demo_worker busy_table 0) 4 = Ret w' ∧
     io_sqes (wk_io w') = [sqe_write 4 7 (3 * 2 ^ 21) 0; sqe_msg 100 4]) ∧
  ∃ w', worker_turn (cfg := wide_config) dead_request no_memory demo_worker_env demo_reader 28 =
          Ret w' ∧
    io_sqes (wk_io w') = [] ∧ wk_ring w' 28 = [sqe_msg 200 7].
Proof.
  split.
  - destruct (@worker_turn_spec wide_config Filter _ dead_request no_memory demo_worker_env
      (demo_worker busy_table 0) 4 busy_table 7 []
      (MkRequestBatch (MkBaseRequest COMPACTION) (req_seg (MkRequestSegment (MkStack 0 []) []))))
      as (q & levels & _ & Hflush & _);
      [done|done|exact busy_queue_view|done|done|by vm_compute|done|by vm_compute|].
    destruct Hflush as (w' & E & _ & Hs & _); [done|done|]. by exists w'.
  - destruct (@worker_turn_spec wide_config Filter _ dead_request no_memory demo_worker_env
      demo_reader 28 busy_table 7 []
      (MkRequestBatch (MkBaseRequest READ) (readwrite_pool (MkReadWritePool [] 0 0 false))))
      as (q & levels & _ & _ & _ & Hback & _);
      [done|done|exact busy_queue_view|done|done|by vm_compute|done|by vm_compute|].
    destruct (Hback (MkReadWritePool [] 0 0 false)) as (w' & E & _ & Hs & Hr & _);
      [done|by split|by vm_compute|]. by exists w'.
Defined.

(** The same table, having waited, without work and with one buffer. *)
Definition idle_table : SSTableInfo :=
  set_waited true (set_buffers 1 [5; 0; 0] (new_SSTableCacheHelper [] [])
    (set_req_batch_wq (new_WaitQueue true 0) blank_table)).

Lemma idle_table_spec_witness :
  worker_turn (cfg := wide_config) dead_request no_memory demo_worker_env
    (demo_worker idle_table 1) 4 = Undef OutOfBounds.
Proof.
  refine (proj2 (@idle_table_spec wide_config Filter _ dead_request no_memory
    demo_worker_env (demo_worker idle_table 1) 4 idle_table
    (new_BufferQueue 1 [0; 0; 0; 0] true) (new_BufferQueue 1 [0; 0; 0; 0] true) [0]
    eq_refl eq_refl (new_single_view 0)) eq_refl _ eq_refl eq_refl eq_refl eq_refl eq_refl _ _ _ _ _ _);
    try by vm_compute.
  by apply new_BufferQueue_represents.
Defined.

Lemma returned_buffers_spec_witness :
  ∃ q' prev', return_new (cfg := wide_config) demo_worker_env
      (MkBufferQueue 0 2 3 2 [4; 5; 6; 0] (MkGuard 1 true)) (new_BufferQueue 0 [9; 0; 0; 0] true) =
    Ret (q', prev') ∧ represents q' [6] ∧ represents prev' [9; 5; 4].
Proof.
  destruct (@returned_buffers_spec wide_config demo_worker_env
    (MkBufferQueue 0 2 3 2 [4; 5; 6; 0] (MkGuard 1 true)) (new_BufferQueue 0 [9; 0; 0; 0] true)
    [4; 5; 6] [9] (MkGuard 1 true)) as (q' & prev' & E & Hq & Hp & _);
    [|by apply new_BufferQueue_represents|done|by vm_compute..|by exists q', prev'].
  split_and!; try by vm_compute. intros [|[|[|i]]] x Hx; by simplify_eq/=.
Defined.
