(* ===== verification/WorkerInit.v ===== *)
(** * Start-up of the worker threads

    The first loop of [LSMTree::sstable_worker_thread] ([lsm_tree.hpp], lines
    497 to 643) and [LSMTree::schedule_initialization_read]: every table's file
    is opened and read once, two buffers at a time, to learn its keys.

    Buffers are addresses into the worker's page cache area, which starts at
    [area]; their contents are a map from addresses.  The rings of liburing are
    not modelled: what the loop finds on them is an argument. *)

From S2P Require Import Prelude Config SparseIndex BufferQueue CacheHelper WaitQueue Filter.
From S2P Require Import Guards RequestBatch.
From S2P Require Import LevelInfo Distribute Descent Worker.

Section startup.
Context {cfg : Config} {F : Type} `{FilterLike F}.

Record InitState : Type := MkInitState {
  in_levels : list (LevelInfo F);
  in_pages : gmap Z bytes;
  in_fds : list Z;
  in_num_read : Z;      (** the tree's [num_read] *)
  in_initialized : Z;   (** the worker's [num_initialized_read] *)
  in_sqes : list Sqe
}.

Definition in_set_levels (levels : list (LevelInfo F)) (s : InitState) : InitState :=
  MkInitState levels (in_pages s) (in_fds s) (in_num_read s) (in_initialized s) (in_sqes s).

Definition in_submit (sqes : list Sqe) (s : InitState) : InitState :=
  MkInitState (in_levels s) (in_pages s) (in_fds s) (in_num_read s) (in_initialized s)
    (in_sqes s ++ sqes).

Definition in_put_table (s : InitState) (level index : Z) (t : SSTableInfo) : exec InitState :=
  levels ← update_table (in_levels s) level index (λ _, Ret t);
  Ret (in_set_levels levels s).

(** [schedule_initialization_read] *)
Definition schedule_initialization_read (t : SSTableInfo) (scheduler_ring sstable_num : Z)
    : exec (list Sqe) :=
  let len := fair_aligned_sstable_page_cache_buffer_size in
  b0 ← getZ (page_cache_buffers t) 0;
  b1 ← getZ (page_cache_buffers t) 1;
  Ret [sqe_read sstable_num b0 len (desired_sstable_offset t);
       sqe_read sstable_num b1 len (u64 (desired_sstable_offset t + len));
       sqe_msg scheduler_ring sstable_num].

(** ** What a finished read tells about the table *)

(** One round of the loop over the entries of a buffer.  It looks at entry [i]
    of the buffer, [i] being the table the outer loop is at, in every round,
    and copies the table's bounds into the buffer. *)
Definition note_entry (i : Z) (kmin kmax : bytes) (st : bytes * F) : exec (bytes * F) :=
  let '(page, f) := st in
  v ← page_value page i;
  if memcmp v (zeros VALUE_LENGTH) =? 0 then Ret st
  else
    k ← page_key page i;
    let at_ := i * MEMTABLE_ENTRY_LENGTH in
    page1 ← (if memcmp k kmin <? 0 then store page at_ kmin else Ret page);
    page2 ← (if 0 <? memcmp k kmax then store page1 at_ kmax else Ret page1);
    key ← mem_from page2 at_;
    f' ← insert_key f key;
    Ret (page2, f').

Definition note_entries (i num_entries : Z) (kmin kmax : bytes) (st : bytes * F)
    : exec (bytes * F) :=
  foldM (λ st _, note_entry i kmin kmax st) (seqZ 0 num_entries) st.

Definition set_filter (levels : list (LevelInfo F)) (level index : Z) (f : F)
    : exec (list (LevelInfo F)) :=
  update_at levels level (λ lv,
    fs ← setZ (filters lv) index f;
    Ret (MkLevelInfo (guard lv) fs (sparse_index lv) (buffer_queues lv) (sstable_infos lv))).

Definition set_range (levels : list (LevelInfo F)) (level index : Z) (t : SSTableInfo)
    : exec (list (LevelInfo F)) :=
  update_at levels level (λ lv,
    si ← insert_range (sparse_index lv) (min_key t) (max_key t) index;
    Ret (MkLevelInfo (guard lv) (filters lv) si (buffer_queues lv) (sstable_infos lv))).

(** Bytes were read into buffer [j]. *)
Definition note_read (s : InitState) (i level index j res : Z) (t : SSTableInfo)
    : exec (InitState * SSTableInfo) :=
  let t1 := set_flushed (set_offset (u64 (desired_sstable_offset t + res)) t) in
  buf ← getZ (page_cache_buffers t) j;
  page ← match in_pages s !! buf with Some p => Ret p | None => Undef OutOfBounds end;
  lv ← getZ (in_levels s) level;
  f ← getZ (filters lv) index;
  '(page', f') ← note_entries i (res / MEMTABLE_ENTRY_LENGTH) (min_key t) (max_key t) (page, f);
  levels ← set_filter (in_levels s) level index f';
  Ret (MkInitState levels (<[buf := page']> (in_pages s)) (in_fds s) (in_num_read s)
         (in_initialized s) (in_sqes s), t1).

(** Completion [j] of the two reads of a table.  [res] is compared with the
    buffer size as an unsigned number. *)
Definition init_chunk (scheduler_ring i sstable_num level index : Z) (s : InitState)
    (x : Z * Z) : exec InitState :=
  let '(j, res) := x in
  t ← get_table (in_levels s) level index;
  '(s1, t1) ← (if 0 <? res then note_read s i level index j res t else Ret (s, t));
  if u32 res <? fair_aligned_sstable_page_cache_buffer_size then
    levels ← set_range (in_levels s1) level index t1;
    let s2 := MkInitState levels (in_pages s1) (in_fds s1) (u32 (in_num_read s1 + 1))
                (u32 (in_initialized s1 + 1)) (in_sqes s1) in
    in_put_table s2 level index (set_waiting false (set_offset u64_max t1))
  else
    s2 ← in_put_table s1 level index t1;
    if j =? 1 then
      sqes ← schedule_initialization_read t1 scheduler_ring sstable_num;
      Ret (in_submit sqes s2)
    else Ret s2.

(** What the table's ring holds when the scheduler ring has a message for it:
    two finished reads, or else the opened file and its user datum. *)
Inductive InitCompletion : Set :=
  | both_read (res0 res1 : Z)
  | file_opened (user_data : Z).

Definition init_completion (scheduler_ring i : Z) (s : InitState) (sstable_num : Z)
    (c : InitCompletion) : exec InitState :=
  let level := sstable_num / LEVEL_FACTOR in
  let index := sstable_num - level * LEVEL_FACTOR in
  match c with
  | both_read res0 res1 =>
      foldM (init_chunk scheduler_ring i sstable_num level index) [(0, res0); (1, res1)] s
  | file_opened user_data =>
      fds ← setZ (in_fds s) sstable_num (i32 user_data);
      let s1 := MkInitState (in_levels s) (in_pages s) fds (in_num_read s) (in_initialized s)
                  (in_sqes s) in
      t ← get_table (in_levels s1) level index;
      s2 ← in_put_table s1 level index (set_offset 0 t);
      sqes ← schedule_initialization_read (set_offset 0 t) scheduler_ring sstable_num;
      Ret (in_submit sqes s2)
  end.

(** ** Setting a table up *)

(** Address [m] of a table's buffers. *)
Definition buffer_address (area sstable_num m : Z) : Z :=
  area + u32 (fair_aligned_sstable_page_cache_buffer_size * u32 (sstable_num + m)).

(** [page_cache_buffers[m] = ...; cache_helper.add_buffer()] *)
Definition add_own_buffer (area sstable_num : Z) (t : SSTableInfo) (m : Z) : exec SSTableInfo :=
  bs ← setZ (page_cache_buffers t) m (buffer_address area sstable_num m);
  Ret (set_buffers (insert_buffers_from t) bs (add_buffer (cache_helper t)) t).

(** The key bounds before anything was read. *)
Definition set_bounds (kmin kmax : bytes) (t : SSTableInfo) : SSTableInfo :=
  MkSSTableInfo (req_batch_wq t) (is_flushed_to t) (insert_buffers_from t)
    (page_cache_buffers t) kmin kmax (cache_helper t) (stack t) (cur_req_batch t)
    (waiting_on_io t) (already_waited t) (desired_sstable_offset t).

(** The directory name is copied over the first eight bytes of the table's
    descriptor instead of its file path: its ['/'] lands in the consumer guard
    of the wait queue, the rest in padding, as members of the guard are
    [ALIGN_NO_FALSE_SHARING] bytes apart, at least eight. *)
Definition path_written (t : SSTableInfo) : SSTableInfo :=
  set_req_batch_wq (set_consumer_guard slash (req_batch_wq t)) t.

Definition set_up_table (area scheduler_ring : Z) (s : InitState) (sstable_num : Z)
    : exec InitState :=
  let level := sstable_num / LEVEL_FACTOR in
  let index := sstable_num - level * LEVEL_FACTOR in
  t ← get_table (in_levels s) level index;
  if desired_sstable_offset t =? u64 (-2) then
    let t1 := path_written (set_bounds (replicate (Z.to_nat KEY_LENGTH) 255) (zeros KEY_LENGTH) t) in
    let t2 := set_buffers max_sstable_height (page_cache_buffers t1) (cache_helper t1)
                (set_offset 0 t1) in
    t3 ← foldM (add_own_buffer area sstable_num) (seqZ 0 max_sstable_height) t2;
    s1 ← in_put_table s level index t3;
    Ret (in_submit [sqe_open level index; sqe_msg scheduler_ring sstable_num] s1)
  else Ret s.

(** ** The loop *)

Definition init_step (area scheduler_ring : Z) (s : InitState)
    (x : Z * option (Z * InitCompletion)) : exec InitState :=
  s1 ← match x.2 with
       | Some (sstable_num, c) => init_completion scheduler_ring x.1 s sstable_num c
       | None => Ret s
       end;
  set_up_table area scheduler_ring s1 x.1.

(** [while (num_initialized_read < WORKER_SSTABLE_BATCH_SIZE)]; [passes] says
    what each pass finds before each table. *)
Fixpoint init_loop (area scheduler_ring first : Z)
    (passes : list (Z → option (Z * InitCompletion))) (s : InitState) : exec InitState :=
  if in_initialized s <? WORKER_SSTABLE_BATCH_SIZE then
    match passes with
    | [] => Spin
    | found :: rest =>
        s' ← foldM (init_step area scheduler_ring)
               ((λ i, (i, found i)) <$> seqZ first WORKER_SSTABLE_BATCH_SIZE) s;
        init_loop area scheduler_ring first rest s'
    end
  else Ret s.

End startup.

(** ** What start-up does to the tables *)

(** The bounds a table is set up with: no key lies between them. *)
Definition start_bounds {cfg : Config} : bytes * bytes :=
  (replicate (Z.to_nat KEY_LENGTH) 255, zeros KEY_LENGTH).

(** A relation between a table before and after that holds across each of the
    changes start-up makes to a table. *)
Class InitStable {cfg : Config} (R : relation SSTableInfo) : Prop := {
  stable_preorder :: PreOrder R;
  stable_offset t z : R t (set_offset z t);
  stable_flushed t : R t (set_flushed t);
  stable_waiting t : R t (set_waiting false t);
  stable_buffers t from bs c : R t (set_buffers from bs c t);
  stable_set_up t : R t (path_written (set_bounds start_bounds.1 start_bounds.2 t))
}.


Section stable.
Context {cfg : Config} {F : Type} `{FilterLike F} (R : relation SSTableInfo) `{!InitStable R}.
Implicit Types (levels : list (LevelInfo F)) (s : InitState (F := F)) (t : SSTableInfo).

(** Every table of the second tree comes from the same table of the first. *)
Definition kept levels levels' : Prop :=
  ∀ l j t', get_table levels' l j = Ret t' → ∃ t, get_table levels l j = Ret t ∧ R t t'.

#[local] Instance kept_preorder : PreOrder kept.
Proof.
  split; [intros levels l j t Ht; by exists t|].
  intros l1 l2 l3 H12 H23 l j t3 Ht3. destruct (H23 l j t3 Ht3) as (t2 & Ht2 & HR2).
  destruct (H12 l j t2 Ht2) as (t1 & Ht1 & HR1). exists t1. split; [done|by transitivity t2].
Qed.

Lemma update_table_Ret levels level i t levels' :
  update_table levels level i (λ _, Ret t) = Ret levels' →
  ∃ t0, get_table levels level i = Ret t0.
Proof.
  unfold update_table, update_at, get_table. intros E.
  apply bind_Ret_inv in E as (lv & Hlv & E). apply bind_Ret_inv in E as (lv' & E' & _).
  apply bind_Ret_inv in E' as (ts & E' & _). apply bind_Ret_inv in E' as (t0 & Ht0 & _).
  exists t0. by rewrite Hlv.
Qed.

Lemma in_put_table_kept s level i t0 t s' :
  in_put_table s level i t = Ret s' → get_table (in_levels s) level i = Ret t0 → R t0 t →
  kept (in_levels s) (in_levels s').
Proof.
  unfold in_put_table. intros E Ht0 HR. apply bind_Ret_inv in E as (levels & E & [= <-]). cbn.
  destruct (update_table_ok _ level i t0 t Ht0) as (l' & E' & Hg & Ho & _).
  rewrite E in E'. injection E' as <-. intros l j t' Ht'.
  destruct (decide ((l, j) = (level, i))) as [[= -> ->]|Hne].
  - rewrite Hg in Ht'. injection Ht' as <-. by exists t0.
  - exists t'. by rewrite <- Ho.
Qed.

(** An update of a level that leaves its tables alone. *)
Lemma update_level_tables levels level (g : LevelInfo F → exec (LevelInfo F)) levels' l j :
  update_at levels level g = Ret levels' →
  (∀ lv lv', g lv = Ret lv' → sstable_infos lv' = sstable_infos lv) →
  get_table levels' l j = get_table levels l j.
Proof.
  unfold update_at. intros E Hg. apply bind_Ret_inv in E as (lv & Hlv & E).
  apply bind_Ret_inv in E as (lv' & E' & E). apply Hg in E'.
  pose proof Hlv as [Hl Hlk]%getZ_Ret. apply lookup_lt_Some in Hlk.
  rewrite setZ_ok in E by (unfold lenZ; lia). injection E as <-. unfold get_table.
  rewrite getZ_insert by (unfold lenZ; lia). case_decide; [subst l|done].
  rewrite Hlv. cbn. by rewrite E'.
Qed.

Lemma set_filter_tables levels level index f levels' l j :
  set_filter levels level index f = Ret levels' → get_table levels' l j = get_table levels l j.
Proof.
  intros E. apply (update_level_tables _ _ _ _ _ _ E). intros lv lv' Hset.
  by apply bind_Ret_inv in Hset as (fs & _ & [= <-]).
Qed.

Lemma set_range_tables levels level index t levels' l j :
  set_range levels level index t = Ret levels' → get_table levels' l j = get_table levels l j.
Proof.
  intros E. apply (update_level_tables _ _ _ _ _ _ E). intros lv lv' Hset.
  by apply bind_Ret_inv in Hset as (si & _ & [= <-]).
Qed.

Lemma same_tables_kept levels levels' :
  (∀ l j, get_table levels' l j = get_table levels l j) → kept levels levels'.
Proof. intros Heq l j t' Ht'. exists t'. by rewrite <- Heq. Qed.

Lemma note_read_kept s i level index j res t s' t' :
  note_read s i level index j res t = Ret (s', t') →
  R t t' ∧ ∀ l k, get_table (in_levels s') l k = get_table (in_levels s) l k.
Proof.
  unfold note_read. intros E. apply bind_Ret_inv in E as (buf & _ & E).
  apply bind_Ret_inv in E as (page & _ & E). apply bind_Ret_inv in E as (lv & Hlv & E).
  apply bind_Ret_inv in E as (f & _ & E). apply bind_Ret_inv in E as ([page' f'] & _ & E).
  apply bind_Ret_inv in E as (levels & E1 & [= <- <-]). split.
  - etransitivity; [apply stable_offset|apply stable_flushed].
  - intros l k. by apply (set_filter_tables _ _ _ _ _ _ _ E1).
Qed.

Lemma init_chunk_kept ring i num level index s x s' :
  init_chunk ring i num level index s x = Ret s' → kept (in_levels s) (in_levels s').
Proof.
  destruct x as [j res]. unfold init_chunk. intros E. apply bind_Ret_inv in E as (t & Ht & E).
  apply bind_Ret_inv in E as ([s1 t1] & E1 & E).
  assert (H1 : R t t1 ∧ ∀ l k, get_table (in_levels s1) l k = get_table (in_levels s) l k).
  { destruct (0 <? res); [by apply (note_read_kept _ _ _ _ _ _ _ _ _ E1)|].
    by injection E1 as <- <-. }
  destruct H1 as [HR Hsame]. transitivity (in_levels s1); [by apply same_tables_kept|].
  rewrite <- Hsame in Ht. destruct (u32 res <? _).
  - apply bind_Ret_inv in E as (levels & E2 & E).
    pose proof (λ l j, set_range_tables _ _ _ _ _ l j E2) as Hsame2.
    transitivity levels; [by apply same_tables_kept|].
    apply (in_put_table_kept _ _ _ t _ _ E); [by cbn; rewrite Hsame2|].
    transitivity t1; [done|]. etransitivity; [apply stable_offset|apply stable_waiting].
  - apply bind_Ret_inv in E as (s2 & E2 & E). apply (in_put_table_kept _ _ _ t) in E2; [|done..].
    destruct (j =? 1); [|by injection E as <-].
    by apply bind_Ret_inv in E as (sqes & _ & [= <-]).
Qed.

Lemma init_completion_kept ring i s num c s' :
  init_completion ring i s num c = Ret s' → kept (in_levels s) (in_levels s').
Proof.
  destruct c as [r0 r1|ud]; cbn [init_completion foldM]; intros E.
  - apply bind_Ret_inv in E as (s1 & E1 & E). apply bind_Ret_inv in E as (s2 & E2 & [= <-]).
    transitivity (in_levels s1); by eapply init_chunk_kept.
  - apply bind_Ret_inv in E as (fds & _ & E). apply bind_Ret_inv in E as (t & Ht & E).
    apply bind_Ret_inv in E as (s2 & E2 & E). apply bind_Ret_inv in E as (sqes & _ & [= <-]).
    by apply (in_put_table_kept _ _ _ t _ _ E2); [|apply stable_offset].
Qed.

Lemma add_own_buffers_kept area num l t t' :
  foldM (add_own_buffer area num) l t = Ret t' → R t t'.
Proof.
  intros E. apply (foldM_inv (R t)) in E; [done| |done]. intros t1 m t2 HR E1.
  apply bind_Ret_inv in E1 as (bs & _ & [= <-]). by transitivity t1; [|apply stable_buffers].
Qed.

Lemma set_up_table_kept area ring s num s' :
  set_up_table area ring s num = Ret s' → kept (in_levels s) (in_levels s').
Proof.
  unfold set_up_table. intros E. apply bind_Ret_inv in E as (t & Ht & E).
  destruct (_ =? _); [|by injection E as <-].
  apply bind_Ret_inv in E as (t3 & E3 & E). apply bind_Ret_inv in E as (s1 & E1 & [= <-]).
  apply (in_put_table_kept _ _ _ t _ _ E1); [done|]. apply add_own_buffers_kept in E3.
  etransitivity; [apply stable_set_up|]. etransitivity; [apply stable_offset|].
  etransitivity; [apply stable_buffers|exact E3].
Qed.

Lemma init_step_kept area ring s x s' :
  init_step area ring s x = Ret s' → kept (in_levels s) (in_levels s').
Proof.
  unfold init_step. intros E. apply bind_Ret_inv in E as (s2 & E2 & E1).
  transitivity (in_levels s2); [|by eapply set_up_table_kept].
  destruct (x.2) as [[num c]|]; [by eapply init_completion_kept|by injection E2 as <-].
Qed.

Lemma init_loop_kept area ring first passes s s' :
  init_loop area ring first passes s = Ret s' → kept (in_levels s) (in_levels s').
Proof.
  revert s. induction passes as [|found rest IH]; intros s E; cbn [init_loop] in E;
    destruct (_ <? _); try done; [by injection E as <-| |by injection E as <-].
  apply bind_Ret_inv in E as (s1 & E1 & E). transitivity (in_levels s1); [|by apply IH].
  apply (foldM_inv (λ s1, kept (in_levels s) (in_levels s1))) in E1; [done| |done].
  intros s2 x s3 H2 E3. by transitivity (in_levels s2); [|by eapply init_step_kept].
Qed.

End stable.

(** ** The bounds of the tables *)

Section bounds.
Context {cfg : Config} {F : Type} `{FilterLike F}.
Implicit Types (levels : list (LevelInfo F)) (s : InitState (F := F)) (t : SSTableInfo).

Definition bounds t : bytes * bytes := (min_key t, max_key t).

(** The table has the bounds it had before, or those of the set-up. *)
Definition same_bounds t t' : Prop := bounds t' = bounds t ∨ bounds t' = start_bounds.

#[local] Instance same_bounds_stable : InitStable same_bounds.
Proof.
  split; [|by left..|by right]. split; [by left|]. unfold same_bounds.
  intros t1 t2 t3 [H1|H1] [H2|H2]; rewrite ?H2, ?H1; auto.
Qed.

(** C28: Start-up never learns the key range of a table: whatever the files hold
    and in whatever order the reads complete, when the loop ends every table
    has the bounds it had before or the ones of the set-up, between which no
    key lies. *)
Theorem bounds_never_learned area ring first passes s s' :
  init_loop area ring first passes s = Ret s' →
  kept same_bounds (in_levels s) (in_levels s') ∧
  ∀ k, lenZ k = KEY_LENGTH → valid_bytes k → 1 ≤ KEY_LENGTH →
    ¬ (memcmp (start_bounds.1) k ≤ 0 ∧ memcmp k (start_bounds.2) ≤ 0).
Proof.
  intros E. split.
  - by apply (init_loop_kept _ _ _ _ _ _ _ E).
  - intros [|x k] Hk Hv HK; [change (lenZ []) with 0 in Hk; lia|].
    apply Forall_cons in Hv as [Hx _]. unfold start_bounds, zeros.
    destruct (Z.to_nat KEY_LENGTH) as [|n] eqn:En; [lia|]. cbn [replicate fst snd memcmp].
    destruct (Z.ltb_spec 255 x); [lia|]. destruct (Z.ltb_spec x 255); [lia|].
    destruct (Z.ltb_spec x 0); [lia|]. destruct (Z.ltb_spec 0 x); [lia|]. lia.
Qed.

End bounds.

(** ** Tables with an empty file *)

Section empty_files.
Context {cfg : Config} {ic : IndexConfig cfg} {F : Type} `{FilterLike F}.
Implicit Types (levels : list (LevelInfo F)) (s : InitState (F := F)) (t : SSTableInfo).

Lemma insert_range_ok si kmin kmax i :
  SparseIndex.index_wf (index si) → 0 ≤ i < LEVEL_FACTOR →
  lenZ kmin = KEY_LENGTH → lenZ kmax = KEY_LENGTH →
  ∃ si', insert_range si kmin kmax i = Ret si' ∧ SparseIndex.index_wf (index si') ∧
    table_min (index si') i = kmin ∧ table_max (index si') i = kmax.
Proof.
  intros Hw Hi Hmin Hmax. unfold insert_range.
  rewrite !load_ok, !slice_full by (pose proof ic_key; lia). cbn [mbind exec_bind].
  rewrite table_offset_ok by lia.
  destruct (table_write_min (index si) i kmin Hw Hi Hmin) as (-> & Hw1 & Hm1 & _).
  cbn [mbind exec_bind].
  destruct (table_write_max _ i kmax Hw1 Hi Hmax) as (-> & Hw2 & HM2 & Hm2 & _).
  eexists. split; [done|]. split; [done|]. split; [|done]. cbn [index]. by rewrite Hm2 by lia.
Qed.

(** The range of table [index] in its level's sparse index is its bounds. *)
Definition range_set levels (level index : Z) t : Prop :=
  ∃ lv, getZ levels level = Ret lv ∧ SparseIndex.index_wf (SparseIndex.index (sparse_index lv)) ∧
    table_min (SparseIndex.index (sparse_index lv)) index = min_key t ∧
    table_max (SparseIndex.index (sparse_index lv)) index = max_key t.

Lemma set_range_ok levels level i t t0 :
  get_table levels level i = Ret t0 → 0 ≤ i < LEVEL_FACTOR →
  (∀ lv, getZ levels level = Ret lv → SparseIndex.index_wf (SparseIndex.index (sparse_index lv))) →
  lenZ (min_key t) = KEY_LENGTH → lenZ (max_key t) = KEY_LENGTH →
  ∃ levels', set_range levels level i t = Ret levels' ∧ range_set levels' level i t.
Proof.
  intros (lv & Hlv & _)%get_table_Ret Hi Hw Hmin Hmax. unfold set_range.
  destruct (insert_range_ok (sparse_index lv) (min_key t) (max_key t) i (Hw lv Hlv) Hi Hmin Hmax)
    as (si & E & Hsi). pose proof Hlv as [Hl Hlk]%getZ_Ret.
  rewrite (update_at_ok levels level _ lv (MkLevelInfo (guard lv) (filters lv) si
    (buffer_queues lv) (sstable_infos lv))); [|done|done|by rewrite E].
  apply lookup_lt_Some in Hlk. eexists. split; [done|]. eexists.
  rewrite getZ_insert, decide_True by (done || (unfold lenZ; lia)). split; [done|exact Hsi].
Qed.

Lemma update_table_range levels level i t t' levels' :
  update_table levels level i (λ _, Ret t') = Ret levels' →
  range_set levels level i t → range_set levels' level i t.
Proof.
  unfold update_table, update_at. intros E (lv & Hlv & Hr). rewrite Hlv in E.
  cbn [mbind exec_bind] in E. apply bind_Ret_inv in E as (lv' & E' & E).
  apply bind_Ret_inv in E' as (ts & _ & [= <-]).
  pose proof Hlv as [Hl Hlk%lookup_lt_Some]%getZ_Ret.
  rewrite setZ_ok in E by (unfold lenZ; lia). injection E as <-. eexists.
  rewrite getZ_insert, decide_True by (done || (unfold lenZ; lia)). split; [done|exact Hr].
Qed.

(** A read that found the end of the file at once. *)
Lemma init_chunk_empty ring i num level k s j t :
  get_table (in_levels s) level k = Ret t → 0 ≤ k < LEVEL_FACTOR →
  (∀ lv, getZ (in_levels s) level = Ret lv → SparseIndex.index_wf (SparseIndex.index (sparse_index lv))) →
  lenZ (min_key t) = KEY_LENGTH → lenZ (max_key t) = KEY_LENGTH →
  0 < fair_aligned_sstable_page_cache_buffer_size →
  let t' := set_waiting false (set_offset u64_max t) in
  ∃ s', init_chunk ring i num level k s (j, 0) = Ret s' ∧
    get_table (in_levels s') level k = Ret t' ∧ range_set (in_levels s') level k t ∧
    in_num_read s' = u32 (in_num_read s + 1) ∧
    in_initialized s' = u32 (in_initialized s + 1) ∧ in_sqes s' = in_sqes s.
Proof.
  intros Ht Hk Hw Hmin Hmax Hsize t'. unfold init_chunk. rewrite Ht. cbn [mbind exec_bind].
  change (0 <? 0) with false. cbn iota. cbn [mbind exec_bind]. change (u32 0) with 0. decide_tests.
  destruct (set_range_ok _ _ _ t t Ht Hk Hw Hmin Hmax) as (levels & E & Hr).
  rewrite E. cbn [mbind exec_bind]. unfold in_put_table. cbn [in_levels].
  assert (Htl : get_table levels level k = Ret t)
    by (by rewrite (set_range_tables _ _ _ _ _ _ _ E)).
  destruct (update_table_ok levels level k t t' Htl) as (levels' & E' & Hg & _).
  fold t'. rewrite E'. cbn [mbind exec_bind]. eexists. split; [done|]. split; [exact Hg|].
  split; [by apply (update_table_range _ _ _ _ _ _ E')|done].
Qed.

(** A table whose file is empty, as every file of a new database, is
    finished by its first pair of reads: it gets the range of its bounds in the
    sparse index and is not marked as written to.  But both reads count it, so
    that a worker, and the tree, hold twice as many tables for initialised as
    there are. *)
Theorem empty_file_counted_twice ring i s n t :
  let level := n / LEVEL_FACTOR in
  let k := n - level * LEVEL_FACTOR in
  get_table (in_levels s) level k = Ret t →
  (∀ lv, getZ (in_levels s) level = Ret lv → SparseIndex.index_wf (SparseIndex.index (sparse_index lv))) →
  lenZ (min_key t) = KEY_LENGTH → lenZ (max_key t) = KEY_LENGTH →
  0 < fair_aligned_sstable_page_cache_buffer_size →
  0 ≤ in_num_read s < 2 ^ 32 - 2 → 0 ≤ in_initialized s < 2 ^ 32 - 2 →
  ∃ s', init_completion ring i s n (both_read 0 0) = Ret s' ∧
    get_table (in_levels s') level k = Ret (set_waiting false (set_offset u64_max t)) ∧
    range_set (in_levels s') level k t ∧ in_sqes s' = in_sqes s ∧
    in_num_read s' = in_num_read s + 2 ∧ in_initialized s' = in_initialized s + 2.
Proof.
  intros level k Ht Hw Hmin Hmax Hsize Hn1 Hn2. pose proof ic_level as HL.
  assert (Hk : 0 ≤ k < LEVEL_FACTOR).
  { unfold k, level. assert (Hpos : 0 < LEVEL_FACTOR) by lia.
    pose proof (Z.mod_pos_bound n _ Hpos). pose proof (Z.div_mod n LEVEL_FACTOR). lia. }
  unfold init_completion. fold level. fold k. cbn [foldM].
  destruct (init_chunk_empty ring i n level k s 0 t) as (s1 & -> & Ht1 & Hr1 & Ha1 & Hb1 & Hc1);
    [done..|]. cbn [mbind exec_bind].
  destruct (init_chunk_empty ring i n level k s1 1 _ Ht1 Hk) as (s2 & -> & Ht2 & Hr2 & Ha2 & Hb2 & Hc2);
    [|done..|].
  { intros lv Hlv. destruct Hr1 as (lv1 & Hlv1 & Hw1 & _). rewrite Hlv in Hlv1.
    by injection Hlv1 as ->. }
  cbn [mbind exec_bind]. exists s2. split_and!; [done|done|done|congruence| |].
  - rewrite Ha2, Ha1, !u32_small by (rewrite ?u32_small by lia; lia). lia.
  - rewrite Hb2, Hb1, !u32_small by (rewrite ?u32_small by lia; lia). lia.
Qed.

End empty_files.

(** ** Examples *)

(** Buffers of at least a block, 18 tables. *)
Definition init_config : Config := {|
  MEMTABLE_SIZE_MB_BITS := 1; TOTAL_SSTABLE_STORAGE_SPACE_MB := 36;
  LEVEL_FACTOR := 3; NUM_SSTABLE_WORKER_THREADS := 3;
  KEY_LENGTH := 1; VALUE_LENGTH := 2; PAGE_SIZE := 4096; BLOCK_SIZE := 64;
  ALIGN_NO_FALSE_SHARING := 64; MAX_SIMULTANEOUS_CONNECTIONS := 100;
  NUM_PROCESSORS := 8; TOTAL_SSTABLE_PAGE_CACHE_SIZE := 1000
|}.

#[global] Instance init_index_config : IndexConfig init_config.
Proof. by split. Qed.

(** Tables as they are before the worker starts, with room for their buffers. *)
Definition fresh_table : SSTableInfo :=
  new_SSTableInfo (new_WaitQueue true 0) (replicate 20 0) [1] [2] [] [] [] 0.

Definition demo_init : InitState (F := Filter) :=
  MkInitState (replicate 6 (MkLevelInfo (MkGuard 1 true) []
      (@new_SparseIndex init_config) [] (replicate 3 fresh_table))) ∅ (replicate 18 0) 0 0 [].

(** What a pass finds: nothing; for each of the six tables an opened file; for
    each an empty one. *)
Definition demo_passes : list (Z → option (Z * InitCompletion)) :=
  [λ _, None; λ i, Some (i, file_opened 0); λ i, Some (i, both_read 0 0)].

Lemma bounds_never_learned_witness :
  ∃ s', init_loop (cfg := init_config) 1000 7 0 demo_passes demo_init = Ret s' ∧
    kept (same_bounds (cfg := init_config)) (in_levels demo_init) (in_levels s').
Proof.
  destruct (init_loop (cfg := init_config) 1000 7 0 demo_passes demo_init) as [s'| |] eqn:E;
    [|vm_compute in E; discriminate E..].
  exists s'. split; [done|].
  exact (proj1 (@bounds_never_learned init_config Filter _ 1000 7 0 demo_passes demo_init s' E)).
Defined.

Lemma empty_file_counted_twice_witness :
  ∃ s', init_completion (cfg := init_config) 7 0 demo_init 4 (both_read 0 0) = Ret s' ∧
    in_initialized s' = 2 ∧ in_num_read s' = 2.
Proof.
  destruct (@empty_file_counted_twice init_config _ Filter _ 7 0 demo_init 4 fresh_table)
    as (s' & E & _ & _ & _ & Ha & Hb);
    [by vm_compute| |by vm_compute..|by exists s'].
  intros lv Hlv. vm_compute in Hlv. injection Hlv as <-. by vm_compute.
Defined.
