(* ===== verification/Network.v ===== *)
(** * The network thread

    The event loop of [LSMTree::network_thread_routine] ([lsm_tree.hpp], lines
    1330 to 1493): connections are accepted, their messages received into the
    batch of the moment, full batches handed to the main thread and completed
    batches answered.

    The submission queue is the list of slots handed out since the last
    submission; [sqe], the slot the thread prepares, is an index into it, or
    null when the queue was full.  [sq_entries], the size of the queue, belongs
    to liburing and the kernel and is a parameter, and so are the completions.
    The flags of a request follow from what it is ([sqe_flags]).  A user datum is what the 64 bits stand for:
    the address of a batch, of a slot of the connection pool, of an entry of a
    batch's pool, or the first word of a connection request itself. *)

From S2P Require Import Prelude Config Requests RequestBatch LevelInfo.

Inductive UserData : Set :=
  | ud_batch (p : Z)
  | ud_conn (slot : Z)
  | ud_entry (p i : Z)
  | ud_word (ty : RequestType).

Inductive NetSqe : Set :=
  | sqe_recv (fd buf len : Z) (ud : UserData)
  | sqe_accept (ud : UserData)
  | sqe_send (fd buf len : Z) (ud : UserData)
  | sqe_close (fd : Z)
  | sqe_to_main (batch : Z)
  | sqe_to_ring (ring : option Z) (user_data : Z). (** to a worker, before the loop *)

(** The flags of the requests the thread prepares.  A renewed accept request has
    none: its flag is set on the receive request next to it. *)
Inductive sqe_flag : Set := IOSQE_FIXED_FILE | IOSQE_CQE_SKIP_SUCCESS.

Definition sqe_flags (op : NetSqe) : list sqe_flag :=
  match op with
  | sqe_recv _ _ _ _ | sqe_send _ _ _ _ => [IOSQE_FIXED_FILE]
  | sqe_close _ | sqe_to_main _ | sqe_to_ring _ _ => [IOSQE_CQE_SKIP_SUCCESS]
  | sqe_accept _ => []
  end.

Record Cqe : Set := MkCqe {
  cqe_res : Z;
  cqe_user_data : UserData;
  cqe_more : bool (** [flags & IORING_CQE_F_MORE] *)
}.

Record Net : Set := MkNet {
  nt_connections : ConnectionPool;
  nt_mem : bytes;
  nt_heap : gmap Z RequestBatch;
  nt_next : Z;
  nt_accept : Z;
  nt_batch : Z;
  nt_slots : list (option NetSqe);
  nt_sqe : option nat
}.

Section network.
Context {cfg : Config}.
Context (junk : ConnectionRequest) (memory : Z → Content) (sq_entries : Z).

Definition set_connections (cp : ConnectionPool) (s : Net) : Net :=
  MkNet cp (nt_mem s) (nt_heap s) (nt_next s) (nt_accept s) (nt_batch s) (nt_slots s) (nt_sqe s).

Definition set_net_mem (m : bytes) (s : Net) : Net :=
  MkNet (nt_connections s) m (nt_heap s) (nt_next s) (nt_accept s) (nt_batch s)
    (nt_slots s) (nt_sqe s).

Definition set_heap (h : gmap Z RequestBatch) (s : Net) : Net :=
  MkNet (nt_connections s) (nt_mem s) h (nt_next s) (nt_accept s) (nt_batch s)
    (nt_slots s) (nt_sqe s).

Definition set_slots (slots : list (option NetSqe)) (sqe : option nat) (s : Net) : Net :=
  MkNet (nt_connections s) (nt_mem s) (nt_heap s) (nt_next s) (nt_accept s) (nt_batch s)
    slots sqe.

(** [batch = new RequestBatch(READ)].  The model gives every batch an address
    of its own; addresses of deleted batches are not used again. *)
Definition renew_batch (s : Net) : Net :=
  MkNet (nt_connections s) (nt_mem s)
    (<[nt_next s := new_RequestBatch READ (memory (nt_next s))]> (nt_heap s))
    (nt_next s + 1) (nt_accept s) (nt_next s) (nt_slots s) (nt_sqe s).

(** [io_uring_get_sqe]: the next slot, null when the queue is full. *)
Definition get_sqe (slots : list (option NetSqe)) : list (option NetSqe) * option nat :=
  if lenZ slots <? sq_entries then (slots ++ [None], Some (length slots)) else (slots, None).

(** Preparing the slot [j] points to. *)
Definition prepare (j : option nat) (op : NetSqe) (s : Net) : exec Net :=
  match j with
  | None => Undef NullDeref
  | Some i => Ret (set_slots (<[i := Some op]> (nt_slots s)) (nt_sqe s) s)
  end.

(** [sqe = io_uring_get_sqe(network_ring)] *)
Definition next_sqe (s : Net) : Net :=
  let '(slots, j) := get_sqe (nt_slots s) in set_slots slots j s.

(** ** What a completion points to *)

Definition entry_of (s : Net) (p i : Z) : exec ConnectionRequest :=
  rb ← deref_batch (nt_heap s) p;
  pool ← pool_of rb;
  getZ (rw_data pool) i.

(** [cqe_base_req->req_type] *)
Definition type_of (s : Net) (ud : UserData) : exec RequestType :=
  match ud with
  | ud_batch p => rb ← deref_batch (nt_heap s) p; Ret (batch_type rb)
  | ud_conn i => c ← getZ (connections (nt_connections s)) i; Ret (req_type (conn_base c))
  | ud_entry p i => c ← entry_of s p i; Ret (req_type (conn_base c))
  | ud_word _ => Undef UninitPtr
  end.

(** [static_cast<ConnectionRequest*>(cqe_base_req)], then followed *)
Definition conn_of (s : Net) (ud : UserData) : exec ConnectionRequest :=
  match ud with
  | ud_conn i => getZ (connections (nt_connections s)) i
  | ud_entry p i => entry_of s p i
  | ud_batch _ => Undef WrongType
  | ud_word _ => Undef UninitPtr
  end.

(** [static_cast<RequestBatch*>(cqe_base_req)], about to be followed *)
Definition batch_of (ud : UserData) : exec Z :=
  match ud with
  | ud_batch p => Ret p
  | ud_word _ => Undef UninitPtr
  | _ => Undef WrongType
  end.

(** ** The branches of the loop *)

(** A connection was accepted, or not.  The user datum of the receive request
    is read through the pointer to the connection request instead of being
    that pointer. *)
Definition handle_accept (s : Net) (c : Cqe) : exec Net :=
  if 0 <? cqe_res c then
    '(cp, conn) ← connection_pool_insert (nt_connections s) (cqe_res c) RECV;
    s1 ← prepare (nt_sqe s)
           (sqe_recv (cqe_res c) (buffer conn) SOCKET_BUFFER_LENGTH
              (ud_word (req_type (conn_base conn)))) (set_connections cp s);
    if cqe_more c then Ret s1
    else
      let '(slots, sqe2) := get_sqe (nt_slots s1) in
      prepare sqe2 (sqe_accept (ud_batch (nt_accept s1))) (set_slots slots (nt_sqe s1) s1)
  else Ret s.

(** [std::fill(from, to, '\0')] on the socket buffers *)
Definition fill_zero (m : bytes) (from to : Z) : exec bytes :=
  if to <? from then Undef BadRange else store m from (zeros (to - from)).

(** ["read"] with its terminator *)
Definition read_tag : bytes := [114; 101; 97; 100; 0].

(** A message was received. *)
Definition handle_recv (s : Net) (ud : UserData) : exec Net :=
  c ← conn_of s ud;
  m ← fill_zero (nt_mem s) (buffer c + 5 + KEY_LENGTH) (buffer c + VALUE_LENGTH);
  tag ← load m (buffer c) 5;
  let ty := if memcmp tag read_tag =? 0 then READ else WRITE in
  rb ← deref_batch (nt_heap s) (nt_batch s);
  pool ← pool_of rb;
  if rw_length pool <? BATCH_NUM_REQUESTS then
    rb' ← batch_insert_read_write m junk rb (nt_batch s) (buffer c) (client_sock_fd c) ty;
    Ret (set_heap (<[nt_batch s := rb']> (nt_heap s)) (set_net_mem m s))
  else
    s1 ← prepare (nt_sqe s) (sqe_to_main (nt_batch s)) (set_net_mem m s);
    Ret (renew_batch s1).

(** [++rw_pool.num_sent] of the batch at [p] *)
Definition bump_sent (p : Z) (s : Net) : exec Net :=
  rb ← deref_batch (nt_heap s) p;
  pool ← pool_of rb;
  let pool' := MkReadWritePool (rw_data pool) (rw_length pool) (u32 (num_sent pool + 1))
                 (present_in_level pool) in
  Ret (set_heap (<[p := MkRequestBatch (rb_base rb) (readwrite_pool pool')]> (nt_heap s)) s).

(** [if (num_sent == length) delete batch] *)
Definition delete_if_sent (p : Z) (s : Net) : exec Net :=
  rb ← deref_batch (nt_heap s) p;
  pool ← pool_of rb;
  if num_sent pool =? rw_length pool then
    h ← delete_batch (nt_heap s) p; Ret (set_heap h s)
  else Ret s.

(** A zero-copy send is done: close the connection. *)
Definition handle_send (s : Net) (ud : UserData) : exec Net :=
  c ← conn_of s ud;
  s1 ← prepare (nt_sqe s) (sqe_close (client_sock_fd c)) s;
  s2 ← bump_sent (req_batch_ref c) s1;
  delete_if_sent (req_batch_ref c) s2.

(** Entry [i] of the completed batch at [p]: sent, or counted as sent. *)
Definition send_entry (p i : Z) (c : ConnectionRequest) (s : Net) : exec Net :=
  if client_sock_fd c =? -1 then bump_sent p s
  else prepare (nt_sqe s)
         (sqe_send (client_sock_fd c) (buffer c) SOCKET_BUFFER_LENGTH (ud_entry p i)) s.

(** [for (; i < length - 1; ++i, ++entries)]; every round reads entry [i], so
    the length of the array bounds the rounds. *)
Fixpoint send_loop (fuel : nat) (p : Z) (data : list ConnectionRequest) (i last : Z) (s : Net)
    : exec Net :=
  match fuel with
  | O => Spin
  | S fuel' =>
      if i <? last then
        c ← getZ data i;
        s1 ← send_entry p i c s;
        send_loop fuel' p data (i + 1) last
          (if client_sock_fd c =? -1 then s1 else next_sqe s1)
      else Ret s
  end.

(** A read or write batch is complete. *)
Definition handle_batch (s : Net) (ud : UserData) : exec Net :=
  p ← batch_of ud;
  rb ← deref_batch (nt_heap s) p;
  pool ← pool_of rb;
  let data := rw_data pool in
  let last := u32 (rw_length pool - 1) in
  s1 ← send_loop (S (S (length data))) p data 0 last s;
  c ← getZ data last;
  s2 ← send_entry p last c s1;
  delete_if_sent p s2.

(** One completion. *)
Definition handle (s : Net) (c : Cqe) : exec Net :=
  ty ← type_of s (cqe_user_data c);
  match ty with
  | ACCEPT => handle_accept s c
  | RECV => handle_recv s (cqe_user_data c)
  | SEND => if cqe_more c then Ret s else handle_send s (cqe_user_data c)
  | READ | WRITE => handle_batch s (cqe_user_data c)
  | COMPACTION => Ret s
  end.

(** ** The loop *)

Record NetLoop : Set := MkNetLoop {
  nl_net : Net;
  nl_cq : list Cqe;                     (** completions not yet consumed *)
  nl_submitted : list (option NetSqe)   (** everything submitted so far *)
}.

(** One round of [while (true)]: what was prepared is submitted, [arrived]
    completes, all completions in the queue are handled, and
    [BATCH_NUM_REQUESTS] of them are consumed.  The thread stays in
    [io_uring_submit_and_wait] until so many are there. *)
Definition net_round (l : NetLoop) (arrived : list Cqe) : exec NetLoop :=
  let s := nl_net l in
  let cq := nl_cq l ++ arrived in
  if lenZ cq <? BATCH_NUM_REQUESTS then Spin
  else
    s' ← foldM handle cq (next_sqe (set_slots [] None s));
    Ret (MkNetLoop s' (drop (Z.to_nat BATCH_NUM_REQUESTS) cq)
           (nl_submitted l ++ nt_slots s)).

End network.

(** ** Answering a completed batch *)

(** The send requests for the live ones of [l], entries [i] on of the batch at
    [p]. *)
Fixpoint sends_from {cfg : Config} (p i : Z) (l : list ConnectionRequest) : list NetSqe :=
  match l with
  | [] => []
  | c :: l' =>
      if client_sock_fd c =? -1 then sends_from p (i + 1) l'
      else sqe_send (client_sock_fd c) (buffer c) SOCKET_BUFFER_LENGTH (ud_entry p i)
             :: sends_from p (i + 1) l'
  end.

Definition dead_count (l : list ConnectionRequest) : Z :=
  lenZ (base.filter (λ c, client_sock_fd c = -1) l).

Section reply.
Context {cfg : Config}.
Context (junk : ConnectionRequest) (memory : Z → Content) (sq_entries : Z).
Implicit Types (s : Net) (pool : ReadWritePool).

(** The pool with [n] more entries counted as sent. *)
Definition sent_more (n : Z) pool : ReadWritePool :=
  MkReadWritePool (rw_data pool) (rw_length pool) (num_sent pool + n) (present_in_level pool).

(** A batch of client requests at address [p]. *)
Definition holds_pool s (p : Z) (base : BaseRequest) pool : Prop :=
  p ≠ 0 ∧ nt_heap s !! p = Some (MkRequestBatch base (readwrite_pool pool)).

(** The slots are [pre] and the one being prepared, which holds [cell]. *)
Definition preparing s (pre : list (option NetSqe)) (cell : option NetSqe) : Prop :=
  nt_slots s = pre ++ [cell] ∧ nt_sqe s = Some (length pre).

Lemma holds_pool_deref s p base pool :
  holds_pool s p base pool →
  deref_batch (nt_heap s) p = Ret (MkRequestBatch base (readwrite_pool pool)).
Proof. intros [Hp Hh]. unfold deref_batch. decide_tests. by rewrite Hh. Qed.

Lemma bump_sent_ok p s base pool :
  holds_pool s p base pool → 0 ≤ num_sent pool < 2 ^ 32 - 1 →
  bump_sent p s = Ret (set_heap
    (<[p := MkRequestBatch base (readwrite_pool (sent_more 1 pool))]> (nt_heap s)) s).
Proof.
  intros Hp Hn. unfold bump_sent. rewrite (holds_pool_deref s p base pool Hp).
  cbn. by rewrite u32_small by lia.
Qed.

Lemma sends_from_app p i l k :
  sends_from p i (l ++ k) = sends_from p i l ++ sends_from p (i + lenZ l) k.
Proof.
  revert i. induction l as [|c l IH]; intros i; cbn [app sends_from].
  - by rewrite Z.add_0_r.
  - replace (i + lenZ (c :: l)) with (i + 1 + lenZ l) by (rewrite lenZ_cons; lia).
    rewrite IH. by destruct (client_sock_fd c =? -1).
Qed.

Lemma dead_count_cons c l :
  dead_count (c :: l) = b2z (client_sock_fd c =? -1) + dead_count l.
Proof.
  unfold dead_count. rewrite filter_cons.
  destruct (Z.eqb_spec (client_sock_fd c) (-1)); case_decide; try done; cbn [b2z].
  rewrite lenZ_cons. lia.
Qed.

Lemma dead_count_bounds l : 0 ≤ dead_count l ≤ lenZ l.
Proof. unfold dead_count, lenZ. pose proof (length_filter (λ c, client_sock_fd c = -1) l). lia. Qed.

(** Everything but the batch at [p] and the slots is as before. *)
Definition elsewhere (p : Z) s s' : Prop :=
  nt_connections s' = nt_connections s ∧ nt_mem s' = nt_mem s ∧ nt_next s' = nt_next s ∧
  nt_accept s' = nt_accept s ∧ nt_batch s' = nt_batch s ∧
  ∀ q, q ≠ p → nt_heap s' !! q = nt_heap s !! q.

#[local] Instance elsewhere_preorder p : PreOrder (elsewhere p).
Proof.
  split; [by intros s|]. intros s1 s2 s3 (? & ? & ? & ? & ? & Ha) (? & ? & ? & ? & ? & Hb).
  split_and!; try congruence. intros q Hq. by rewrite Hb, Ha.
Qed.

Lemma sent_more_0 pool : sent_more 0 pool = pool.
Proof. unfold sent_more. rewrite Z.add_0_r. by destruct pool. Qed.

Lemma sent_more_more a b pool : sent_more a (sent_more b pool) = sent_more (b + a) pool.
Proof. unfold sent_more. cbn. f_equal. lia. Qed.

(** One entry: a live one fills the slot, a dead one is counted. *)
Lemma send_entry_ok p i c s base pool pre cell :
  holds_pool s p base pool → preparing s pre cell → 0 ≤ num_sent pool < 2 ^ 32 - 1 →
  ∃ s', send_entry p i c s = Ret s' ∧ elsewhere p s s' ∧
    holds_pool s' p base (sent_more (dead_count [c]) pool) ∧
    preparing s' pre (match sends_from p i [c] with [] => cell | op :: _ => Some op end).
Proof.
  intros Hp Hs Hn. unfold send_entry. cbn [sends_from].
  rewrite dead_count_cons. change (dead_count []) with 0.
  destruct (client_sock_fd c =? -1).
  - rewrite (bump_sent_ok p s base pool) by done. eexists. split; [done|].
    destruct Hp as [Hp0 _]. split; [|split; [split; [done|apply lookup_insert_eq]|exact Hs]].
    split_and!; try done. intros q Hq. by apply lookup_insert_ne.
  - destruct Hs as [Hsl Hcur]. rewrite Hcur. cbn. eexists. split; [done|].
    rewrite sent_more_0. split_and!; try done; try apply Hp; try by rewrite Hcur.
    cbn. by rewrite Hsl, insert_middle.
Qed.

(** The slot being prepared after the requests [ops] were made from [cell]
    on. *)
Definition open_cell (ops : list NetSqe) (cell : option NetSqe) : option NetSqe :=
  match ops with [] => cell | _ => None end.

Lemma next_sqe_preparing s pre cell :
  preparing s pre cell → lenZ pre + 1 < sq_entries →
  preparing (next_sqe sq_entries s) (pre ++ [cell]) None ∧ ∀ p, elsewhere p s (next_sqe sq_entries s).
Proof.
  intros [Hsl Hcur] Hroom. unfold next_sqe, get_sqe. rewrite Hsl.
  rewrite (proj2 (Z.ltb_lt _ _)) by (rewrite lenZ_app; unfold lenZ in *; cbn; lia).
  split; [done|]. intros p. by split_and!.
Qed.

Lemma send_loop_ok fuel p before l rest i s base pool pre cell :
  i = lenZ before → (length l < fuel)%nat →
  holds_pool s p base pool → preparing s pre cell →
  lenZ pre + lenZ l < sq_entries → 0 ≤ num_sent pool → num_sent pool + lenZ l < 2 ^ 32 →
  ∃ s', send_loop sq_entries fuel p (before ++ l ++ rest) i (i + lenZ l) s = Ret s' ∧
    elsewhere p s s' ∧ holds_pool s' p base (sent_more (dead_count l) pool) ∧
    preparing s' (pre ++ (Some <$> sends_from p i l)) (open_cell (sends_from p i l) cell).
Proof.
  revert fuel before i s pool pre cell.
  induction l as [|c l IH]; intros [|fuel] before i s pool pre cell Hi Hf Hp Hs Hroom Hn0 Hn;
    cbn [length] in *; try lia; cbn [send_loop].
  { rewrite Z.add_0_r, Z.ltb_irrefl. exists s. cbn. by rewrite app_nil_r, sent_more_0. }
  rewrite lenZ_cons in *. pose proof (lenZ_nonneg l). decide_tests. cbn [app].
  replace (getZ (before ++ c :: l ++ rest) i) with (Ret c) by (by rewrite Hi, getZ_middle).
  cbn [mbind exec_bind].
  destruct (send_entry_ok p i c s base pool pre cell) as (s1 & -> & He1 & Hp1 & Hs1);
    [done|done|unfold lenZ in *; lia|]. cbn [mbind exec_bind].
  assert (Hsp : ∀ t, before ++ c :: t = (before ++ [c]) ++ t) by (intros; by rewrite <- app_assoc).
  rewrite Hsp. replace (i + (lenZ l + 1)) with (i + 1 + lenZ l) by lia.
  rewrite dead_count_cons in *. change (dead_count []) with 0 in *.
  cbn [sends_from] in *. destruct (client_sock_fd c =? -1); cbn [b2z] in *.
  - destruct (IH fuel (before ++ [c]) (i + 1) s1 (sent_more 1 pool) pre cell)
      as (s' & E & He & Hp' & Hs'); try done; try (cbn; lia).
    { by rewrite Hi, lenZ_app. }
    rewrite sent_more_more in Hp'. exists s'.
    refine (conj E (conj _ (conj Hp' Hs'))). by transitivity s1.
  - change (0 + 0) with 0 in Hp1. rewrite sent_more_0 in Hp1.
    destruct (next_sqe_preparing s1 pre _ Hs1) as [Hs2 He2]; [unfold lenZ in *; lia|].
    match type of Hs2 with preparing _ ?pre2 _ => set (pre' := pre2) in * end.
    destruct (IH fuel (before ++ [c]) (i + 1) (next_sqe sq_entries s1) pool pre' None)
      as (s' & E & He & Hp' & Hs'); [by rewrite Hi, lenZ_app|lia| |exact Hs2|..].
    { unfold next_sqe. by destruct (get_sqe _ _). }
    { unfold pre'. rewrite lenZ_app. change (lenZ [_]) with 1. lia. }
    { lia. }
    { lia. }
    exists s'. refine (conj E (conj _ (conj Hp' _))).
    + transitivity s1; [done|]. by transitivity (next_sqe sq_entries s1).
    + cbn [fmap list_fmap]. unfold pre' in Hs'. rewrite <- app_assoc in Hs'. cbn [app] in Hs'.
      by destruct (sends_from p (i + 1) l).
Qed.

Lemma entries_snoc pool l c :
  entries pool = l ++ [c] → rw_length pool < 2 ^ 32 → rw_length pool ≤ lenZ (rw_data pool) →
  ∃ rest, rw_data pool = l ++ [c] ++ rest ∧ rw_length pool = lenZ l + 1 ∧
    u32 (rw_length pool - 1) = lenZ l.
Proof.
  intros He Hmax Hle. unfold entries in He.
  assert (Hl : rw_length pool = lenZ l + 1).
  { assert (Hlen : length (take (Z.to_nat (rw_length pool)) (rw_data pool)) = S (length l))
      by (rewrite He, length_app; cbn; lia).
    rewrite length_take in Hlen. unfold lenZ in *. lia. }
  exists (drop (Z.to_nat (rw_length pool)) (rw_data pool)). split_and!; [|done|].
  - by rewrite app_assoc, <- He, take_drop.
  - pose proof (lenZ_nonneg l). rewrite u32_small; lia.
Qed.

Lemma delete_if_sent_ok p s base pool :
  holds_pool s p base pool → req_type base ≠ COMPACTION →
  ∃ s', delete_if_sent p s = Ret s' ∧ elsewhere p s s' ∧ nt_slots s' = nt_slots s ∧
    nt_heap s' !! p = if decide (num_sent pool = rw_length pool) then None
                      else Some (MkRequestBatch base (readwrite_pool pool)).
Proof.
  intros Hp Hty. unfold delete_if_sent, delete_batch, destroy_RequestBatch.
  rewrite (holds_pool_deref s p base pool Hp). cbn [mbind exec_bind pool_of content].
  rewrite bool_decide_eq_false_2 by done. destruct (Z.eqb_spec (num_sent pool) (rw_length pool)).
  - rewrite decide_True by done. eexists. split; [done|].
    split; [|split; [done|apply lookup_delete_eq]].
    split_and!; try done. intros q Hq. by apply lookup_delete_ne.
  - rewrite decide_False by done. eexists. split; [done|]. split; [done|]. split; [done|apply Hp].
Qed.

(** The effect of a completed batch. *)
Lemma completed_batch_ok p s base pool pre cell l c res more :
  req_type base = READ ∨ req_type base = WRITE →
  holds_pool s p base pool → preparing s pre cell →
  entries pool = l ++ [c] → rw_length pool ≤ lenZ (rw_data pool) →
  lenZ pre + rw_length pool ≤ sq_entries →
  0 ≤ num_sent pool → num_sent pool + rw_length pool < 2 ^ 32 →
  let ops := sends_from p 0 (entries pool) in
  let sent := num_sent pool + dead_count (entries pool) in
  ∃ s', handle junk memory sq_entries s (MkCqe res (ud_batch p) more) = Ret s' ∧
    elsewhere p s s' ∧
    nt_slots s' = pre ++ (Some <$> ops) ++
      (if client_sock_fd c =? -1 then [open_cell ops cell] else []) ∧
    nt_heap s' !! p =
      if decide (sent = rw_length pool) then None
      else Some (MkRequestBatch base
             (readwrite_pool (sent_more (dead_count (entries pool)) pool))).
Proof.
  intros Hty Hp Hs He Hle Hroom Hn0 Hn ops sent. subst ops sent.
  destruct (entries_snoc pool l c He) as (rest & Hd & Hlen & Hlast); [lia|done|].
  pose proof (lenZ_nonneg l).
  unfold handle. cbn [type_of cqe_user_data].
  rewrite (holds_pool_deref s p base pool Hp). cbn [mbind exec_bind].
  assert (Hmatch : ∀ A (a b d e f : A), match batch_type (MkRequestBatch base (readwrite_pool pool))
      with ACCEPT => a | RECV => b | SEND => d | READ => e | WRITE => e | COMPACTION => f end = e)
    by (unfold batch_type; cbn; destruct Hty as [-> | ->]; done).
  rewrite Hmatch. unfold handle_batch. cbn [batch_of mbind exec_bind].
  rewrite (holds_pool_deref s p base pool Hp). cbn [mbind exec_bind pool_of content].
  rewrite Hlast, Hd.
  destruct (send_loop_ok (S (S (length (l ++ [c] ++ rest)))) p [] l ([c] ++ rest) 0 s base pool
              pre cell) as (s1 & E1 & He1 & Hp1 & Hs1); [done| |done|done|lia|lia|lia|].
  { rewrite length_app. lia. }
  cbn [app] in E1. rewrite Z.add_0_l in E1. cbn [app]. rewrite E1. cbn [mbind exec_bind].
  rewrite getZ_middle. cbn [mbind exec_bind]. pose proof (dead_count_bounds l).
  destruct (send_entry_ok p (lenZ l) c s1 _ _ _ _ Hp1 Hs1) as (s2 & -> & He2 & Hp2 & Hs2);
    [cbn; lia|]. cbn [mbind exec_bind]. rewrite sent_more_more in Hp2.
  destruct (delete_if_sent_ok p s2 _ _ Hp2) as (s3 & -> & He3 & Hs3 & Hh3);
    [by destruct Hty as [-> | ->]|].
  exists s3. refine (conj eq_refl (conj _ (conj _ _))).
  - transitivity s1; [done|]. by transitivity s2.
  - rewrite Hs3, (proj1 Hs2), He, sends_from_app, Z.add_0_l, fmap_app, <- !app_assoc.
    cbn [sends_from]. destruct (client_sock_fd c =? -1); [|done].
    cbn [fmap list_fmap app]. by rewrite app_nil_r.
  - rewrite Hh3, He. assert (Hdc : dead_count l + dead_count [c] = dead_count (l ++ [c]))
      by (unfold dead_count; by rewrite filter_app, lenZ_app).
    cbn [sent_more num_sent rw_length]. by rewrite Hdc.
Qed.

(** C13: A completed batch is answered: exactly one send request is prepared for
    every entry whose client still waits, in the order of the batch, the
    entries handed on to a level below are counted as sent, and the batch is
    deleted when all its entries are of that kind.  A last slot is left as it
    is when the last entry needs none. *)
Theorem completed_batch_spec p s base pool pre cell l c res more :
  req_type base = READ ∨ req_type base = WRITE →
  holds_pool s p base pool → preparing s pre cell →
  entries pool = l ++ [c] → rw_length pool ≤ lenZ (rw_data pool) →
  lenZ pre + rw_length pool ≤ sq_entries →
  0 ≤ num_sent pool → num_sent pool + rw_length pool < 2 ^ 32 →
  let ops := sends_from p 0 (entries pool) in
  let sent := num_sent pool + dead_count (entries pool) in
  ∃ s', handle junk memory sq_entries s (MkCqe res (ud_batch p) more) = Ret s' ∧
    elsewhere p s s' ∧
    nt_slots s' = pre ++ (Some <$> ops) ++
      (if client_sock_fd c =? -1 then [open_cell ops cell] else []) ∧
    nt_heap s' !! p =
      if decide (sent = rw_length pool) then None
      else Some (MkRequestBatch base
             (readwrite_pool (sent_more (dead_count (entries pool)) pool))).
Proof. exact (completed_batch_ok p s base pool pre cell l c res more). Qed.

End reply.

(** ** Receiving a message *)

Section receive.
Context {cfg : Config}.
Context (junk : ConnectionRequest) (memory : Z → Content) (sq_entries : Z).
Context (HK : 1 ≤ KEY_LENGTH) (HP : 1 ≤ PAGE_SIZE < 2 ^ 31).
Implicit Types (s : Net) (pool : ReadWritePool).

(** The socket buffers after the bytes behind the key were cleared. *)
Definition cleared (m : bytes) (buf : Z) : bytes :=
  splice m (buf + 5 + KEY_LENGTH) (zeros (VALUE_LENGTH - 5 - KEY_LENGTH)).

(** What the tag of the message says. *)
Definition tagged_type (m : bytes) (buf : Z) : RequestType :=
  if decide (slice m buf 5 = read_tag) then READ else WRITE.

Lemma clear_and_tag m buf :
  5 + KEY_LENGTH ≤ VALUE_LENGTH → 0 ≤ buf → buf + VALUE_LENGTH ≤ lenZ m →
  fill_zero m (buf + 5 + KEY_LENGTH) (buf + VALUE_LENGTH) = Ret (cleared m buf) ∧
  lenZ (cleared m buf) = lenZ m ∧
  ∃ tag, load (cleared m buf) buf 5 = Ret tag ∧
    (if memcmp tag read_tag =? 0 then READ else WRITE) = tagged_type m buf.
Proof.
  intros HV Hb Hm. unfold fill_zero, cleared. decide_tests.
  assert (Hz : lenZ (zeros (VALUE_LENGTH - 5 - KEY_LENGTH)) = VALUE_LENGTH - 5 - KEY_LENGTH)
    by (apply lenZ_zeros; lia).
  replace (buf + VALUE_LENGTH - (buf + 5 + KEY_LENGTH)) with (VALUE_LENGTH - 5 - KEY_LENGTH)
    by lia.
  rewrite store_ok by (rewrite ?Hz; lia).
  assert (Hl : lenZ (splice m (buf + 5 + KEY_LENGTH) (zeros (VALUE_LENGTH - 5 - KEY_LENGTH))) =
               lenZ m) by (apply lenZ_splice; rewrite ?Hz; lia).
  split; [done|]. split; [done|]. eexists. split; [apply load_ok; lia|].
  rewrite slice_splice_disjoint by (rewrite ?Hz; lia). unfold tagged_type.
  destruct (decide (slice m buf 5 = read_tag)) as [->|Hne]; [by rewrite memcmp_refl|].
  destruct (Z.eqb_spec (memcmp (slice m buf 5) read_tag) 0) as [E|]; [|done].
  exfalso. apply Hne, memcmp_0; [|done].
  assert (lenZ (slice m buf 5) = 5) by (apply lenZ_slice; lia). unfold lenZ in *. cbn. lia.
Qed.

(** What a completed receive request starts with: the buffer is cleared and the
    tag examined. *)
Lemma received_prefix s slot c res more :
  getZ (connections (nt_connections s)) slot = Ret c → req_type (conn_base c) = RECV →
  5 + KEY_LENGTH ≤ VALUE_LENGTH → 0 ≤ buffer c → buffer c + VALUE_LENGTH ≤ lenZ (nt_mem s) →
  let m := cleared (nt_mem s) (buffer c) in
  handle junk memory sq_entries s (MkCqe res (ud_conn slot) more) =
    (rb ← deref_batch (nt_heap s) (nt_batch s);
     pool ← pool_of rb;
     if rw_length pool <? BATCH_NUM_REQUESTS then
       rb' ← batch_insert_read_write m junk rb (nt_batch s) (buffer c) (client_sock_fd c)
               (tagged_type (nt_mem s) (buffer c));
       Ret (set_heap (<[nt_batch s := rb']> (nt_heap s)) (set_net_mem m s))
     else
       s1 ← prepare (nt_sqe s) (sqe_to_main (nt_batch s)) (set_net_mem m s);
       Ret (renew_batch memory s1)).
Proof.
  intros Hc Hty HV Hb Hm m. unfold handle. cbn [type_of cqe_user_data]. rewrite Hc.
  cbn [mbind exec_bind]. rewrite Hty. unfold handle_recv. cbn [conn_of]. rewrite Hc.
  cbn [mbind exec_bind].
  destruct (clear_and_tag (nt_mem s) (buffer c) HV Hb Hm) as (-> & _ & tag & Ht & Htag).
  cbn [mbind exec_bind]. fold m in Ht. fold m. rewrite Ht. cbn [mbind exec_bind]. by rewrite Htag.
Qed.

(** The request enters a batch that has room. *)
Lemma received_with_room s slot c base pool res more :
  getZ (connections (nt_connections s)) slot = Ret c → req_type (conn_base c) = RECV →
  5 + KEY_LENGTH ≤ VALUE_LENGTH → 0 ≤ buffer c → buffer c + VALUE_LENGTH ≤ lenZ (nt_mem s) →
  let m := cleared (nt_mem s) (buffer c) in
  holds_pool s (nt_batch s) base pool → rw_length pool < BATCH_NUM_REQUESTS ≤ PAGE_SIZE →
  pool_inv m (nt_batch s) pool →
  ∃ pool', handle junk memory sq_entries s (MkCqe res (ud_conn slot) more) = Ret (set_heap
      (<[nt_batch s := MkRequestBatch base (readwrite_pool pool')]> (nt_heap s))
      (set_net_mem m s)) ∧
    pool_inv m (nt_batch s) pool' ∧
    entries pool' ≡ₚ MkConnectionRequest (MkBaseRequest (tagged_type (nt_mem s) (buffer c)))
                       (nt_batch s) (client_sock_fd c) (buffer c) :: entries pool.
Proof.
  intros Hc Hty HV Hb Hm m Hp [Hlt Hle] Hinv.
  destruct (clear_and_tag (nt_mem s) (buffer c) HV Hb Hm) as (_ & Hlm & _). fold m in Hlm.
  rewrite (received_prefix s slot c res more Hc Hty HV Hb Hm), (holds_pool_deref s _ base pool Hp).
  cbn [mbind exec_bind pool_of content]. decide_tests.
  destruct (insert_read_write_pool_inv m junk HK HP pool (buffer c) (client_sock_fd c)
              (tagged_type (nt_mem s) (buffer c)) (nt_batch s)) as (pool' & E & Hinv' & Hperm);
    [done| |lia|].
  { unfold readable. cbn. split; lia. }
  unfold batch_insert_read_write. cbn [pool_of content mbind exec_bind]. fold m. rewrite E.
  by exists pool'.
Qed.

(** C17: A received message.  With values shorter than tag and key, as in the
    shipped configuration, clearing the value runs over a reversed range.
    Otherwise the bytes behind the key are cleared and the request, a read
    exactly when the message starts with the tag of one, enters the batch of
    the moment, which keeps its invariant; but when that batch is full it is
    sent to the main thread, a new one is begun, and the request that was just
    received is in neither. *)
Theorem received_message_spec s slot c base pool pre cell res more :
  getZ (connections (nt_connections s)) slot = Ret c → req_type (conn_base c) = RECV →
  holds_pool s (nt_batch s) base pool → preparing s pre cell →
  let outcome := handle junk memory sq_entries s (MkCqe res (ud_conn slot) more) in
  let m := cleared (nt_mem s) (buffer c) in
  let ty := tagged_type (nt_mem s) (buffer c) in
  (VALUE_LENGTH < 5 + KEY_LENGTH → outcome = Undef BadRange) ∧
  (5 + KEY_LENGTH ≤ VALUE_LENGTH → 0 ≤ buffer c →
   buffer c + VALUE_LENGTH ≤ lenZ (nt_mem s) →
   (rw_length pool < BATCH_NUM_REQUESTS ≤ PAGE_SIZE → pool_inv m (nt_batch s) pool →
    ∃ pool', outcome = Ret (set_heap
        (<[nt_batch s := MkRequestBatch base (readwrite_pool pool')]> (nt_heap s))
        (set_net_mem m s)) ∧
      pool_inv m (nt_batch s) pool' ∧
      entries pool' ≡ₚ MkConnectionRequest (MkBaseRequest ty) (nt_batch s)
                         (client_sock_fd c) (buffer c) :: entries pool) ∧
   (BATCH_NUM_REQUESTS ≤ rw_length pool →
    ∃ s', outcome = Ret s' ∧
      nt_slots s' = pre ++ [Some (sqe_to_main (nt_batch s))] ∧ nt_batch s' = nt_next s ∧
      nt_heap s' = <[nt_next s := new_RequestBatch READ (memory (nt_next s))]> (nt_heap s))).
Proof.
  intros Hc Hty Hp [Hsl Hcur] outcome m ty.
  split.
  { intros HV. unfold outcome, handle, handle_recv, fill_zero. cbn [type_of conn_of cqe_user_data].
    rewrite Hc. cbn [mbind exec_bind]. rewrite Hty. cbn [mbind exec_bind]. by decide_tests. }
  intros HV Hb Hm. split.
  - intros Hroom Hinv. by apply received_with_room.
  - intros Hle. unfold outcome. rewrite (received_prefix s slot c res more) by done.
    rewrite (holds_pool_deref s _ base pool Hp). cbn [mbind exec_bind pool_of content].
    decide_tests. rewrite Hcur. cbn. eexists. split; [done|].
    split; [|done]. cbn. by rewrite Hsl, insert_middle.
Qed.

End receive.

(** ** Accepting connections *)

Section accepting.
Context {cfg : Config}.
Context (junk : ConnectionRequest) (memory : Z → Content) (sq_entries : Z).
Implicit Types (s : Net).

(** The completion of the multishot accept request for descriptor [fd]. *)
Definition accepted s (fd : Z) : Cqe := MkCqe fd (ud_batch (nt_accept s)) true.

(** The receive request for [fd]. *)
Definition recv_for s (fd : Z) : NetSqe :=
  sqe_recv fd (buffer_pool (nt_connections s) + (fd - 1)) SOCKET_BUFFER_LENGTH (ud_word RECV).

Definition accepting s : Prop :=
  nt_accept s ≠ 0 ∧ ∃ rb, nt_heap s !! nt_accept s = Some rb ∧ batch_type rb = ACCEPT.

Definition registered s (fd : Z) : Prop :=
  1 ≤ fd ∧ ∃ c, connections (nt_connections s) !! Z.to_nat (fd - 1) = Some c ∧
    client_sock_fd c = fd ∧ req_type (conn_base c) = RECV.

Lemma accept_one s fd pre cell :
  accepting s → preparing s pre cell → 1 ≤ fd ≤ lenZ (connections (nt_connections s)) →
  ∃ s', handle junk memory sq_entries s (accepted s fd) = Ret s' ∧ accepting s' ∧
    preparing s' pre (Some (recv_for s fd)) ∧ nt_accept s' = nt_accept s ∧
    buffer_pool (nt_connections s') = buffer_pool (nt_connections s) ∧
    lenZ (connections (nt_connections s')) = lenZ (connections (nt_connections s)) ∧
    registered s' fd ∧ ∀ f, registered s f → registered s' f.
Proof.
  intros [Ha (rb & Hrb & Hty)] [Hsl Hcur] Hfd. unfold handle. cbn [type_of accepted cqe_user_data].
  unfold deref_batch. rewrite (proj2 (Z.eqb_neq _ _)), Hrb by done. cbn [mbind exec_bind].
  rewrite Hty. unfold handle_accept. cbn [cqe_res cqe_more accepted]. decide_tests.
  destruct (connection_pool_insert_spec (nt_connections s) fd RECV) as [Hins _].
  destruct Hins as (cp & c & -> & Hc & Hcf & Hcb & Hbuf & Hpool & Hlen & Hoth); [lia|].
  cbn [mbind exec_bind]. rewrite Hcur, Hbuf, Hcb. cbn. eexists. split; [done|].
  assert (Hreg : registered (set_slots (<[length pre := Some (recv_for s fd)]> (nt_slots s))
                   (Some (length pre)) (set_connections cp s)) fd).
  { split; [lia|]. exists c. split; [exact Hc|]. by rewrite Hcb. }
  split; [by split; [|exists rb]|]. split; [split; [cbn; by rewrite Hsl, insert_middle|done]|].
  split; [done|]. split; [done|]. split; [done|]. split; [exact Hreg|].
  intros f (Hf1 & c' & Hf & Hcf' & Hct). destruct (decide (f = fd)) as [->|Hne]; [done|].
  split; [done|]. exists c'. cbn. by rewrite Hoth by lia.
Qed.

(** A state of the same thread, up to what accepting changes. *)
Definition same_server s s' : Prop :=
  accepting s' ∧ nt_accept s' = nt_accept s ∧
  buffer_pool (nt_connections s') = buffer_pool (nt_connections s) ∧
  lenZ (connections (nt_connections s')) = lenZ (connections (nt_connections s)).

Lemma accept_all s l seen s1 pre cell :
  same_server s s1 → preparing s1 pre cell → Forall (registered s1) seen →
  Forall (λ f, 1 ≤ f ≤ lenZ (connections (nt_connections s))) l →
  ∃ s', foldM (handle junk memory sq_entries) (accepted s <$> l) s1 = Ret s' ∧
    same_server s s' ∧
    preparing s' pre (match last l with Some f => Some (recv_for s f) | None => cell end) ∧
    Forall (registered s') (seen ++ l).
Proof.
  revert seen s1 cell. induction l as [|f l IH];
    intros seen s1 cell (Ha1 & Hacc & Hbp & Hlen) Hs1 Hseen Hl; cbn [fmap list_fmap foldM].
  { exists s1. by rewrite app_nil_r. }
  apply Forall_cons in Hl as [Hf Hl].
  replace (accepted s f) with (accepted s1 f) by (unfold accepted; by rewrite Hacc).
  destruct (accept_one s1 f pre cell Ha1 Hs1) as
    (s2 & -> & Ha2 & Hs2 & Hacc2 & Hbp2 & Hlen2 & Hr2 & Hmono); [lia|]. cbn [mbind exec_bind].
  replace (recv_for s1 f) with (recv_for s f) in Hs2 by (unfold recv_for; by rewrite Hbp).
  destruct (IH (seen ++ [f]) s2 (Some (recv_for s f))) as (s' & E & Hsame & Hs' & Hr');
    [|done| |done|].
  { split; [done|]. split_and!; congruence. }
  { apply Forall_app. split; [by eapply Forall_impl|by apply Forall_singleton]. }
  exists s'. rewrite <- app_assoc in Hr'. split; [exact E|]. split; [done|]. split; [|done].
  rewrite last_cons. by destruct (last l).
Qed.

(** Several connections accepted in one round: all of them are registered,
    but their receive requests are prepared in one and the same slot, so that
    only the last one is ever submitted and the other clients are never
    heard. *)
Theorem accepts_keep_last_recv s fds fd pre cell :
  accepting s → preparing s pre cell →
  Forall (λ f, 1 ≤ f ≤ lenZ (connections (nt_connections s))) (fds ++ [fd]) →
  ∃ s', foldM (handle junk memory sq_entries) (accepted s <$> fds ++ [fd]) s = Ret s' ∧
    nt_slots s' = pre ++ [Some (recv_for s fd)] ∧ Forall (registered s') (fds ++ [fd]).
Proof.
  intros Ha Hs Hall.
  destruct (accept_all s (fds ++ [fd]) [] s pre cell) as (s' & E & _ & [Hs' _] & Hr'); try done.
  rewrite last_snoc in Hs'. by exists s'.
Qed.

End accepting.

(** ** The completions of the thread's own requests *)

(** What the user datum of a prepared request is. *)
Definition own_request (op : option NetSqe) : Prop :=
  match op with
  | Some (sqe_recv _ _ _ ud) => ∃ ty, ud = ud_word ty
  | Some (sqe_send _ _ _ ud) => ∃ p i, ud = ud_entry p i
  | _ => True
  end.

(** The batch a request sends to the main thread. *)
Definition to_main (op : option NetSqe) : option Z :=
  match op with Some (sqe_to_main p) => Some p | _ => None end.

Section moves.
Context {cfg : Config}.
Context (junk : ConnectionRequest) (memory : Z → Content) (sq_entries : Z).
Implicit Types (s : Net).

(** The elementary changes of the state that handling a completion is made
    of. *)
Inductive net_move : Net → Net → Prop :=
  | move_slot s slots j j' :
      get_sqe sq_entries (nt_slots s) = (slots, j) → net_move s (set_slots slots j' s)
  | move_prepare s i op :
      own_request (Some op) → to_main (Some op) = None →
      net_move s (set_slots (<[i := Some op]> (nt_slots s)) (nt_sqe s) s)
  | move_heap s h : dom h ⊆@{gset Z} dom (nt_heap s) → net_move s (set_heap h s)
  | move_connections s cp : net_move s (set_connections cp s)
  | move_fill s from to m :
      fill_zero (nt_mem s) from to = Ret m → net_move s (set_net_mem m s)
  | move_to_main s i :
      net_move s (renew_batch memory
        (set_slots (<[i := Some (sqe_to_main (nt_batch s))]> (nt_slots s)) (nt_sqe s) s)).

Lemma prepare_moves j op s s' :
  prepare j op s = Ret s' → own_request (Some op) → to_main (Some op) = None →
  rtc net_move s s'.
Proof. destruct j as [j|]; [|done]. intros [= <-] Hop Hm. by apply rtc_once, move_prepare. Qed.

Lemma next_sqe_moves s : net_move s (next_sqe sq_entries s).
Proof. unfold next_sqe. destruct (get_sqe _ _) as [slots j] eqn:E. by eapply move_slot. Qed.

(** A batch that can be followed is stored at an address in use. *)
Lemma deref_batch_dom (h : gmap Z RequestBatch) p b b' :
  deref_batch h p = Ret b → dom (<[p := b']> h) ⊆@{gset Z} dom h.
Proof.
  unfold deref_batch. destruct (p =? 0); [done|]. destruct (h !! p) as [b1|] eqn:Hp; [|done].
  intros _. by rewrite dom_insert_lookup by (by eexists).
Qed.

Lemma bump_sent_moves p s s' : bump_sent p s = Ret s' → rtc net_move s s'.
Proof.
  unfold bump_sent. intros E. apply bind_Ret_inv in E as (rb & Hrb & E).
  apply bind_Ret_inv in E as (pool & _ & [= <-]).
  by apply rtc_once, move_heap, (deref_batch_dom _ _ rb).
Qed.

Lemma delete_if_sent_moves p s s' : delete_if_sent p s = Ret s' → rtc net_move s s'.
Proof.
  unfold delete_if_sent. intros E. apply bind_Ret_inv in E as (rb & _ & E).
  apply bind_Ret_inv in E as (pool & _ & E). destruct (_ =? _); [|by injection E as <-].
  apply bind_Ret_inv in E as (h & Eh & [= <-]). apply rtc_once, move_heap.
  apply bind_Ret_inv in Eh as (b & _ & Eh). apply bind_Ret_inv in Eh as (u & _ & [= <-]).
  rewrite dom_delete. apply subseteq_difference_l. done.
Qed.

Lemma send_entry_moves p i c s s' : send_entry p i c s = Ret s' → rtc net_move s s'.
Proof.
  unfold send_entry. destruct (_ =? _); [apply bump_sent_moves|].
  intros E. apply (prepare_moves _ _ _ _ E); [by exists p, i|done].
Qed.

Lemma send_loop_moves fuel p data i last s s' :
  send_loop sq_entries fuel p data i last s = Ret s' → rtc net_move s s'.
Proof.
  revert i s. induction fuel as [|fuel IH]; intros i s E; cbn [send_loop] in E; [done|].
  destruct (i <? last); [|by injection E as <-].
  apply bind_Ret_inv in E as (c & _ & E). apply bind_Ret_inv in E as (s1 & E1 & E).
  transitivity s1; [by apply (send_entry_moves _ _ _ _ _ E1)|].
  destruct (_ =? _); [by apply (IH _ _ E)|].
  eapply rtc_l; [apply next_sqe_moves|by apply (IH _ _ E)].
Qed.

Lemma handle_accept_moves s c s' :
  handle_accept sq_entries s c = Ret s' → rtc net_move s s'.
Proof.
  unfold handle_accept. intros E. destruct (0 <? _); [|by injection E as <-].
  apply bind_Ret_inv in E as ([cp conn] & _ & E). apply bind_Ret_inv in E as (s1 & E1 & E).
  eapply rtc_l; [apply (move_connections s cp)|].
  transitivity s1; [by apply (prepare_moves _ _ _ _ E1); [eexists|]|].
  destruct (cqe_more c); [by injection E as <-|]. destruct (get_sqe _ _) as [slots j] eqn:Eg.
  eapply rtc_l; [by apply (move_slot s1 slots j (nt_sqe s1))|by apply (prepare_moves _ _ _ _ E)].
Qed.

Lemma handle_recv_moves s ud s' :
  handle_recv junk memory s ud = Ret s' → rtc net_move s s'.
Proof.
  unfold handle_recv. intros E. apply bind_Ret_inv in E as (conn & _ & E).
  apply bind_Ret_inv in E as (m & Em & E). apply bind_Ret_inv in E as (tag & _ & E).
  apply bind_Ret_inv in E as (rb & Hrb & E). apply bind_Ret_inv in E as (pool & _ & E).
  apply move_fill in Em. eapply rtc_l; [exact Em|]. destruct (_ <? _).
  - apply bind_Ret_inv in E as (rb' & _ & E). injection E as <-.
    by apply rtc_once, (move_heap (set_net_mem m s)), (deref_batch_dom _ _ rb).
  - apply bind_Ret_inv in E as (s1 & E1 & E). injection E as <-.
    destruct (nt_sqe s) as [j|] eqn:Ej; [|done]. injection E1 as <-.
    apply rtc_once, (move_to_main (set_net_mem m s)).
Qed.

Lemma handle_send_moves s ud s' : handle_send s ud = Ret s' → rtc net_move s s'.
Proof.
  unfold handle_send. intros E. apply bind_Ret_inv in E as (conn & _ & E).
  apply bind_Ret_inv in E as (s1 & E1 & E). apply bind_Ret_inv in E as (s2 & E2 & E).
  transitivity s1; [by apply (prepare_moves _ _ _ _ E1)|].
  transitivity s2; [by apply (bump_sent_moves _ _ _ E2)|by apply (delete_if_sent_moves _ _ _ E)].
Qed.

Lemma handle_batch_moves s ud s' : handle_batch sq_entries s ud = Ret s' → rtc net_move s s'.
Proof.
  unfold handle_batch. intros E. apply bind_Ret_inv in E as (p & _ & E).
  apply bind_Ret_inv in E as (rb & _ & E). apply bind_Ret_inv in E as (pool & _ & E).
  apply bind_Ret_inv in E as (s1 & E1 & E). apply bind_Ret_inv in E as (e & _ & E).
  apply bind_Ret_inv in E as (s2 & E2 & E).
  transitivity s1; [by apply (send_loop_moves _ _ _ _ _ _ _ E1)|].
  transitivity s2; [by apply (send_entry_moves _ _ _ _ _ E2)|by apply (delete_if_sent_moves _ _ _ E)].
Qed.

Lemma handle_moves s c s' : handle junk memory sq_entries s c = Ret s' → rtc net_move s s'.
Proof.
  unfold handle. intros E. apply bind_Ret_inv in E as (ty & _ & E). destruct ty.
  - by apply handle_accept_moves in E.
  - by apply handle_recv_moves in E.
  - destruct (cqe_more c); [by injection E as <-|by apply handle_send_moves in E].
  - by apply handle_batch_moves in E.
  - by apply handle_batch_moves in E.
  - by injection E as <-.
Qed.

(** What the elementary changes keep, a round keeps. *)
Lemma net_round_keeps (P : Net → Prop) l arrived l' :
  (∀ s s', net_move s s' → P s → P s') → P (set_slots [] None (nl_net l)) →
  net_round junk memory sq_entries l arrived = Ret l' → P (nl_net l').
Proof.
  unfold net_round. intros HP Hs E. destruct (_ <? _); [done|].
  apply bind_Ret_inv in E as (s1 & E1 & E). injection E as <-. cbn.
  apply (foldM_inv P) in E1; [done| |by eapply HP, Hs; apply next_sqe_moves].
  intros n c n' Hn Eh%handle_moves. by induction Eh; eauto.
Qed.

(** What a round submits is what was prepared before it. *)
Lemma net_round_submitted l arrived l' :
  net_round junk memory sq_entries l arrived = Ret l' →
  nl_submitted l' = nl_submitted l ++ nt_slots (nl_net l).
Proof.
  unfold net_round. intros E. destruct (_ <? _); [done|].
  by apply bind_Ret_inv in E as (s1 & _ & [= <-]).
Qed.

End moves.

(** ** Answers that arrive in excess *)

Section excess.
Context {cfg : Config}.
Context (junk : ConnectionRequest) (memory : Z → Content) (sq_entries : Z).
Context (Hsq : 0 < sq_entries).
Implicit Types (s : Net) (l : NetLoop) (pool : ReadWritePool).

(** The state in which a round starts to handle completions. *)
Definition round_start s : Net := next_sqe sq_entries (set_slots [] None s).

Lemma round_start_preparing s :
  preparing (round_start s) [] None ∧ nt_heap (round_start s) = nt_heap s.
Proof.
  unfold round_start, next_sqe, get_sqe. cbn [set_slots nt_slots]. change (lenZ []) with 0.
  by rewrite (proj2 (Z.ltb_lt _ _)).
Qed.

(** A round of one completion more than it consumes. *)
Lemma excess_round l pre c s1 s2 :
  nl_cq l = [] → lenZ pre = BATCH_NUM_REQUESTS →
  foldM (handle junk memory sq_entries) pre (round_start (nl_net l)) = Ret s1 →
  handle junk memory sq_entries s1 c = Ret s2 →
  net_round junk memory sq_entries l (pre ++ [c]) =
    Ret (MkNetLoop s2 [c] (nl_submitted l ++ nt_slots (nl_net l))).
Proof.
  intros Hcq Hpre E1 E2. unfold net_round. rewrite Hcq. cbn [app]. rewrite lenZ_app.
  change (lenZ [c]) with 1. decide_tests. rewrite foldM_app. fold (round_start (nl_net l)).
  rewrite E1. cbn [mbind exec_bind foldM]. rewrite E2. cbn [mbind exec_bind].
  rewrite <- Hpre. unfold lenZ. by rewrite Nat2Z.id, drop_app_length.
Qed.

(** The next round starts with it. *)
Lemma leftover_round l c arrived :
  nl_cq l = [c] → BATCH_NUM_REQUESTS ≤ 1 + lenZ arrived →
  net_round junk memory sq_entries l arrived =
    (s1 ← handle junk memory sq_entries (round_start (nl_net l)) c;
     s' ← foldM (handle junk memory sq_entries) arrived s1;
     Ret (MkNetLoop s' (drop (Z.to_nat BATCH_NUM_REQUESTS) (c :: arrived))
            (nl_submitted l ++ nt_slots (nl_net l)))).
Proof.
  intros Hcq Hlen. unfold net_round. rewrite Hcq. cbn [app]. rewrite lenZ_cons. decide_tests.
  fold (round_start (nl_net l)). cbn [foldM].
  by destruct (handle junk memory sq_entries (round_start (nl_net l)) c).
Qed.

(** C7: A round handles every completion in the queue but consumes only
    [BATCH_NUM_REQUESTS] of them.  So when a batch that was answered completes
    behind that many others, it is answered in this round and once more in the
    next: if nobody waited for its replies any more it was deleted the first
    time, and the second time is a use after free; otherwise the very same
    send requests are prepared again. *)
Theorem excess_answer_handled_twice l pre s1 p base pool slots cell lst c res more :
  let answer := MkCqe res (ud_batch p) more in
  let ops := sends_from p 0 (entries pool) in
  let sent := num_sent pool + dead_count (entries pool) in
  nl_cq l = [] → lenZ pre = BATCH_NUM_REQUESTS →
  foldM (handle junk memory sq_entries) pre (round_start (nl_net l)) = Ret s1 →
  req_type base = READ ∨ req_type base = WRITE →
  holds_pool s1 p base pool → preparing s1 slots cell →
  entries pool = lst ++ [c] → rw_length pool ≤ lenZ (rw_data pool) →
  lenZ slots + rw_length pool ≤ sq_entries →
  0 ≤ num_sent pool → num_sent pool + 2 * rw_length pool < 2 ^ 32 →
  ∃ l', net_round junk memory sq_entries l (pre ++ [answer]) = Ret l' ∧ nl_cq l' = [answer] ∧
    nt_slots (nl_net l') = slots ++ (Some <$> ops) ++
      (if client_sock_fd c =? -1 then [open_cell ops cell] else []) ∧
    (sent = rw_length pool →
     ∀ arrived, BATCH_NUM_REQUESTS ≤ 1 + lenZ arrived →
       net_round junk memory sq_entries l' arrived = Undef UseAfterFree) ∧
    (sent ≠ rw_length pool →
     ∃ s2, nt_slots s2 = (Some <$> ops) ++
         (if client_sock_fd c =? -1 then [open_cell ops None] else []) ∧
       ∀ arrived, BATCH_NUM_REQUESTS ≤ 1 + lenZ arrived →
         net_round junk memory sq_entries l' arrived =
           (s' ← foldM (handle junk memory sq_entries) arrived s2;
            Ret (MkNetLoop s' (drop (Z.to_nat BATCH_NUM_REQUESTS) (answer :: arrived))
                   (nl_submitted l' ++ nt_slots (nl_net l'))))).
Proof.
  intros answer ops sent Hcq Hpre E1 Hty Hp Hs He Hle Hroom Hn0 Hn.
  pose proof (dead_count_bounds (entries pool)) as Hdc.
  assert (Hlen : 0 ≤ rw_length pool ∧ lenZ (entries pool) = rw_length pool).
  { destruct (entries_snoc pool lst c He) as (rest & _ & Hlen & _); [lia|done|].
    rewrite He, lenZ_app, Hlen. pose proof (lenZ_nonneg lst). change (lenZ [c]) with 1. lia. }
  destruct (completed_batch_ok junk memory sq_entries p s1 base pool slots cell lst c res more)
    as (s2 & E2 & _ & Hsl & Hh); [done..|lia|].
  eexists. split; [by apply (excess_round _ _ _ s1)|]. cbn [nl_cq nl_net nl_submitted].
  split; [done|]. split; [exact Hsl|].
  destruct (round_start_preparing s2) as [Hs2 Hheap]. rewrite <- Hheap in Hh.
  destruct Hp as [Hp0 _]. split; intros Hsent.
  - rewrite decide_True in Hh by done. intros arrived Harr.
    assert (Eh : handle junk memory sq_entries (round_start s2) answer = Undef UseAfterFree).
    { unfold handle, answer, type_of, deref_batch. cbn [cqe_user_data].
      by rewrite (proj2 (Z.eqb_neq _ _) Hp0), Hh. }
    rewrite (leftover_round _ answer) by done. cbn [nl_net]. by rewrite Eh.
  - rewrite decide_False in Hh by done.
    set (pool' := sent_more (dead_count (entries pool)) pool) in Hh.
    destruct (completed_batch_ok junk memory sq_entries p (round_start s2) base pool' [] None
                lst c res more) as (s3 & E3 & _ & Hsl3 & _);
      [done|done|done|done|done| |cbn; lia|cbn; lia|].
    { pose proof (lenZ_nonneg slots). change (0 + rw_length pool ≤ sq_entries). lia. }
    exists s3. split; [exact Hsl3|]. intros arrived Harr.
    rewrite (leftover_round _ answer) by done. cbn [nl_net]. fold answer in E3.
    by rewrite E3.
Qed.

End excess.

Section own.
Context {cfg : Config}.
Context (junk : ConnectionRequest) (memory : Z → Content) (sq_entries : Z).
Implicit Types (s : Net).

Definition own_slots s : Prop := Forall own_request (nt_slots s).

Lemma move_own s s' : net_move memory sq_entries s s' → own_slots s → own_slots s'.
Proof.
  intros Hm Hs. destruct Hm as [s slots j j' E|s i op Hop _| | | |s i]; try done.
  - unfold get_sqe in E. destruct (_ <? _); injection E as <- <-; [|done].
    apply Forall_app. by split; [|apply Forall_singleton].
  - by apply Forall_insert.
  - by apply Forall_insert.
Qed.

Lemma net_round_own l arrived l' :
  net_round junk memory sq_entries l arrived = Ret l' →
  own_slots (nl_net l) → Forall own_request (nl_submitted l) →
  own_slots (nl_net l') ∧ Forall own_request (nl_submitted l').
Proof.
  intros E Hs Hsub. rewrite (net_round_submitted _ _ _ _ _ _ E). split; [|by apply Forall_app].
  eapply net_round_keeps; [apply move_own|by constructor|exact E].
Qed.

(** C26: Nothing the network thread submits can be completed: however it has
    run, the completion of a receive request carries the first word of the
    connection request where its address is expected, and the completion of
    a send request carries an entry of a batch, whose type makes the thread
    take it for a batch. *)
Theorem own_completions_undefined rounds l l' op s res more :
  nt_slots (nl_net l) = [] → nl_submitted l = [] →
  foldM (net_round junk memory sq_entries) rounds l = Ret l' →
  Some op ∈ nl_submitted l' →
  match op with
  | sqe_recv _ _ _ ud =>
      handle junk memory sq_entries s (MkCqe res ud more) = Undef UninitPtr
  | sqe_send _ _ _ ud =>
      ∃ p i, ud = ud_entry p i ∧
        ∀ c, entry_of s p i = Ret c →
          req_type (conn_base c) = READ ∨ req_type (conn_base c) = WRITE →
          handle junk memory sq_entries s (MkCqe res ud more) = Undef WrongType
  | _ => True
  end.
Proof.
  intros Hs0 Hsub0 E Hin.
  assert (Hall : own_slots (nl_net l') ∧ Forall own_request (nl_submitted l')).
  { assert (H0 : own_slots (nl_net l) ∧ Forall own_request (nl_submitted l))
      by (unfold own_slots; rewrite Hs0, Hsub0; by split).
    apply (foldM_inv (λ l, own_slots (nl_net l) ∧ Forall own_request (nl_submitted l))) in E;
      [done| |done]. intros l1 r l2 [Ha Hb] E1. by apply (net_round_own _ _ _ E1). }
  destruct Hall as [_ Hall]. eapply Forall_forall in Hall; [|exact Hin].
  destruct op as [? ? ? ud|ud|? ? ? ud| | |]; try done.
  - by destruct Hall as [ty ->].
  - destruct Hall as (p & i & ->). exists p, i. split; [done|]. intros c Hc Hty.
    unfold handle. cbn [type_of cqe_user_data]. rewrite Hc. cbn [mbind exec_bind].
    by destruct Hty as [-> | ->].
Qed.

End own.

(** ** Examples *)

(** Keys of one byte, values of eight, two requests to a batch. *)
Definition net_config : Config := {|
  MEMTABLE_SIZE_MB_BITS := 1; TOTAL_SSTABLE_STORAGE_SPACE_MB := 1000;
  LEVEL_FACTOR := 10; NUM_SSTABLE_WORKER_THREADS := 200;
  KEY_LENGTH := 1; VALUE_LENGTH := 8; PAGE_SIZE := 40; BLOCK_SIZE := 4096;
  ALIGN_NO_FALSE_SHARING := 64; MAX_SIMULTANEOUS_CONNECTIONS := 100;
  NUM_PROCESSORS := 8; TOTAL_SSTABLE_PAGE_CACHE_SIZE := 1000
|}.

Definition client (fd : Z) : ConnectionRequest :=
  MkConnectionRequest (MkBaseRequest READ) 2 fd 0.

(** Three connections, the first waiting for a message; the accept batch at 1,
    the batch of the moment, holding [cs], at 2. *)
Definition demo_net (cs : list ConnectionRequest) : Net :=
  MkNet (MkConnectionPool
           [MkConnectionRequest (MkBaseRequest RECV) 0 1 0; demo_junk; demo_junk] 0)
    ([114; 101; 97; 100; 0; 7] ++ replicate 10 9)
    {[1 := MkRequestBatch (MkBaseRequest ACCEPT) (readwrite_pool demo_empty_pool);
      2 := MkRequestBatch (MkBaseRequest READ)
             (readwrite_pool (MkReadWritePool cs (lenZ cs) 0 true))]}
    3 1 2 [None] (Some 0%nat).

Lemma completed_batch_spec_witness :
  ∃ s', handle (cfg := net_config) demo_junk no_memory 8
          (demo_net [client 5; client (-1); client 6]) (MkCqe 0 (ud_batch 2) false) = Ret s' ∧
    nt_slots s' = [Some (sqe_send 5 0 14 (ud_entry 2 0)); Some (sqe_send 6 0 14 (ud_entry 2 2))].
Proof.
  destruct (@completed_batch_spec net_config demo_junk no_memory 8 2
    (demo_net [client 5; client (-1); client 6]) (MkBaseRequest READ)
    (MkReadWritePool [client 5; client (-1); client 6] 3 0 true) [] None
    [client 5; client (-1)] (client 6) 0 false) as (s' & E & _ & Hsl & _);
    [by left|by split|by split|done|by vm_compute|by vm_compute|done|by vm_compute|].
  by exists s'.
Defined.

Lemma received_message_spec_witness :
  ∃ pool', handle (cfg := net_config) demo_junk no_memory 8 (demo_net []) (MkCqe 14 (ud_conn 0) false) =
      Ret (set_heap (<[2 := MkRequestBatch (MkBaseRequest READ) (readwrite_pool pool')]>
                       (nt_heap (demo_net [])))
             (set_net_mem ([114; 101; 97; 100; 0; 7; 0; 0] ++ replicate 8 9) (demo_net []))) ∧
    entries pool' ≡ₚ [MkConnectionRequest (MkBaseRequest READ) 2 1 0].
Proof.
  destruct (@received_message_spec net_config demo_junk no_memory 8 ltac:(by vm_compute)
    ltac:(by vm_compute) (demo_net []) 0 (MkConnectionRequest (MkBaseRequest RECV) 0 1 0)
    (MkBaseRequest READ) (MkReadWritePool [] 0 0 true) [] None 14 false)
    as [_ Hok]; [done|done|by split|by split|].
  destruct Hok as [Hok _]; [by vm_compute..|].
  destruct Hok as (pool' & E & _ & Hperm); [by vm_compute| |by exists pool'].
  split_and!; [by split; vm_compute| |constructor..]. intros [|i] j a b _ Ha; discriminate Ha.
Defined.

(** Two connections and behind them the answer for the batch at 2, whose two
    requests were handed on: it is deleted, and followed again.  With a client
    that waits, the reply is sent again. *)
Lemma excess_answer_handled_twice_witness :
  (∃ l', net_round (cfg := net_config) demo_junk no_memory 8
       (MkNetLoop (demo_net [client (-1); client (-1)]) [] [])
       [MkCqe 2 (ud_batch 1) true; MkCqe 3 (ud_batch 1) true; MkCqe 0 (ud_batch 2) false] = Ret l' ∧
     net_round (cfg := net_config) demo_junk no_memory 8 l' [MkCqe 1 (ud_batch 1) true] =
       Undef UseAfterFree) ∧
  ∃ l', net_round (cfg := net_config) demo_junk no_memory 8
       (MkNetLoop (demo_net [client (-1); client 5]) [] [])
       [MkCqe 2 (ud_batch 1) true; MkCqe 3 (ud_batch 1) true; MkCqe 0 (ud_batch 2) false] = Ret l' ∧
     nt_slots (nl_net l') = [Some (sqe_send 5 0 14 (ud_entry 2 1))].
Proof.
  set (accepts := [MkCqe 2 (ud_batch 1) true; MkCqe 3 (ud_batch 1) true]).
  assert (Hrun : ∀ cs, ∃ s, foldM (handle (cfg := net_config) demo_junk no_memory 8) accepts
      (round_start 8 (demo_net cs)) = Ret s ∧ preparing s [] (Some (sqe_recv 3 2 14 (ud_word RECV))) ∧
      nt_heap s = nt_heap (demo_net cs)) by (intros cs; by eexists).
  split.
  - set (cs := [client (-1); client (-1)]). destruct (Hrun cs) as (s & E & Hs & Hh).
    destruct (@excess_answer_handled_twice net_config demo_junk no_memory 8 ltac:(done)
      (MkNetLoop (demo_net cs) [] []) accepts s 2 (MkBaseRequest READ) (MkReadWritePool cs 2 0 true)
      [] (Some (sqe_recv 3 2 14 (ud_word RECV))) [client (-1)] (client (-1)) 0 false)
      as (l' & El & _ & _ & Huaf & _);
      [done|by vm_compute|exact E|by left| |exact Hs|done|by vm_compute..|].
    + split; [done|by rewrite Hh].
    + exists l'. split; [exact El|]. by apply Huaf; vm_compute.
  - set (cs := [client (-1); client 5]). destruct (Hrun cs) as (s & E & Hs & Hh).
    destruct (@excess_answer_handled_twice net_config demo_junk no_memory 8 ltac:(done)
      (MkNetLoop (demo_net cs) [] []) accepts s 2 (MkBaseRequest READ) (MkReadWritePool cs 2 0 true)
      [] (Some (sqe_recv 3 2 14 (ud_word RECV))) [client (-1)] (client 5) 0 false)
      as (l' & El & _ & Hsl & _);
      [done|by vm_compute|exact E|by left| |exact Hs|done|by vm_compute..|].
    + split; [done|by rewrite Hh].
    + by exists l'.
Defined.

Lemma accepts_keep_last_recv_witness :
  ∃ s', foldM (handle (cfg := net_config) demo_junk no_memory 8)
          [MkCqe 2 (ud_batch 1) true; MkCqe 3 (ud_batch 1) true] (demo_net []) = Ret s' ∧
    nt_slots s' = [Some (sqe_recv 3 2 14 (ud_word RECV))].
Proof.
  destruct (@accepts_keep_last_recv net_config demo_junk no_memory 8 (demo_net []) [2] 3 [] None)
    as (s' & E & Hsl & _); [|by split|by repeat constructor|by exists s'].
  split; [done|]. by eexists.
Defined.

Lemma own_completions_undefined_witness :
  handle (cfg := net_config) demo_junk no_memory 8 (demo_net [])
    (MkCqe 14 (ud_word RECV) false) = Undef UninitPtr.
Proof.
  set (l := MkNetLoop (set_slots [] None (demo_net [])) [] []).
  set (rounds := [[MkCqe 2 (ud_batch 1) true; MkCqe 3 (ud_batch 1) true];
                  [MkCqe 2 (ud_batch 1) true; MkCqe 3 (ud_batch 1) true]]).
  destruct (foldM (net_round (cfg := net_config) demo_junk no_memory 8) rounds l)
    as [l'| |] eqn:E; [|vm_compute in E; discriminate E..].
  refine (@own_completions_undefined net_config demo_junk no_memory 8 rounds l l'
    (sqe_recv 3 2 14 (ud_word RECV)) (demo_net []) 14 false eq_refl eq_refl E _).
  vm_compute in E. injection E as <-. by left.
Defined.
