(* ===== verification/CppTypes.v ===== *)
(** * Class types and [requires] expressions

    The concepts of RingDB are predicates over class types: they ask for
    members with certain types, for calls that are well formed and for
    constructors.  This file models what they are evaluated with: types, class
    definitions with access control, single inheritance and constructors, a
    table of the classes of a translation unit, the typing of the expressions
    that occur in the [requires] expressions ([decltype] with and without the
    value category) and the standard concepts they use.

    A table lists the youngest class first, and a class may only mention older
    ones, so every walk through bases and members is structural.  Arguments of
    calls are always parameters of the [requires] expression, that is lvalues
    of a declared type; a parameter accepts an argument of its own type, or
    binds to it when it is a reference, which are the only conversions the
    concepts of the program need. *)

From S2P Require Import Prelude.
From Stdlib Require Import String Bool.

#[local] Open Scope string_scope.
#[local] Open Scope Z_scope.

(** ** Types *)

Inductive cpp_type : Type :=
  | TVoid | TBool | TChar | TInt | TUInt | TSizeT
  | TAtomicUChar | TAtomicUInt | TIoUring | TRequestType
  | TPtr (t : cpp_type)
  | TRef (t : cpp_type)
  | TArr (t : cpp_type) (n : Z)
  | TClass (c : string).

Fixpoint type_eqb (t u : cpp_type) : bool :=
  match t, u with
  | TVoid, TVoid | TBool, TBool | TChar, TChar | TInt, TInt | TUInt, TUInt
  | TSizeT, TSizeT | TAtomicUChar, TAtomicUChar | TAtomicUInt, TAtomicUInt
  | TIoUring, TIoUring | TRequestType, TRequestType => true
  | TPtr t', TPtr u' | TRef t', TRef u' => type_eqb t' u'
  | TArr t' n, TArr u' m => (n =? m) && type_eqb t' u'
  | TClass c, TClass d => String.eqb c d
  | _, _ => false
  end.

Definition remove_reference (t : cpp_type) : cpp_type :=
  match t with TRef t' => t' | _ => t end.

(** ** Classes *)

Inductive access : Set := Public | Private.

Inductive member : Type :=
  | Field (t : cpp_type)
  | Method (params : list cpp_type) (ret : cpp_type).

Inductive class_key : Set := Struct | Union.

(** [ctors] is [None] for a class that declares no constructor; [user_dtor]
    says whether it declares a destructor. *)
Record class_def : Type := ClassDef {
  key : class_key;
  base_class : option string;
  members : list (string * (access * member));
  ctors : option (list (list cpp_type));
  user_dtor : bool
}.

Abbreviation class_table := (list (string * class_def)) (only parsing).

Fixpoint assoc {A} (x : string) (l : list (string * A)) : option A :=
  match l with
  | [] => None
  | (y, a) :: l' => if String.eqb x y then Some a else assoc x l'
  end.

(** Name lookup: the members of the class hide those of its base. *)
Fixpoint lookup_member (Γ : class_table) (c f : string) : option (access * member) :=
  match Γ with
  | [] => None
  | (c', d) :: Γ' =>
      if String.eqb c c' then
        match assoc f (members d) with
        | Some m => Some m
        | None => match base_class d with
                  | Some b => lookup_member Γ' b f
                  | None => None
                  end
        end
      else lookup_member Γ' c f
  end.

Definition public_field (Γ : class_table) (t : cpp_type) (f : string) : option cpp_type :=
  match t with
  | TClass c =>
      match lookup_member Γ c f with
      | Some (Public, Field u) => Some u
      | _ => None
      end
  | _ => None
  end.

Definition public_method (Γ : class_table) (t : cpp_type) (f : string) :
    option (list cpp_type * cpp_type) :=
  match t with
  | TClass c =>
      match lookup_member Γ c f with
      | Some (Public, Method ps r) => Some (ps, r)
      | _ => None
      end
  | _ => None
  end.

(** Inheritance is public for every class of the program. *)
Fixpoint derived_from (Γ : class_table) (c b : string) : bool :=
  match Γ with
  | [] => false
  | (c', d) :: Γ' =>
      if String.eqb c c' then
        String.eqb c b ||
        match base_class d with Some b' => derived_from Γ' b' b | None => false end
      else derived_from Γ' c b
  end.

(** ** Construction and destruction *)

Definition accepts1 (p a : cpp_type) : bool :=
  type_eqb p a || type_eqb p (TRef (remove_reference a)).

Fixpoint accepts (ps args : list cpp_type) : bool :=
  match ps, args with
  | [], [] => true
  | p :: ps', a :: args' => accepts1 p a && accepts ps' args'
  | _, _ => false
  end.

(** Constructor arguments are rvalues, which no lvalue reference binds to. *)
Fixpoint accepts_rvalues (ps args : list cpp_type) : bool :=
  match ps, args with
  | [], [] => true
  | p :: ps', a :: args' => type_eqb p a && accepts_rvalues ps' args'
  | _, _ => false
  end.

Fixpoint element_type (t : cpp_type) : cpp_type :=
  match t with TArr t' _ => element_type t' | _ => t end.

Definition field_types (d : class_def) : list cpp_type :=
  omap (λ '(_, (_, m)), match m with Field t => Some t | _ => None end) (members d).

(** [std::default_initializable]: a declared constructor without parameters,
    or an implicit one, which needs the base and every member to have one. *)
Fixpoint default_class (Γ : class_table) (c : string) : bool :=
  match Γ with
  | [] => false
  | (c', d) :: Γ' =>
      if String.eqb c c' then
        match ctors d with
        | Some cs => existsb (λ ps, accepts_rvalues ps []) cs
        | None =>
            match base_class d with Some b => default_class Γ' b | None => true end &&
            forallb (λ t, match element_type t with
                          | TClass b => default_class Γ' b
                          | TRef _ | TVoid => false
                          | _ => true
                          end) (field_types d)
        end
      else default_class Γ' c
  end.

Definition default_initializable (Γ : class_table) (t : cpp_type) : bool :=
  match element_type t with
  | TClass c => default_class Γ c
  | TRef _ | TVoid => false
  | _ => true
  end.

Fixpoint trivial_dtor (Γ : class_table) (c : string) : bool :=
  match Γ with
  | [] => false
  | (c', d) :: Γ' =>
      if String.eqb c c' then
        negb (user_dtor d) &&
        match base_class d with Some b => trivial_dtor Γ' b | None => true end &&
        forallb (λ t, match element_type t with
                      | TClass b => trivial_dtor Γ' b
                      | _ => true
                      end) (field_types d)
      else trivial_dtor Γ' c
  end.

(** The destructor of a union is deleted when a variant needs one; that of a
    struct, written or implicit, destroys the members and the base. *)
Fixpoint destructible_class (Γ : class_table) (c : string) : bool :=
  match Γ with
  | [] => false
  | (c', d) :: Γ' =>
      if String.eqb c c' then
        match base_class d with Some b => destructible_class Γ' b | None => true end &&
        forallb (λ t, match element_type t with
                      | TClass b => match key d with
                                    | Struct => destructible_class Γ' b
                                    | Union => trivial_dtor Γ' b
                                    end
                      | _ => true
                      end) (field_types d)
      else destructible_class Γ' c
  end.

Definition destructible (Γ : class_table) (t : cpp_type) : bool :=
  match element_type t with
  | TClass c => destructible_class Γ c
  | TVoid => false
  | _ => true
  end.

Definition constructible_from (Γ : class_table) (t : cpp_type) (args : list cpp_type) : bool :=
  destructible Γ t &&
  match args with
  | [] => default_initializable Γ t
  | _ =>
      match t with
      | TClass c =>
          match assoc c Γ with
          | Some d => match ctors d with
                      | Some cs => existsb (λ ps, accepts_rvalues ps args) cs
                      | None => false
                      end
          | None => false
          end
      | _ => match args with [a] => type_eqb t (remove_reference a) | _ => false end
      end
  end.

(** ** Expressions of a [requires] expression *)

Inductive expr : Type :=
  | EVar (t : cpp_type)                      (** a parameter, with its type *)
  | EMember (e : expr) (f : string)          (** [e.f] *)
  | EDeref (e : expr)                        (** [*e] *)
  | EIndex (e : expr)                        (** [e[0]] *)
  | ECall (e : expr) (f : string) (args : list cpp_type).  (** [e.f(args)] *)

Definition lvalue_of (t : cpp_type) (lv : bool) : cpp_type * bool :=
  match t with TRef t' => (t', true) | _ => (t, lv) end.

Definition pointee (t : cpp_type) : option cpp_type :=
  match t with TPtr t' | TArr t' _ => Some t' | _ => None end.

(** The type of an expression and whether it is an lvalue. *)
Fixpoint expr_type (Γ : class_table) (e : expr) : option (cpp_type * bool) :=
  match e with
  | EVar t => Some (lvalue_of t true)
  | EMember e' f =>
      '(t, lv) ← expr_type Γ e'; u ← public_field Γ t f; Some (lvalue_of u lv)
  | EDeref e' | EIndex e' =>
      '(t, _) ← expr_type Γ e'; u ← pointee t; Some (u, true)
  | ECall e' f args =>
      '(t, _) ← expr_type Γ e';
      '(ps, r) ← public_method Γ t f;
      if accepts ps args then Some (lvalue_of r false) else None
  end.

Definition by_category (tl : cpp_type * bool) : cpp_type :=
  if tl.2 then TRef tl.1 else tl.1.

(** [decltype(e)]: the declared type of a variable or member, otherwise a
    reference exactly for an lvalue. *)
Definition decltype (Γ : class_table) (e : expr) : option cpp_type :=
  match e with
  | EVar t => Some t
  | EMember e' f => '(t, _) ← expr_type Γ e'; public_field Γ t f
  | _ => by_category <$> expr_type Γ e
  end.

(** ** Requirements *)

Definition is_type (o : option cpp_type) (t : cpp_type) : bool :=
  match o with Some u => type_eqb u t | None => false end.

(** [requires std::same_as<t, decltype(e)>;] *)
Definition same_as (Γ : class_table) (t : cpp_type) (e : expr) : bool :=
  is_type (decltype Γ e) t.

(** [requires std::same_as<t, std::remove_reference_t<decltype(e)>>;] *)
Definition same_as_rr (Γ : class_table) (t : cpp_type) (e : expr) : bool :=
  is_type (remove_reference <$> decltype Γ e) t.

(** [{e} -> std::same_as<t>;], which looks at [decltype((e))]. *)
Definition returns (Γ : class_table) (e : expr) (t : cpp_type) : bool :=
  is_type (by_category <$> expr_type Γ e) t.

(** [requires std::is_array_v<decltype(e)>;] *)
Definition is_array (Γ : class_table) (e : expr) : bool :=
  match decltype Γ e with Some (TArr _ _) => true | _ => false end.

(** [requires C<decltype(e)>;] and [requires C<std::remove_reference_t<decltype(e)>>;] *)
Definition has_concept (C : class_table → cpp_type → bool) (Γ : class_table) (e : expr) : bool :=
  match decltype Γ e with Some t => C Γ t | None => false end.

Definition has_concept_rr (C : class_table → cpp_type → bool) (Γ : class_table)
    (e : expr) : bool :=
  match decltype Γ e with Some t => C Γ (remove_reference t) | None => false end.

(** [{e} -> C;] *)
Definition returns_concept (C : class_table → cpp_type → bool) (Γ : class_table)
    (e : expr) : bool :=
  match by_category <$> expr_type Γ e with Some t => C Γ t | None => false end.

(** A simple requirement [std::same_as<t, decltype(e)>;] without the keyword
    [requires] only asks that the expression is well formed. *)
Definition well_formed (Γ : class_table) (e : expr) : bool :=
  match decltype Γ e with Some _ => true | None => false end.

Definition all (l : list bool) : bool := forallb (λ b, b) l.

(** ** Declaring a class *)

(** An array bound is a positive value of an integral constant expression. *)
Fixpoint valid_type (Γ : class_table) (t : cpp_type) : bool :=
  match t with
  | TVoid => false
  | TRef t' => valid_type Γ t'
  | TPtr _ => true
  | TArr t' n => (0 <? n) && valid_type Γ t'
  | TClass c => match assoc c Γ with Some _ => true | None => false end
  | _ => true
  end.

(** [constraints] are those of the template the class is an instance of. *)
Definition declare (Γ : class_table) (c : string) (constraints : bool) (d : class_def) :
    option class_table :=
  if constraints
     && match assoc c Γ with Some _ => false | None => true end
     && match base_class d with
        | Some b => match assoc b Γ with Some _ => true | None => false end
        | None => true
        end
     && forallb (valid_type Γ) (field_types d)
  then Some ((c, d) :: Γ) else None.

(** ** Lemmas *)

Lemma type_eqb_refl t : type_eqb t t = true.
Proof.
  induction t; cbn; rewrite ?Z.eqb_refl, ?String.eqb_refl; by rewrite ?IHt.
Qed.

Lemma type_eqb_eq t u : type_eqb t u = true ↔ t = u.
Proof.
  split; [|intros ->; apply type_eqb_refl].
  revert u. induction t; intros []; cbn; try done; intros H.
  - by rewrite (IHt _ H).
  - by rewrite (IHt _ H).
  - apply andb_true_iff in H as [Hn H]. apply Z.eqb_eq in Hn as ->. by rewrite (IHt _ H).
  - by apply String.eqb_eq in H as ->.
Qed.

#[global] Instance cpp_type_eq_dec : EqDecision cpp_type.
Proof.
  intros t u. destruct (type_eqb t u) eqn:E.
  - left. by apply type_eqb_eq.
  - right. intros ->. by rewrite type_eqb_refl in E.
Defined.

Lemma declare_Some Γ c b d Γ' :
  declare Γ c b d = Some Γ' ↔
  b = true ∧ assoc c Γ = None ∧
  match base_class d with Some b => is_Some (assoc b Γ) | None => True end ∧
  forallb (valid_type Γ) (field_types d) = true ∧ Γ' = (c, d) :: Γ.
Proof.
  unfold declare. split.
  - destruct b; [|done]. destruct (assoc c Γ); [done|].
    destruct (base_class d) as [b|]; [destruct (assoc b Γ) eqn:Eb; [|done]|];
      cbn [andb]; destruct (forallb _ _); naive_solver.
  - intros (-> & -> & Hb & Hf & ->). rewrite Hf.
    destruct (base_class d); [destruct Hb as [? ->]|]; done.
Qed.

Lemma declare_ok Γ c b d :
  b = true → assoc c Γ = None →
  match base_class d with
  | Some b => match assoc b Γ with Some _ => true | None => false end
  | None => true
  end = true →
  forallb (valid_type Γ) (field_types d) = true →
  declare Γ c b d = Some ((c, d) :: Γ).
Proof. intros -> Hc Hb Hf. unfold declare. by rewrite Hc, Hb, Hf. Qed.

Lemma declare_fields Γ c b d Γ' t :
  declare Γ c b d = Some Γ' → t ∈ field_types d → valid_type Γ t = true.
Proof.
  intros (_ & _ & _ & Hf & _)%declare_Some Ht.
  rewrite forallb_forall in Hf. apply Hf. by apply list_elem_of_In.
Qed.

(** What [has_concept] and the return-type requirements promise a client: the
    expression is well formed with the type that was asked for. *)
Lemma same_as_true Γ t e : same_as Γ t e = true ↔ decltype Γ e = Some t.
Proof.
  unfold same_as, is_type. destruct (decltype Γ e); [|done].
  rewrite type_eqb_eq. naive_solver.
Qed.

Lemma returns_true Γ t e :
  returns Γ e t = true ↔ by_category <$> expr_type Γ e = Some t.
Proof.
  unfold returns, is_type. destruct (by_category <$> expr_type Γ e); [|done].
  rewrite type_eqb_eq. naive_solver.
Qed.
