(* ===== verification/Concepts.v ===== *)
(** * The concepts of the program

    One definition per concept of [aux_data_structures_concepts], as a
    predicate over a class table and a type, with the requirements in the order
    of the header; [LSMTree_requires] is the constraint of the class template
    [LSMTree].  The parameters of a [requires] expression are the variables
    bound first.  Requirements that lack the keyword [requires] in the header
    ([LevelInfoLike], [LevelInfoDecompose]) only ask for a well-formed
    expression, and are [well_formed] here. *)

From S2P Require Import Prelude Config CppTypes.
From Stdlib Require Import String Bool.

#[local] Open Scope string_scope.
#[local] Open Scope Z_scope.

Section concepts.
Context {cfg : Config}.

(** ** Requests *)

Definition BaseRequestLike (Γ : class_table) (BaseRequest : cpp_type) : bool :=
  let base_req := EVar BaseRequest in
  all [ same_as Γ TRequestType (EMember base_req "req_type");
        constructible_from Γ TRequestType [];
        default_initializable Γ BaseRequest ].

Definition ConnectionRequestLike (Γ : class_table) (ConnectionRequest : cpp_type) : bool :=
  let conn_req := EVar ConnectionRequest in
  all [ same_as Γ (TPtr TVoid) (EMember conn_req "req_batch_ref");
        same_as Γ TInt (EMember conn_req "client_sock_fd");
        same_as Γ (TPtr TChar) (EMember conn_req "buffer");
        default_initializable Γ ConnectionRequest ].

(** [ConnectionRequestReq] and [RequestBatchReq]: derivation from the base. *)
Definition is_derived_from (Γ : class_table) (D B : cpp_type) : bool :=
  match D, B with TClass d, TClass b => derived_from Γ d b | _, _ => false end.

Definition ConnectionRequestReq (Γ : class_table) (ConnectionRequest BaseRequest : cpp_type) :
    bool := is_derived_from Γ ConnectionRequest BaseRequest.

Definition ReadWritePoolLike (Γ : class_table) (ReadWritePool : cpp_type) : bool :=
  let rw_pool := EVar ReadWritePool in
  let socket_buffer := TPtr TChar in
  let client_sock_fd := TInt in
  let index := TUInt in
  let req_batch_ref := TPtr TVoid in
  let rw_type := TRequestType in
  all [ has_concept_rr ConnectionRequestLike Γ (EDeref (EMember rw_pool "data"));
        same_as Γ TUInt (EMember rw_pool "length");
        same_as Γ TUInt (EMember rw_pool "num_sent");
        same_as Γ TBool (EMember rw_pool "present_in_level");
        returns Γ (ECall rw_pool "insert_read_write"
                     [socket_buffer; client_sock_fd; rw_type; req_batch_ref]) TVoid;
        returns Γ (ECall rw_pool "find_index_starting_from" [index; socket_buffer]) TInt;
        returns Γ (ECall rw_pool "remove_via_index" [index]) TVoid ].

Definition ConnectionPoolLike (Γ : class_table) (ConnectionPool : cpp_type) : bool :=
  let client_sockfd := TInt in
  let connection_pool := EVar ConnectionPool in
  let req_type := TRequestType in
  all [ has_concept_rr ConnectionRequestLike Γ
          (EDeref (EMember connection_pool "connections"));
        same_as_rr Γ (TPtr TChar) (EMember connection_pool "buffer_pool");
        constructible_from Γ ConnectionPool [TUInt; TPtr TChar];
        has_concept_rr ConnectionRequestLike Γ
          (EDeref (ECall connection_pool "insert" [client_sockfd; req_type])) ].

(** ** Batches *)

Definition RequestSegmentLike (Γ : class_table) (RequestSegment : cpp_type) : bool :=
  let request_segment := EVar RequestSegment in
  let memtable_data := TPtr TChar in
  all [ same_as Γ (TPtr TChar) (EMember request_segment "data");
        returns Γ (ECall request_segment "insert_memtable" [memtable_data]) TVoid ].

Definition RequestBatchLike (Γ : class_table) (RequestBatch : cpp_type) : bool :=
  let req_batch := EVar RequestBatch in
  let client_sockfd := TInt in
  let buffer := TPtr TChar in
  let req_type := TRequestType in
  all [ has_concept ReadWritePoolLike Γ
          (EMember (EMember req_batch "content") "readwrite_pool");
        has_concept RequestSegmentLike Γ (EMember (EMember req_batch "content") "req_seg");
        constructible_from Γ RequestBatch [TRequestType];
        destructible Γ RequestBatch;
        returns Γ (ECall req_batch "insert_read_write" [buffer; client_sockfd; req_type])
          TVoid ].

Definition RequestBatchReq (Γ : class_table) (RequestBatch BaseRequest : cpp_type) : bool :=
  is_derived_from Γ RequestBatch BaseRequest.

Definition RequestBatchWaitQueueLike (Γ : class_table) (RequestBatchWaitQueue : cpp_type) :
    bool :=
  let req_batch_wq := EVar RequestBatchWaitQueue in
  let guard := EMember req_batch_wq "guard" in
  all [ same_as Γ TBool (EMember guard "is_single_thread");
        same_as Γ TAtomicUChar (EMember guard "atomic_consumer_guard");
        same_as Γ TAtomicUChar (EMember guard "atomic_producer_guard");
        same_as Γ TAtomicUInt (EMember guard "size");
        has_concept_rr RequestBatchLike Γ (EDeref (ECall req_batch_wq "pop_front" [])) ].

Definition RequestBatchWaitQueuePushBack (Γ : class_table)
    (RequestBatchWaitQueue RequestBatch : cpp_type) : bool :=
  let req_batch_wq := EVar RequestBatchWaitQueue in
  let req_batch := TPtr RequestBatch in
  let could_contend_with_consumer := TBool in
  all [ RequestBatchWaitQueueLike Γ RequestBatchWaitQueue;
        RequestBatchLike Γ RequestBatch;
        returns Γ (ECall req_batch_wq "try_push_back"
                     [req_batch; could_contend_with_consumer]) TBool;
        returns Γ (ECall req_batch_wq "standard_push_back" [req_batch]) TVoid ].

(** ** SSTables *)

Definition CacheBufferEntryLike (Γ : class_table) (CacheBufferEntry : cpp_type) : bool :=
  let cache_buffer_entry := EVar CacheBufferEntry in
  all [ same_as Γ (TRef TChar) (EDeref (EMember cache_buffer_entry "key"));
        same_as Γ (TRef TChar) (EDeref (EMember cache_buffer_entry "value")) ].

Definition CacheLocationLike (Γ : class_table) (CacheLocation : cpp_type) : bool :=
  let cache_location := EVar CacheLocation in
  all [ same_as Γ TUInt (EMember cache_location "buffer_id");
        same_as Γ (TArr TSizeT 2) (EMember cache_location "sstable_offset_boundary");
        constructible_from Γ CacheLocation [TSizeT; TSizeT; TUInt];
        default_initializable Γ CacheLocation ].

Definition SparseBufferIndexLike (Γ : class_table) (SparseBufferIndex : cpp_type) : bool :=
  let sparse_buffer_index := EVar SparseBufferIndex in
  all [ has_concept_rr CacheLocationLike Γ
          (EDeref (EMember sparse_buffer_index "cache_locations"));
        same_as Γ (TRef TUInt)
          (EDeref (EMember sparse_buffer_index "sparse_buffer_index_locations"));
        same_as Γ TSizeT (EMember sparse_buffer_index "cur_min_invalid_offset");
        same_as Γ TUInt
          (EMember sparse_buffer_index "id_of_most_recently_selected_buffer") ].

Definition SSTableCacheHelperLike (Γ : class_table) (SSTableCacheHelper : cpp_type) : bool :=
  let sstable_cache_helper := EVar SSTableCacheHelper in
  let buffer_id := TUInt in
  let buffer_id2 := TUInt in
  let desired_sstable_offset := TSizeT in
  let sstable_offset1 := TSizeT in
  let sstable_offset2 := TSizeT in
  all [ default_initializable Γ SSTableCacheHelper;
        has_concept SparseBufferIndexLike Γ
          (EMember sstable_cache_helper "sparse_buffer_index");
        same_as Γ TUInt (EMember sstable_cache_helper "free_buffers_left");
        same_as Γ TUInt
          (EMember sstable_cache_helper "id_of_least_recently_selected_buffer");
        returns_concept CacheLocationLike Γ
          (ECall sstable_cache_helper "get_buffer_info" [desired_sstable_offset]);
        returns Γ (ECall sstable_cache_helper "set_cur_min_invalid_offset"
                     [desired_sstable_offset]) TVoid;
        returns Γ (ECall sstable_cache_helper "get_cur_min_invalid_offset" []) TSizeT;
        returns Γ (ECall sstable_cache_helper
                     "replenish_least_recently_selected_buffer" []) TVoid;
        returns Γ (ECall sstable_cache_helper "map_buffer_to_offset_boundary"
                     [buffer_id; sstable_offset1; sstable_offset2]) TVoid;
        returns Γ (ECall sstable_cache_helper "add_buffer" []) TVoid;
        returns Γ (ECall sstable_cache_helper "remove_buffer_range"
                     [buffer_id; buffer_id2]) TVoid;
        returns Γ (ECall sstable_cache_helper
                     "get_id_of_most_recently_selected_buffer" []) TUInt ].

Definition StackLike (Γ : class_table) (Stack : cpp_type) : bool :=
  let s := EVar Stack in
  let desired_sstable_offset := TUInt in
  let cur_request := TUInt in
  let left := TUInt in
  let right := TUInt in
  all [ same_as Γ (TRef (TArr TUInt 4)) (EDeref (EMember s "data"));
        returns Γ (ECall s "push_top" [desired_sstable_offset; cur_request; left; right])
          TVoid;
        returns Γ (ECall s "empty" []) TBool;
        returns Γ (ECall s "top" []) (TRef (TArr TUInt 4));
        returns Γ (ECall s "pop_top" []) TVoid;
        default_initializable Γ Stack ].

Definition SSTableInfoLike (Γ : class_table) (SSTableInfo : cpp_type) : bool :=
  let sstable_info := EVar SSTableInfo in
  all [ same_as Γ (TRef TChar) (EDeref (EMember sstable_info "file_path"));
        same_as Γ TBool (EMember sstable_info "is_flushed_to");
        same_as Γ TUInt (EMember sstable_info "insert_buffers_from");
        same_as_rr Γ (TPtr TChar) (EDeref (EMember sstable_info "page_cache_buffers"));
        same_as Γ (TRef TChar) (EDeref (EMember sstable_info "min_key"));
        same_as Γ (TRef TChar) (EDeref (EMember sstable_info "max_key"));
        same_as Γ (TRef TIoUring) (EDeref (EMember sstable_info "io_ring"));
        has_concept_rr RequestBatchWaitQueueLike Γ (EMember sstable_info "req_batch_wq");
        has_concept_rr SSTableCacheHelperLike Γ (EMember sstable_info "cache_helper");
        has_concept_rr StackLike Γ (EMember sstable_info "stack");
        has_concept_rr RequestBatchLike Γ (EDeref (EMember sstable_info "req_batch"));
        same_as Γ TBool (EMember sstable_info "waiting_on_io");
        same_as Γ TBool (EMember sstable_info "already_waited");
        same_as Γ TSizeT (EMember sstable_info "desired_sstable_offset") ].

(** ** Levels *)

Definition BufferQueueLike (Γ : class_table) (BufferQueue : cpp_type) : bool :=
  let buffer_queue := EVar BufferQueue in
  let buffer := TPtr TChar in
  all [ same_as Γ TBool (EMember (EMember buffer_queue "guard") "is_single_thread");
        same_as Γ TAtomicUChar (EMember (EMember buffer_queue "guard") "atomic_guard");
        same_as_rr Γ (TPtr TChar) (EIndex (EMember buffer_queue "queue"));
        is_array Γ (EMember buffer_queue "queue");
        same_as Γ TUInt (EMember buffer_queue "cur_num_buffers");
        same_as Γ TUInt (EMember buffer_queue "num_new_buffers");
        returns Γ (ECall buffer_queue "front" []) (TPtr TChar);
        returns Γ (ECall buffer_queue "pop_front" []) (TPtr TChar);
        returns Γ (ECall buffer_queue "push_back" [buffer]) TVoid ].

Definition FilterLike (Γ : class_table) (Filter : cpp_type) : bool :=
  let filter := EVar Filter in
  let key := TPtr TChar in
  all [ returns Γ (ECall filter "insert_key" [key]) TVoid;
        returns Γ (ECall filter "prob_contains_key" [key]) TBool;
        returns Γ (ECall filter "empty" []) TBool ].

Definition SparseIndexLike (Γ : class_table) (SparseIndex : cpp_type) : bool :=
  let sparse_index := EVar SparseIndex in
  let key := TPtr TChar in
  let min_key := TPtr TChar in
  let max_key := TPtr TChar in
  let table_num := TUInt in
  all [ same_as Γ (TArr TChar (Z.shiftl KEY_LENGTH 1 * LEVEL_FACTOR))
          (EMember sparse_index "index");
        returns Γ (ECall sparse_index "insert_range" [min_key; max_key; table_num]) TVoid;
        returns Γ (ECall sparse_index "get_table_num" [key]) TUInt;
        returns Γ (ECall sparse_index "get_table_min_key" [table_num]) (TPtr TChar);
        returns Γ (ECall sparse_index "get_table_max_key" [table_num]) (TPtr TChar);
        returns Γ (ECall sparse_index "set_table_min_key" [table_num; min_key]) TVoid;
        returns Γ (ECall sparse_index "set_table_max_key" [table_num; max_key]) TVoid;
        returns Γ (ECall sparse_index "remove_table" [table_num]) TVoid;
        default_initializable Γ SparseIndex ].

Definition DecompositionLike (Γ : class_table) (Decomposition : cpp_type) : bool :=
  let decomp := EVar Decomposition in
  all [ has_concept_rr RequestBatchLike Γ (EDeref (EDeref (EMember decomp "decomposition")));
        same_as Γ TUInt (EMember decomp "num_req_batches");
        same_as Γ TUInt (EMember decomp "total_decomp_size");
        same_as Γ (TRef TUInt) (EDeref (EMember decomp "expected_sstable_sizes")) ].

Definition LevelInfoLike (Γ : class_table) (LevelInfo : cpp_type) : bool :=
  let level_info := EVar LevelInfo in
  let is_single_thread := TBool in
  all [ well_formed Γ (EMember (EMember level_info "guard") "atomic_guard");
        well_formed Γ (EMember (EMember level_info "guard") "is_single_thread");
        returns Γ (ECall level_info "set_is_single_thread" [is_single_thread]) TVoid;
        has_concept_rr FilterLike Γ (EDeref (EMember level_info "filters"));
        has_concept_rr BufferQueueLike Γ (EDeref (EMember level_info "buffer_queues"));
        has_concept SparseIndexLike Γ (EMember level_info "sparse_index");
        has_concept_rr SSTableInfoLike Γ (EDeref (EMember level_info "sstable_infos")) ].

(** The first two and the last line of the concept are simple requirements:
    naming a concept is an expression that is always well formed. *)
Definition LevelInfoDecompose (Γ : class_table) (LevelInfo RequestBatch : cpp_type) : bool :=
  let level_info := EVar LevelInfo in
  let req_batch := TPtr RequestBatch in
  has_concept_rr DecompositionLike Γ (ECall level_info "decompose" [req_batch]).

(** ** Memtables *)

Definition MemTableLike (Γ : class_table) (MemTable : cpp_type) : bool :=
  let mem_table := EVar MemTable in
  let key := TPtr TChar in
  let value := TPtr TChar in
  all [ same_as Γ (TArr TChar (Z.shiftl 1 MEMTABLE_SIZE_MB_BITS * Z.shiftl 1 20))
          (EMember mem_table "data");
        same_as Γ TUInt (EMember mem_table "size");
        returns Γ (ECall mem_table "read" [key; value]) TBool;
        returns Γ (ECall mem_table "empty_out" []) TVoid ].

Definition MemTableWrite (Γ : class_table) (MemTable SparseIndex : cpp_type) : bool :=
  let mem_table := EVar MemTable in
  let table_num := TUInt in
  let memtable_sparse_index := TRef SparseIndex in
  let key := TPtr TChar in
  let value := TPtr TChar in
  all [ has_concept MemTableLike Γ mem_table;
        has_concept_rr SparseIndexLike Γ (EVar memtable_sparse_index);
        returns Γ (ECall mem_table "write" [key; value; table_num; memtable_sparse_index])
          TVoid ].

(** ** The tree *)

(** The template parameters of [LSMTree], in their order. *)
Record lsm_tree_args : Type := LSMTreeArgs {
  arg_MemTable : cpp_type;
  arg_LevelInfo : cpp_type;
  arg_BufferQueue : cpp_type;
  arg_Filter : cpp_type;
  arg_SparseIndex : cpp_type;
  arg_Decomposition : cpp_type;
  arg_SSTableInfo : cpp_type;
  arg_SSTableCacheHelper : cpp_type;
  arg_CacheLocation : cpp_type;
  arg_RequestBatch : cpp_type;
  arg_RequestBatchWaitQueue : cpp_type;
  arg_RequestSegment : cpp_type;
  arg_CacheBufferEntry : cpp_type;
  arg_Stack : cpp_type;
  arg_BaseRequest : cpp_type;
  arg_ConnectionPool : cpp_type;
  arg_ConnectionRequest : cpp_type;
  arg_ReadWritePool : cpp_type
}.

Definition LSMTree_requires (Γ : class_table) (a : lsm_tree_args) : bool :=
  all [ MemTableLike Γ (arg_MemTable a);
        LevelInfoLike Γ (arg_LevelInfo a);
        BufferQueueLike Γ (arg_BufferQueue a);
        FilterLike Γ (arg_Filter a);
        SparseIndexLike Γ (arg_SparseIndex a);
        DecompositionLike Γ (arg_Decomposition a);
        SSTableInfoLike Γ (arg_SSTableInfo a);
        SSTableCacheHelperLike Γ (arg_SSTableCacheHelper a);
        CacheLocationLike Γ (arg_CacheLocation a);
        RequestBatchLike Γ (arg_RequestBatch a);
        RequestBatchWaitQueueLike Γ (arg_RequestBatchWaitQueue a);
        RequestSegmentLike Γ (arg_RequestSegment a);
        CacheBufferEntryLike Γ (arg_CacheBufferEntry a);
        StackLike Γ (arg_Stack a);
        BaseRequestLike Γ (arg_BaseRequest a);
        ConnectionPoolLike Γ (arg_ConnectionPool a);
        ConnectionRequestLike Γ (arg_ConnectionRequest a);
        ReadWritePoolLike Γ (arg_ReadWritePool a);
        ConnectionRequestReq Γ (arg_ConnectionRequest a) (arg_BaseRequest a);
        RequestBatchReq Γ (arg_RequestBatch a) (arg_BaseRequest a);
        LevelInfoDecompose Γ (arg_LevelInfo a) (arg_RequestBatch a);
        RequestBatchWaitQueuePushBack Γ (arg_RequestBatchWaitQueue a) (arg_RequestBatch a);
        MemTableWrite Γ (arg_MemTable a) (arg_SparseIndex a) ].

End concepts.
