(* ===== verification/Program.v ===== *)
(** * The class templates and the program [main.cpp] builds from them

    One definition per class template of [aux_data_structures_impls]: the
    members with their types and access, the constructors and the base, as
    functions of the template arguments.  [main_types] is the list of
    [typedef]s of [main.cpp]: each instantiates a template, which fails when
    the template's constraints are not satisfied or a member's type is not
    valid; the declarations are accepted when the constraint of [LSMTree] holds
    for the resulting types.  Of the member functions that are instantiated
    then, two statements no configuration can save are modelled
    ([main_program]): a declaration in [pop_front] of the wait queue and a call
    of [mmap] in [network_thread_routine].  The size of a Bloom filter's bit array, which is
    computed in floating point, is an argument. *)

From S2P Require Import Prelude Config CppTypes Concepts.
From Stdlib Require Import String Bool.

#[local] Open Scope string_scope.
#[local] Open Scope Z_scope.

Definition pub_field (f : string) (t : cpp_type) : string * (access * member) :=
  (f, (Public, Field t)).
Definition priv_field (f : string) (t : cpp_type) : string * (access * member) :=
  (f, (Private, Field t)).
Definition method (f : string) (ps : list cpp_type) (r : cpp_type) :
    string * (access * member) := (f, (Public, Method ps r)).

(** A class without base and with an implicit destructor. *)
Definition plain (ms : list (string * (access * member)))
    (cs : option (list (list cpp_type))) : class_def := ClassDef Struct None ms cs false.

Abbreviation char_ptr := (TPtr TChar) (only parsing).

Section program.
Context {cfg : Config}.

(** ** Class templates *)

Definition BaseRequest_class : class_def :=
  plain [pub_field "req_type" TRequestType] (Some [[TRequestType]; []]).

Definition ConnectionRequest_template (BaseRequest : string) : class_def :=
  ClassDef Struct (Some BaseRequest)
    [pub_field "req_batch_ref" (TPtr TVoid);
     pub_field "client_sock_fd" TInt;
     pub_field "buffer" char_ptr] None false.

Definition ReadWritePool_template (ConnectionRequest : cpp_type) : class_def :=
  plain
    [pub_field "data" (TPtr ConnectionRequest);
     pub_field "length" TUInt;
     pub_field "num_sent" TUInt;
     pub_field "present_in_level" TBool;
     method "insert_read_write" [char_ptr; TInt; TRequestType; TPtr TVoid] TVoid;
     method "find_index_starting_from" [TUInt; char_ptr] TInt;
     method "remove_via_index" [TUInt] TVoid] None.

Definition ConnectionPool_template (ConnectionRequest : cpp_type) : class_def :=
  plain
    [pub_field "connections" (TPtr ConnectionRequest);
     pub_field "buffer_pool" char_ptr;
     method "insert" [TInt; TRequestType] (TPtr ConnectionRequest)]
    (Some [[TUInt; char_ptr]]).

Definition Stack_template (length : Z) : class_def :=
  plain
    [priv_field "back" TUInt;
     pub_field "data" (TArr (TArr TUInt 4) length);
     method "push_top" [TUInt; TUInt; TUInt; TUInt] TVoid;
     method "top" [] (TRef (TArr TUInt 4));
     method "pop_top" [] TVoid;
     method "empty" [] TBool] None.

Definition RequestSegment_template (Stack : cpp_type) : class_def :=
  plain
    [priv_field "stack" Stack;
     pub_field "data" char_ptr;
     method "insert_memtable" [char_ptr] TVoid] None.

Definition Content_template (ReadWritePool RequestSegment : cpp_type) : class_def :=
  ClassDef Union None
    [pub_field "readwrite_pool" ReadWritePool; pub_field "req_seg" RequestSegment]
    (Some [[]]) false.

Definition RequestBatch_template (BaseRequest : string) (Content : cpp_type) : class_def :=
  ClassDef Struct (Some BaseRequest)
    [pub_field "content" Content;
     method "insert_read_write" [char_ptr; TInt; TRequestType] TVoid]
    (Some [[TRequestType]]) true.

Definition WaitQueueNode_template (RequestBatch Self : cpp_type) : class_def :=
  plain [pub_field "req_batch" (TPtr RequestBatch); pub_field "next" (TPtr Self)]
    (Some [[TPtr RequestBatch]]).

Definition WaitQueue_guard_struct : class_def :=
  plain
    [pub_field "atomic_consumer_guard" TAtomicUChar;
     pub_field "size" TAtomicUInt;
     pub_field "atomic_producer_guard" TAtomicUChar;
     pub_field "is_single_thread" TBool] None.

Definition WaitQueue_template (RequestBatch Node Guard : cpp_type) : class_def :=
  plain
    [pub_field "guard" Guard;
     priv_field "front" (TPtr Node);
     priv_field "back" (TPtr Node);
     method "standard_push_back" [TPtr RequestBatch] TVoid;
     method "try_push_back" [TPtr RequestBatch; TBool] TBool;
     method "pop_front" [] (TPtr RequestBatch)] None.

Definition CacheLocation_class : class_def :=
  plain
    [pub_field "sstable_offset_boundary" (TArr TSizeT 2);
     pub_field "buffer_id" TUInt] (Some [[TSizeT; TSizeT; TUInt]; []]).

Definition CacheBufferEntry_class : class_def :=
  plain
    [pub_field "key" (TArr TChar KEY_LENGTH);
     pub_field "value" (TArr TChar VALUE_LENGTH)] None.

Definition SparseBufferIndex_template (CacheLocation : cpp_type) (max_num_buffers : Z) :
    class_def :=
  plain
    [pub_field "cache_locations" (TArr CacheLocation max_num_buffers);
     pub_field "sparse_buffer_index_locations" (TArr TUInt max_num_buffers);
     pub_field "cur_min_invalid_offset" TSizeT;
     pub_field "id_of_most_recently_selected_buffer" TUInt] None.

Definition CacheHelper_template (SparseBufferIndex CacheLocation : cpp_type) : class_def :=
  plain
    [pub_field "sparse_buffer_index" SparseBufferIndex;
     pub_field "free_buffers_left" TUInt;
     pub_field "id_of_least_recently_selected_buffer" TUInt;
     method "set_cur_min_invalid_offset" [TSizeT] TVoid;
     method "get_cur_min_invalid_offset" [] TSizeT;
     method "replenish_least_recently_selected_buffer" [] TVoid;
     method "get_buffer_info" [TSizeT] CacheLocation;
     method "add_buffer" [] TVoid;
     method "map_buffer_to_offset_boundary" [TUInt; TSizeT; TSizeT] TVoid;
     method "remove_buffer_range" [TUInt; TUInt] TVoid;
     method "get_id_of_most_recently_selected_buffer" [] TUInt] (Some [[]]).

(** The aligned and the unaligned struct have the same members. *)
Definition SSTableInfo_template
    (RequestBatch RequestBatchWaitQueue SSTableCacheHelper Stack : cpp_type)
    (file_path_length max_num_buffers : Z) : class_def :=
  plain
    [pub_field "req_batch_wq" RequestBatchWaitQueue;
     pub_field "file_path" (TArr TChar file_path_length);
     pub_field "is_flushed_to" TBool;
     pub_field "insert_buffers_from" TUInt;
     pub_field "page_cache_buffers" (TArr char_ptr max_num_buffers);
     pub_field "min_key" (TArr TChar KEY_LENGTH);
     pub_field "max_key" (TArr TChar KEY_LENGTH);
     pub_field "io_ring" (TPtr TIoUring);
     pub_field "cache_helper" SSTableCacheHelper;
     pub_field "stack" Stack;
     pub_field "req_batch" (TPtr RequestBatch);
     pub_field "waiting_on_io" TBool;
     pub_field "already_waited" TBool;
     pub_field "desired_sstable_offset" TSizeT] None.

Definition SSTableInfoUnaligned_template
    (RequestBatch RequestBatchWaitQueue SSTableCacheHelper Stack : cpp_type)
    (file_path_length max_num_buffers : Z) : class_def :=
  SSTableInfo_template RequestBatch RequestBatchWaitQueue SSTableCacheHelper Stack
    file_path_length max_num_buffers.

Definition BloomFilter_template (bloom_bytes : Z) : class_def :=
  plain [pub_field "bloom" (TArr TChar bloom_bytes)] (Some [[]]).

Definition Filter_template (BloomFilter : cpp_type) : class_def :=
  plain
    [priv_field "filter" BloomFilter;
     method "insert_key" [char_ptr] TVoid;
     method "prob_contains_key" [char_ptr] TBool;
     method "empty" [] TBool] None.

(** The anonymous guard structs of [BufferQueue] and [LevelInfo]. *)
Definition guard_struct (atomic_guard is_single_thread : cpp_type) : class_def :=
  plain
    [pub_field "atomic_guard" atomic_guard; pub_field "is_single_thread" is_single_thread]
    None.

Definition BufferQueue_template (Guard : cpp_type) (length : Z) : class_def :=
  plain
    [priv_field "queue_front" TUInt;
     priv_field "back" TUInt;
     pub_field "cur_num_buffers" TUInt;
     pub_field "num_new_buffers" TUInt;
     pub_field "queue" (TArr char_ptr length);
     pub_field "guard" Guard;
     method "front" [] char_ptr;
     method "push_back" [char_ptr] TVoid;
     method "pop_front" [] char_ptr] None.

Definition Decomposition_template (RequestBatch : cpp_type) : class_def :=
  plain
    [pub_field "decomposition" (TArr (TPtr RequestBatch) (LEVEL_FACTOR + 1));
     pub_field "expected_sstable_sizes" (TArr TUInt LEVEL_FACTOR);
     pub_field "num_req_batches" TUInt;
     pub_field "total_decomp_size" TUInt] None.

Definition SparseIndex_template : class_def :=
  plain
    [pub_field "index" (TArr TChar (Z.shiftl KEY_LENGTH 1 * LEVEL_FACTOR));
     method "insert_range" [char_ptr; char_ptr; TUInt] TVoid;
     method "remove_table" [TUInt] TVoid;
     method "get_table_num" [char_ptr] TUInt;
     method "get_table_min_key" [TUInt] char_ptr;
     method "get_table_max_key" [TUInt] char_ptr;
     method "set_table_min_key" [TUInt; char_ptr] TVoid;
     method "set_table_max_key" [TUInt; char_ptr] TVoid;
     priv_field "null_key" char_ptr] (Some [[]]).

Definition LevelInfo_template
    (Guard Filter BufferQueue SparseIndex SSTableInfo Decomposition RequestBatch : cpp_type) :
    class_def :=
  plain
    [pub_field "guard" Guard;
     pub_field "filters" (TArr Filter LEVEL_FACTOR);
     pub_field "sparse_index" SparseIndex;
     pub_field "buffer_queues" (TArr BufferQueue LEVEL_FACTOR);
     pub_field "sstable_infos" (TArr SSTableInfo LEVEL_FACTOR);
     method "set_is_single_thread" [TBool] TVoid;
     method "decompose" [TPtr RequestBatch] Decomposition] None.

Definition MemTable_template (SparseIndex : cpp_type) : class_def :=
  plain
    [pub_field "data" (TArr TChar (Z.shiftl 1 MEMTABLE_SIZE_MB_BITS * Z.shiftl 1 20));
     pub_field "size" TUInt;
     method "read" [char_ptr; char_ptr] TBool;
     method "write" [char_ptr; char_ptr; TUInt; TRef SparseIndex] TVoid;
     method "empty_out" [] TVoid] (Some [[]]).

(** ** The [typedef]s of [main.cpp] *)

Definition ConnReq : cpp_type := TClass "ConnReq".
Definition ReadWritePoolType : cpp_type := TClass "ReadWritePoolType".
Definition StackType : cpp_type := TClass "StackType".
Definition ReqSeg : cpp_type := TClass "ReqSeg".
Definition ReqBatch : cpp_type := TClass "ReqBatch".
Definition ReqBatchWaitQueue : cpp_type := TClass "ReqBatchWaitQueue".
Definition SparseBufferIndexType : cpp_type := TClass "SparseBufferIndexType".
Definition SSTableCacheHelperType : cpp_type := TClass "SSTableCacheHelperType".
Definition SSTableInfoType : cpp_type := TClass "SSTableInfoType".
Definition FilterType : cpp_type := TClass "FilterType".
Definition BufferQueueType : cpp_type := TClass "BufferQueueType".
Definition DecompositionType : cpp_type := TClass "DecompositionType".
Definition SparseIndexType : cpp_type := TClass "SparseIndexType".
Definition LevelInfoType : cpp_type := TClass "LevelInfoType".
Definition MemTableType : cpp_type := TClass "MemTableType".

(** The requests, pools and batches. *)
Definition request_types : option class_table :=
  Γ ← declare [] "BaseRequest" true BaseRequest_class;
  Γ ← declare Γ "ConnReq" (BaseRequestLike Γ (TClass "BaseRequest"))
        (ConnectionRequest_template "BaseRequest");
  Γ ← declare Γ "ReadWritePoolType" (ConnectionRequestLike Γ ConnReq)
        (ReadWritePool_template ConnReq);
  Γ ← declare Γ "StackType" true (Stack_template max_sstable_height);
  Γ ← declare Γ "ReqSeg" (StackLike Γ StackType) (RequestSegment_template StackType);
  Γ ← declare Γ "Content"
        (ReadWritePoolLike Γ ReadWritePoolType && RequestSegmentLike Γ ReqSeg)
        (Content_template ReadWritePoolType ReqSeg);
  Γ ← declare Γ "ReqBatch"
        (BaseRequestLike Γ (TClass "BaseRequest") && ReadWritePoolLike Γ ReadWritePoolType &&
         RequestSegmentLike Γ ReqSeg)
        (RequestBatch_template "BaseRequest" (TClass "Content"));
  declare Γ "ConnPool" (ConnectionRequestLike Γ ConnReq) (ConnectionPool_template ConnReq).

(** The wait queue, the cache helper and the tables. *)
Definition sstable_types (Γ : class_table) : option class_table :=
  Γ ← declare Γ "Node" (RequestBatchLike Γ ReqBatch)
        (WaitQueueNode_template ReqBatch (TClass "Node"));
  Γ ← declare Γ "ReqBatchWaitQueue::guard" true WaitQueue_guard_struct;
  Γ ← declare Γ "ReqBatchWaitQueue" (RequestBatchLike Γ ReqBatch)
        (WaitQueue_template ReqBatch (TClass "Node") (TClass "ReqBatchWaitQueue::guard"));
  Γ ← declare Γ "CacheLocation" true CacheLocation_class;
  Γ ← declare Γ "CacheBufferEntry" true CacheBufferEntry_class;
  Γ ← declare Γ "SparseBufferIndexType" (CacheLocationLike Γ (TClass "CacheLocation"))
        (SparseBufferIndex_template (TClass "CacheLocation") (u32 max_buffer_set_size));
  Γ ← declare Γ "SSTableCacheHelperType"
        (SparseBufferIndexLike Γ SparseBufferIndexType &&
         CacheLocationLike Γ (TClass "CacheLocation"))
        (CacheHelper_template SparseBufferIndexType (TClass "CacheLocation"));
  let requirements Γ :=
    RequestBatchLike Γ ReqBatch && RequestBatchWaitQueueLike Γ ReqBatchWaitQueue &&
    SSTableCacheHelperLike Γ SSTableCacheHelperType && StackLike Γ StackType in
  Γ ← declare Γ "SSTableInfoUnalignedType" (requirements Γ)
        (SSTableInfoUnaligned_template ReqBatch ReqBatchWaitQueue SSTableCacheHelperType
           StackType file_path_length (u32 max_buffer_set_size));
  declare Γ "SSTableInfoType" (requirements Γ)
    (SSTableInfo_template ReqBatch ReqBatchWaitQueue SSTableCacheHelperType
       StackType file_path_length (u32 max_buffer_set_size)).

(** The level and the memtable; [lguard] is the anonymous guard struct of the
    level. *)
Definition level_types (bloom_bytes : Z) (lguard : class_def) (Γ : class_table) :
    option class_table :=
  Γ ← declare Γ "BloomFilter" true (BloomFilter_template bloom_bytes);
  Γ ← declare Γ "FilterType" true (Filter_template (TClass "BloomFilter"));
  Γ ← declare Γ "BufferQueueType::guard" true (guard_struct TAtomicUChar TBool);
  Γ ← declare Γ "BufferQueueType" true
        (BufferQueue_template (TClass "BufferQueueType::guard") (u32 max_buffer_set_size));
  Γ ← declare Γ "DecompositionType" (RequestBatchLike Γ ReqBatch)
        (Decomposition_template ReqBatch);
  Γ ← declare Γ "SparseIndexType" true SparseIndex_template;
  Γ ← declare Γ "LevelInfoType::guard" true lguard;
  Γ ← declare Γ "LevelInfoType"
        (FilterLike Γ FilterType && BufferQueueLike Γ BufferQueueType &&
         SparseIndexLike Γ SparseIndexType && SSTableInfoLike Γ SSTableInfoType &&
         DecompositionLike Γ DecompositionType && RequestBatchLike Γ ReqBatch &&
         ReadWritePoolLike Γ ReadWritePoolType && ConnectionRequestLike Γ ConnReq)
        (LevelInfo_template (TClass "LevelInfoType::guard") FilterType BufferQueueType
           SparseIndexType SSTableInfoType DecompositionType ReqBatch);
  declare Γ "MemTableType" (SparseIndexLike Γ SparseIndexType)
    (MemTable_template SparseIndexType).

Definition RingDB_args : lsm_tree_args :=
  LSMTreeArgs MemTableType LevelInfoType BufferQueueType FilterType SparseIndexType
    DecompositionType SSTableInfoType SSTableCacheHelperType (TClass "CacheLocation")
    ReqBatch ReqBatchWaitQueue ReqSeg (TClass "CacheBufferEntry") StackType
    (TClass "BaseRequest") (TClass "ConnPool") ConnReq ReadWritePoolType.

(** The integer constant expressions of the array bounds are computed in [int]
    and must not overflow. *)
Definition constants_fit : bool :=
  (0 <=? MEMTABLE_SIZE_MB_BITS) && (MEMTABLE_SIZE_MB_BITS <=? 10) &&
  (Z.shiftl KEY_LENGTH 1 * LEVEL_FACTOR <? 2 ^ 31) && (LEVEL_FACTOR + 1 <? 2 ^ 31).

Definition main_types_with (bloom_bytes : Z) (lguard : class_def) : option class_table :=
  if constants_fit then
    Γ ← request_types; Γ ← sstable_types Γ; Γ ← level_types bloom_bytes lguard Γ;
    if LSMTree_requires Γ RingDB_args then Some Γ else None
  else None.


(** ** Statements of member functions *)










(** A call of [bloom_filter_destroy] with a filter of the program would begin
    with [bf->bloom = nullptr], and an array is no modifiable lvalue. *)
Definition null_assignable (t : option cpp_type) : bool :=
  match t with Some (TPtr _) => true | _ => false end.

Definition bloom_filter_destroy_well_formed (Γ : class_table) : bool :=
  null_assignable (public_field Γ (TClass "BloomFilter") "bloom").

(** ** What the program is *)

(** The tables the declarations end with, youngest class first. *)
Definition requests_table : class_table :=
  [("ConnPool", ConnectionPool_template ConnReq);
   ("ReqBatch", RequestBatch_template "BaseRequest" (TClass "Content"));
   ("Content", Content_template ReadWritePoolType ReqSeg);
   ("ReqSeg", RequestSegment_template StackType);
   ("StackType", Stack_template max_sstable_height);
   ("ReadWritePoolType", ReadWritePool_template ConnReq);
   ("ConnReq", ConnectionRequest_template "BaseRequest");
   ("BaseRequest", BaseRequest_class)].

Definition sstables_table : class_table :=
  let sstable_info := SSTableInfo_template ReqBatch ReqBatchWaitQueue SSTableCacheHelperType
    StackType file_path_length (u32 max_buffer_set_size) in
  [("SSTableInfoType", sstable_info);
   ("SSTableInfoUnalignedType", sstable_info);
   ("SSTableCacheHelperType",
    CacheHelper_template SparseBufferIndexType (TClass "CacheLocation"));
   ("SparseBufferIndexType",
    SparseBufferIndex_template (TClass "CacheLocation") (u32 max_buffer_set_size));
   ("CacheBufferEntry", CacheBufferEntry_class);
   ("CacheLocation", CacheLocation_class);
   ("ReqBatchWaitQueue",
    WaitQueue_template ReqBatch (TClass "Node") (TClass "ReqBatchWaitQueue::guard"));
   ("ReqBatchWaitQueue::guard", WaitQueue_guard_struct);
   ("Node", WaitQueueNode_template ReqBatch (TClass "Node"))] ++ requests_table.

Definition program_table (bloom_bytes : Z) (lguard : class_def) : class_table :=
  [("MemTableType", MemTable_template SparseIndexType);
   ("LevelInfoType",
    LevelInfo_template (TClass "LevelInfoType::guard") FilterType BufferQueueType
      SparseIndexType SSTableInfoType DecompositionType ReqBatch);
   ("LevelInfoType::guard", lguard);
   ("SparseIndexType", SparseIndex_template);
   ("DecompositionType", Decomposition_template ReqBatch);
   ("BufferQueueType",
    BufferQueue_template (TClass "BufferQueueType::guard") (u32 max_buffer_set_size));
   ("BufferQueueType::guard", guard_struct TAtomicUChar TBool);
   ("FilterType", Filter_template (TClass "BloomFilter"));
   ("BloomFilter", BloomFilter_template bloom_bytes)] ++ sstables_table.

(** The conditions under which every array bound is a positive constant. *)
Definition sizes_ok (bloom_bytes : Z) : Prop :=
  0 < KEY_LENGTH ∧ 0 < VALUE_LENGTH ∧ 0 < LEVEL_FACTOR ∧
  0 < MEMTABLE_SIZE_MB_BITS ≤ 10 ∧ Z.shiftl KEY_LENGTH 1 * LEVEL_FACTOR < 2 ^ 31 ∧
  LEVEL_FACTOR + 1 < 2 ^ 31 ∧ u32 max_buffer_set_size ≠ 0 ∧ 0 < bloom_bytes.

(** Types a member of a guard struct may have without other declarations. *)
Definition scalar (t : cpp_type) : bool :=
  match t with TVoid | TRef _ | TArr _ _ | TClass _ => false | _ => true end.

(** ** Lemmas *)

Lemma lookup_own Γ c d f m :
  assoc c Γ = Some d → assoc f (members d) = Some m → lookup_member Γ c f = Some m.
Proof.
  intros Hc Hf. induction Γ as [|[c' d'] Γ IH]; cbn in *; [done|].
  destruct (String.eqb c c'); [|auto]. injection Hc as ->. by rewrite Hf.
Qed.

Lemma default_own Γ c d cs :
  assoc c Γ = Some d → ctors d = Some cs →
  default_class Γ c = existsb (λ ps, accepts_rvalues ps []) cs.
Proof.
  intros Hc Hd. induction Γ as [|[c' d'] Γ IH]; cbn in *; [done|].
  destruct (String.eqb c c'); [|auto]. injection Hc as ->. by rewrite Hd.
Qed.

(** No program can destroy its filters. *)
Lemma bloom_filter_destroy_ill_formed Γ bloom_bytes :
  assoc "BloomFilter" Γ = Some (BloomFilter_template bloom_bytes) →
  bloom_filter_destroy_well_formed Γ = false.
Proof.
  intros Hc. unfold bloom_filter_destroy_well_formed, public_field.
  by erewrite lookup_own by (exact Hc || reflexivity).
Qed.

(** A table in which a class is declared as its template says. *)
Ltac lookup_members Hc :=
  cbn [expr_type decltype public_field public_method mbind option_bind lvalue_of];
  repeat erewrite (lookup_own _ _ _ _ _ Hc) by reflexivity;
  repeat erewrite (default_own _ _ _ _ Hc) by reflexivity.

Lemma SparseIndexLike_template Γ :
  assoc "SparseIndexType" Γ = Some SparseIndex_template →
  SparseIndexLike Γ SparseIndexType = true.
Proof.
  intros Hc. unfold SparseIndexLike, same_as, returns, default_initializable, SparseIndexType.
  cbn [element_type all forallb]. lookup_members Hc.
  cbn. by rewrite Z.eqb_refl.
Qed.

Lemma MemTableLike_template Γ :
  assoc "MemTableType" Γ = Some (MemTable_template SparseIndexType) →
  MemTableLike Γ MemTableType = true.
Proof.
  intros Hc. unfold MemTableLike, same_as, returns, MemTableType.
  cbn [all forallb]. lookup_members Hc.
  cbn -[Z.shiftl]. by rewrite Z.eqb_refl.
Qed.

(** Check the members of a class whose bounds are known to be positive, and a
    chain of declarations. *)
Ltac valid_fields :=
  cbn -[Z.ltb Z.shiftl Z.mul Z.add u32 max_sstable_height max_buffer_set_size];
  decide_tests; cbn; try reflexivity.

Ltac declare_all :=
  repeat (erewrite declare_ok;
          [cbn [mbind option_bind] | try (vm_compute; reflexivity).. | valid_fields]).

Lemma request_types_ok : 0 < max_sstable_height → request_types = Some requests_table.
Proof. intros Hh. unfold request_types. declare_all. reflexivity. Qed.

Lemma sstable_types_ok :
  0 < KEY_LENGTH → 0 < VALUE_LENGTH → 0 < u32 max_buffer_set_size →
  sstable_types requests_table = Some sstables_table.
Proof. intros Hk Hv Hb. unfold sstable_types. declare_all. reflexivity. Qed.

Lemma scalar_valid Γ t : scalar t = true → valid_type Γ t = true.
Proof. by destruct t. Qed.

Lemma level_types_ok bloom_bytes t1 t2 :
  sizes_ok bloom_bytes → 0 < u32 max_buffer_set_size →
  0 < Z.shiftl KEY_LENGTH 1 * LEVEL_FACTOR →
  0 < Z.shiftl 1 MEMTABLE_SIZE_MB_BITS * Z.shiftl 1 20 →
  scalar t1 = true → scalar t2 = true →
  level_types bloom_bytes (guard_struct t1 t2) sstables_table =
  Some (program_table bloom_bytes (guard_struct t1 t2)).
Proof.
  intros (Hk & Hv & Hl & Hm & Hkl & Hl1 & _ & Hbl) Hb Hkl0 Hm0 H1 H2.
  unfold level_types. declare_all.
  - reflexivity.
  - by apply SparseIndexLike_template.
  - rewrite !andb_true_iff. repeat split;
      first [by apply SparseIndexLike_template | vm_compute; reflexivity].
  - by rewrite !scalar_valid.
Qed.

(** The constraint of [LSMTree] holds whatever the types in the level's guard
    are. *)
Lemma RingDB_requires bloom_bytes t1 t2 :
  LSMTree_requires (program_table bloom_bytes (guard_struct t1 t2)) RingDB_args = true.
Proof.
  unfold LSMTree_requires, all. rewrite forallb_forall. intros b Hb.
  cbn [In RingDB_args arg_MemTable arg_LevelInfo arg_BufferQueue arg_Filter arg_SparseIndex
       arg_Decomposition arg_SSTableInfo arg_SSTableCacheHelper arg_CacheLocation
       arg_RequestBatch arg_RequestBatchWaitQueue arg_RequestSegment arg_CacheBufferEntry
       arg_Stack arg_BaseRequest arg_ConnectionPool arg_ConnectionRequest
       arg_ReadWritePool] in Hb.
  destruct_or! Hb; try done; rewrite <- Hb;
    first [ by apply MemTableLike_template | by apply SparseIndexLike_template
          | vm_compute; reflexivity | idtac ].
  - unfold LevelInfoLike, all. rewrite forallb_forall. intros b' Hb'.
    cbn [In] in Hb'. destruct_or! Hb'; try done; rewrite <- Hb';
      first [ vm_compute; reflexivity | by apply SparseIndexLike_template ].
  - unfold MemTableWrite, all. rewrite forallb_forall. intros b' Hb'.
    cbn [In] in Hb'. destruct_or! Hb'; try done; rewrite <- Hb';
      first [ by apply MemTableLike_template | by apply SparseIndexLike_template
            | vm_compute; reflexivity ].
Qed.

Lemma main_types_with_ok bloom_bytes t1 t2 :
  sizes_ok bloom_bytes → scalar t1 = true → scalar t2 = true →
  main_types_with bloom_bytes (guard_struct t1 t2) =
  Some (program_table bloom_bytes (guard_struct t1 t2)).
Proof.
  intros Hok H1 H2. pose proof Hok as (Hk & Hv & Hl & Hm & Hkl & Hl1 & Hb & Hbl).
  pose proof (u32_range max_buffer_set_size).
  unfold main_types_with, constants_fit. decide_tests. cbn [andb].
  rewrite request_types_ok by (unfold max_sstable_height; lia). cbn [mbind option_bind].
  rewrite sstable_types_ok by lia. cbn [mbind option_bind].
  rewrite level_types_ok by (rewrite ?Z.shiftl_mul_pow2 by lia; auto with lia).
  cbn [mbind option_bind]. by rewrite RingDB_requires.
Qed.








(** ** The declarations type check, the program does not *)


(** The concept [LevelInfoLike] does not constrain the guard of a level,
    although its comments fix the types of the guard's members: as the two
    requirements lack the keyword [requires], the declarations are accepted with
    members of any scalar types there, a non-atomic guard included.  The guard
    of a buffer queue, whose requirements have the keyword, must have the
    documented types. *)
Theorem level_guard_unchecked (bloom_bytes : Z) (t1 t2 : cpp_type) (Γ : class_table)
    (Hok : sizes_ok bloom_bytes) (H1 : scalar t1 = true) (H2 : scalar t2 = true) :
  is_Some (main_types_with bloom_bytes (guard_struct t1 t2)) ∧
  (BufferQueueLike
     (("BufferQueueType",
       BufferQueue_template (TClass "BufferQueueType::guard") (u32 max_buffer_set_size)) ::
      ("BufferQueueType::guard", guard_struct t1 t2) :: Γ) BufferQueueType = true ↔
   t1 = TAtomicUChar ∧ t2 = TBool).
Proof.
  split; [rewrite main_types_with_ok; eauto|].
  destruct t1, t2; try discriminate H1; try discriminate H2; vm_compute; naive_solver.
Qed.

End program.


Lemma level_guard_unchecked_witness :
  is_Some (@main_types_with cmake_config 64 (guard_struct TInt TInt)) ∧
  (@BufferQueueLike
     (("BufferQueueType",
       BufferQueue_template (TClass "BufferQueueType::guard")
         (u32 (@max_buffer_set_size cmake_config))) ::
      ("BufferQueueType::guard", guard_struct TInt TInt) :: []) BufferQueueType = true ↔
   TInt = TAtomicUChar ∧ TInt = TBool).
Proof.
  apply (level_guard_unchecked 64 TInt TInt []); [|reflexivity..].
  unfold sizes_ok. vm_compute. intuition discriminate.
Defined.
