(* ===== verification/StartUp.v ===== *)
(** * Start-up of the threads

    What the three thread functions of [lsm_tree.hpp] do before their loops:
    the tree [main.cpp] allocates, [LSMTree::initialize], the first part of
    [LSMTree::sstable_worker_thread] (processor, page cache area, file name of a
    table) and of [LSMTree::network_thread_routine] (server socket, table of
    file descriptors, messages to the workers).

    Answers of the kernel are arguments.  liburing's set-up calls initialise the
    structure they are given a pointer to, so passing a null or indeterminate
    pointer is undefined.  [setup] stands for the kernel's [io_uring_setup]. *)

From S2P Require Import Prelude Config Bloom MemTable WaitQueue RequestBatch LevelInfo Init.
From S2P Require Import Distribute Descent Worker Filter WorkerInit.

(** ** Pointers and rings *)

Inductive pointer : Set :=
  | PNull
  | PIndet        (** never assigned *)
  | PTo (a : Z).

Definition follow (p : pointer) : exec Z :=
  match p with
  | PNull => Undef NullDeref
  | PIndet => Undef UninitPtr
  | PTo a => Ret a
  end.

Inductive setup_flag : Set :=
  | SETUP_SQPOLL | SETUP_SUBMIT_ALL | SETUP_COOP_TASKRUN | SETUP_TASKRUN_FLAG
  | SETUP_SINGLE_ISSUER | SETUP_DEFER_TASKRUN | SETUP_SQ_AFF | SETUP_CQSIZE
  | SETUP_ATTACH_WQ.

#[global] Instance setup_flag_eq_dec : EqDecision setup_flag.
Proof. solve_decision. Defined.

Record io_uring_params : Set := MkParams {
  entries : Z;
  flags : list setup_flag;
  sq_thread_cpu : Z;
  cq_entries : Z;
  wq_fd : Z
}.

Section rings.
Context {cfg : Config}.

(** The ring of the main thread. *)
Definition main_thread_params : io_uring_params :=
  MkParams NUM_BATCHES
    [SETUP_SQPOLL; SETUP_SUBMIT_ALL; SETUP_COOP_TASKRUN; SETUP_TASKRUN_FLAG;
     SETUP_SINGLE_ISSUER; SETUP_DEFER_TASKRUN; SETUP_SQ_AFF] 2 0 0.

(** The scheduler ring of a worker. *)
Definition scheduler_params : io_uring_params :=
  MkParams 2
    [SETUP_SQPOLL; SETUP_SINGLE_ISSUER; SETUP_CQSIZE; SETUP_DEFER_TASKRUN; SETUP_SQ_AFF]
    2 WORKER_SSTABLE_BATCH_SIZE 0.

(** The ring of an sstable; [memset] leaves the number of entries zero. *)
Definition sstable_ring_params (scheduler_ring_fd : Z) : io_uring_params :=
  MkParams 3 [SETUP_SINGLE_ISSUER; SETUP_ATTACH_WQ; SETUP_CQSIZE; SETUP_DEFER_TASKRUN]
    0 0 scheduler_ring_fd.

Definition network_thread_params (main_ring_fd : Z) : io_uring_params :=
  MkParams (MAX_SIMULTANEOUS_CONNECTIONS + 1)
    [SETUP_ATTACH_WQ; SETUP_SUBMIT_ALL; SETUP_COOP_TASKRUN; SETUP_TASKRUN_FLAG;
     SETUP_SINGLE_ISSUER; SETUP_DEFER_TASKRUN] 0 0 main_ring_fd.

(** [io_uring_queue_init_params] followed by [io_uring_register_ring_fd]: the
    descriptor of the ring, if the kernel accepts the parameters.  The program
    does not look at the result. *)
Definition set_up_ring (setup : io_uring_params → option Z) (ring : pointer)
    (p : io_uring_params) : exec (option Z) :=
  _ ← follow ring; Ret (setup p).

(** ** The tree *)

Section tree.
Context {F : Type}.

Record Tree : Type := MkTree {
  tr_level_infos : list (LevelInfo F);
  tr_sstable_dir_fd : Z;
  tr_fixed_file_fds : list (option Z);   (** [None]: indeterminate *)
  tr_network_ring_fd : Z;
  tr_is_practically_full : bool;
  tr_memtables : list MemTable;
  tr_main_thread_comm_ring : pointer;
  tr_num_read : Z
}.

(** [new RingDB()]: members without initialiser are zero. *)
Definition new_RingDB : Tree :=
  MkTree [] 0
    (replicate (Z.to_nat (NUM_SSTABLE_WORKER_THREADS + NUM_FILE_FDS +
                          MAX_SIMULTANEOUS_CONNECTIONS)) None)
    0 false [] PNull 0.

(** The threads [initialize] has started. *)
Record Started : Type := MkStarted {
  st_tree : Tree;
  st_main_ring_fd : option Z;
  st_workers : list Z;
  st_network : bool
}.

(** [while (this->num_read.load() < NUM_SSTABLES);] *)
Fixpoint wait_all_read (observed : list Z) : exec unit :=
  match observed with
  | [] => Spin
  | n :: rest => if n <? NUM_SSTABLES then wait_all_read rest else Ret tt
  end.

(** [initialize]; [levels] are the levels [new LevelInfo[...]] constructs, and
    [start_ringdb] begins by starting the network thread. *)
Definition initialize (setup : io_uring_params → option Z) (dir_fd : Z)
    (levels : list (LevelInfo F)) (observed : list Z) (t : Tree) : exec Started :=
  flagged_levels ← initialize_guards levels;
  let memtables := replicate (Z.to_nat LEVEL_FACTOR) new_MemTable in
  ring_fd ← set_up_ring setup (tr_main_thread_comm_ring t) main_thread_params;
  let workers := seqZ 0 NUM_SSTABLE_WORKER_THREADS in
  _ ← wait_all_read observed;
  Ret (MkStarted
         (MkTree flagged_levels dir_fd (tr_fixed_file_fds t) (tr_network_ring_fd t)
            (tr_is_practically_full t) memtables (tr_main_thread_comm_ring t) (tr_num_read t))
         ring_fd workers true).

End tree.
#[global] Arguments Tree F : clear implicits.
#[global] Arguments Started F : clear implicits.

(** ** A worker before its loops *)

(** The processor worker [worker_thread_num] is pinned to. *)
Definition worker_cpu (worker_thread_num : Z) : exec Z :=
  if NUM_PROCESSORS - 3 =? 0 then Undef DivideByZero
  else Ret (3 + Z.rem worker_thread_num (NUM_PROCESSORS - 3)).

Definition first_sstable_num (worker_thread_num : Z) : Z :=
  worker_thread_num * WORKER_SSTABLE_BATCH_SIZE.

Definition second_sstable_num (worker_thread_num : Z) : Z :=
  first_sstable_num worker_thread_num + WORKER_SSTABLE_BATCH_SIZE - 1.

(** The size of the mapping that holds a worker's page cache buffers. *)
Definition page_cache_area_size : Z :=
  u32 (fair_aligned_sstable_page_cache_buffer_size * max_sstable_height *
       WORKER_SSTABLE_BATCH_SIZE).

(** The worker's scheduler ring is a local pointer: [PIndet] in the source,
    which never assigns it. *)
Definition worker_set_up (setup : io_uring_params → option Z) (scheduler_ring : pointer)
    (worker_thread_num : Z) : exec (Z * option Z) :=
  cpu ← worker_cpu worker_thread_num;
  ring_fd ← set_up_ring setup scheduler_ring scheduler_params;
  Ret (cpu, ring_fd).

(** The wait for the descriptor of the network ring: what each [peek] finds on
    the scheduler ring.  The completion is not marked as seen, so that the same
    one is found again and again if it holds -1, and is still there when the
    wait is over; its user datum is the second component. *)
Fixpoint wait_network_ring (found : list (option Z)) : exec (Z * Z) :=
  match found with
  | [] => Spin
  | None :: rest => wait_network_ring rest
  | Some user_data :: _ =>
      if i32 user_data =? -1 then Spin else Ret (i32 user_data, user_data)
  end.

(** ** The file name of a table *)

(** The decimal digits of a 32-bit number; ten are enough. *)
Fixpoint digits (fuel : nat) (n : Z) (acc : bytes) : bytes :=
  match fuel with
  | O => acc
  | S fuel' =>
      let acc' := (48 + n mod 10) :: acc in
      if n <? 10 then acc' else digits fuel' (n / 10) acc'
  end.

Definition decimal (n : Z) : bytes := digits 10 n [].

(** [snprintf(p, size, "%u", n)]: what is stored and the number returned. *)
Definition snprintf_u (m : bytes) (off size n : Z) : exec (bytes * Z) :=
  let s := decimal n in
  m' ← store m off (take (Z.to_nat (size - 1)) s ++ [0]);
  Ret (m', lenZ s).

(** The array [file_path] after the set-up of a table; the directory name is
    not copied to it. *)
Definition build_file_path (file_path : bytes) (level index_in_level : Z) : exec bytes :=
  '(m1, dir_len) ← snprintf_u file_path 8 level_str_len level;
  m2 ← setZ m1 dir_len 47;
  '(m3, _) ← snprintf_u m2 (dir_len + 1) sstable_number_str_len index_in_level;
  Ret m3.

(** ** The network thread before its loop *)

Record NetworkStart : Set := MkNetworkStart {
  ns_fds : list (option Z);
  ns_registered : option Z;            (** descriptor 0 of the ring *)
  ns_destinations : list (option Z);   (** where the ring's descriptor is sent *)
  ns_network_ring_fd : Z
}.

Definition network_set_up (setup : io_uring_params → option Z)
    (main_ring network_ring : pointer) (main_ring_fd ring_fd server_sock_fd : Z)
    (fds : list (option Z)) : exec NetworkStart :=
  _ ← follow main_ring;
  _ ← set_up_ring setup network_ring (network_thread_params main_ring_fd);
  fds1 ← setZ fds (NUM_FILE_FDS - 1) (Some server_sock_fd);
  registered ← getZ fds1 (NUM_SSTABLE_WORKER_THREADS + NUM_FILE_FDS - 1);
  destinations ← foldM (λ l i, fd ← getZ fds1 i; Ret (l ++ [fd]))
                   (seqZ 0 NUM_SSTABLE_WORKER_THREADS) [];
  Ret (MkNetworkStart fds1 registered destinations ring_fd).

End rings.

(** ** [initialize] *)

Section initialize_spec.
Context {cfg : Config} {F : Type}.

Lemma wait_all_read_spec observed :
  wait_all_read observed = if existsb (λ n, NUM_SSTABLES <=? n) observed then Ret tt else Spin.
Proof.
  induction observed as [|n rest IH]; cbn; [done|].
  rewrite IH, Z.leb_antisym. by destruct (n <? NUM_SSTABLES).
Qed.

(** The tree after a start-up that went through. *)
Definition started (setup : io_uring_params → option Z) (dir_fd : Z)
    (levels : list (LevelInfo F)) (t : Tree F) : Started F :=
  MkStarted
    (MkTree (imap (λ i, flagged (Z.of_nat i)) levels) dir_fd (tr_fixed_file_fds t)
       (tr_network_ring_fd t) (tr_is_practically_full t)
       (replicate (Z.to_nat LEVEL_FACTOR) new_MemTable) (tr_main_thread_comm_ring t)
       (tr_num_read t))
    (setup main_thread_params) (seqZ 0 NUM_SSTABLE_WORKER_THREADS) true.

(** C18: [initialize] marks the levels, sets the ring of the main thread up
    through the tree's pointer, starts the workers, waits until as many reads
    are counted as there are sstables and starts the network thread.  The ring
    is never allocated: in the tree [main.cpp] allocates the pointer is null,
    so that the set-up follows a null pointer before any thread is started. *)
Theorem initialize_spec (setup : io_uring_params → option Z) (dir_fd : Z)
    (levels : list (LevelInfo F)) (observed : list Z) (t : Tree F)
    (HL : 1 ≤ LEVEL_FACTOR) (Hper : WORKER_SSTABLE_BATCH_SIZE / LEVEL_FACTOR ≠ 0)
    (HN : 2 ≤ NUM_SSTABLE_LEVELS) (Hlen : lenZ levels = NUM_SSTABLE_LEVELS)
    (Hshape : Forall level_shape levels) :
  initialize setup dir_fd levels observed t =
    match tr_main_thread_comm_ring t with
    | PNull => Undef NullDeref
    | PIndet => Undef UninitPtr
    | PTo _ => if existsb (λ n, NUM_SSTABLES <=? n) observed
               then Ret (started setup dir_fd levels t) else Spin
    end ∧
  initialize setup dir_fd levels observed new_RingDB = Undef NullDeref.
Proof.
  unfold initialize. rewrite initialize_guards_ok by done. cbn [mbind exec_bind].
  split; [|done]. unfold set_up_ring. destruct (tr_main_thread_comm_ring t) as [| |a] eqn:E; [done..|].
  cbn [follow mbind exec_bind]. rewrite wait_all_read_spec.
  destruct (existsb _ _); [|done]. unfold started. by rewrite E.
Qed.

End initialize_spec.

(** ** Processors *)

Section processors.
Context {cfg : Config}.

(** How many of the first [n] workers run on processor [c]. *)
Definition cpu_load (c n : Z) : Z :=
  lenZ (base.filter (λ w, worker_cpu w = Ret c) (seqZ 0 n)).

Lemma count_residues k r n :
  0 < k → 0 ≤ r < k → 0 ≤ n →
  (n + 1 + (k - 1 - r)) / k = (n + (k - 1 - r)) / k + (if decide (n mod k = r) then 1 else 0).
Proof.
  intros Hk Hr Hn. pose proof (Z.div_mod n k ltac:(lia)) as Hdm.
  pose proof (Z.mod_pos_bound n k Hk) as Hb.
  set (q := n / k) in *. set (s := n mod k) in *.
  case_decide as Hd.
  - rewrite <- (Z.div_unique (n + 1 + (k - 1 - r)) k (q + 1) 0) by lia.
    rewrite <- (Z.div_unique (n + (k - 1 - r)) k q (k - 1)) by lia. lia.
  - destruct (decide (s < r)).
    + rewrite <- (Z.div_unique (n + 1 + (k - 1 - r)) k q (s + k - r)) by lia.
      rewrite <- (Z.div_unique (n + (k - 1 - r)) k q (s + k - 1 - r)) by lia. lia.
    + rewrite <- (Z.div_unique (n + 1 + (k - 1 - r)) k (q + 1) (s - r)) by lia.
      rewrite <- (Z.div_unique (n + (k - 1 - r)) k (q + 1) (s - 1 - r)) by lia. lia.
Qed.

Lemma cpu_load_ok c n :
  3 < NUM_PROCESSORS → 3 ≤ c < NUM_PROCESSORS → 0 ≤ n →
  cpu_load c n = (n + (NUM_PROCESSORS - 1 - c)) / (NUM_PROCESSORS - 3).
Proof.
  intros HP Hc Hn. pattern n. apply natlike_ind; [| |done].
  - change (0 = (0 + (NUM_PROCESSORS - 1 - c)) / (NUM_PROCESSORS - 3)).
    rewrite Z.div_small; lia.
  - clear n Hn. intros n Hn IH. unfold cpu_load in *.
    rewrite <- Z.add_1_r, seqZ_app, filter_app, lenZ_app, IH by lia.
    replace (n + 1 + (NUM_PROCESSORS - 1 - c))
      with (n + 1 + (NUM_PROCESSORS - 3 - 1 - (c - 3))) by lia.
    replace (n + (NUM_PROCESSORS - 1 - c))
      with (n + (NUM_PROCESSORS - 3 - 1 - (c - 3))) by lia.
    rewrite count_residues by lia. f_equal.
    change (seqZ (0 + n) 1) with [0 + (0 + n)]. rewrite filter_cons, filter_nil.
    unfold worker_cpu. destruct (Z.eqb_spec (NUM_PROCESSORS - 3) 0); [lia|].
    rewrite !Z.add_0_l, Z.rem_mod_nonneg by lia.
    destruct (decide (Ret (3 + n mod (NUM_PROCESSORS - 3)) = Ret c)) as [[= E]|E];
      case_decide as Hd; try done; exfalso; [lia|]. apply E. f_equal. lia.
Qed.

(** With more than three processors every worker is pinned to one of the
    processors from 3 on, and the workers are spread as evenly as possible:
    the numbers of workers on any two of these processors differ by at most
    one. *)
Theorem worker_cpus_balanced (w n c1 c2 : Z) (HP : 3 < NUM_PROCESSORS) (Hw : 0 ≤ w)
    (Hn : 0 ≤ n) (H1 : 3 ≤ c1 < NUM_PROCESSORS) (H2 : 3 ≤ c2 < NUM_PROCESSORS) :
  (∃ c, worker_cpu w = Ret c ∧ 3 ≤ c < NUM_PROCESSORS) ∧
  Z.abs (cpu_load c1 n - cpu_load c2 n) ≤ 1.
Proof.
  split.
  - unfold worker_cpu. destruct (Z.eqb_spec (NUM_PROCESSORS - 3) 0); [lia|].
    eexists. split; [done|]. rewrite Z.rem_mod_nonneg by lia.
    pose proof (Z.mod_pos_bound w (NUM_PROCESSORS - 3)). lia.
  - rewrite !cpu_load_ok by lia. set (k := NUM_PROCESSORS - 3) in *.
    assert (Hmono : ∀ a b, a ≤ b ≤ a + k → a / k ≤ b / k ≤ a / k + 1).
    { intros a b Hab. split; [by apply Z.div_le_mono; lia|].
      rewrite <- (Z.div_add a 1 k) by lia. apply Z.div_le_mono; lia. }
    destruct (decide (c1 ≤ c2)).
    + specialize (Hmono (n + (NUM_PROCESSORS - 1 - c2)) (n + (NUM_PROCESSORS - 1 - c1))). lia.
    + specialize (Hmono (n + (NUM_PROCESSORS - 1 - c1)) (n + (NUM_PROCESSORS - 1 - c2))). lia.
Qed.

End processors.

Lemma worker_cpus_balanced_witness :
  (∃ c, @worker_cpu cmake_config 7 = Ret c ∧ 3 ≤ c < 8) ∧
  Z.abs (@cpu_load cmake_config 3 7 - @cpu_load cmake_config 6 7) ≤ 1.
Proof. apply (@worker_cpus_balanced cmake_config 7 7 3 6); cbn; lia. Defined.

(** ** File names *)

Section file_names.
Context {cfg : Config}.

Lemma digits_app fuel n acc : digits fuel n acc = digits fuel n [] ++ acc.
Proof.
  revert n acc. induction fuel as [|fuel IH]; intros n acc; cbn [digits]; [done|].
  destruct (n <? 10); [done|]. by rewrite IH, (IH _ [_]), <- app_assoc.
Qed.

Lemma digits_length (k : nat) fuel n :
  (k < fuel)%nat → 0 ≤ n < 10 ^ Z.of_nat (S k) → 1 ≤ lenZ (digits fuel n []) ≤ Z.of_nat (S k).
Proof.
  revert fuel n. induction k as [|k IH]; intros [|fuel] n Hf Hn; try lia; cbn [digits].
  - rewrite (proj2 (Z.ltb_lt n 10)) by (change (10 ^ Z.of_nat 1) with 10 in Hn; lia).
    change (1 ≤ 1 ≤ 1). lia.
  - destruct (Z.ltb_spec n 10); [change (1 ≤ 1 ≤ Z.of_nat (S (S k))); lia|].
    rewrite digits_app, lenZ_app. change (lenZ [48 + n mod 10]) with 1.
    specialize (IH fuel (n / 10) ltac:(lia)).
    assert (0 ≤ n / 10 < 10 ^ Z.of_nat (S k)); [|lia].
    split; [apply Z.div_pos; lia|]. apply Z.div_lt_upper_bound; [lia|].
    rewrite (Nat2Z.inj_succ (S k)), Z.pow_succ_r in Hn by lia. lia.
Qed.

Lemma decimal_length n : 0 ≤ n < 10 ^ 9 → 1 ≤ lenZ (decimal n) ≤ 9.
Proof. apply (digits_length 8); lia. Qed.

Lemma c_string_nul s r : c_string (s ++ 0 :: r) = c_string (s ++ [0]).
Proof.
  induction s as [|b s IH]; cbn; [done|]. by rewrite IH.
Qed.

Lemma snprintf_u_ok m off size n :
  0 ≤ off → lenZ (decimal n) < size → off + lenZ (decimal n) + 1 ≤ lenZ m →
  snprintf_u m off size n = Ret (splice m off (decimal n ++ [0]), lenZ (decimal n)).
Proof.
  intros Ho Hs Hm. unfold snprintf_u. rewrite take_ge by (unfold lenZ in *; lia).
  rewrite store_ok; [done..|]. rewrite lenZ_app. change (lenZ [0]) with 1. lia.
Qed.

(** The name under which a table's file is opened holds neither the
    directory nor the level: it consists of the bytes that happened to be at
    the start of the array, as many as the level has digits, a slash and the
    table's index.  Tables with the same index on two levels with equally many
    digits therefore open the same file when their arrays held the same
    bytes. *)
Theorem table_path_spec (file_path : bytes) (level level' index_in_level : Z)
    (Hlen : lenZ file_path = file_path_length)
    (Hl : 0 ≤ level < 10 ^ 8) (Hl' : 0 ≤ level' < 10 ^ 8)
    (Hdigits : lenZ (decimal level') = lenZ (decimal level))
    (Hj : 0 ≤ index_in_level < 10 ^ 9) :
  ∃ m m', build_file_path file_path level index_in_level = Ret m ∧
    build_file_path file_path level' index_in_level = Ret m' ∧
    c_string m = c_string (slice file_path 0 (lenZ (decimal level)) ++
                           47 :: decimal index_in_level ++ [0]) ∧
    c_string m' = c_string m.
Proof.
  assert (Hone : ∀ l, 0 ≤ l < 10 ^ 8 → ∃ m, build_file_path file_path l index_in_level = Ret m ∧
    c_string m = c_string (slice file_path 0 (lenZ (decimal l)) ++
                           47 :: decimal index_in_level ++ [0])).
  { clear - Hlen Hj. intros l Hl.
    pose proof (digits_length 7 10 l ltac:(lia) ltac:(lia)) as Hd.
    fold (decimal l) in Hd. pose proof (decimal_length _ Hj) as Hi.
    unfold file_path_length, level_str_len, sstable_number_str_len in Hlen.
    unfold build_file_path. rewrite snprintf_u_ok by (unfold level_str_len; lia).
    cbn [mbind exec_bind].
    assert (Hm1 : lenZ (splice file_path 8 (decimal l ++ [0])) = lenZ file_path).
    { apply lenZ_splice; [lia|]. rewrite lenZ_app. change (lenZ [0]) with 1. lia. }
    set (m1 := splice _ 8 _) in *. rewrite setZ_ok by lia. cbn [mbind exec_bind].
    rewrite snprintf_u_ok; [|lia|unfold sstable_number_str_len; lia|rewrite lenZ_insert; lia].
    cbn [mbind exec_bind]. eexists. split; [done|].
    set (d := Z.to_nat (lenZ (decimal l))).
    assert (Htake : take (Z.to_nat (lenZ (decimal l) + 1)) (<[d := 47]> m1)
                    = slice file_path 0 (lenZ (decimal l)) ++ [47]).
    { replace (Z.to_nat (lenZ (decimal l) + 1)) with (S d) by lia.
      rewrite (take_S_r _ _ 47) by (apply list_lookup_insert_eq; unfold lenZ in *; lia).
      rewrite take_insert_ge by lia. f_equal. unfold slice. rewrite drop_0. fold d.
      unfold m1, splice. rewrite take_app_le by (rewrite length_take; unfold lenZ in *; lia).
      rewrite take_take. f_equal. lia. }
    unfold splice at 1. rewrite Htake, <- !app_assoc. cbn [app].
    rewrite (app_comm_cons _ _ 47), (app_assoc (slice _ _ _)), c_string_nul.
    by rewrite <- app_assoc. }
  destruct (Hone level Hl) as (m & E & Hm). destruct (Hone level' Hl') as (m' & E' & Hm').
  exists m, m'. split_and!; [done|done|done|]. by rewrite Hm, Hm', Hdigits.
Qed.

End file_names.

(** Levels 1 and 2 of a tree whose arrays hold ["tmp"] open the same file. *)
Lemma table_path_spec_witness :
  ∃ m m', build_file_path ([116; 109; 112] ++ zeros 26) 1 4 = Ret m ∧
    build_file_path ([116; 109; 112] ++ zeros 26) 2 4 = Ret m' ∧
    c_string m = c_string (slice ([116; 109; 112] ++ zeros 26) 0 (lenZ (decimal 1)) ++
                           47 :: decimal 4 ++ [0]) ∧
    c_string m' = c_string m.
Proof.
  apply (table_path_spec ([116; 109; 112] ++ zeros 26) 1 2 4); by vm_compute.
Defined.

(** ** The page cache area of a worker *)

Section area.
Context {cfg : Config}.

(** C33: As long as the sizes fit 32 bits, buffer [m] of table [sstable_num] lies inside the mapping of its
    worker exactly when [sstable_num + m] is below the number of buffers of the
    mapping.  The index counts all tables and not those of the worker, so that
    all buffers of the tables of worker [max_sstable_height] and of every later
    one lie outside their mapping. *)
Theorem own_buffers_in_area (area worker sstable_num m : Z)
    (Hsize : 0 < fair_aligned_sstable_page_cache_buffer_size)
    (Hbatch : 0 < WORKER_SSTABLE_BATCH_SIZE)
    (Hnum : first_sstable_num worker ≤ sstable_num ≤ second_sstable_num worker)
    (Hworker : 0 ≤ worker) (Hm : 0 ≤ m < max_sstable_height)
    (Harea : fair_aligned_sstable_page_cache_buffer_size * max_sstable_height *
             WORKER_SSTABLE_BATCH_SIZE < 2 ^ 32)
    (Haddr : fair_aligned_sstable_page_cache_buffer_size * (sstable_num + m) < 2 ^ 32) :
  (area ≤ buffer_address area sstable_num m ∧
   buffer_address area sstable_num m + fair_aligned_sstable_page_cache_buffer_size
     ≤ area + page_cache_area_size ↔
   sstable_num + m < max_sstable_height * WORKER_SSTABLE_BATCH_SIZE) ∧
  (max_sstable_height ≤ worker →
   area + page_cache_area_size ≤ buffer_address area sstable_num m).
Proof.
  unfold buffer_address, page_cache_area_size, first_sstable_num, second_sstable_num in *.
  set (b := fair_aligned_sstable_page_cache_buffer_size) in *.
  set (k := WORKER_SSTABLE_BATCH_SIZE) in *. set (h := max_sstable_height) in *.
  assert (0 ≤ sstable_num) by nia.
  assert (0 ≤ b * (sstable_num + m)) by (apply Z.mul_nonneg_nonneg; lia).
  assert (0 ≤ b * h * k) by (apply Z.mul_nonneg_nonneg; [apply Z.mul_nonneg_nonneg|]; lia).
  rewrite (u32_small (sstable_num + m)), (u32_small (b * _)), (u32_small (b * h * k)) by nia.
  split.
  - split; [|intros Hlt; split; [nia|]].
    + intros [_ Hin]. clear Harea Haddr. apply Z.nle_gt. intros Hge.
      assert (b * (h * k) ≤ b * (sstable_num + m)) by (apply Z.mul_le_mono_nonneg_l; lia). lia.
    + assert (b * (sstable_num + m + 1) ≤ b * (h * k)) by (apply Z.mul_le_mono_nonneg_l; lia). lia.
  - intros Hw. assert (h * k ≤ sstable_num + m) by nia.
    assert (b * (h * k) ≤ b * (sstable_num + m)) by (apply Z.mul_le_mono_nonneg_l; lia). lia.
Qed.

End area.

(** A configuration with a page cache: 4096-byte buffers, twenty per table. *)
Definition cached_config : Config := {|
  MEMTABLE_SIZE_MB_BITS := 1; TOTAL_SSTABLE_STORAGE_SPACE_MB := 1000; LEVEL_FACTOR := 10;
  NUM_SSTABLE_WORKER_THREADS := 50; KEY_LENGTH := 2; VALUE_LENGTH := 2; PAGE_SIZE := 4096;
  BLOCK_SIZE := 4096; ALIGN_NO_FALSE_SHARING := 64; MAX_SIMULTANEOUS_CONNECTIONS := 100;
  NUM_PROCESSORS := 8; TOTAL_SSTABLE_PAGE_CACHE_SIZE := 40960000 |}.

Lemma own_buffers_in_area_witness :
  ((0 ≤ @buffer_address cached_config 0 207 3 ∧
    @buffer_address cached_config 0 207 3 +
      @fair_aligned_sstable_page_cache_buffer_size cached_config
      ≤ 0 + @page_cache_area_size cached_config ↔
    207 + 3 < @max_sstable_height cached_config * @WORKER_SSTABLE_BATCH_SIZE cached_config) ∧
   (@max_sstable_height cached_config ≤ 20 →
    0 + @page_cache_area_size cached_config ≤ @buffer_address cached_config 0 207 3)).
Proof.
  apply (@own_buffers_in_area cached_config 0 20 207 3); vm_compute; intuition discriminate.
Defined.

(** ** The descriptor table and the rings *)

Section descriptors.
Context {cfg : Config}.

Lemma collect_fds (fds : list (option Z)) (ixs : list Z) (acc : list (option Z)) :
  Forall (λ i, 0 ≤ i < lenZ fds) ixs →
  foldM (λ l i, fd ← getZ fds i; Ret (l ++ [fd])) ixs acc =
    Ret (acc ++ ((λ i, default None (fds !! Z.to_nat i)) <$> ixs)).
Proof.
  revert acc. induction ixs as [|i ixs IH]; intros acc His; cbn [foldM fmap list_fmap].
  - by rewrite app_nil_r.
  - apply Forall_cons in His as [Hi His]. destruct (getZ_lt fds i Hi) as (fd & -> & Hfd).
    cbn [mbind exec_bind]. rewrite IH by done. by rewrite Hfd, <- app_assoc.
Qed.

(** What [lsm_tree.hpp] has in the table when the network thread starts: the
    entries of the sstables were filled by the workers, the others never. *)
Definition start_fds (fds : list (option Z)) : Prop :=
  lenZ fds = NUM_SSTABLE_WORKER_THREADS + NUM_FILE_FDS + MAX_SIMULTANEOUS_CONNECTIONS ∧
  ∀ i, NUM_SSTABLES ≤ i < lenZ fds → fds !! Z.to_nat i = Some None.

(** C27: The network thread stores the server socket at one entry of the
    descriptor table and registers another: what the ring uses as the server's
    descriptor is indeterminate.  The messages with the ring's descriptor go to
    the entries from 0 on, which hold the files of the sstables (and beyond
    them the server socket), not the rings of the workers. *)
Theorem network_set_up_spec (setup : io_uring_params → option Z)
    (main_ring network_ring main_ring_fd ring_fd server_sock_fd : Z)
    (fds : list (option Z)) (Hfds : start_fds fds)
    (HS : 0 ≤ NUM_SSTABLES) (HW : 0 < NUM_SSTABLE_WORKER_THREADS)
    (HM : 0 < MAX_SIMULTANEOUS_CONNECTIONS) :
  ∃ ns, network_set_up setup (PTo main_ring) (PTo network_ring) main_ring_fd ring_fd
          server_sock_fd fds = Ret ns ∧
    ns_fds ns = <[Z.to_nat NUM_SSTABLES := Some server_sock_fd]> fds ∧
    ns_registered ns = None ∧
    ns_destinations ns =
      (λ i, if decide (i = NUM_SSTABLES) then Some server_sock_fd
            else default None (fds !! Z.to_nat i)) <$> seqZ 0 NUM_SSTABLE_WORKER_THREADS.
Proof.
  destruct Hfds as [Hlen Hrest]. unfold NUM_FILE_FDS in *.
  unfold network_set_up, NUM_FILE_FDS, set_up_ring. cbn [follow mbind exec_bind].
  replace (1 + NUM_SSTABLES - 1) with NUM_SSTABLES by lia.
  rewrite setZ_ok by lia. cbn [mbind exec_bind].
  replace (NUM_SSTABLE_WORKER_THREADS + (1 + NUM_SSTABLES) - 1)
    with (NUM_SSTABLE_WORKER_THREADS + NUM_SSTABLES) by lia.
  rewrite getZ_insert, decide_False by lia.
  assert (getZ fds (NUM_SSTABLE_WORKER_THREADS + NUM_SSTABLES) = Ret None) as ->.
  { apply getZ_Ret. split; [lia|]. apply Hrest. lia. }
  cbn [mbind exec_bind]. rewrite collect_fds.
  2:{ apply Forall_forall. intros i Hi%elem_of_seqZ. rewrite lenZ_insert. lia. }
  cbn [mbind exec_bind app]. eexists. split; [done|]. cbn. split_and!; [done..|].
  apply list_fmap_ext. intros _ i Hi%list_elem_of_lookup_2%elem_of_seqZ.
  case_decide as Hd.
  - rewrite Hd, list_lookup_insert_eq; [done|]. unfold lenZ in Hlen. lia.
  - by rewrite list_lookup_insert_ne by lia.
Qed.

(** A kernel that enforces the documented rule for [IORING_SETUP_CQSIZE],
    the completion queue must have more entries than the submission queue,
    rejects the ring of every sstable, whose number of completion entries is
    left zero, and the scheduler ring of every worker that handles at most two
    sstables; the program does not notice, as it ignores the results. *)
Theorem ring_set_up_rejected (setup : io_uring_params → option Z)
    (cqsize_rule : ∀ p, SETUP_CQSIZE ∈ flags p → cq_entries p ≤ entries p → setup p = None)
    (ring : Z) (scheduler_ring_fd : Z) :
  set_up_ring setup (PTo ring) (sstable_ring_params scheduler_ring_fd) = Ret None ∧
  (WORKER_SSTABLE_BATCH_SIZE ≤ 2 → set_up_ring setup (PTo ring) scheduler_params = Ret None).
Proof.
  unfold set_up_ring. cbn [follow mbind exec_bind]. split.
  - f_equal. apply cqsize_rule; cbn; [set_solver|lia].
  - intros Hb. f_equal. apply cqsize_rule; cbn; [set_solver|lia].
Qed.

End descriptors.

Lemma initialize_spec_witness :
  @initialize wide_config unit (λ _, Some 5) 3 (replicate 10 (blank_level 3)) [12; 40]
    (MkTree [] 0 [] 0 false [] (PTo 4096) 0) =
  Ret (@started wide_config unit (λ _, Some 5) 3 (replicate 10 (blank_level 3))
         (MkTree [] 0 [] 0 false [] (PTo 4096) 0)) ∧
  @initialize wide_config unit (λ _, Some 5) 3 (replicate 10 (blank_level 3)) [12; 40]
    (@new_RingDB wide_config unit) = Undef NullDeref.
Proof.
  apply (@initialize_spec wide_config unit (λ _, Some 5) 3 (replicate 10 (blank_level 3))
           [12; 40] (MkTree [] 0 [] 0 false [] (PTo 4096) 0));
    try (vm_compute; congruence).
  by apply Forall_replicate.
Defined.

(** The table of the shipped configuration, with the descriptors 10, 11, ... of
    the sstables. *)
Definition demo_fds : list (option Z) :=
  (Some <$> seqZ 10 500) ++ replicate 301 None.

Lemma network_set_up_spec_witness :
  ∃ ns, @network_set_up cmake_config (λ _, Some 5) (PTo 4096) (PTo 8192) 5 6 7 demo_fds = Ret ns ∧
    ns_fds ns = <[Z.to_nat (@NUM_SSTABLES cmake_config) := Some 7]> demo_fds ∧
    ns_registered ns = None ∧
    ns_destinations ns =
      (λ i, if decide (i = @NUM_SSTABLES cmake_config) then Some 7
            else default None (demo_fds !! Z.to_nat i)) <$> seqZ 0 200.
Proof.
  apply (@network_set_up_spec cmake_config (λ _, Some 5) 4096 8192 5 6 7 demo_fds);
    [|by vm_compute..]. split; [by vm_compute|]. intros i Hi.
  change (@NUM_SSTABLES cmake_config) with 500 in Hi. change (lenZ demo_fds) with 801 in Hi.
  unfold demo_fds. rewrite lookup_app_r by (rewrite length_fmap, length_seqZ; lia).
  apply lookup_replicate. rewrite length_fmap, length_seqZ. split; [done|lia].
Defined.

Lemma ring_set_up_rejected_witness :
  let setup := λ p, if decide (SETUP_CQSIZE ∈ flags p ∧ cq_entries p ≤ entries p)
                    then None else Some 5 in
  @set_up_ring setup (PTo 4096) (sstable_ring_params 9) = Ret None ∧
  (@WORKER_SSTABLE_BATCH_SIZE cmake_config ≤ 2 →
   @set_up_ring setup (PTo 4096) (@scheduler_params cmake_config) = Ret None).
Proof.
  apply (@ring_set_up_rejected cmake_config
           (λ p, if decide (SETUP_CQSIZE ∈ flags p ∧ cq_entries p ≤ entries p)
                 then None else Some 5)).
  intros p H1 H2. by rewrite decide_True.
Defined.
