(* ===== verification/PageSearch.v ===== *)
(** * Searching a buffer that holds a search tree

    The walk of [try_sstable_tree_read_in_memory] through a cached buffer
    ([search_page] of [Descent]) against the tree it means to walk through: the
    entries of the buffer are the nodes of a binary tree in array form, the
    children of entry [i] being the entries [2i + 1] and [2i + 2], a key of null
    bytes marking an absent node. *)

From S2P Require Import Prelude Config SparseIndex Descent.

(** Entry [j] lies in the subtree of entry [i]. *)
Inductive below : Z → Z → Prop :=
  | below_refl i : below i i
  | below_left i j : below (2 * i + 1) j → below i j
  | below_right i j : below (2 * i + 2) j → below i j.

Lemma below_child i j c : below i j → c = 2 * j + 1 ∨ c = 2 * j + 2 → below i c.
Proof.
  intros Hb Hc. revert Hc. induction Hb as [i|i j _ IH|i j _ IH]; intros Hc.
  - destruct Hc as [-> | ->]; [apply below_left|apply below_right]; constructor.
  - by apply below_left, IH.
  - by apply below_right, IH.
Qed.

(** Every entry is a node of the tree at entry 0. *)
Lemma below_root j : 0 ≤ j → below 0 j.
Proof.
  intros Hj. pattern j. apply Zlt_0_ind; [|done]. clear j Hj. intros j IH Hj.
  destruct (decide (j = 0)) as [->|]; [constructor|].
  pose proof (Z.div_mod (j - 1) 2 ltac:(lia)). pose proof (Z.mod_pos_bound (j - 1) 2 ltac:(lia)).
  apply (below_child 0 ((j - 1) / 2)); [apply IH; lia|lia].
Qed.

Section search.
Context {cfg : Config}.

Definition key_of (page : bytes) (i : Z) : bytes :=
  slice page (i * MEMTABLE_ENTRY_LENGTH) KEY_LENGTH.

(** Entry [i] holds a key. *)
Definition present (page : bytes) (n i : Z) : Prop :=
  0 ≤ i < n ∧ memcmp (key_of page i) null_key ≠ 0.

(** The buffer holds a search tree of [n] entries: nothing hangs below an
    absent node, the keys left of a node are smaller and those right of it
    larger. *)
Record search_tree (page : bytes) (n : Z) : Prop := {
  tree_size : 0 ≤ n < 2 ^ 31;
  tree_fits : n * MEMTABLE_ENTRY_LENGTH ≤ lenZ page;
  tree_closed i j : below i j → 0 ≤ i → present page n j → present page n i;
  tree_left i j : below (2 * i + 1) j → present page n i → present page n j →
    memcmp (key_of page j) (key_of page i) < 0;
  tree_right i j : below (2 * i + 2) j → present page n i → present page n j →
    memcmp (key_of page i) (key_of page j) < 0
}.

Lemma page_key_ok page n i :
  0 < KEY_LENGTH → 0 < VALUE_LENGTH → search_tree page n → 0 ≤ i < n →
  page_key page i = Ret (key_of page i) ∧ lenZ (key_of page i) = KEY_LENGTH.
Proof.
  intros HK HV [_ Hfit _ _ _] Hi. unfold page_key, key_of, MEMTABLE_ENTRY_LENGTH in *.
  assert (Hl : load page (i * (KEY_LENGTH + VALUE_LENGTH)) KEY_LENGTH =
               Ret (slice page (i * (KEY_LENGTH + VALUE_LENGTH)) KEY_LENGTH))
    by (apply load_ok; nia).
  split; [done|]. by apply load_Ret in Hl as (_ & _ & _ & _ & Hl).
Qed.

(** What a finished walk from entry [index] tells about the entries below it:
    it ended at the entry that holds the key, and only then with comparison
    result zero. *)
Definition walk_ok (page key : bytes) (n index : Z) (out : Z * option Z * option Z) : Prop :=
  let '(index', res, nn) := out in
  (∀ j, below index j → present page n j → key_of page j = key →
     index' = j ∧ res = Some 0 ∧ nn = Some (memcmp key null_key)) ∧
  (res = Some 0 → present page n index' ∧ key_of page index' = key).

(** No entry that is [present] lies below an index outside the tree. *)
Lemma below_le i j : below i j → 0 ≤ i → i ≤ j.
Proof. induction 1 as [|i j _ IH|i j _ IH]; lia. Qed.

Lemma search_page_walk fuel page key n index res nn :
  0 < KEY_LENGTH → 0 < VALUE_LENGTH → search_tree page n → lenZ key = KEY_LENGTH →
  0 ≤ index → res ≠ Some 0 → 2 ^ 31 ≤ (index + 1) * 2 ^ Z.of_nat fuel →
  ∃ out, search_page (S fuel) page key n index res nn = Ret out ∧
         walk_ok page key n index out.
Proof.
  intros HK HV HT Hlen. pose proof (tree_size _ _ HT) as Hn.
  revert index res nn. induction fuel as [|fuel IH]; intros index res nn Hi Hres Hf.
  { change (2 ^ Z.of_nat 0) with 1 in Hf. cbn [search_page]. decide_tests.
    eexists. split; [done|]. split; [|done].
    intros j Hb%below_le [Hj _] _; lia. }
  remember (S fuel) as f eqn:Ef. cbn [search_page]. destruct (Z.ltb_spec index n) as [Hlt|Hge].
  2:{ eexists. split; [done|]. split; [|done]. intros j Hb%below_le [Hj _] _; lia. }
  destruct (page_key_ok page n index HK HV HT ltac:(lia)) as [-> Hki]. cbn [mbind exec_bind].
  destruct (Z.eqb_spec (memcmp (key_of page index) null_key) 0) as [Hnull|Hnn].
  { eexists. split; [done|]. split; [|done]. intros j Hb Hj _.
    by destruct (tree_closed _ _ HT index j Hb Hi Hj). }
  assert (Hpi : present page n index) by (by split).
  destruct (Z.eqb_spec (memcmp (key_of page index) key) 0) as [Heq|Hne].
  { assert (Ek : key_of page index = key) by (apply memcmp_0; [unfold lenZ in *; lia|done]).
    eexists. split; [done|]. rewrite Heq. split; [|done].
    intros j Hb Hj Ej. rewrite <- Ek. split; [|done].
    inversion Hb as [|? ? Hl|? ? Hr]; subst; [done|..]; exfalso.
    - pose proof (tree_left _ _ HT _ _ Hl Hpi Hj) as H. rewrite Ej, memcmp_refl in H. lia.
    - pose proof (tree_right _ _ HT _ _ Hr Hpi Hj) as H. rewrite Ej, memcmp_refl in H. lia. }
  subst f. rewrite Nat2Z.inj_succ, Z.pow_succ_r in Hf by lia.
  set (b := b2z (0 <? memcmp (key_of page index) key)).
  assert (0 ≤ b ≤ 1) by (unfold b; destruct (0 <? _); cbn; lia).
  rewrite Z.shiftl_mul_pow2 by lia. change (2 ^ 1) with 2.
  rewrite !u32_small by (rewrite ?u32_small by lia; lia).
  destruct (IH (index * 2 + 2 - b) (Some (memcmp (key_of page index) key))
              (Some (memcmp (key_of page index) null_key))) as ([[i' r'] nn'] & -> & Hw1 & Hw2).
  { lia. } { congruence. }
  { assert (0 ≤ 2 ^ Z.of_nat fuel) by (apply Z.pow_nonneg; lia). nia. }
  eexists. split; [done|]. split; [|done]. intros j Hb Hj Ej. apply Hw1; [|done|done].
  inversion Hb as [|? ? Hl|? ? Hr]; subst; [by rewrite memcmp_refl in Hne|..]; unfold b.
  - pose proof (tree_left _ _ HT _ _ Hl Hpi Hj) as H'. rewrite memcmp_flip in H'.
    rewrite (proj2 (Z.ltb_lt 0 _)) by lia. cbn [b2z]. by replace (index * 2 + 2 - 1) with (2 * index + 1) by lia.
  - pose proof (tree_right _ _ HT _ _ Hr Hpi Hj) as H'.
    rewrite (proj2 (Z.ltb_ge 0 _)) by lia. cbn [b2z]. by replace (index * 2 + 2 - 0) with (2 * index + 2) by lia.
Qed.

(** C10: In a buffer that holds a search tree of fewer than 2^31 entries the
    walk from the root finds a key exactly when an entry of the buffer has it:
    it always returns, it returns with comparison result 0 at entry [j] if and
    only if entry [j] holds the key, and then the flag that tells an occupied
    entry is not zero. *)
Theorem search_page_correct (page key : bytes) (n : Z)
    (HK : 0 < KEY_LENGTH) (HV : 0 < VALUE_LENGTH) (HT : search_tree page n)
    (Hlen : lenZ key = KEY_LENGTH) (Hkey : memcmp key null_key ≠ 0) :
  ∃ index res nn, search_page 34 page key n 0 None None = Ret (index, res, nn) ∧
    (∀ j, (0 ≤ j < n ∧ key_of page j = key) ↔ (index = j ∧ res = Some 0)) ∧
    (res = Some 0 → nn = Some (memcmp key null_key)).
Proof.
  destruct (search_page_walk 33 page key n 0 None None) as ([[i r] nn] & E & Hw1 & Hw2);
    [done..|change (2 ^ Z.of_nat 33) with (2 ^ 33); lia|].
  exists i, r, nn. split; [done|]. split.
  - intros j. split.
    + intros [Hj Ej]. destruct (Hw1 j) as (-> & -> & _); [apply below_root; lia| |done|done].
      split; [done|]. by rewrite Ej.
    + intros [<- ->]. destruct (Hw2 eq_refl) as [[Hj _] Ej]. done.
  - intros ->. destruct (Hw2 eq_refl) as [Hp Ej].
    destruct (Hw1 i) as (_ & _ & Hnn); [apply below_root; apply Hp|done|done|done].
Qed.

End search.

(** Three entries: 5 at the root, 3 to its left and 8 to its right. *)
Definition demo_page : bytes := [5; 1; 1; 3; 2; 2; 8; 9; 9].

Lemma demo_page_tree : @search_tree cmake_config demo_page 3.
Proof.
  assert (Hp : ∀ i, 0 ≤ i < 3 → @present cmake_config demo_page 3 i).
  { intros i Hi. split; [done|].
    assert (i = 0 ∨ i = 1 ∨ i = 2) as [-> | [-> | ->]] by lia; by vm_compute. }
  split; [done|by vm_compute|..].
  - intros i j Hb Hi [Hj _]. apply Hp. pose proof (below_le _ _ Hb Hi). lia.
  - intros i j Hb [Hi _] [Hj _]. pose proof (below_le _ _ Hb ltac:(lia)).
    assert (i = 0) as -> by lia. assert (j = 1 ∨ j = 2) as [-> | ->] by lia; [done|].
    inversion Hb as [|? ? Hl|? ? Hr]; subst;
      [pose proof (below_le _ _ Hl ltac:(lia))|pose proof (below_le _ _ Hr ltac:(lia))]; lia.
  - intros i j Hb [Hi _] [Hj _]. pose proof (below_le _ _ Hb ltac:(lia)).
    assert (i = 0) as -> by lia. assert (j = 2) as -> by lia. done.
Qed.

Lemma search_page_correct_witness :
  ∃ index res nn,
    @search_page cmake_config 34 demo_page [8] 3 0 None None = Ret (index, res, nn) ∧
    (∀ j, (0 ≤ j < 3 ∧ @key_of cmake_config demo_page j = [8]) ↔ (index = j ∧ res = Some 0)) ∧
    (res = Some 0 → nn = Some (memcmp [8] (@null_key cmake_config))).
Proof.
  apply (@search_page_correct cmake_config demo_page [8] 3);
    [done|done|exact demo_page_tree|done|by vm_compute].
Defined.
