(* ===== verification/TestClient.v ===== *)
(** * Client messages and the test client

    A message of a client is the tag ["write"] or ["read"] with its terminator,
    a key and a value ([constinit_constants.hpp]).  [test_ringdb.hpp] is a client
    that writes one pair, reads it back and compares.  This file models that
    client, with the server's replies as an argument, and what the server makes
    of a message: the tag is examined and part of the value cleared when it is
    received ([Network]), the key and the value are taken at their offsets by
    the main thread ([Server]). *)

From S2P Require Import Prelude Config Requests RequestBatch LevelInfo Network.

Section messages.
Context {cfg : Config}.

(** ["write"] *)
Definition write_tag : bytes := [119; 114; 105; 116; 101].

Definition message (tag key value : bytes) : bytes := tag ++ key ++ value.

(** [char* key = conn_req.buffer + 5; value = key + KEY_LENGTH;] *)
Definition message_key (m : bytes) (buf : Z) : bytes := slice m (buf + 5) KEY_LENGTH.
Definition message_value (m : bytes) (buf : Z) : bytes :=
  slice m (buf + 5 + KEY_LENGTH) VALUE_LENGTH.

(** ** The test client *)

(** [std::fill(from, to, c)] on the client's buffer *)
Definition fill_with (m : bytes) (from to c : Z) : exec bytes :=
  if to <? from then Undef BadRange else store m from (replicate (Z.to_nat (to - from)) c).

(** The first message: ["write"], a key of ['a']s and a value of ['b']s. *)
Definition prepare_write (buffer : bytes) : exec bytes :=
  b1 ← store buffer 0 write_tag;
  b2 ← fill_with b1 5 (5 + KEY_LENGTH) 97;
  fill_with b2 (5 + KEY_LENGTH) SOCKET_BUFFER_LENGTH 98.

(** The second message: only the tag is replaced. *)
Definition prepare_read (buffer : bytes) : exec bytes := store buffer 0 read_tag.

(** [recv] overwrites the start of the buffer with what was received. *)
Definition receive (buffer reply : bytes) : exec bytes :=
  store buffer 0 (take (Z.to_nat SOCKET_BUFFER_LENGTH) reply).

(** One round: the two messages sent and whether the read test passed; [junk]
    is what [new char[...]] holds. *)
Definition test_round (junk reply : bytes) : exec (bytes * bytes * bool) :=
  w ← prepare_write junk;
  r ← prepare_read w;
  let desired_value := replicate (Z.to_nat VALUE_LENGTH) 98 in
  b ← receive r reply;
  v ← load b (5 + KEY_LENGTH) VALUE_LENGTH;
  Ret (w, r, memcmp v desired_value =? 0).

(** [while (num_recv < BATCH_NUM_REQUESTS)], with one element of [rounds] per
    iteration; nothing changes [num_recv]. *)
Fixpoint test_ringdb (rounds : list (bytes * bytes)) (num_recv : Z)
    (log : list (bytes * bytes * bool)) : exec (list (bytes * bytes * bool)) :=
  if num_recv <? BATCH_NUM_REQUESTS then
    match rounds with
    | [] => Spin
    | (junk, reply) :: rest =>
        out ← test_round junk reply;
        test_ringdb rest num_recv (log ++ [out])
    end
  else Ret log.

(** ** What is sent *)

Context (HK : 0 ≤ KEY_LENGTH) (HV : 0 ≤ VALUE_LENGTH).

Definition test_key : bytes := replicate (Z.to_nat KEY_LENGTH) 97.
Definition test_value : bytes := replicate (Z.to_nat VALUE_LENGTH) 98.

Lemma lenZ_replicate (n c : Z) : 0 ≤ n → lenZ (replicate (Z.to_nat n) c) = n.
Proof. intros Hn. unfold lenZ. rewrite length_replicate. lia. Qed.

(** Replacing the middle part of a region. *)
Lemma store_middle (a b c src : bytes) (off : Z) :
  lenZ a = off → lenZ src = lenZ b → store (a ++ b ++ c) off src = Ret (a ++ src ++ c).
Proof.
  intros <- Hl. pose proof (lenZ_nonneg a). pose proof (lenZ_nonneg c).
  rewrite store_ok by (rewrite ?lenZ_app; lia). unfold splice, lenZ in *.
  rewrite Nat2Z.id, take_app_length. do 3 f_equal.
  rewrite app_assoc, drop_app_length'; [done|]. rewrite length_app. lia.
Qed.

Lemma split_three (m : bytes) x y z :
  0 ≤ x → 0 ≤ y → 0 ≤ z → lenZ m = x + y + z →
  ∃ a b c, m = a ++ b ++ c ∧ lenZ a = x ∧ lenZ b = y ∧ lenZ c = z.
Proof.
  intros Hx Hy Hz Hm. exists (slice m 0 x), (slice m x y), (slice m (x + y) z).
  rewrite !lenZ_slice by lia. split; [|done]. unfold slice. rewrite drop_0.
  rewrite (take_ge (drop (Z.to_nat (x + y)) m))
    by (rewrite length_drop; unfold lenZ in *; lia).
  rewrite Z2Nat.inj_add, <- drop_drop, !take_drop by lia. done.
Qed.

Lemma prepare_write_ok junk :
  lenZ junk = SOCKET_BUFFER_LENGTH →
  prepare_write junk = Ret (message write_tag test_key test_value).
Proof.
  intros Hj. destruct (split_three junk 5 KEY_LENGTH VALUE_LENGTH)
    as (a & b & c & -> & Ha & Hb & Hc); [lia..|exact Hj|].
  unfold prepare_write, fill_with, SOCKET_BUFFER_LENGTH.
  rewrite (store_middle [] a (b ++ c) write_tag) by (rewrite ?Ha; done).
  cbn [mbind exec_bind app]. decide_tests.
  rewrite (store_middle write_tag b c) by (rewrite ?lenZ_replicate by lia; done || lia).
  cbn [mbind exec_bind]. rewrite <- (app_nil_r c).
  rewrite (app_assoc write_tag).
  rewrite store_middle
    by (rewrite ?lenZ_app, ?lenZ_replicate by lia; change (lenZ write_tag) with 5; lia).
  rewrite app_nil_r, <- app_assoc. unfold message, test_key, test_value.
  do 4 f_equal; f_equal; f_equal; lia.
Qed.

Lemma prepare_read_ok key value :
  prepare_read (message write_tag key value) = Ret (message read_tag key value).
Proof. by apply (store_middle [] write_tag (key ++ value) read_tag). Qed.

Lemma lenZ_message tag key value :
  lenZ tag = 5 → lenZ key = KEY_LENGTH → lenZ value = VALUE_LENGTH →
  lenZ (message tag key value) = SOCKET_BUFFER_LENGTH.
Proof. intros. unfold message, SOCKET_BUFFER_LENGTH. rewrite !lenZ_app. lia. Qed.

(** A whole reply replaces the buffer. *)
Lemma receive_ok buffer reply :
  lenZ buffer = SOCKET_BUFFER_LENGTH → lenZ reply = SOCKET_BUFFER_LENGTH →
  receive buffer reply = Ret reply.
Proof.
  intros Hb Hr. unfold receive. rewrite take_ge by (unfold lenZ in *; lia).
  rewrite <- (app_nil_r buffer). rewrite (store_middle [] buffer [] reply) by (done || lia).
  by rewrite app_nil_r.
Qed.

Lemma test_round_ok junk reply :
  lenZ junk = SOCKET_BUFFER_LENGTH → lenZ reply = SOCKET_BUFFER_LENGTH →
  test_round junk reply =
    Ret (message write_tag test_key test_value, message read_tag test_key test_value,
         bool_decide (message_value reply 0 = test_value)).
Proof.
  intros Hj Hr. unfold test_round. rewrite prepare_write_ok by done. cbn [mbind exec_bind].
  rewrite prepare_read_ok. cbn [mbind exec_bind].
  rewrite receive_ok; [|by apply lenZ_message; [|apply lenZ_replicate..]|done].
  cbn [mbind exec_bind]. unfold SOCKET_BUFFER_LENGTH in Hr.
  rewrite load_ok by lia. cbn [mbind exec_bind]. do 2 f_equal.
  unfold message_value. rewrite Z.add_0_l. fold test_value.
  destruct (Z.eqb_spec (memcmp (slice reply (5 + KEY_LENGTH) VALUE_LENGTH) test_value) 0) as [E|E].
  - apply memcmp_0 in E; [by rewrite bool_decide_eq_true_2|].
    assert (lenZ (slice reply (5 + KEY_LENGTH) VALUE_LENGTH) = lenZ test_value)
      by (unfold test_value; rewrite lenZ_slice, lenZ_replicate; lia). unfold lenZ in *. lia.
  - rewrite bool_decide_eq_false_2; [done|]. intros Eq. by rewrite Eq, memcmp_refl in E.
Qed.

(** The test client never finishes: with at least one request per batch
    its loop counter stays zero.  In every round it sends the same two
    messages, a write and a read of the same key, and reports success exactly
    when the value part of the reply is the value it wrote. *)
Theorem test_client_spec (rounds : list (bytes * bytes)) (log : list (bytes * bytes * bool))
    (Hrounds : Forall (λ r, lenZ r.1 = SOCKET_BUFFER_LENGTH ∧ lenZ r.2 = SOCKET_BUFFER_LENGTH)
                 rounds)
    (HB : 0 < BATCH_NUM_REQUESTS) :
  test_ringdb rounds 0 log = Spin ∧
  Forall (λ r, test_round r.1 r.2 =
                 Ret (message write_tag test_key test_value,
                      message read_tag test_key test_value,
                      bool_decide (message_value r.2 0 = test_value))) rounds.
Proof.
  split.
  - revert log. induction Hrounds as [|[j r] rounds [Hj Hr] _ IH]; intros log; cbn [test_ringdb];
      rewrite (proj2 (Z.ltb_lt 0 _)) by lia; [done|].
    rewrite test_round_ok by done. cbn [mbind exec_bind]. apply IH.
  - apply (Forall_impl _ _ _ Hrounds). intros [j r] [Hj Hr]. by apply test_round_ok.
Qed.

(** ** What the server sees *)

Lemma slice_add (m : bytes) o x y :
  0 ≤ o → 0 ≤ x → 0 ≤ y → slice m o (x + y) = slice m o x ++ slice m (o + x) y.
Proof.
  intros Ho Hx Hy. unfold slice. rewrite !Z2Nat.inj_add by lia.
  rewrite <- drop_drop. set (l := drop (Z.to_nat o) m).
  rewrite <- (take_drop (Z.to_nat x) l) at 1.
  destruct (decide (length l ≤ Z.to_nat x)%nat).
  - rewrite (drop_ge l), !app_nil_r, take_nil, app_nil_r by lia.
    by rewrite !take_ge by (rewrite ?length_take; lia).
  - by rewrite take_app_add' by (rewrite length_take; lia).
Qed.

(** The parts of a message at their offsets. *)
Lemma message_parts tag key value :
  lenZ tag = 5 → lenZ key = KEY_LENGTH → lenZ value = VALUE_LENGTH →
  slice (message tag key value) 0 5 = tag ∧
  slice (message tag key value) 5 KEY_LENGTH = key ∧
  ∀ z, 0 ≤ z ≤ VALUE_LENGTH →
    slice (message tag key value) (5 + KEY_LENGTH + z) (VALUE_LENGTH - z) =
      drop (Z.to_nat z) value.
Proof.
  intros Ht Hk Hv. unfold slice, message, lenZ in *. split_and!.
  - rewrite drop_0. apply take_app_length'. lia.
  - rewrite drop_app_length' by lia. apply take_app_length'. lia.
  - intros z Hz. replace (Z.to_nat (5 + KEY_LENGTH + z))
      with (length tag + (length key + Z.to_nat z))%nat by lia.
    rewrite <- !drop_drop, !drop_app_length. apply take_ge. rewrite length_drop. lia.
Qed.

(** The message in its buffer after the clearing. *)
Lemma message_cleared (m : bytes) (buf : Z) (tag key value : bytes) :
  slice m buf SOCKET_BUFFER_LENGTH = message tag key value →
  lenZ tag = 5 → lenZ key = KEY_LENGTH → lenZ value = VALUE_LENGTH →
  0 ≤ buf → buf + SOCKET_BUFFER_LENGTH ≤ lenZ m → 5 + KEY_LENGTH ≤ VALUE_LENGTH →
  tagged_type m buf = (if decide (tag = read_tag) then READ else WRITE) ∧
  message_key (cleared m buf) buf = key ∧
  message_value (cleared m buf) buf =
    zeros (VALUE_LENGTH - 5 - KEY_LENGTH) ++ drop (Z.to_nat (VALUE_LENGTH - 5 - KEY_LENGTH)) value.
Proof.
  intros Hm Htag Hkey Hvalue Hbuf Hfit Hlong.
  assert (Hsub : ∀ o n, 0 ≤ o → 0 ≤ n → o + n ≤ SOCKET_BUFFER_LENGTH →
            slice m (buf + o) n = slice (message tag key value) o n).
  { intros o n Ho Hn Hon. rewrite <- Hm. unfold slice, SOCKET_BUFFER_LENGTH in *.
    rewrite skipn_firstn_comm, firstn_firstn, drop_drop. f_equal; [lia|].
    f_equal. lia. }
  destruct (message_parts tag key value Htag Hkey Hvalue) as (Ht & Hk & Hv).
  unfold SOCKET_BUFFER_LENGTH in *. set (z := VALUE_LENGTH - 5 - KEY_LENGTH) in *.
  assert (Hz : lenZ (zeros z) = z) by (apply lenZ_zeros; lia).
  split_and!.
  - unfold tagged_type. by rewrite <- (Z.add_0_r buf), Hsub, Ht by lia.
  - unfold message_key, cleared. fold z.
    rewrite slice_splice_disjoint by lia. by rewrite Hsub by lia.
  - unfold message_value. replace VALUE_LENGTH with (z + (VALUE_LENGTH - z)) at 1 by lia.
    rewrite slice_add by lia. unfold cleared. fold z.
    rewrite slice_splice_same by lia. f_equal.
    rewrite slice_splice_disjoint by lia.
    replace (buf + 5 + KEY_LENGTH + z) with (buf + (5 + KEY_LENGTH + z)) by lia.
    rewrite Hsub by lia. apply Hv. lia.
Qed.

End messages.

Section received.
Context {cfg : Config}.
Context (junk : ConnectionRequest) (memory : Z → Content) (sq_entries : Z).
Context (HK : 1 ≤ KEY_LENGTH) (HP : 1 ≤ PAGE_SIZE < 2 ^ 31).

(** C36: What becomes of a message whose receive request completes, values being
    at least as long as tag and key (in the shipped configuration they are not,
    and the clearing is undefined).  The key stays in the socket buffer as the
    client sent it, but the value does not: its first [VALUE_LENGTH - 5 -
    KEY_LENGTH] bytes are cleared, of a write as of a read, and only the rest
    can reach the main thread; nothing else in the socket buffers changes.  A
    batch that has room and is sorted by the keys the buffers now hold gets an
    entry for the buffer, a read exactly when the message starts with
    ["read\0"]. *)
Theorem message_received (s : Net) slot c tag key value res more :
  getZ (connections (nt_connections s)) slot = Ret c → req_type (conn_base c) = RECV →
  slice (nt_mem s) (buffer c) SOCKET_BUFFER_LENGTH = message tag key value →
  lenZ tag = 5 → lenZ key = KEY_LENGTH → lenZ value = VALUE_LENGTH →
  0 ≤ buffer c → buffer c + SOCKET_BUFFER_LENGTH ≤ lenZ (nt_mem s) →
  5 + KEY_LENGTH ≤ VALUE_LENGTH →
  ∃ m, message_key m (buffer c) = key ∧
    message_value m (buffer c) = zeros (VALUE_LENGTH - 5 - KEY_LENGTH) ++
      drop (Z.to_nat (VALUE_LENGTH - 5 - KEY_LENGTH)) value ∧
    (∀ o n, 0 ≤ o → 0 ≤ n → o + n ≤ lenZ (nt_mem s) →
       o + n ≤ buffer c + 5 + KEY_LENGTH ∨ buffer c + VALUE_LENGTH ≤ o →
       slice m o n = slice (nt_mem s) o n) ∧
    ∀ base pool, holds_pool s (nt_batch s) base pool →
      rw_length pool < BATCH_NUM_REQUESTS ≤ PAGE_SIZE → pool_inv m (nt_batch s) pool →
      ∃ pool', handle junk memory sq_entries s (MkCqe res (ud_conn slot) more) = Ret (set_heap
          (<[nt_batch s := MkRequestBatch base (readwrite_pool pool')]> (nt_heap s))
          (set_net_mem m s)) ∧
        entries pool' ≡ₚ
          MkConnectionRequest (MkBaseRequest (if decide (tag = read_tag) then READ else WRITE))
            (nt_batch s) (client_sock_fd c) (buffer c) :: entries pool.
Proof.
  intros Hc Hty Hm Htag Hkey Hvalue Hbuf Hfit Hlong.
  assert (HK0 : 0 ≤ KEY_LENGTH) by lia. assert (HV0 : 0 ≤ VALUE_LENGTH) by lia.
  destruct (message_cleared HK0 HV0 (nt_mem s) (buffer c) tag key value)
    as (Ht & Hk & Hv); try done.
  unfold SOCKET_BUFFER_LENGTH in Hfit. exists (cleared (nt_mem s) (buffer c)).
  split; [done|]. split; [done|]. split.
  - intros o n Ho Hn Hon Hout. unfold cleared. apply slice_splice_disjoint; rewrite ?lenZ_zeros; lia.
  - intros base pool Hp Hroom Hinv. rewrite <- Ht.
    destruct (received_with_room junk memory sq_entries HK HP s slot c base pool res more)
      as (pool' & E & _ & Hperm); try done; [lia|]. by exists pool'.
Qed.

End received.

(** Keys of one byte and values of eight. *)
Definition message_config : Config := {|
  MEMTABLE_SIZE_MB_BITS := 1; TOTAL_SSTABLE_STORAGE_SPACE_MB := 1000; LEVEL_FACTOR := 10;
  NUM_SSTABLE_WORKER_THREADS := 50; KEY_LENGTH := 1; VALUE_LENGTH := 8; PAGE_SIZE := 4096;
  BLOCK_SIZE := 4096; ALIGN_NO_FALSE_SHARING := 64; MAX_SIMULTANEOUS_CONNECTIONS := 100;
  NUM_PROCESSORS := 8; TOTAL_SSTABLE_PAGE_CACHE_SIZE := 1000 |}.

Lemma test_client_spec_witness :
  @test_ringdb message_config [(zeros 14, zeros 14)] 0 [] = Spin ∧
  Forall (λ r, @test_round message_config r.1 r.2 =
                 Ret (message write_tag [97] (replicate 8 98),
                      message read_tag [97] (replicate 8 98),
                      bool_decide (@message_value message_config r.2 0 = replicate 8 98)))
    [(zeros 14, zeros 14)].
Proof.
  apply (@test_client_spec message_config); [done|done| |done].
  by apply Forall_singleton.
Defined.

(** A write on a connection: two bytes of its value are lost, and it becomes the
    only entry of the batch. *)
Definition demo_written : Net :=
  set_net_mem (message write_tag [97] (replicate 8 98)) (demo_net []).

Lemma message_received_witness :
  ∃ m pool', message_value (cfg := net_config) m 0 = [0; 0; 98; 98; 98; 98; 98; 98] ∧
    handle (cfg := net_config) demo_junk no_memory 8 demo_written (MkCqe 14 (ud_conn 0) false) =
      Ret (set_heap (<[2 := MkRequestBatch (MkBaseRequest READ) (readwrite_pool pool')]>
                       (nt_heap demo_written)) (set_net_mem m demo_written)) ∧
    entries pool' ≡ₚ [MkConnectionRequest (MkBaseRequest WRITE) 2 1 0].
Proof.
  destruct (@message_received net_config demo_junk no_memory 8 ltac:(by vm_compute)
    ltac:(by vm_compute) demo_written 0 (MkConnectionRequest (MkBaseRequest RECV) 0 1 0)
    write_tag [97] (replicate 8 98) 14 false) as (m & _ & Hv & _ & Hin); [by vm_compute..|].
  destruct (Hin (MkBaseRequest READ) (MkReadWritePool [] 0 0 true)) as (pool' & E & Hperm).
  - by split.
  - by vm_compute.
  - split_and!; [by split; vm_compute| |constructor..]. intros [|i] j a b _ Ha; discriminate Ha.
  - exists m, pool'. split; [exact Hv|by split].
Defined.
