(* ===== verification/System.v ===== *)
(** * The main thread and the network thread together

    A client batch on its whole way: the main thread works through it
    ([Server.v]), hands the reads it cannot answer to the read batch and sends
    the batch back, and the network thread answers it ([Network.v]).  The two
    threads share the socket buffers and the batch heap. *)

From S2P Require Import Prelude Config Requests SparseIndex MemTable Guards Filter.
From S2P Require Import RequestBatch LevelInfo Distribute Server Network.

(** ** A batch of reads *)

Section requests_of_a_batch.
Context {cfg : Config}.

(** The reply buffer of [c] is cleared. *)
Definition zero_buffer (mem : bytes) (c : ConnectionRequest) : bytes :=
  splice mem (buffer c) (zeros SOCKET_BUFFER_LENGTH).

Definition answer (mem : bytes) (c : ConnectionRequest) : bytes :=
  if decide (entry_key mem c = null_key) then zero_buffer mem c else mem.

Definition answer_all (mem : bytes) (l : list ConnectionRequest) : bytes := foldl answer mem l.

(** The requests level zero hands on, and what the pool keeps of them. *)
Definition handed_on (mem : bytes) (l : list ConnectionRequest) : list ConnectionRequest :=
  base.filter (λ c, entry_key mem c ≠ null_key) l.

Definition settle (mem : bytes) (c : ConnectionRequest) : ConnectionRequest :=
  if decide (entry_key mem c = null_key) then c
  else MkConnectionRequest (conn_base c) (req_batch_ref c) (-1) (buffer c).

Definition in_memory (mem : bytes) (c : ConnectionRequest) : Prop :=
  0 ≤ buffer c ∧ buffer c + SOCKET_BUFFER_LENGTH ≤ lenZ mem.

Definition apart (c c' : ConnectionRequest) : Prop :=
  buffer c + SOCKET_BUFFER_LENGTH ≤ buffer c' ∨ buffer c' + SOCKET_BUFFER_LENGTH ≤ buffer c.

Lemma handed_on_cons mem c l :
  handed_on mem (c :: l) =
    (if decide (entry_key mem c = null_key) then [] else [c]) ++ handed_on mem l.
Proof. unfold handed_on. rewrite filter_cons. by repeat case_decide. Qed.

Lemma handed_on_full mem l : lenZ (handed_on mem l) = lenZ l ↔ handed_on mem l = l.
Proof.
  split; [|by intros ->]. induction l as [|c l IH]; [done|]. rewrite handed_on_cons.
  assert (lenZ (handed_on mem l) ≤ lenZ l).
  { unfold handed_on, lenZ. pose proof (length_filter (λ c, entry_key mem c ≠ null_key) l). lia. }
  case_decide; rewrite lenZ_app, lenZ_cons; intros; [unfold lenZ in *; cbn [length] in *; lia|].
  rewrite IH; [done|]. unfold lenZ in *. cbn [length] in *. lia.
Qed.

(** Level zero can deal with the request. *)
Definition answerable (mem : bytes) (c : ConnectionRequest) : Prop :=
  entry_key mem c = null_key ∨ req_type (conn_base c) = READ.

Context (HK : 1 ≤ KEY_LENGTH) (HV : 0 ≤ VALUE_LENGTH).

Lemma socket_buffer_pos : 0 ≤ SOCKET_BUFFER_LENGTH.
Proof. unfold SOCKET_BUFFER_LENGTH. lia. Qed.

Lemma lenZ_zero_buffer mem c : in_memory mem c → lenZ (zero_buffer mem c) = lenZ mem.
Proof.
  intros [Hlo Hhi]. pose proof socket_buffer_pos. unfold zero_buffer.
  apply lenZ_splice; rewrite ?lenZ_zeros by lia; lia.
Qed.

Lemma lenZ_answer mem c : in_memory mem c → lenZ (answer mem c) = lenZ mem.
Proof. intros Hc. unfold answer. case_decide; [by apply lenZ_zero_buffer|done]. Qed.

(** Answering one request leaves the buffers of the others alone. *)
Lemma slice_answer mem c o n :
  in_memory mem c → 0 ≤ o → 0 ≤ n → o + n ≤ lenZ mem →
  o + n ≤ buffer c ∨ buffer c + SOCKET_BUFFER_LENGTH ≤ o →
  slice (answer mem c) o n = slice mem o n.
Proof.
  intros [Hlo Hhi] Ho Hn Hon Hd. pose proof socket_buffer_pos. unfold answer, zero_buffer.
  case_decide; [|done]. apply slice_splice_disjoint; rewrite ?lenZ_zeros by lia; lia.
Qed.

Lemma entry_key_answer mem c c' :
  in_memory mem c → in_memory mem c' → apart c c' →
  entry_key (answer mem c) c' = entry_key mem c'.
Proof.
  intros Hc [Hlo Hhi] Ha. unfold entry_key. unfold apart, SOCKET_BUFFER_LENGTH in *.
  apply slice_answer; unfold SOCKET_BUFFER_LENGTH; (done || lia).
Qed.

Lemma pool_inv_ext mem mem' ref p :
  lenZ mem' = lenZ mem → Forall (λ c, entry_key mem' c = entry_key mem c) (entries p) →
  pool_inv mem ref p → pool_inv mem' ref p.
Proof.
  intros Hl Hk (Hw & Hs & Hr & Href). rewrite Forall_forall in Hk.
  split_and!; [done| | |done].
  - intros i j a b Hij Ha Hb. rewrite !Hk by (by eapply list_elem_of_lookup_2). eauto.
  - eapply Forall_impl; [exact Hr|]. intros c. unfold readable. by rewrite Hl.
Qed.

Lemma handed_on_ext m m' l :
  Forall (λ c, entry_key m' c = entry_key m c) l → handed_on m' l = handed_on m l.
Proof.
  induction 1 as [|c l Hc _ IH]; [done|]. by rewrite !handed_on_cons, Hc, IH.
Qed.

Lemma settle_ext m m' l :
  Forall (λ c, entry_key m' c = entry_key m c) l → settle m' <$> l = settle m <$> l.
Proof.
  induction 1 as [|c l Hc _ IH]; [done|]. rewrite !fmap_cons, IH. unfold settle. by rewrite Hc.
Qed.

(** The remaining requests after one of them was answered. *)
Lemma rest_after_answer mem c l :
  in_memory mem c → Forall (in_memory mem) l → Forall (apart c) l →
  Forall (λ x, entry_key (answer mem c) x = entry_key mem x) l ∧
  Forall (in_memory (answer mem c)) l.
Proof.
  intros Hc Hl Ha. split.
  - apply Forall_forall. intros x Hx. rewrite Forall_forall in Hl, Ha.
    apply entry_key_answer; auto.
  - eapply Forall_impl; [exact Hl|]. intros x. unfold in_memory. by rewrite lenZ_answer.
Qed.

(** After all requests of a list were answered. *)
Lemma slice_answer_all mem l o n :
  Forall (in_memory mem) l → 0 ≤ o → 0 ≤ n → o + n ≤ lenZ mem →
  Forall (λ c, o + n ≤ buffer c ∨ buffer c + SOCKET_BUFFER_LENGTH ≤ o) l →
  slice (answer_all mem l) o n = slice mem o n.
Proof.
  unfold answer_all. revert mem. induction l as [|c l IH]; intros mem Hm Ho Hn Hon Hd; [done|].
  apply Forall_cons_1 in Hm as [Hm1 Hm2], Hd as [Hd1 Hd2]. cbn [foldl].
  rewrite IH; rewrite ?lenZ_answer by done; try done.
  - by apply slice_answer.
  - eapply Forall_impl; [exact Hm2|]. intros x. unfold in_memory. by rewrite lenZ_answer.
Qed.

Lemma zeroed_replies mem l :
  Forall (in_memory mem) l → ForallOrdPairs apart l →
  Forall (λ c, entry_key mem c = null_key →
    slice (answer_all mem l) (buffer c) SOCKET_BUFFER_LENGTH = zeros SOCKET_BUFFER_LENGTH) l.
Proof.
  pose proof socket_buffer_pos as HS.
  revert mem. induction l as [|c l IH]; intros mem Hm Ha; [constructor|].
  apply Forall_cons_1 in Hm as [Hm1 Hm2]. inversion Ha as [|? ? Ha1 Ha2]; subst.
  destruct (rest_after_answer mem c l Hm1 Hm2 Ha1) as [Hk Hin].
  unfold answer_all in *. cbn [foldl]. constructor.
  - intros En. destruct Hm1 as [Hlo Hhi] eqn:Em.
    rewrite slice_answer_all; rewrite ?lenZ_answer by done; try done.
    unfold answer, zero_buffer. rewrite decide_True by done.
    apply slice_splice_same; rewrite ?lenZ_zeros by lia; lia.
  - specialize (IH (answer mem c) Hin Ha2). rewrite Forall_forall in Hk, IH |- *.
    intros x Hx En. apply IH; [done|]. by rewrite Hk.
Qed.

End requests_of_a_batch.

(** ** The main thread's pass over a batch *)

Section batch_run.
Context {cfg : Config} {ic : IndexConfig cfg} {F : Type} `{FilterLike F}.
Context (junk : ConnectionRequest) (memory : Z → Content) (env : Environment).
Context (HV : 0 ≤ VALUE_LENGTH) (HP : 1 ≤ PAGE_SIZE < 2 ^ 31).
Context (batch readb : Z) (base base_r : BaseRequest).
Context (Hbatch : batch ≠ 0) (Hreadb : readb ≠ 0) (Hne : batch ≠ readb).
Implicit Types (s : Server (F := F)) (pool rp : ReadWritePool).

Abbreviation heap_of s := (batches_heap (sv_tree s)).

(** The entry of the read batch for [c]. *)
Definition read_entry (c : ConnectionRequest) : ConnectionRequest :=
  MkConnectionRequest (MkBaseRequest READ) readb (client_sock_fd c) (buffer c).

Definition with_data pool (data : list ConnectionRequest) : ReadWritePool :=
  MkReadWritePool data (rw_length pool) (num_sent pool) (present_in_level pool).

Lemma with_data_same pool : with_data pool (rw_data pool) = pool.
Proof. by destruct pool. Qed.

(** The main thread works on [batch], whose pool is [pool]; the read batch
    holds [rp]. *)
Record serving s pool rp : Prop := {
  sg_inv : server_inv s;
  sg_batch : heap_of s !! batch = Some (MkRequestBatch base (readwrite_pool pool));
  sg_read : heap_of s !! readb = Some (MkRequestBatch base_r (readwrite_pool rp));
  sg_readb : sv_read_batch s = readb;
  sg_pool : pool_inv (sv_mem s) readb rp;
  sg_entries : Forall (in_memory (sv_mem s)) (entries rp)
}.

(** What no pass over a batch touches. *)
Definition undisturbed s s' : Prop :=
  sv_replies s' = sv_replies s ∧ sv_memtables s' = sv_memtables s ∧
  ∀ p, p ≠ batch → p ≠ readb → heap_of s' !! p = heap_of s !! p.

#[local] Instance undisturbed_preorder : PreOrder undisturbed.
Proof.
  split; [by intros s|]. intros s1 s2 s3 (? & ? & Ha) (? & ? & Hb).
  split_and!; try congruence. intros p Hp1 Hp2. by rewrite Hb, Ha.
Qed.

(** A pass from [s] to [s'] over the requests [l]. *)
Definition passed s s' rp rp' (l : list ConnectionRequest) : Prop :=
  sv_mem s' = answer_all (sv_mem s) l ∧
  entries rp' ≡ₚ (read_entry <$> handed_on (sv_mem s) l) ++ entries rp ∧
  rw_length rp' = rw_length rp + lenZ (handed_on (sv_mem s) l) ∧
  undisturbed s s'.

Lemma get_pool_some (t : TreeState (F := F)) p b pool :
  p ≠ 0 → batches_heap t !! p = Some (MkRequestBatch b (readwrite_pool pool)) →
  get_pool t p = Ret (MkRequestBatch b (readwrite_pool pool), pool).
Proof.
  intros Hp E. unfold get_pool, deref_batch. by rewrite (proj2 (Z.eqb_neq _ _) Hp), E.
Qed.

Lemma batch_le_page : BATCH_NUM_REQUESTS ≤ PAGE_SIZE.
Proof.
  pose proof ic_key. unfold BATCH_NUM_REQUESTS, SOCKET_BUFFER_LENGTH.
  apply Z.div_le_upper_bound; nia.
Qed.

Lemma in_memory_readable m c : in_memory m c → readable m c.
Proof. unfold in_memory, readable, SOCKET_BUFFER_LENGTH. lia. Qed.

(** A read that goes on. *)
Lemma forward_read_ok s pool rp data1 c data2 :
  serving s pool rp → rw_data pool = data1 ++ c :: data2 → in_memory (sv_mem s) c →
  rw_length rp + 1 < BATCH_NUM_REQUESTS →
  ∃ s' rp', forward_read junk memory env s batch (lenZ data1) c = Ret s' ∧
    serving s' (with_data pool (data1 ++
      MkConnectionRequest (conn_base c) (req_batch_ref c) (-1) (buffer c) :: data2)) rp' ∧
    entries rp' ≡ₚ read_entry c :: entries rp ∧ rw_length rp' = rw_length rp + 1 ∧
    sv_mem s' = sv_mem s ∧ undisturbed s s'.
Proof.
  intros [Hinv Hb Hr Hrb Hpi Hall] Hd Hc Hlt. pose proof batch_le_page.
  destruct (insert_read_write_pool_inv (sv_mem s) junk ic_key HP rp (buffer c) (client_sock_fd c)
              READ readb Hpi) as (rp' & Ei & Hpi' & Hperm);
    [by apply in_memory_readable|lia|].
  assert (Hlen : rw_length rp' = rw_length rp + 1).
  { apply Permutation_length in Hperm. destruct Hpi as (Hw & _), Hpi' as (Hw' & _).
    cbn [length] in Hperm. unfold entries in Hperm. rewrite !length_take in Hperm.
    unfold pool_wf, lenZ in *. lia. }
  unfold forward_read. rewrite Hrb. unfold deref_batch at 1.
  rewrite (proj2 (Z.eqb_neq _ _) Hreadb), Hr. cbn [mbind exec_bind].
  unfold batch_insert_read_write. cbn [pool_of content mbind exec_bind rb_base].
  rewrite Ei. cbn [mbind exec_bind].
  rewrite (get_pool_some _ readb base_r rp') by (done || apply lookup_insert_eq).
  cbn [mbind exec_bind]. rewrite Hlen, (proj2 (Z.eqb_neq _ _)) by lia. cbn [mbind exec_bind].
  rewrite (get_pool_some _ batch base pool) by (done || by cbn; rewrite lookup_insert_ne).
  cbn [mbind exec_bind]. unfold remove_via_index. rewrite Hd, getZ_middle. cbn [mbind exec_bind].
  rewrite setZ_middle. cbn [mbind exec_bind rb_base]. do 2 eexists. split; [done|].
  split; [|split_and!; try done].
  - split; cbn.
    + done.
    + apply lookup_insert_eq.
    + by rewrite lookup_insert_ne, lookup_insert_eq.
    + done.
    + done.
    + rewrite Hperm. by constructor.
  - split_and!; [done..|]. cbn. intros p Hp1 Hp2. by rewrite !lookup_insert_ne.
Qed.

(** One request. *)
Lemma serve_one s pool rp data1 c data2 :
  serving s pool rp → rw_data pool = data1 ++ c :: data2 → in_memory (sv_mem s) c →
  answerable (sv_mem s) c → Forall (apart c) (entries rp) →
  rw_length rp + lenZ (handed_on (sv_mem s) [c]) < BATCH_NUM_REQUESTS →
  ∃ s' rp', process_request junk memory env batch s (lenZ data1) = Ret s' ∧
    serving s' (with_data pool (data1 ++ settle (sv_mem s) c :: data2)) rp' ∧
    passed s s' rp rp' [c].
Proof.
  intros Hs Hd Hc Hans Hap Hlt. pose proof Hs as [Hinv Hb Hr Hrb Hpi Hall].
  destruct (process_request_cases junk memory HV env batch s (lenZ data1) _ pool c Hinv
              (get_pool_some _ batch base pool Hbatch Hb)) as (si & Hn & ->);
    [by rewrite Hd, getZ_middle|apply Hc..|].
  assert (Hs1 : serving (set_index s si) pool rp).
  { split; try done. by destruct Hinv as (_ & ? & ?). }
  unfold passed, settle, answer_all. cbn [foldl]. rewrite handed_on_cons in Hlt |- *.
  change (request_key s c) with (entry_key (sv_mem s) c). unfold answer.
  change (handed_on _ []) with (@nil ConnectionRequest) in *.
  destruct (decide (entry_key (sv_mem s) c = null_key)) as [En|En].
  - eexists _, rp. split; [done|]. split; [|split_and!; [done..|apply eq_sym, Z.add_0_r|done]].
    assert (Hm : sv_mem (set_mem (set_index s si)
        (splice (sv_mem s) (buffer c) (zeros SOCKET_BUFFER_LENGTH))) = answer (sv_mem s) c).
    { unfold answer. by rewrite decide_True. }
    pose proof (lenZ_answer ic_key HV _ _ Hc) as Hl. destruct Hinv as (_ & Hv & Hmt).
    split; try done; rewrite ?Hm.
    + split_and!; [done| |done]. rewrite Hm. unfold answer, zero_buffer.
      rewrite decide_True by done. apply valid_bytes_splice; [done|apply valid_bytes_zeros].
    + by rewrite <- Hd, with_data_same.
    + apply (pool_inv_ext (sv_mem s)); [done| |done].
      apply Forall_forall. intros x Hx. rewrite Forall_forall in Hap, Hall.
      apply entry_key_answer; auto using ic_key.
    + eapply Forall_impl; [exact Hall|]. intros x. unfold in_memory. by rewrite Hl.
  - destruct Hans as [?|Hread]; [done|]. rewrite (decide_True _ _ Hread).
    change (lenZ [c]) with 1 in *.
    destruct (forward_read_ok (set_index s si) pool rp data1 c data2 Hs1 Hd Hc Hlt)
      as (s' & rp' & E & Hs' & Hperm & Hlen & Hm & Hu).
    exists s', rp'. by split_and!.
Qed.

Lemma apart_read_entry x c rp rp' (mem : bytes) :
  apart c x → entries rp' ≡ₚ (read_entry <$> handed_on mem [c]) ++ entries rp →
  Forall (apart x) (entries rp) → Forall (apart x) (entries rp').
Proof.
  intros Ha -> Hx. rewrite Forall_app. split; [|done]. rewrite handed_on_cons, app_nil_r.
  case_decide; [constructor|]. apply Forall_singleton. unfold apart, read_entry in *. cbn. lia.
Qed.

Lemma passed_trans s s1 s2 rp rp1 rp2 c l :
  passed s s1 rp rp1 [c] → passed s1 s2 rp1 rp2 l →
  Forall (λ x, entry_key (sv_mem s1) x = entry_key (sv_mem s) x) l → passed s s2 rp rp2 (c :: l).
Proof.
  intros (Hm1 & Hp1 & Hl1 & Hu1) (Hm2 & Hp2 & Hl2 & Hu2) Hk.
  rewrite (handed_on_ext (sv_mem s)) in Hp2, Hl2 by done.
  rewrite handed_on_cons, app_nil_r in Hp1, Hl1. unfold passed. rewrite handed_on_cons. split_and!.
  - by rewrite Hm2, Hm1.
  - rewrite Hp2, Hp1, fmap_app, !(assoc_L (++)). by rewrite (Permutation_app_comm (_ <$> handed_on _ _)).
  - rewrite Hl2, Hl1, lenZ_app. lia.
  - by transitivity s1.
Qed.

(** All requests of a list. *)
Lemma serve_all todo s pool rp data1 data2 :
  serving s pool rp → rw_data pool = data1 ++ todo ++ data2 →
  Forall (in_memory (sv_mem s)) todo → Forall (answerable (sv_mem s)) todo →
  ForallOrdPairs apart todo → Forall (λ c, Forall (apart c) (entries rp)) todo →
  rw_length rp + lenZ (handed_on (sv_mem s) todo) < BATCH_NUM_REQUESTS →
  ∃ s' rp', foldM (process_request junk memory env batch) (seqZ (lenZ data1) (lenZ todo)) s = Ret s' ∧
    serving s' (with_data pool (data1 ++ (settle (sv_mem s) <$> todo) ++ data2)) rp' ∧
    passed s s' rp rp' todo.
Proof.
  revert s pool rp data1. induction todo as [|c todo IH]; intros s pool rp data1 Hs Hd Hm Hans Hap Hapr Hlt.
  { exists s, rp. split; [done|]. split.
    - change (settle (sv_mem s) <$> []) with (@nil ConnectionRequest).
      by rewrite <- Hd, with_data_same.
    - split_and!; [done..|apply eq_sym, Z.add_0_r|done]. }
  apply Forall_cons_1 in Hm as [Hm1 Hm2], Hans as [Hans1 Hans2], Hapr as [Hapr1 Hapr2].
  inversion Hap as [|? ? Hap1 Hap2]; subst. clear Hap.
  rewrite handed_on_cons, lenZ_app in Hlt. pose proof (lenZ_nonneg (handed_on (sv_mem s) todo)).
  destruct (serve_one s pool rp data1 c (todo ++ data2)) as (s1 & rp1 & E1 & Hs1 & Hp1);
    [done..|rewrite handed_on_cons, app_nil_r; lia|].
  pose proof Hp1 as (Hmem & Hperm & Hlen & _).
  change (answer_all (sv_mem s) [c]) with (answer (sv_mem s) c) in Hmem.
  rewrite handed_on_cons, app_nil_r in Hlen.
  destruct (rest_after_answer ic_key HV (sv_mem s) c todo Hm1 Hm2 Hap1) as [Hk Hin].
  rewrite <- Hmem in Hk, Hin.
  destruct (IH s1 _ rp1 (data1 ++ [settle (sv_mem s) c]) Hs1) as (s' & rp' & E' & Hs' & Hp').
  - by rewrite <- app_assoc.
  - done.
  - rewrite Forall_forall in Hans2, Hk |- *. intros x Hx. unfold answerable.
    rewrite Hk by done. by apply Hans2.
  - done.
  - rewrite Forall_forall in Hapr2, Hap1 |- *. intros x Hx. eapply apart_read_entry; eauto.
  - rewrite (handed_on_ext (sv_mem s)) by done. lia.
  - exists s', rp'. rewrite (settle_ext (sv_mem s)), <- app_assoc in Hs' by done.
    split_and!; [|exact Hs'|by eapply passed_trans].
    pose proof (lenZ_nonneg todo). rewrite lenZ_cons, seqZ_cons by lia. cbn [foldM].
    rewrite E1. cbn [mbind exec_bind]. rewrite <- E', lenZ_app. do 2 f_equal. lia.
Qed.

Lemma process_batch_ok s pool rp l rest :
  serving s pool rp → rw_data pool = l ++ rest → rw_length pool = lenZ l →
  Forall (in_memory (sv_mem s)) l → Forall (answerable (sv_mem s)) l →
  ForallOrdPairs apart l → Forall (λ c, Forall (apart c) (entries rp)) l →
  rw_length rp + lenZ (handed_on (sv_mem s) l) < BATCH_NUM_REQUESTS →
  ∃ s' rp', process_batch junk memory env batch s = Ret (send_reply s' batch) ∧
    serving s' (with_data pool ((settle (sv_mem s) <$> l) ++ rest)) rp' ∧
    passed s s' rp rp' l.
Proof.
  intros Hs Hd Hl Hm Hans Hap Hapr Hlt.
  destruct (serve_all l s pool rp [] rest) as (s' & rp' & E & Hs' & Hp); [done..|].
  unfold process_batch. rewrite (get_pool_some _ batch base pool) by (done || apply Hs).
  cbn [mbind exec_bind]. rewrite Hl. change (lenZ []) with 0 in E. rewrite E.
  by exists s', rp'.
Qed.

End batch_run.

(** ** The network thread's answer *)

(** The requests to send for the entries of [l] with a null key. *)
Fixpoint null_replies {cfg : Config} (mem : bytes) (p i : Z) (l : list ConnectionRequest)
    : list NetSqe :=
  match l with
  | [] => []
  | c :: l' =>
      (if decide (entry_key mem c = null_key)
       then [sqe_send (client_sock_fd c) (buffer c) SOCKET_BUFFER_LENGTH (ud_entry p i)]
       else []) ++ null_replies mem p (i + 1) l'
  end.

Lemma sends_of_settled {cfg : Config} mem p i l :
  Forall (λ c, client_sock_fd c ≠ -1) l →
  sends_from p i (settle mem <$> l) = null_replies mem p i l ∧
  dead_count (settle mem <$> l) = lenZ (handed_on mem l).
Proof.
  intros Hl. revert i. induction Hl as [|c l Hc _ IH]; intros i; [done|].
  destruct (IH (i + 1)) as [IH1 IH2]. rewrite fmap_cons, dead_count_cons, handed_on_cons, lenZ_app.
  cbn [sends_from null_replies]. rewrite IH1, IH2. unfold settle. case_decide.
  - by rewrite (proj2 (Z.eqb_neq _ _) Hc).
  - done.
Qed.

(** The network thread's view of what the main thread left in memory. *)
Definition share {F : Type} (s : Server (F := F)) (net : Net) : Net :=
  set_heap (batches_heap (sv_tree s)) (set_net_mem (sv_mem s) net).

Section round.
Context {cfg : Config} {ic : IndexConfig cfg} {F : Type} `{FilterLike F}.
Context (junk : ConnectionRequest) (memory : Z → Content) (sq_entries : Z).
Context (HV : 0 ≤ VALUE_LENGTH) (HP : 1 ≤ PAGE_SIZE < 2 ^ 31).

(** C6: A client batch from the main thread's work on it to the network
    thread's answer.  When its requests are reads or ask for the null key, use
    separate buffers, and the read batch has room, the main thread returns: it
    moves every request with a real key to the read batch, which keeps its
    invariant, and sends the batch back.  The network thread then prepares
    exactly one send request per request with a null key, in order, with a
    cleared buffer, sends nothing to the other clients, and deletes the batch
    exactly when it has nothing to answer. *)
Theorem client_batch_round (env : Environment) (batch readb : Z) (base base_r : BaseRequest)
    (s : Server (F := F)) (net : Net) pool rp l rest pre cell res more
    (Hbatch : batch ≠ 0) (Hreadb : readb ≠ 0) (Hne : batch ≠ readb)
    (Hty : req_type base = READ ∨ req_type base = WRITE)
    (Hs : serving batch readb base base_r s pool rp)
    (Hd : rw_data pool = l ++ rest) (Hl : rw_length pool = lenZ l) (Hsent : num_sent pool = 0)
    (Hl0 : 0 < lenZ l < 2 ^ 32) (Hwait : Forall (λ c, client_sock_fd c ≠ -1) l)
    (Hm : Forall (in_memory (sv_mem s)) l) (Hans : Forall (answerable (sv_mem s)) l)
    (Hap : ForallOrdPairs apart l) (Hapr : Forall (λ c, Forall (apart c) (entries rp)) l)
    (Hroom : rw_length rp + lenZ (handed_on (sv_mem s) l) < BATCH_NUM_REQUESTS)
    (Hpre : preparing net pre cell) (Hsq : lenZ pre + lenZ l ≤ sq_entries) :
  ∃ s' rp' net' tail,
    process_batch junk memory env batch s = Ret s' ∧
    sv_replies s' = sv_replies s ++ [batch] ∧
    batches_heap (sv_tree s') !! readb = Some (MkRequestBatch base_r (readwrite_pool rp')) ∧
    pool_inv (sv_mem s') readb rp' ∧
    entries rp' ≡ₚ (read_entry readb <$> handed_on (sv_mem s) l) ++ entries rp ∧
    handle junk memory sq_entries (share s' net) (MkCqe res (ud_batch batch) more) = Ret net' ∧
    nt_slots net' = pre ++ (Some <$> null_replies (sv_mem s) batch 0 l) ++ tail ∧
    Forall (λ o, o = None ∨ o = cell) tail ∧
    Forall (λ c, entry_key (sv_mem s) c = null_key →
      slice (nt_mem net') (buffer c) SOCKET_BUFFER_LENGTH = zeros SOCKET_BUFFER_LENGTH) l ∧
    (nt_heap net' !! batch = None ↔ handed_on (sv_mem s) l = l).
Proof.
  destruct (process_batch_ok junk memory env HV HP batch readb base base_r Hbatch Hreadb Hne
              s pool rp l rest Hs Hd Hl Hm Hans Hap Hapr Hroom)
    as (s' & rp' & E & [Hinv Hb Hr _ Hpi _] & Hmem & Hperm & _ & Hrep & _).
  set (pool' := with_data pool ((settle (sv_mem s) <$> l) ++ rest)) in *.
  assert (He : entries pool' = settle (sv_mem s) <$> l).
  { unfold entries, pool'. cbn. rewrite Hl. apply take_app_length'. rewrite length_fmap.
    unfold lenZ. lia. }
  destruct (exists_last (l := settle (sv_mem s) <$> l)) as (l1 & c1 & El).
  { destruct l; [change (lenZ []) with 0 in Hl0; lia|done]. }
  destruct (sends_of_settled (sv_mem s) batch 0 l Hwait) as [Hsends Hdead].
  assert (Hlen : lenZ (handed_on (sv_mem s) l) ≤ lenZ l).
  { unfold handed_on, lenZ. pose proof (length_filter (λ c, entry_key (sv_mem s) c ≠ null_key) l).
    lia. }
  destruct (completed_batch_ok junk memory sq_entries batch (share (send_reply s' batch) net)
              base pool' pre cell l1 c1 res more) as (net' & Eh & Hel & Hsl & Hhp);
    [done|done|done|by rewrite He| |cbn; lia|cbn; lia|cbn; lia|].
  { cbn. rewrite Hl, lenZ_app. unfold lenZ. rewrite length_fmap. lia. }
  rewrite He, Hsends in Hsl. rewrite He, Hdead in Hhp. cbn [num_sent rw_length pool' with_data] in Hhp.
  exists (send_reply s' batch), rp', net', (if client_sock_fd c1 =? -1
    then [open_cell (null_replies (sv_mem s) batch 0 l) cell] else []).
  destruct Hel as (_ & Hnm & _). split_and!; try done.
  - cbn. by rewrite Hrep.
  - destruct (client_sock_fd c1 =? -1); [|constructor]. rewrite Forall_singleton. unfold open_cell.
    destruct (null_replies _ _ _ _); auto.
  - rewrite Hnm. cbn. rewrite Hmem. by apply (zeroed_replies ic_key HV).
  - rewrite Hhp, Hsent, Hl, Z.add_0_l, <- handed_on_full.
    by destruct (decide (lenZ (handed_on (sv_mem s) l) = lenZ l)).
Qed.

End round.

(** ** Example: a read of key 7 and one of the null key *)

Definition round_requests : list ConnectionRequest :=
  [MkConnectionRequest (MkBaseRequest READ) 1 5 0; MkConnectionRequest (MkBaseRequest READ) 1 6 8].

Definition round_server : Server (F := Filter) :=
  MkServer [1; 2; 3; 4; 5; 7; 1; 1; 1; 2; 3; 4; 5; 0; 2; 2] [] (@new_SparseIndex cmake_config)
    (MkTreeState [] {[1 := demo_batch round_requests; 2 := demo_batch []]} 3) 2 3 false [].

Definition round_net : Net :=
  MkNet (MkConnectionPool [] 0) [] ∅ 9 8 7 [None] (Some 0%nat).

Lemma round_serving :
  @serving cmake_config Filter 1 2 (MkBaseRequest READ) (MkBaseRequest READ) round_server
    (MkReadWritePool round_requests 2 0 false) (MkReadWritePool [] 0 0 false).
Proof.
  split; try done. apply new_server_inv; [|done]. by repeat (constructor; [lia|]).
Qed.

Lemma client_batch_round_witness :
  ∃ s' rp' net',
    process_batch (cfg := cmake_config) (F := Filter) (demo_request READ) no_memory demo_env 1
      round_server = Ret s' ∧ sv_replies s' = [1] ∧
    entries rp' ≡ₚ [MkConnectionRequest (MkBaseRequest READ) 2 5 0] ∧
    handle (cfg := cmake_config) (demo_request READ) no_memory 64 (share s' round_net)
      (MkCqe 0 (ud_batch 1) true) = Ret net' ∧
    nt_heap net' !! 1 ≠ None.
Proof.
  destruct (@client_batch_round cmake_config _ Filter _ (demo_request READ) no_memory 64
    ltac:(by vm_compute) ltac:(by vm_compute) demo_env 1 2 (MkBaseRequest READ) (MkBaseRequest READ)
    round_server round_net (MkReadWritePool round_requests 2 0 false)
    (MkReadWritePool [] 0 0 false) round_requests [] [] None 0 true)
    as (s' & rp' & net' & tail & Hs & Hr & _ & _ & Hp & Hh & _ & _ & _ & Hd); try done.
  - by left.
  - exact round_serving.
  - by repeat constructor.
  - repeat constructor; by vm_compute.
  - by repeat (constructor; [by right|]).
  - constructor; [constructor; [by left|constructor]|repeat constructor].
  - repeat constructor.
  - exists s', rp', net'. split_and!; [exact Hs|exact Hr|exact Hp|exact Hh|].
    intros E. apply Hd in E. vm_compute in E. discriminate E.
Defined.
