(* ===== verification/Threads.v ===== *)
(** * The threads of a running server

    The main thread ([Server.v]), the network thread ([Network.v]) and the
    workers ([Worker.v]) as one transition system.  They share the socket
    buffers, the batch heap and the levels, which a thread finds as the last
    one left them; a step is one message of the main thread, one round of the
    network thread, one table's turn of a worker in its first loop or in its
    second, or a change of the socket buffers by the kernel.

    What the threads find on their rings is arbitrary.  In particular a worker
    may find any completion in its second loop: the message with the descriptor
    of the network ring, which it has not marked as seen, messages of its
    first loop that were still under way, and completions its first loop left
    in the rings of the tables. *)

From S2P Require Import Prelude Config Requests SparseIndex MemTable Guards BufferQueue.
From S2P Require Import CacheHelper WaitQueue Filter RequestBatch LevelInfo Distribute.
From S2P Require Import DistributeProofs Server Descent Worker Init WorkerInit Network.

(** ** Properties of all tables *)

Section all_tables.
Context {F : Type}.

Definition every_table (P : SSTableInfo → Prop) (levels : list (LevelInfo F)) : Prop :=
  Forall (λ lv, Forall P (sstable_infos lv)) levels.

Lemma every_table_get P levels level i t :
  every_table P levels → get_table levels level i = Ret t → P t.
Proof.
  intros Hall (lv & [_ Hlv]%getZ_Ret & [_ Ht]%getZ_Ret)%bind_Ret_inv.
  eapply Forall_lookup_1; [|exact Ht]. by eapply (Forall_lookup_1 _ _ _ _ Hall).
Qed.

Lemma every_table_intro P levels :
  (∀ level i t, get_table levels level i = Ret t → P t) → every_table P levels.
Proof.
  intros Hall. apply Forall_lookup. intros l lv Hlv. apply Forall_lookup. intros i t Ht.
  apply (Hall (Z.of_nat l) (Z.of_nat i)). unfold get_table.
  rewrite (proj2 (getZ_Ret levels (Z.of_nat l) lv)) by (rewrite Nat2Z.id; split; [lia|done]).
  cbn. apply getZ_Ret. rewrite Nat2Z.id. split; [lia|done].
Qed.

Lemma every_table_update P levels level i t levels' :
  every_table P levels → update_table levels level i (λ _, Ret t) = Ret levels' →
  P t → every_table P levels'.
Proof.
  intros Hall E Ht. apply (update_at_Forall _ _ _ _ _ E Hall). intros lv lv' Hlv Elv.
  apply bind_Ret_inv in Elv as (ts & Ets & [= <-]).
  apply (update_at_Forall _ _ _ _ _ Ets Hlv). by intros ? ? _ [= <-].
Qed.

Lemma every_table_buffer_queue P levels level i g levels' :
  every_table P levels → update_buffer_queue levels level i g = Ret levels' →
  every_table P levels'.
Proof.
  intros Hall E. apply (update_at_Forall _ _ _ _ _ E Hall). intros lv lv' Hlv Elv.
  by apply bind_Ret_inv in Elv as (qs & _ & [= <-]).
Qed.

End all_tables.

(** ** A worker without work *)

(** The table has no batch to work on, waits for nothing and holds no batch:
    its pointer is null or was never assigned, and batches have positive
    addresses. *)
Definition idle (t : SSTableInfo) : Prop :=
  WaitQueue.front (req_batch_wq t) = 0 ∧ waiting_on_io t = false ∧ cur_req_batch t ≤ 0.

(** Batches have positive addresses. *)
Definition addresses_positive (h : gmap Z RequestBatch) : Prop := ∀ p, p ∈ dom h → 0 < p.

Lemma addresses_positive_subseteq h h' :
  dom h' ⊆ dom h → addresses_positive h → addresses_positive h'.
Proof. intros Hsub Hh p Hp. by apply Hh, Hsub. Qed.

Lemma no_batch_at h p b : addresses_positive h → p ≤ 0 → deref_batch h p ≠ Ret b.
Proof.
  intros Hh Hp. unfold deref_batch. destruct (p =? 0); [done|].
  destruct (h !! p) as [b'|] eqn:E; [|done]. apply elem_of_dom_2, Hh in E. lia.
Qed.

Lemma give_old_idle n limit given q t q' t' k :
  give_old n limit given q t = Ret (q', t', k) → idle t → idle t'.
Proof.
  revert given q t. induction n as [|n IH]; intros given q t E Ht; cbn [give_old] in E.
  { by injection E as <- <- <-. }
  destruct (given <? limit); [|by injection E as <- <- <-].
  apply bind_Ret_inv in E as (b & _ & E). apply bind_Ret_inv in E as (q1 & _ & E).
  by apply IH in E.
Qed.

Section idle.
Context {cfg : Config}.

Lemma return_old_idle env q prev t q' prev' t' :
  return_old env q prev t = Ret (q', prev', t') → idle t → idle t'.
Proof.
  unfold return_old. intros E Ht. destruct (_ =? 0) in E; [by injection E as <- <- <-|].
  apply bind_Ret_inv in E as (p1 & _ & E). apply bind_Ret_inv in E as ([[p2 t1] k] & Eg & E).
  apply bind_Ret_inv in E as (c & _ & E). injection E as <- <- <-.
  by apply give_old_idle in Eg.
Qed.

Lemma idle_turn_idle env level q prev t q' prev' t' z :
  idle_turn env level q prev t = Ret (q', prev', t', z) → idle t → idle t'.
Proof.
  unfold idle_turn. intros E Ht. destruct (0 <? level); [|by injection E as <- <- <- <-].
  destruct (if is_single_thread _ then _ else _) as [[ok v] my_zero].
  destruct ok; [|by injection E as <- <- <- <-].
  destruct (num_new_buffers _ =? 0).
  - apply bind_Ret_inv in E as ([[q2 p2] t2] & Er & E). injection E as <- <- <- <-.
    by apply return_old_idle in Er.
  - apply bind_Ret_inv in E as ([q2 p2] & _ & E). by injection E as <- <- <- <-.
Qed.

End idle.

Section idle_worker.
Context {cfg : Config} {F : Type} `{FilterLike F}.
Context (junk : ConnectionRequest) (memory : Z → Content).
Implicit Types (w : Worker (F := F)).

(** Only a queue of one thread can be popped while it is empty, and answers
    null. *)
Lemma pop_empty q q' b :
  WaitQueue.front q = 0 → WaitQueue.pop_front q = Ret (q', b) → q' = q ∧ b = 0.
Proof.
  intros Hf E. unfold pop_front in E. destruct (wq_is_single_thread _).
  - rewrite Hf in E. by injection E as <- <-.
  - rewrite (proj2 (Z.leb_le 0 _)) in E by apply u32_range. unfold unlink_front, deref in E.
    cbn [add_size WaitQueue.front WaitQueue.heap] in E. by rewrite Hf in E.
Qed.

(** Everything but the levels, where no table has a batch, and the flag
    [is_practically_full]. *)
Definition quiet w w' : Prop :=
  every_table idle (wk_levels w') ∧ io_sqes (wk_io w') = io_sqes (wk_io w) ∧
  io_prepared (wk_io w') = io_prepared (wk_io w) ∧
  io_mem (wk_io w') = io_mem (wk_io w) ∧
  batches_heap (io_tree (wk_io w')) = batches_heap (io_tree (wk_io w)) ∧
  next_batch (io_tree (wk_io w')) = next_batch (io_tree (wk_io w)).

Lemma quiet_trans w1 w2 w3 : quiet w1 w2 → quiet w2 w3 → quiet w1 w3.
Proof.
  intros (_ & ? & ? & ? & ? & ?) (? & ? & ? & ? & ? & ?).
  split_and!; congruence || done.
Qed.

Lemma put_table_idle w level i t w' :
  put_table w level i t = Ret w' → idle t → every_table idle (wk_levels w) → quiet w w'.
Proof.
  unfold put_table. intros E Ht Hall. apply bind_Ret_inv in E as (levels & E & [= <-]).
  split; [|done]. by eapply every_table_update.
Qed.

(** The turn of a table without a batch leaves all tables without one, and
    prepares no request. *)
Lemma worker_turn_idle env w n w' :
  worker_turn junk memory env w n = Ret w' → every_table idle (wk_levels w) → quiet w w'.
Proof.
  unfold worker_turn. intros E Hall. apply bind_Ret_inv in E as (t & Ht & E).
  destruct (every_table_get _ _ _ _ _ Hall Ht) as (Hf & Hw & _). rewrite Hw in E.
  apply bind_Ret_inv in E as (q1 & Hq1 & E).
  assert (Hf1 : WaitQueue.front q1 = 0).
  { destruct (wq_is_single_thread _); [by injection Hq1 as <-|].
    apply bind_Ret_inv in Hq1 as ([v z] & _ & [= <-]). exact Hf. }
  apply bind_Ret_inv in E as ([q2 batch] & Hpop & E).
  destruct (pop_empty _ _ _ Hf1 Hpop) as [-> ->]. apply bind_Ret_inv in E as (w1 & E1 & E).
  assert (Ht1 : idle (set_taken q1 0 t)) by (by split).
  assert (Hw1 : quiet w w1) by (by apply (put_table_idle _ _ _ _ _ E1)).
  apply (quiet_trans w w1); [done|]. destruct Hw1 as [Hall1 _]. clear E1.
  change (negb (0 =? 0)) with false in E. cbn iota in E.
  destruct (negb (already_waited _)); [by apply put_table_idle in E|].
  destruct (0 <? _) in E; [|by injection E as <-].
  apply bind_Ret_inv in E as (own & _ & E). apply bind_Ret_inv in E as (prev & _ & E).
  apply bind_Ret_inv in E as ([[[own' prev'] t2] z] & Ei & E).
  apply bind_Ret_inv in E as (l1 & El1 & E). apply bind_Ret_inv in E as (l2 & El2 & E).
  apply idle_turn_idle in Ei; [|done].
  apply put_table_idle in E; [exact E|done|].
  eapply every_table_buffer_queue; [|exact El2]. by eapply every_table_buffer_queue; [|exact El1].
Qed.

(** A finished read of a table without a batch follows a pointer to none. *)
Lemma read_table_idle env w n level i w' :
  every_table idle (wk_levels w) → addresses_positive (batches_heap (io_tree (wk_io w))) →
  read_table junk memory env w n level i ≠ Ret w'.
Proof.
  intros Hall Hh E. unfold read_table, try_sstable_tree_read_in_memory in E.
  apply bind_Ret_inv in E as (io & E & _). apply bind_Ret_inv in E as (t & Ht & E).
  apply bind_Ret_inv in E as (rb & Hrb & _).
  destruct (every_table_get _ _ _ _ _ Hall Ht) as (_ & _ & Hb). by eapply no_batch_at.
Qed.

Lemma worker_completion_idle env w n chunks w' :
  worker_completion junk memory env w n chunks = Ret w' → every_table idle (wk_levels w) →
  addresses_positive (batches_heap (io_tree (wk_io w))) → quiet w w'.
Proof.
  unfold worker_completion. intros E Hall Hh. apply bind_Ret_inv in E as (t & Ht & E).
  pose proof (every_table_get _ _ _ _ _ Hall Ht) as Hidle. destruct chunks as [|c chunks].
  - apply bind_Ret_inv in E as (w1 & E1 & [= <-]). by apply put_table_idle in E1.
  - apply bind_Ret_inv in E as (h & _ & E). apply bind_Ret_inv in E as (w1 & E1 & E).
    apply put_table_idle in E1 as (Hall1 & _ & _ & _ & Hh1 & _); [|done|done].
    apply read_table_idle in E; [done|done|by rewrite Hh1].
Qed.

(** Whatever completion is found before it. *)
Lemma worker_step_idle env w x w' :
  worker_step junk memory env w x = Ret w' → every_table idle (wk_levels w) →
  addresses_positive (batches_heap (io_tree (wk_io w))) → quiet w w'.
Proof.
  unfold worker_step. intros E Hall Hh. apply bind_Ret_inv in E as (w1 & E1 & E).
  assert (H1 : quiet w w1).
  { destruct (x.2) as [[n chunks]|]; [by eapply worker_completion_idle|by injection E1 as <-]. }
  apply (quiet_trans w w1); [done|]. apply worker_turn_idle in E; [done|apply H1].
Qed.

End idle_worker.

(** Start-up gives no table work: neither the marking of the guards nor a turn
    of the workers' first loops, each at its own [area] and scheduler ring. *)
Section start_up.
Context {cfg : Config} {F : Type} `{FilterLike F}.

#[local] Instance idle_stable : InitStable (λ t t', idle t → idle t').
Proof.
  split; try done; [split; [by intros t|by intros t1 t2 t3 H12 H23 H1; auto]|].
  by intros t (? & _ & ?).
Qed.

Lemma flagged_idle (levels : list (LevelInfo F)) :
  every_table idle levels → every_table idle (imap (λ i, flagged (Z.of_nat i)) levels).
Proof.
  intros Hall. apply Forall_lookup. intros l lv'. rewrite list_lookup_imap.
  destruct (levels !! l) as [lv|] eqn:Hlv; intros [= <-]. apply Forall_lookup. intros i t'. cbn.
  rewrite list_lookup_imap. destruct (sstable_infos lv !! i) as [t|] eqn:Ht; intros [= <-].
  pose proof (Forall_lookup_1 _ _ _ _ Hall Hlv) as Htabs. by apply (Forall_lookup_1 _ _ _ _ Htabs Ht).
Qed.

Lemma init_step_idle area ring (s s' : InitState (F := F)) x :
  init_step area ring s x = Ret s' → every_table idle (in_levels s) →
  every_table idle (in_levels s').
Proof.
  intros E Hs. apply every_table_intro. intros level i t' Ht'.
  destruct (init_step_kept (λ t t', idle t → idle t') _ _ _ _ _ E level i t' Ht') as (t & Ht & Himp).
  by apply Himp, (every_table_get _ _ _ _ _ Hs Ht).
Qed.

End start_up.

(** ** The main thread leaves the levels alone *)

Section main_thread.
Context {cfg : Config} {ic : IndexConfig cfg} {F : Type} `{FilterLike F}.
Context (junk : ConnectionRequest) (memory : Z → Content).
Implicit Types (s : Server (F := F)).

(** The levels and the addresses of the batches are as before. *)
Definition same_levels s s' : Prop :=
  level_infos (sv_tree s') = level_infos (sv_tree s) ∧
  next_batch (sv_tree s') = next_batch (sv_tree s) ∧
  dom (batches_heap (sv_tree s')) ⊆@{gset Z} dom (batches_heap (sv_tree s)).

Lemma get_pool_dom (t : TreeState (F := F)) p rb pool b :
  get_pool t p = Ret (rb, pool) → dom (batches_heap (set_batch t p b)) ⊆@{gset Z} dom (batches_heap t).
Proof.
  intros E. unfold get_pool in E. apply bind_Ret_inv in E as (rb' & Hrb & _).
  by apply (deref_batch_dom _ _ rb').
Qed.

Lemma forward_read_levels env s batch i c s' :
  lenZ (env_flags env) = LEVEL_FACTOR →
  forward_read junk memory env s batch i c = Ret s' → same_levels s s'.
Proof.
  intros Hfl E. unfold forward_read in E.
  apply bind_Ret_inv in E as (rb & Hrb & E). apply bind_Ret_inv in E as (rb' & _ & E).
  apply bind_Ret_inv in E as ([? pool] & _ & E). apply bind_Ret_inv in E as (t2 & Et & E).
  apply bind_Ret_inv in E as ([rb2 pool2] & Hg & E). apply bind_Ret_inv in E as (pool3 & _ & E).
  injection E as <-. destruct (_ =? _) in Et.
  2:{ injection Et as <-. split; [done|]. split; [done|]. cbn [set_tree sv_tree].
      etrans; [by eapply get_pool_dom|by apply (deref_batch_dom _ _ rb)]. }
  exfalso. eapply insert_into_wqs_no_ret; [apply ic_level|exact Hfl|exact Et].
Qed.

Lemma process_request_levels env batch s i s' :
  lenZ (env_flags env) = LEVEL_FACTOR → server_inv s →
  process_request junk memory env batch s i = Ret s' → same_levels s s'.
Proof.
  intros Hfl Hinv E. unfold process_request in E.
  apply bind_Ret_inv in E as ([rb pool] & Hpool & E). apply bind_Ret_inv in E as (c & Hc & E).
  apply bind_Ret_inv in E as (key & Hkey & E). apply bind_Ret_inv in E as ([si t] & Hsi & E).
  apply bind_Ret_inv in E as (k & Hk & E).
  destruct (lookup_in_vain _ _ _ _ _ _ Hinv Hkey Hsi Hk) as [-> _].
  destruct (memcmp k null_key =? 0).
  - by apply bind_Ret_inv in E as (m & _ & [= <-]).
  - destruct (bool_decide _).
    + rewrite Z.eqb_refl in E. cbn [mbind exec_bind] in E. by apply forward_read_levels in E.
    + destruct Hinv as (_ & _ & Hmt). rewrite getZ_out in E by (cbn; lia). done.
Qed.

Lemma process_batch_levels env batch s s' :
  lenZ (env_flags env) = LEVEL_FACTOR → server_inv s →
  process_batch junk memory env batch s = Ret s' → same_levels s s'.
Proof.
  intros Hfl Hinv E. unfold process_batch in E. apply bind_Ret_inv in E as ([rb pool] & _ & E).
  apply bind_Ret_inv in E as (s1 & E1 & [= <-]). apply (foldM_inv (λ s2, server_inv s2 ∧ same_levels s s2)) in E1; [apply E1| |done].
  intros s2 i s3 (H2 & Hl2 & Hn2 & Hd2) E3.
  destruct (process_request_levels _ _ _ _ _ Hfl H2 E3) as (Hl3 & Hn3 & Hd3).
  apply process_request_inv in E3 as [H3 _]; [|done].
  split; [done|]. split_and!; [congruence..|by etrans].
Qed.

End main_thread.

(** ** The network thread *)

Section network_thread.
Context {cfg : Config}.
Context (junk : ConnectionRequest) (memory : Z → Content) (sq_entries : Z).
Implicit Types (s : Net) (l : NetLoop).

(** It stores only bytes. *)
Lemma move_bytes s s' :
  net_move memory sq_entries s s' → valid_bytes (nt_mem s) → valid_bytes (nt_mem s').
Proof.
  destruct 1 as [| | | |s from to m E|]; try done. unfold fill_zero in E. cbn.
  destruct (to <? from); [done|]. apply store_Ret in E as (_ & _ & -> & _). intros Hm.
  apply valid_bytes_splice; [done|apply valid_bytes_zeros].
Qed.

(** It allocates at positive addresses. *)
Definition supply_positive s : Prop := addresses_positive (nt_heap s) ∧ 0 < nt_next s.

Lemma move_supply s s' :
  net_move memory sq_entries s s' → supply_positive s → supply_positive s'.
Proof.
  intros Hm [Hh Hn]. destruct Hm as [| |s h Hsub| | |s i]; try done.
  - by split; [apply (addresses_positive_subseteq _ _ Hsub)|].
  - split; [|cbn; lia]. intros p Hp. cbn in Hp. rewrite dom_insert in Hp.
    apply elem_of_union in Hp as [->%elem_of_singleton|Hp]; [done|by apply Hh].
Qed.

End network_thread.

(** ** The system *)

Section system.
Context {cfg : Config} {F : Type} `{FilterLike F}.
Context (junk : ConnectionRequest) (memory : Z → Content) (sq_entries : Z).

(** The socket buffers, the tree with its batches and the flag
    [is_practically_full] are shared and kept in [sy_main]; the copies in
    [sy_net] are what the network thread last saw.  The requests of the
    workers' second loops are kept, submitted and only prepared ones. *)
Record Sys : Type := MkSys {
  sy_main : Server (F := F);
  sy_net : NetLoop;
  sy_sqes : list Sqe;
  sy_prepared : gmap Z (list Sqe)
}.

Definition set_shared (mem : bytes) (tree : TreeState (F := F)) (full : bool) (s : Server (F := F))
    : Server :=
  MkServer mem (sv_memtables s) (sv_index s) tree (sv_read_batch s) (sv_compaction_batch s)
    full (sv_replies s).

Definition put_main (m : Server) (s : Sys) : Sys :=
  MkSys m (sy_net s) (sy_sqes s) (sy_prepared s).

(** The network thread sees what the others left. *)
Definition net_view (s : Sys) : NetLoop :=
  let n := nl_net (sy_net s) in let m := sy_main s in
  MkNetLoop (MkNet (nt_connections n) (sv_mem m) (batches_heap (sv_tree m))
               (next_batch (sv_tree m)) (nt_accept n) (nt_batch n) (nt_slots n) (nt_sqe n))
    (nl_cq (sy_net s)) (nl_submitted (sy_net s)).

Definition put_net (l : NetLoop) (s : Sys) : Sys :=
  let n := nl_net l in let m := sy_main s in
  MkSys (set_shared (nt_mem n) (MkTreeState (level_infos (sv_tree m)) (nt_heap n) (nt_next n))
           (sv_is_practically_full m) m)
    l (sy_sqes s) (sy_prepared s).

Definition worker_view (my_zero : Z) (s : Sys) : Worker (F := F) :=
  let m := sy_main s in
  MkWorker (MkIoState (sv_tree m) (sv_mem m) (sy_sqes s) (sy_prepared s))
    (sv_is_practically_full m) my_zero.

Definition put_worker (w : Worker) (s : Sys) : Sys :=
  let io := wk_io w in
  MkSys (set_shared (io_mem io) (io_tree io) (wk_is_practically_full w) (sy_main s))
    (sy_net s) (io_sqes io) (io_prepared io).

(** A worker in its first loop changes the levels. *)
Definition put_levels (levels : list (LevelInfo F)) (s : Sys) : Sys :=
  let m := sy_main s in let t := sv_tree m in
  put_main (set_tree m (MkTreeState levels (batches_heap t) (next_batch t))) s.

(** One step of the system.  A step of a worker's first loop finds the levels
    of the moment, and any page cache, descriptors and counts. *)
Inductive sys_step : Sys → Sys → Prop :=
  | step_message s m :
      valid_bytes m → lenZ m = lenZ (sv_mem (sy_main s)) →
      sys_step s (put_main (set_mem (sy_main s) m) s)
  | step_net s arrived l :
      net_round junk memory sq_entries (net_view s) arrived = Ret l →
      sys_step s (put_net l s)
  | step_main s env p m :
      lenZ (env_flags env) = LEVEL_FACTOR →
      process_batch junk memory env p (sy_main s) = Ret m →
      sys_step s (put_main m s)
  | step_start s area ring i x i' :
      in_levels i = level_infos (sv_tree (sy_main s)) →
      init_step area ring i x = Ret i' →
      sys_step s (put_levels (in_levels i') s)
  | step_worker s env my_zero x w :
      worker_step junk memory env (worker_view my_zero s) x = Ret w →
      sys_step s (put_worker w s).

End system.

Section system_proofs.
Context {cfg : Config} {ic : IndexConfig cfg} {F : Type} `{FilterLike F}.
Context (junk : ConnectionRequest) (memory : Z → Content) (sq_entries : Z).
Implicit Types (s : Sys (F := F)).

Abbreviation step := (sys_step junk memory sq_entries).

(** What every thread keeps. *)
Definition sys_inv s : Prop :=
  let t := sv_tree (sy_main s) in
  server_inv (sy_main s) ∧ every_table idle (level_infos t) ∧
  (addresses_positive (batches_heap t) ∧ 0 < next_batch t) ∧
  sy_sqes s = [] ∧ sy_prepared s = ∅.

Lemma net_step_inv s arrived l :
  net_round junk memory sq_entries (net_view s) arrived = Ret l → sys_inv s →
  sys_inv (put_net l s).
Proof.
  intros E ((Hn & Hv & Hmt) & Ht & Ha & Hq).
  split; [split_and!; [done| |done]|split; [done|split; [|done]]].
  - exact (net_round_keeps _ _ _ (λ n, valid_bytes (nt_mem n)) (net_view s) _ _
             (move_bytes _ _) Hv E).
  - exact (net_round_keeps _ _ _ supply_positive (net_view s) _ _ (move_supply _ _) Ha E).
Qed.

Lemma main_step_inv s env p m :
  lenZ (env_flags env) = LEVEL_FACTOR →
  process_batch junk memory env p (sy_main s) = Ret m → sys_inv s →
  sys_inv (put_main m s) ∧ sv_memtables m = sv_memtables (sy_main s).
Proof.
  intros Hfl E (Hm & Ht & [Ha Hn] & Hq).
  destruct (process_batch_levels _ _ _ _ _ _ Hfl Hm E) as (Hl & Hnb & Hd).
  apply process_batch_inv in E as (Hm' & Hmt & _); [|done]. split; [|done].
  unfold sys_inv. cbn. rewrite Hl, Hnb. split_and!; try done; try apply Hq.
  by apply (addresses_positive_subseteq _ _ Hd).
Qed.

Lemma worker_step_inv s env my_zero x w :
  worker_step junk memory env (worker_view my_zero s) x = Ret w → sys_inv s →
  sys_inv (put_worker w s).
Proof.
  intros E (Hm & Ht & [Ha Hn] & Hq & Hp).
  apply worker_step_idle in E as (Ht' & Hq' & Hp' & Hmem & Hheap & Hnb); [|done|done].
  unfold sys_inv, server_inv. cbn. rewrite Hq', Hp', Hmem, Hheap, Hnb.
  by split_and!; try done; try apply Hm.
Qed.

Lemma step_inv s s' :
  step s s' → sys_inv s →
  sys_inv s' ∧ sv_memtables (sy_main s') = sv_memtables (sy_main s).
Proof.
  intros Hstep Hs.
  destruct Hstep as [s m Hv Hlen|s arrived l E|s env p m Hfl E|s area ring i x i' Hi E|s env z x w E].
  - destruct Hs as ((Hn & _ & Hmt) & Hs). done.
  - by split; [apply (net_step_inv _ _ _ E)|].
  - by apply (main_step_inv _ _ _ _ Hfl E).
  - split; [|done]. destruct Hs as (Hm & Ht & Hs). split; [done|]. split; [|done].
    rewrite <- Hi in Ht. by apply (init_step_idle _ _ _ _ _ E).
  - by split; [apply (worker_step_inv _ _ _ _ _ E)|].
Qed.

Lemma reachable_inv s s' :
  rtc step s s' → sys_inv s →
  sys_inv s' ∧ sv_memtables (sy_main s') = sv_memtables (sy_main s).
Proof.
  induction 1 as [s|s1 s2 s3 Hstep _ IH]; intros Hs; [done|].
  destruct (step_inv _ _ Hstep Hs) as [H2 E2]. destruct (IH H2) as [H3 E3].
  split; [done|congruence].
Qed.

End system_proofs.

(** ** Examples *)

#[global] Instance net_index_config : IndexConfig net_config.
Proof. by split. Qed.

(** Two requests with null keys fill the batch at 2; the read batch is at 3.
    The only table has an empty wait queue. *)
Definition demo_sys : Sys (F := Filter) :=
  let n := demo_net [client 5; client 6] in
  let m := read_tag ++ replicate 11 0 in
  let table := new_SSTableInfo (new_WaitQueue true 0) [] [] [] [] [] [] 0 in
  let tree := MkTreeState
    [MkLevelInfo (MkGuard 1 false) [] (SparseIndex.MkSparseIndex []) [] [table]]
    (nt_heap n) 4 in
  MkSys (MkServer m [] (@new_SparseIndex net_config) tree 3 3 false []) (MkNetLoop n [] []) [] ∅.

Definition completions (ud : UserData) : list Cqe :=
  [MkCqe 14 ud false; MkCqe 0 (ud_batch 1) true].

(** The value of a computation, or [d]. *)
Definition value {A} (d : A) (m : exec A) : A := match m with Ret a => a | _ => d end.

Definition demo_round (s : Sys (F := Filter)) (ud : UserData) : Sys :=
  put_net (value (sy_net s)
    (net_round (cfg := net_config) demo_junk no_memory 8 (net_view s) (completions ud))) s.

(** A message finds the batch full, the batch is submitted, processed and
    answered; then table 0 has a turn, before which its worker finds a
    completion for it. *)
Definition demo_sys1 := demo_round demo_sys (ud_conn 0).
Definition demo_sys2 := demo_round demo_sys1 (ud_conn 0).
Definition demo_main_env : Environment := MkEnvironment 1 [] (replicate 10 false) [] [] [].
Definition demo_sys3 : Sys (F := Filter) :=
  put_main (value (sy_main demo_sys2) (process_batch (cfg := net_config) demo_junk no_memory
              demo_main_env 2 (sy_main demo_sys2))) demo_sys2.
Definition demo_sys4 := demo_round demo_sys3 (ud_batch 2).
Definition demo_turn_env : WorkerEnv := MkWorkerEnv 1 [] false [] [] ∅ 8 9.
Definition demo_sys5 : Sys (F := Filter) :=
  put_worker (value (worker_view 0 demo_sys4) (worker_step (cfg := net_config) demo_junk
    no_memory demo_turn_env (worker_view 0 demo_sys4) (0, Some (0, [])))) demo_sys4.

Lemma demo_sys_inv : sys_inv (cfg := net_config) demo_sys.
Proof.
  split_and!; try done.
  - apply new_server_inv; [|done]. repeat (constructor; [lia|]). constructor.
  - by repeat constructor.
  - intros p Hp. apply elem_of_elements in Hp. vm_compute in Hp.
    repeat (apply elem_of_cons in Hp as [->|Hp]; [done|]). by apply not_elem_of_nil in Hp.
Qed.

Lemma demo_run : rtc (sys_step (cfg := net_config) demo_junk no_memory 8) demo_sys demo_sys5.
Proof.
  apply rtc_l with demo_sys1; [apply (step_net _ _ _ demo_sys (completions (ud_conn 0)))|];
    [by vm_compute..|].
  apply rtc_l with demo_sys2; [apply (step_net _ _ _ demo_sys1 (completions (ud_conn 0)))|];
    [by vm_compute..|].
  apply rtc_l with demo_sys3; [apply (step_main _ _ _ demo_sys2 demo_main_env 2)|];
    [by vm_compute..|].
  apply rtc_l with demo_sys4; [apply (step_net _ _ _ demo_sys3 (completions (ud_batch 2)))|];
    [by vm_compute..|].
  apply rtc_once, (step_worker _ _ _ demo_sys4 demo_turn_env 0 (0, Some (0, []))); by vm_compute.
Qed.

(** The run keeps the invariant; the completion only marks the table as
    written. *)
Example demo_run_stores_nothing :
  sy_sqes demo_sys5 = [] ∧ every_table idle (level_infos (sv_tree (sy_main demo_sys5))).
Proof.
  destruct (reachable_inv demo_junk no_memory 8 _ _ demo_run demo_sys_inv) as [(_ & Ht & _ & Hq & _) _].
  by split.
Qed.
