(* ===== verification/Routines.v ===== *)
(** * The thread functions as a whole

    Set-up and loop of [LSMTree::start_ringdb] (the main thread),
    [LSMTree::sstable_worker_thread] and [LSMTree::network_thread_routine]
    ([lsm_tree.hpp]) put together, and the server they make up from
    [LSMTree::initialize] on. *)

From S2P Require Import Prelude Config Requests SparseIndex MemTable Guards BufferQueue.
From S2P Require Import CacheHelper WaitQueue Filter RequestBatch LevelInfo Init Distribute.
From S2P Require Import Server Descent Worker WorkerInit Network StartUp Threads.

Section routines.
Context {cfg : Config} {F : Type} `{FilterLike F}.
Context (setup : io_uring_params → option Z).
Context (junk : ConnectionRequest) (memory : Z → Content) (sq_entries : Z).

(** ** The main thread *)

(** The state of [start_ringdb] when it enters its loop; the batches it
    allocates are at [next] and the address after it. *)
Definition enter_main_loop (t : Tree F) (mem : bytes) (heap : gmap Z RequestBatch) (next : Z)
    : Server (F := F) :=
  MkServer mem (tr_memtables t) new_SparseIndex
    (MkTreeState (tr_level_infos t)
       (<[next + 1 := new_RequestBatch COMPACTION (memory (next + 1))]>
          (<[next := new_RequestBatch READ (memory next)]> heap)) (next + 2))
    next (next + 1) (tr_is_practically_full t) [].

(** [start_ringdb], run for the batches of [messages]. *)
Definition start_ringdb (t : Tree F) (mem : bytes) (heap : gmap Z RequestBatch) (next : Z)
    (messages : list (Environment * Z)) : exec (Server (F := F)) :=
  process_batches junk memory messages (enter_main_loop t mem heap next).

(** ** A worker *)

(** One pass over the tables: what the environment decides and what is found
    on the scheduler ring before each table. *)
Definition worker_round : Type := WorkerEnv * (Z → option (Z * list (Z * Z))).

(** The messages of a worker go to the ring whose descriptor it was sent. *)
Definition with_network (fd : Z) (env : WorkerEnv) : WorkerEnv :=
  MkWorkerEnv (we_fuel env) (we_attempts env) (we_spurious env) (we_flags env) (we_cells env)
    (we_pages env) (we_scheduler env) fd.

(** What the second loop finds before its first table is the completion that
    ended the wait for the descriptor: the descriptor is taken for the number
    of a table, whose ring holds [chunks]. *)
Definition unseen (first user_data : Z) (chunks : list (Z * Z)) (rounds : list worker_round)
    : list worker_round :=
  match rounds with
  | [] => []
  | (env, found) :: rest =>
      (env, λ i, if i =? first then Some (u32 user_data, chunks) else found i) :: rest
  end.

(** [sstable_worker_thread]: [passes] is what its first loop finds, [found]
    what it finds while it waits for the descriptor of the network ring. *)
Definition sstable_worker_thread (ring : pointer) (worker_thread_num area ring_fd : Z)
    (passes : list (Z → option (Z * InitCompletion))) (found : list (option Z))
    (chunks : list (Z * Z)) (rounds : list worker_round) (s : InitState (F := F)) (mem : bytes)
    (heap : gmap Z RequestBatch) (next : Z) (full : bool) : exec (Worker (F := F)) :=
  let first := first_sstable_num worker_thread_num in
  _ ← worker_set_up setup ring worker_thread_num;
  s1 ← init_loop area ring_fd first passes s;
  '(network_ringfd, user_data) ← wait_network_ring found;
  foldM (λ w r, worker_pass junk memory (with_network network_ringfd r.1) worker_thread_num r.2 w)
    (unseen first user_data chunks rounds)
    (MkWorker (MkIoState (MkTreeState (in_levels s1) heap next) mem [] ∅) full 0).

(** ** The network thread *)

(** The mapping for the socket buffers; it is zero. *)
Definition socket_buffers_size : Z :=
  Z.lcm SOCKET_BUFFER_LENGTH ALIGN_NO_FALSE_SHARING * MAX_SIMULTANEOUS_CONNECTIONS.

(** The state in which [network_thread_routine] enters its loop.  [accept_batch]
    is a local variable, to which the model gives the address [next]. *)
Definition enter_network_loop (mem : bytes) (heap : gmap Z RequestBatch) (next : Z) : Net :=
  MkNet (new_ConnectionPool junk MAX_SIMULTANEOUS_CONNECTIONS 0) mem
    (<[next + 1 := new_RequestBatch READ (memory (next + 1))]>
       (<[next := new_RequestBatch ACCEPT (memory next)]> heap))
    (next + 2) next (next + 1) [] None.

(** The accept request is prepared, and one message to each worker, each of
    which is submitted at once. *)
Definition message_worker (ring_fd : Z) (l : NetLoop) (fd : option Z) : exec NetLoop :=
  let s := next_sqe sq_entries (nl_net l) in
  s1 ← prepare (nt_sqe s) (sqe_to_ring fd ring_fd) s;
  Ret (MkNetLoop (set_slots [] None s1) (nl_cq l) (nl_submitted l ++ nt_slots s1)).

Definition first_requests (ring_fd : Z) (destinations : list (option Z)) (s : Net)
    : exec NetLoop :=
  let s1 := next_sqe sq_entries s in
  s2 ← prepare (nt_sqe s1) (sqe_accept (ud_batch (nt_accept s1))) s1;
  foldM (message_worker ring_fd) destinations (MkNetLoop s2 [] []).

(** [network_thread_routine], run for the completions of [rounds]. *)
Definition network_thread_routine (main_ring network_ring : pointer)
    (main_ring_fd ring_fd server_sock_fd : Z) (fds : list (option Z)) (mem : bytes)
    (heap : gmap Z RequestBatch) (next : Z) (rounds : list (list Cqe))
    : exec (NetworkStart * NetLoop) :=
  ns ← network_set_up setup main_ring network_ring main_ring_fd ring_fd server_sock_fd fds;
  l ← first_requests (ns_network_ring_fd ns) (ns_destinations ns)
        (enter_network_loop mem heap next);
  l' ← foldM (net_round junk memory sq_entries) rounds l;
  Ret (ns, l').

(** ** The server *)

(** The system when [initialize] has ended in [st]; what the network thread
    has submitted by then is [submitted].  The workers may still be in their
    first loops. *)
Definition enter_loops (st : Started F) (submitted : list (option NetSqe)) : Sys (F := F) :=
  let m := enter_main_loop (st_tree st) (zeros socket_buffers_size) ∅ 1 in
  let n := enter_network_loop (sv_mem m) (batches_heap (sv_tree m)) (next_batch (sv_tree m)) in
  let l := MkNetLoop n [] submitted in
  put_net l (MkSys m l [] ∅).

End routines.

(** ** From the start of the program on *)

Section running.
Context {cfg : Config} {ic : IndexConfig cfg} {F : Type} `{FilterLike F}.
Context (setup : io_uring_params → option Z).
Context (junk : ConnectionRequest) (memory : Z → Content) (sq_entries : Z).
Context (Hper : WORKER_SSTABLE_BATCH_SIZE / LEVEL_FACTOR ≠ 0) (HN : 2 ≤ NUM_SSTABLE_LEVELS).

(** The levels [new LevelInfo[...]] constructs.  The pointer [req_batch] of a
    table is not initialised; that no batch is where it points is all that is
    assumed of it. *)
Definition constructed (levels : list (LevelInfo F)) : Prop :=
  lenZ levels = NUM_SSTABLE_LEVELS ∧ Forall level_shape levels ∧
  every_table (λ t, ∃ single garbage buffers kmin kmax locations ids rows batch,
    t = new_SSTableInfo (new_WaitQueue single garbage) buffers kmin kmax locations ids rows batch ∧
    batch ≤ 0) levels.

Lemma every_table_impl (P Q : SSTableInfo → Prop) (levels : list (LevelInfo F)) :
  (∀ t, P t → Q t) → every_table P levels → every_table Q levels.
Proof.
  intros HPQ Hall. eapply Forall_impl; [exact Hall|]. intros lv Hlv.
  eapply Forall_impl; [exact Hlv|exact HPQ].
Qed.

Lemma enter_loops_inv (st : Started F) submitted :
  every_table idle (tr_level_infos (st_tree st)) → lenZ (tr_memtables (st_tree st)) < u32_max →
  sys_inv (enter_loops junk memory st submitted).
Proof.
  intros Ht Hm. split; [apply new_server_inv; [apply valid_bytes_zeros|done]|].
  split; [done|]. split; [|done]. split; [|done]. intros p Hp. cbn in Hp.
  rewrite !dom_insert, dom_empty, !elem_of_union, !elem_of_singleton, elem_of_empty in Hp. lia.
Qed.

(** C4: From the moment [initialize] enters the loop of the main thread, with
    workers still in their first loops or not: however the threads take turns,
    whatever the files hold and whatever is found on the rings, whatever the
    clients send, as long as the behaviour is defined all memtables stay empty,
    the sparse index of level zero never learns an upper bound, no batch
    reaches a wait queue and no worker prepares a request in its second loop:
    after the reads of the first loops no file is read or written. *)
Theorem server_stores_nothing (dir_fd : Z) (levels : list (LevelInfo F)) (observed : list Z)
    (t : Tree F) (st : Started F) submitted (s : Sys (F := F)) :
  constructed levels → initialize setup dir_fd levels observed t = Ret st →
  rtc (sys_step junk memory sq_entries) (enter_loops junk memory st submitted) s →
  sv_memtables (sy_main s) = replicate (Z.to_nat LEVEL_FACTOR) new_MemTable ∧
  no_upper_bounds (index (sv_index (sy_main s))) ∧
  every_table idle (level_infos (sv_tree (sy_main s))) ∧
  sy_sqes s = [] ∧ sy_prepared s = ∅.
Proof.
  intros (Hlen & Hshape & Hnew) E Hrun. unfold initialize in E.
  rewrite initialize_guards_ok in E by (done || apply ic_level). cbn [mbind exec_bind] in E.
  apply bind_Ret_inv in E as (fd & _ & E). apply bind_Ret_inv in E as ([] & _ & [= <-]).
  eapply reachable_inv in Hrun as [(Hm & Ht & _ & Hq) Hmt].
  - rewrite Hmt. split_and!; [done|apply Hm|done|apply Hq..].
  - apply enter_loops_inv.
    + apply flagged_idle. eapply every_table_impl; [|exact Hnew].
      by intros ? (? & ? & ? & ? & ? & ? & ? & ? & ? & -> & ?).
    + cbn. unfold lenZ. rewrite length_replicate.
      pose proof ic_key. pose proof ic_fits. unfold u32_max. nia.
Qed.

(** A pass starts with the worker's first table. *)
Lemma worker_pass_first env n found (w : Worker (F := F)) :
  0 < WORKER_SSTABLE_BATCH_SIZE →
  worker_pass junk memory env n found w =
    (w1 ← worker_step junk memory env w (first_sstable_num n, found (first_sstable_num n));
     foldM (λ w i, worker_step junk memory env w (i, found i))
       (seqZ (first_sstable_num n + 1) (WORKER_SSTABLE_BATCH_SIZE - 1)) w1).
Proof.
  intros HB. unfold worker_pass. fold (first_sstable_num n). rewrite seqZ_cons by done.
  by rewrite Z.add_1_r, Z.sub_1_r.
Qed.

(** C21: The completion that carries the descriptor of the network ring is never
    marked as seen: a worker that enters its second loop takes the descriptor
    for the number of a table.  When there is no such table it follows a
    pointer outside the levels; otherwise, with nothing on that table's ring,
    it marks the table as written before it comes to its own first table. *)
Theorem descriptor_taken_for_table ring n area ring_fd passes found chunks env finds rounds
    (i i' : InitState (F := F)) mem heap next full x fd ud :
  worker_set_up setup ring n = Ret x →
  init_loop area ring_fd (first_sstable_num n) passes i = Ret i' →
  wait_network_ring found = Ret (fd, ud) → 0 < WORKER_SSTABLE_BATCH_SIZE → 0 < LEVEL_FACTOR →
  let run := sstable_worker_thread setup junk memory ring n area ring_fd passes found chunks
               ((env, finds) :: rounds) i mem heap next full in
  let level := u32 ud / LEVEL_FACTOR in
  let index := u32 ud - level * LEVEL_FACTOR in
  (lenZ (in_levels i') ≤ level → run = Undef OutOfBounds) ∧
  (∀ t, get_table (in_levels i') level index = Ret t → chunks = [] →
   ∃ levels, get_table levels level index = Ret (set_flushed t) ∧
     run = (w1 ← worker_turn junk memory (with_network fd env)
                   (MkWorker (MkIoState (MkTreeState levels heap next) mem [] ∅)
                      (level =? NUM_SSTABLE_LEVELS - 1) 0) (first_sstable_num n);
            w2 ← foldM (λ w i, worker_step junk memory (with_network fd env) w (i, finds i))
                   (seqZ (first_sstable_num n + 1) (WORKER_SSTABLE_BATCH_SIZE - 1)) w1;
            foldM (λ w r, worker_pass junk memory (with_network fd r.1) n r.2 w) rounds w2)).
Proof.
  intros Hx Hi Hw HB HL run level index. set (first := first_sstable_num n) in *.
  set (env' := with_network fd env). set (w0 := MkWorker (MkIoState (MkTreeState (in_levels i') heap next) mem [] ∅) full 0).
  assert (Hrun : run =
    (w1 ← worker_step junk memory env' w0 (first, Some (u32 ud, chunks));
     w2 ← foldM (λ w i, worker_step junk memory env' w (i, finds i))
            (seqZ (first + 1) (WORKER_SSTABLE_BATCH_SIZE - 1)) w1;
     foldM (λ w r, worker_pass junk memory (with_network fd r.1) n r.2 w) rounds w2)).
  { unfold run, sstable_worker_thread. fold first. rewrite Hx. cbn [mbind exec_bind].
    rewrite Hi. cbn [mbind exec_bind]. rewrite Hw. cbn [mbind exec_bind unseen foldM fst snd].
    rewrite worker_pass_first by done. fold first env' w0. rewrite Z.eqb_refl.
    destruct (worker_step _ _ _ _ _) as [w1| |]; [|done..]. cbn [mbind exec_bind].
    erewrite (foldM_ext_in _ _ (seqZ _ _)); [done|]. cbn. intros w j Hj%elem_of_seqZ.
    by rewrite (proj2 (Z.eqb_neq j first)) by lia. }
  change (worker_step junk memory env' w0 (first, Some (u32 ud, chunks))) with
    (w1 ← worker_completion junk memory env' w0 (u32 ud) chunks;
     worker_turn junk memory env' w1 first) in Hrun.
  unfold worker_completion in Hrun. fold level index in Hrun.
  change (wk_levels w0) with (in_levels i') in Hrun. rewrite Hrun. split.
  - intros Hlev. unfold get_table. by rewrite getZ_out by lia.
  - intros t Ht ->. rewrite Ht. cbn [mbind exec_bind].
    destruct (put_table_ok w0 level index t (set_flushed t) Ht) as (levels & -> & Hg & _).
    cbn [mbind exec_bind]. by exists levels.
Qed.

(** The pointers of the source lead no thread into its loop: the ring of the
    main thread is null, those of the others are never assigned. *)
Theorem no_thread_enters_its_loop dir_fd levels observed n area ring_fd passes found chunks rounds
    (i : InitState (F := F)) mem heap next full ring main_ring_fd server_sock_fd fds arrived :
  constructed levels →
  initialize setup dir_fd levels observed (new_RingDB (F := F)) = Undef NullDeref ∧
  sstable_worker_thread setup junk memory PIndet n area ring_fd passes found chunks rounds i mem
    heap next full = Undef (if NUM_PROCESSORS - 3 =? 0 then DivideByZero else UninitPtr) ∧
  network_thread_routine setup junk memory sq_entries (PTo ring) PIndet main_ring_fd ring_fd
    server_sock_fd fds mem heap next arrived = Undef UninitPtr.
Proof.
  intros (Hlen & Hshape & _). split_and!; [| |done].
  - unfold initialize. by rewrite initialize_guards_ok by (done || apply ic_level).
  - unfold sstable_worker_thread, worker_set_up, worker_cpu. by destruct (_ =? 0).
Qed.

End running.

(** ** Clients that connect *)

Section clients.
Context {cfg : Config}.
Context (setup : io_uring_params → option Z).
Context (junk : ConnectionRequest) (memory : Z → Content) (sq_entries : Z).
Context (Hsq : 1 < sq_entries) (Hbatch : 0 < BATCH_NUM_REQUESTS).
Implicit Types (s : Net) (l : NetLoop).

(** A round's worth of accepted descriptors, the last one apart. *)
Definition full_round (n : Z) (r : list Z * Z) : Prop :=
  lenZ (r.1 ++ [r.2]) = BATCH_NUM_REQUESTS ∧ Forall (λ f, 1 ≤ f ≤ n) (r.1 ++ [r.2]).

Lemma accept_round s0 l r seen :
  same_server s0 (nl_net l) → nl_cq l = [] → Forall (registered (nl_net l)) seen →
  full_round (lenZ (connections (nt_connections s0))) r →
  ∃ l', net_round junk memory sq_entries l (accepted s0 <$> r.1 ++ [r.2]) = Ret l' ∧
    same_server s0 (nl_net l') ∧ nl_cq l' = [] ∧
    Forall (registered (nl_net l')) (seen ++ r.1 ++ [r.2]) ∧
    nl_submitted l' = nl_submitted l ++ nt_slots (nl_net l) ∧
    nt_slots (nl_net l') = [Some (recv_for s0 r.2)].
Proof.
  intros Hsame Hcq Hseen [Hlen Hall]. unfold net_round. rewrite Hcq. cbn [app].
  assert (Hl : lenZ (accepted s0 <$> r.1 ++ [r.2]) = BATCH_NUM_REQUESTS)
    by (unfold lenZ in *; by rewrite length_fmap).
  rewrite Hl, Z.ltb_irrefl.
  assert (Hnext : next_sqe sq_entries (set_slots [] None (nl_net l)) =
                  set_slots [None] (Some 0%nat) (nl_net l)).
  { unfold next_sqe, get_sqe. cbn [set_slots nt_slots]. change (lenZ []) with 0.
    by rewrite (proj2 (Z.ltb_lt _ _)) by lia. }
  rewrite Hnext.
  destruct (accept_all junk memory sq_entries s0 (r.1 ++ [r.2]) seen
              (set_slots [None] (Some 0%nat) (nl_net l)) [] None)
    as (s' & -> & Hsame' & [Hsl _] & Hreg); [done|by split|done|done|].
  cbn [mbind exec_bind]. eexists. split; [done|]. cbn. rewrite last_snoc in Hsl.
  split_and!; [done| |done|done|done].
  apply drop_ge. unfold lenZ in Hl. lia.
Qed.

Lemma accept_rounds s0 rounds l seen :
  same_server s0 (nl_net l) → nl_cq l = [] → Forall (registered (nl_net l)) seen →
  Forall (full_round (lenZ (connections (nt_connections s0)))) rounds →
  ∃ l', foldM (net_round junk memory sq_entries)
          ((λ r, accepted s0 <$> r.1 ++ [r.2]) <$> rounds) l = Ret l' ∧
    same_server s0 (nl_net l') ∧ nl_cq l' = [] ∧
    Forall (registered (nl_net l')) (seen ++ mjoin ((λ r, r.1 ++ [r.2]) <$> rounds)) ∧
    nl_submitted l' ++ nt_slots (nl_net l') =
      nl_submitted l ++ nt_slots (nl_net l) ++ ((λ r, Some (recv_for s0 r.2)) <$> rounds).
Proof.
  revert l seen. induction rounds as [|r rounds IH]; intros l seen Hsame Hcq Hseen Hall.
  { exists l. cbn. by rewrite !app_nil_r. }
  apply Forall_cons in Hall as [Hr Hall]. cbn [fmap list_fmap foldM].
  destruct (accept_round s0 l r seen) as (l1 & -> & Hs1 & Hc1 & Hr1 & Hsub1 & Hsl1); [done..|].
  cbn [mbind exec_bind].
  destruct (IH l1 (seen ++ r.1 ++ [r.2])) as (l' & E & Hs' & Hc' & Hreg & Hsub); [done..|].
  exists l'. split; [exact E|]. cbn [mjoin list_join]. rewrite <- !app_assoc in Hreg.
  rewrite <- !app_assoc. split_and!; [done|done|exact Hreg|].
  rewrite Hsub, Hsub1, Hsl1. cbn. by rewrite <- !app_assoc.
Qed.

(** The message with the ring's descriptor to the ring [fd]. *)
Definition fd_message (ring_fd : Z) (fd : option Z) : option NetSqe := Some (sqe_to_ring fd ring_fd).

Lemma message_worker_ok ring_fd slots j s cq sub fd :
  lenZ slots < sq_entries →
  message_worker sq_entries ring_fd (MkNetLoop (set_slots slots j s) cq sub) fd =
    Ret (MkNetLoop (set_slots [] None s) cq (sub ++ slots ++ [fd_message ring_fd fd])).
Proof.
  intros Hroom. unfold message_worker, next_sqe, get_sqe. cbn [nl_net nt_slots set_slots].
  rewrite (proj2 (Z.ltb_lt _ _) Hroom). cbn. by rewrite insert_middle.
Qed.

Lemma message_workers_ok ring_fd ds slots j s sub :
  lenZ slots < sq_entries → ds ≠ [] →
  foldM (message_worker sq_entries ring_fd) ds (MkNetLoop (set_slots slots j s) [] sub) =
    Ret (MkNetLoop (set_slots [] None s) [] (sub ++ slots ++ (fd_message ring_fd <$> ds))).
Proof.
  revert slots j sub. induction ds as [|d ds IH]; intros slots j sub Hroom Hne; [done|].
  cbn [foldM]. rewrite message_worker_ok by done. cbn [mbind exec_bind].
  destruct ds as [|d' ds]; [done|]. rewrite IH by (done || (change (lenZ []) with 0; lia)).
  cbn [app fmap list_fmap]. by rewrite <- !app_assoc.
Qed.

Lemma first_requests_ok ring_fd ds s :
  nt_slots s = [] → ds ≠ [] →
  first_requests sq_entries ring_fd ds s =
    Ret (MkNetLoop (set_slots [] None s) []
           (Some (sqe_accept (ud_batch (nt_accept s))) :: (fd_message ring_fd <$> ds))).
Proof.
  intros Hs Hne. unfold first_requests, next_sqe, get_sqe. rewrite Hs.
  assert (H0 : (lenZ (@nil (option NetSqe)) <? sq_entries) = true)
    by (change (lenZ []) with 0; apply Z.ltb_lt; lia).
  rewrite H0. cbn [length set_slots nt_sqe prepare mbind exec_bind].
  refine (message_workers_ok ring_fd ds [Some (sqe_accept (ud_batch (nt_accept s)))]
            (Some 0%nat) s [] _ Hne).
  by change (lenZ _) with 1.
Qed.

(** There is a message to every worker. *)
Lemma destinations_nonempty main_ring network_ring main_ring_fd ring_fd sock fds ns :
  network_set_up setup main_ring network_ring main_ring_fd ring_fd sock fds = Ret ns →
  0 < NUM_SSTABLE_WORKER_THREADS → ns_destinations ns ≠ [].
Proof.
  unfold network_set_up. intros E HW. apply bind_Ret_inv in E as (? & _ & E).
  apply bind_Ret_inv in E as (? & _ & E). apply bind_Ret_inv in E as (fds1 & _ & E).
  apply bind_Ret_inv in E as (? & _ & E). apply bind_Ret_inv in E as (dest & E & [= <-]).
  rewrite seqZ_cons in E by lia. cbn [foldM] in E. apply bind_Ret_inv in E as (l1 & E1 & E).
  apply bind_Ret_inv in E1 as (fd & _ & [= <-]).
  apply (foldM_inv (λ fds, fds ≠ [])) in E; [exact E| |done].
  intros fds' i fds2 Hl (fd' & _ & [= <-])%bind_Ret_inv. by destruct fds'.
Qed.

(** C14: Of the clients that connect, the network thread listens to one per
    round: run from its start on the completions of its accept request, full
    rounds of them, [network_thread_routine] registers every connection, but
    all it has submitted in the end are the accept request, the messages with
    its ring's descriptor to the workers and, for each round but the last, the
    receive request of the round's last connection; that of the last round is
    prepared. *)
Theorem one_client_heard_per_round main_ring network_ring main_ring_fd ring_fd server_sock_fd
    fds mem heap next rounds r ns :
  next ≠ 0 → 0 < NUM_SSTABLE_WORKER_THREADS →
  network_set_up setup main_ring network_ring main_ring_fd ring_fd server_sock_fd fds = Ret ns →
  Forall (full_round MAX_SIMULTANEOUS_CONNECTIONS) (rounds ++ [r]) →
  let s0 := enter_network_loop junk memory mem heap next in
  ∃ l, network_thread_routine setup junk memory sq_entries main_ring network_ring main_ring_fd
         ring_fd server_sock_fd fds mem heap next
         ((λ r, accepted s0 <$> r.1 ++ [r.2]) <$> rounds ++ [r]) = Ret (ns, l) ∧
    Forall (registered (nl_net l)) (mjoin ((λ r, r.1 ++ [r.2]) <$> rounds ++ [r])) ∧
    nl_submitted l =
      Some (sqe_accept (ud_batch next)) ::
        (fd_message (ns_network_ring_fd ns) <$> ns_destinations ns) ++
        ((λ r, Some (recv_for s0 r.2)) <$> rounds) ∧
    nt_slots (nl_net l) = [Some (recv_for s0 r.2)].
Proof.
  intros Hnext HW Hns Hall s0. unfold network_thread_routine. rewrite Hns.
  cbn [mbind exec_bind]. fold s0.
  rewrite first_requests_ok by (done || by eapply destinations_nonempty). cbn [mbind exec_bind].
  change (set_slots [] None s0) with s0. apply Forall_app in Hall as [Hall Hlast].
  rewrite Forall_singleton in Hlast.
  assert (HM : lenZ (connections (nt_connections s0)) = MAX_SIMULTANEOUS_CONNECTIONS).
  { cbn. unfold lenZ. rewrite length_replicate. destruct Hlast as [_ Hr].
    apply Forall_app in Hr as [_ Hr]. rewrite Forall_singleton in Hr. lia. }
  assert (Hs0 : same_server s0 s0).
  { split_and!; try done. split; [done|]. exists (new_RequestBatch ACCEPT (memory next)).
    split; [|done]. unfold s0. cbn. rewrite lookup_insert_ne by lia. by rewrite lookup_insert_eq. }
  set (l0 := MkNetLoop s0 [] _). rewrite fmap_app, foldM_app. cbn [fmap list_fmap].
  destruct (accept_rounds s0 rounds l0 []) as (l1 & -> & Hs1 & Hc1 & Hreg1 & Hsub1);
    [done|done|done|by rewrite HM|]. cbn [mbind exec_bind foldM].
  destruct (accept_round s0 l1 r _ Hs1 Hc1 Hreg1) as (l & -> & _ & _ & Hreg & Hsub & Hsl);
    [by rewrite HM|]. cbn [mbind exec_bind]. exists l. split; [done|].
  rewrite fmap_app, join_app. split; [cbn; cbn in Hreg; by rewrite app_nil_r|].
  split; [|exact Hsl]. by rewrite Hsub, Hsub1.
Qed.

End clients.

(** ** Examples *)

#[global] Instance wide_index_config : IndexConfig wide_config.
Proof. by split. Qed.

(** Ten levels of three tables, as constructed. *)
Definition demo_table : SSTableInfo :=
  new_SSTableInfo (new_WaitQueue true 0) (replicate 40 0) [1] [2] [] [] [] 0.

Definition demo_levels : list (LevelInfo Filter) :=
  replicate 10 (MkLevelInfo (MkGuard 1 false) [] (SparseIndex.MkSparseIndex [])
    (replicate 3 (new_BufferQueue 0 [0] false)) (replicate 3 demo_table)).

Lemma demo_constructed : constructed (cfg := wide_config) demo_levels.
Proof.
  split; [done|]. split; [by apply Forall_replicate|]. apply Forall_replicate, Forall_replicate.
  by do 9 eexists.
Qed.

Definition demo_tree : Tree Filter := MkTree [] 0 [] 0 false [] (PTo 4096) 0.

Definition demo_started : Started Filter :=
  @started wide_config Filter (λ _, Some 5) 3 demo_levels demo_tree.

Lemma demo_initialized :
  initialize (cfg := wide_config) (λ _, Some 5) 3 demo_levels [40] demo_tree = Ret demo_started.
Proof.
  destruct demo_constructed as (Hlen & Hshape & _). unfold initialize.
  rewrite initialize_guards_ok by (done || exact Hlen || exact Hshape). cbn [mbind exec_bind].
  assert (E : @wait_all_read wide_config [40] = Ret tt) by (by vm_compute). by rewrite E.
Qed.

(** Table 0 is set up by its worker, still in its first loop; another worker
    then finds the message with the descriptor 1 and takes it for table 1. *)
Definition demo_before : InitState (F := Filter) :=
  MkInitState (tr_level_infos (st_tree demo_started)) ∅ [] 0 0 [].

Definition demo_after : InitState (F := Filter) :=
  value demo_before (init_step (cfg := wide_config) 1000 7 demo_before (0, None)).

Definition demo_entered_sys : Sys (F := Filter) :=
  enter_loops (cfg := wide_config) demo_junk no_memory demo_started [].

Definition demo_set_up_sys : Sys (F := Filter) :=
  put_levels (in_levels demo_after) demo_entered_sys.

Definition demo_turned_sys : Sys (F := Filter) :=
  put_worker (value (worker_view 0 demo_set_up_sys)
    (worker_step (cfg := wide_config) demo_junk no_memory demo_turn_env
       (worker_view 0 demo_set_up_sys) (3, Some (1, [])))) demo_set_up_sys.

Lemma server_stores_nothing_witness :
  sv_memtables (sy_main demo_turned_sys) = replicate 3 (@new_MemTable wide_config) ∧
  every_table idle (level_infos (sv_tree (sy_main demo_turned_sys))) ∧
  sy_sqes demo_turned_sys = [].
Proof.
  destruct (@server_stores_nothing wide_config _ Filter _ (λ _, Some 5) demo_junk no_memory 8
    ltac:(by vm_compute) ltac:(by vm_compute) 3 demo_levels [40] demo_tree demo_started []
    demo_turned_sys demo_constructed) as (Hm & _ & Ht & Hq & _);
    [exact demo_initialized| |split; [exact Hm|split; [exact Ht|exact Hq]]].
  apply rtc_l with demo_set_up_sys.
  - apply (step_start _ _ _ demo_entered_sys 1000 7 demo_before (0, None)); by vm_compute.
  - apply rtc_once, (step_worker _ _ _ demo_set_up_sys demo_turn_env 0 (3, Some (1, [])));
      by vm_compute.
Defined.

(** The first loop is over: it counts enough tables. *)
Definition demo_idle : InitState (F := Filter) := MkInitState demo_levels ∅ [] 0 100 [].

(** The descriptor 7 is table 1 of level 2, the descriptor 100 is none. *)
Lemma descriptor_taken_for_table_witness :
  let run ud := sstable_worker_thread (cfg := wide_config) (λ _, Some 5) demo_junk no_memory
    (PTo 4096) 0 1000 7 [] [None; Some ud] [] [(demo_turn_env, λ _, None)]
    demo_idle [] ∅ 1 false in
  run 100 = Undef OutOfBounds ∧
  ∃ levels rest, get_table levels 2 1 = Ret (set_flushed demo_table) ∧
    run 7 = (worker_turn (cfg := wide_config) demo_junk no_memory (with_network 7 demo_turn_env)
               (MkWorker (MkIoState (MkTreeState levels ∅ 1) [] [] ∅) false 0) 0 ≫= rest).
Proof.
  assert (Hi : init_loop (cfg := wide_config) 1000 7 0 [] demo_idle = Ret demo_idle)
    by (by vm_compute).
  intros run. split.
  - destruct (@descriptor_taken_for_table wide_config Filter _ (λ _, Some 5) demo_junk no_memory
      (PTo 4096) 0 1000 7 [] [None; Some 100] [] demo_turn_env (λ _, None) []
      demo_idle demo_idle [] ∅ 1 false (3, Some 5) 100 100) as [Hout _];
      [by vm_compute|exact Hi|by vm_compute..|]. apply Hout. by vm_compute.
  - destruct (@descriptor_taken_for_table wide_config Filter _ (λ _, Some 5) demo_junk no_memory
      (PTo 4096) 0 1000 7 [] [None; Some 7] [] demo_turn_env (λ _, None) []
      demo_idle demo_idle [] ∅ 1 false (3, Some 5) 7 7) as [_ Hs];
      [by vm_compute|exact Hi|by vm_compute..|].
    destruct (Hs demo_table) as (levels & Hg & E); [by vm_compute|done|].
    eexists levels, _. split; [exact Hg|exact E].
Defined.

(** Two rounds of two clients each: 2 and 4 are heard. *)
Lemma one_client_heard_per_round_witness :
  ∃ ns l, network_thread_routine (cfg := net_config) (λ _, Some 5) demo_junk no_memory 8
      (PTo 4096) (PTo 8192) 5 6 7 (replicate 801 None) [] ∅ 1
      [[MkCqe 1 (ud_batch 1) true; MkCqe 2 (ud_batch 1) true];
       [MkCqe 3 (ud_batch 1) true; MkCqe 4 (ud_batch 1) true]] = Ret (ns, l) ∧
    nl_submitted l = Some (sqe_accept (ud_batch 1)) ::
      replicate 200 (Some (sqe_to_ring None 6)) ++ [Some (sqe_recv 2 1 14 (ud_word RECV))] ∧
    nt_slots (nl_net l) = [Some (sqe_recv 4 3 14 (ud_word RECV))].
Proof.
  destruct (network_set_up (cfg := net_config) (λ _, Some 5) (PTo 4096) (PTo 8192) 5 6 7
              (replicate 801 None)) as [ns| |] eqn:E; [|vm_compute in E; discriminate E..].
  destruct (@one_client_heard_per_round net_config (λ _, Some 5) demo_junk no_memory 8
    ltac:(done) ltac:(by vm_compute) (PTo 4096) (PTo 8192) 5 6 7 (replicate 801 None) [] ∅ 1
    [([1], 2)] ([3], 4) ns) as (l & El & _ & Hsub & Hsl);
    [done|by vm_compute|exact E|by repeat constructor|].
  exists ns, l. split; [exact El|]. split; [|exact Hsl]. rewrite Hsub.
  vm_compute in E. injection E as <-. by vm_compute.
Defined.
